(* ===== verification/_CoqProject ===== *)
-Q . S2P
Prelude.v
Host.v
Ttl.v
Pause.v
Rbac.v
Frame.v
Safe.v
StreamData.v
StreamState.v
StreamMath.v
StreamOps.v
StreamAdmin.v
StreamFacts.v
StreamSpec.v
StreamRefine.v
StreamSystem.v
StreamOutside.v
StreamExample.v
StreamMoney.v
StreamProps.v
StreamAccrual.v
StreamSafety.v
Batch.v
BatchFacts.v
Workspace.v
Admins.v
GovernorData.v
GovernorStore.v
GovernorOps.v
GovernorSystem.v
GovernorRoles.v
GovernorConfig.v
GovernorProposals.v
GovernorVotes.v
GovernorExample.v
VaultData.v
VaultOps.v
VaultSystem.v
VaultFunds.v
VaultProps.v
VaultSafety.v
VaultExample.v
FactoryData.v
FactoryIndex.v
FactoryIndexFacts.v
FactoryOps.v
FactorySystem.v
FactoryRegistry.v
FactoryCreate.v
FactoryReach.v
FactoryOutside.v
FactoryProps.v
Protocol.v
FactoryExample.v
OracleData.v
OracleMedian.v
OracleOps.v
OracleSystem.v
OracleState.v
OracleKeep.v
OraclePrice.v
OracleSubmit.v
OracleRead.v
OracleAdmin.v
OracleReach.v
OracleProps.v
OracleFeeds.v
OracleOutside.v
OracleNet.v
OracleSafety.v
OraclePairs.v
OracleExample.v
OracleNetExample.v
Chain.v
ChainSound.v
ChainPay.v
ChainHalt.v
ChainRegistry.v
ChainFunds.v
ChainExample.v
