(* ===== verification/Prelude.v ===== *)
(** * StreamFi contracts: a verification library

    The repository is a payment-streaming protocol on Soroban (Rust): six
    contracts and a shared crate under [src/contracts/], and a root package with
    one source file of its own in [src/src/].  This library models all of them,
    every entry point that changes state, and proves what makes each one
    correct, alone and composed.

    ** The program and its model

    - [common] (TTL policy, emergency pause, roles): [Ttl.v], [Pause.v],
      [Rbac.v], written over abstract storage keys, as the crate is.
    - [stream] (DripStream, one instance per stream: accrual, withdrawal,
      cancellation, pause and resume, rate changes, clawback, delegation,
      keepers): data in [StreamData.v], record access and the re-entrancy guard
      in [StreamState.v], arithmetic in [StreamMath.v], entry points in
      [StreamOps.v] and [StreamAdmin.v].
    - [batch-processor] (one pull fanned out to many recipients): [Batch.v].
    - [governor] (DripGovernor: parameters, roles, staked proposals, voting
      weights): [GovernorData.v], [GovernorStore.v], [GovernorOps.v].
    - [token-vault] (TokenVault: custody with a limited operator, two-step
      ownership, time-locked migration): [VaultData.v], [VaultOps.v].
    - [factory] (DripFactory: creates streams under the governor's bounds, keeps
      the registry and its paged indices): [FactoryData.v], [FactoryIndex.v],
      [FactoryOps.v].
    - [oracle] (TwapOracle: feeder submissions, quorum, median and
      time-weighted average, external feeds, pair prices): [OracleData.v],
      [OracleMedian.v], [OracleOps.v].
    - the root package ([src/src/batch_transfer_processor.rs], a counter that no
      module declares): [Workspace.v].

    The factory calls the governor (its bounds and fee), the deployer and the
    streams; the vault calls streams; the governor calls the factory (pause
    passthrough); the oracle calls other oracles.  In each contract's own files
    these are parameters of the model.  [Protocol.v] instantiates the factory's
    network with the governor and the streams of this repository, on one ledger;
    [Chain.v] does so for every call between factories, governors, vaults and
    streams; [OracleNet.v] lets oracles be each other's feeds.

    ** How the code is read

    [Host.v] is the host: addresses, the environment of an invocation, typed
    instance, persistent and temporary storage (a key of a contract is a
    constructor of its [DataKey], with the type of what the code stores under
    it; legacy values of another type are constructors of a sum), events, TTL
    requests, the token client.  A contract function is a computation of the
    monad [M]: it returns a value, a Rust [Err] with the state it leaves, or
    traps.  [invoke] is the host's call: an error or a trap rolls everything
    back.  Integers are [Z] with the width in the operation: [checked_*],
    saturating, and the plain operators, which trap on overflow as the release
    profile does.  Loops over stored lists are structural; counting loops carry
    their exact number of iterations ([weigh], [insertion_sort], the pages of
    [FactoryIndex.v], the TTL walker), so no operation runs on fuel that could
    run out.  The one recursion between contracts, oracles that query each
    other, is nested as deep as there are oracles ([net_feeds]); the host refuses
    a call back into a running contract, so that depth is enough, and
    [feed_queries_terminate] says that a greater one changes nothing.

    Each contract's calls are an inductive type ([StreamSystem.call],
    [VaultSystem.vault_call], [GovernorSystem.call], [FactorySystem.fac_call],
    [OracleSystem.oracle_call]) interpreted by the entry points, [initialize]
    among them: a deployed contract refuses a second one with
    [AlreadyInitialized], and a theorem about any call covers the attempt.
    Reachable worlds start from a first successful [initialize].

    ** The proofs

    - [Frame.v]: what a computation leaves alone, as a type class closed under
      the monad, so that the frame of an entry point is found by resolution;
      invariants as the relation [stable].  [Admins.v]: rosters of
      administrators for any layout of the role keys, used by governor and
      oracle.
    - [Safe.v]: properties of the called contracts' state that every
      computation of an entry point keeps, again by resolution; and that a
      computation does not tell two models of the called contracts apart.
    - Stream: [StreamSpec.v] is an abstract state machine, [StreamRefine.v] the
      refinement of every call to it, [StreamSystem.v] the reachable worlds;
      [StreamMoney.v], [StreamAccrual.v], [StreamProps.v], [StreamSafety.v] the
      theorems: exact payments, the accrual against a reference function
      written apart from the code ([streamed_at]),
      pausing as a time shift, no overpayment, no overflow of bounded streams,
      authorisation.
    - Libraries and batches: [Rbac.v] refines an abstract roster, [Pause.v] the
      pause window and cooldown, [BatchFacts.v] exact payouts.
    - Governor: [GovernorSystem.v] (calls, reachable worlds), [GovernorRoles.v],
      [GovernorConfig.v], [GovernorProposals.v] (life cycle, stakes covered,
      exact index), [GovernorVotes.v].
    - Vault: [VaultSystem.v], [VaultFunds.v] (every outflow authorised),
      [VaultProps.v] (ownership, migration, renewal), [VaultSafety.v].
    - Factory: [FactoryIndexFacts.v] (the paged index is a list through any
      migration), [FactorySystem.v], [FactoryRegistry.v] and [FactoryReach.v]
      (the registry replays the event log), [FactoryCreate.v],
      [FactoryProps.v]; [Protocol.v] (the deployed streams are the ones the
      stream theorems are about).
    - Oracle: [OracleMedian.v] (sort, median, resistance to a minority),
      [OracleSystem.v], [OracleState.v], [OracleKeep.v], [OracleAdmin.v],
      [OracleReach.v] (the invariant and that every call keeps it),
      [OraclePrice.v] (the average against its reference), [OracleSubmit.v],
      [OracleRead.v], and the properties in [OracleProps.v], [OracleSafety.v],
      [OraclePairs.v].  [OracleFeeds.v] reads the price with any external feeds
      as a function ([twap_reading]: first offer, history, submissions) and
      proves the reads and the payouts equal to it.  [OracleOutside.v] is what an
      oracle can do to its feeds, [OracleNet.v] the oracles that feed each other:
      their queries end, and each is in a state reachable on its own
      ([oracles_compose]).
    - The root package: [Workspace.v] (the counter counts up to its width).
    - The chain: [StreamOutside.v], [VaultSystem.v], [GovernorSystem.v] and
      [FactoryOutside.v] say what a call of each contract can do to the state
      outside it.  [ChainSound.v] concludes that every contract of a reached
      chain is in a state reachable on its own ([contracts_compose]), so that
      the theorems above hold of it; [ChainPay.v] follows a vault's batch
      withdrawal into the streams it names, [ChainHalt.v] a governor's order
      into the factory that obeys it, [ChainRegistry.v] a factory's registry
      to the streams it lists, and [ChainFunds.v] shows that a governor's
      stakes and a vault's funds are safe from everybody else's calls.

    The [*Example.v] files evaluate the theorems on concrete worlds, and show by
    evaluation the behaviours the source does not mean.

    ** Assumptions

    Code outside the repository is a parameter with named laws: [TokenLaws] (a
    token transfer is authorised and moves exactly its amount) and [TokenLive]
    (a funded, authorised transfer goes through), satisfied by the reference
    ledger of [Host.v]; [FactoryLaws] and [StreamLaws] (the called contract
    takes nothing from the caller), satisfied in the examples and, on the
    chain, proved of the streams and the factories of this repository
    ([chain_stream_laws], [chain_factory_laws]); [NetworkLaws] and
    [ConfigLaws] (what the factory relies on when it calls), satisfied by
    [Protocol.v]; [FeedLaws] (an external feed answers 64-bit values),
    satisfied in [OracleExample.v] and proved of the oracles themselves
    ([net_feed_laws]; an answer of another width is refused when it is
    converted). Ledger time does not run back. The bound [llen + 201 <=
    u32_max] of the index theorems leaves room for the counters of one more
    append with its migration pages. The time-weighted price, its bound
    and the payouts are stated for any feeds, the agreement of the price
    status for an oracle without external feeds ([feedless]).
    On the chain nobody signs for a contract, the factory sees a governor as
    its invoker and no other signature, and between calls the token contracts
    do as they please except take from a governor (clawback by an issuer, for
    instance, may drain a stream); [underived] leaves out addresses a
    factory's deployer would derive, at which no other contract can be. Oracle
    and batch processor call no contract of the chain and are called by none;
    they are not part of it, and oracles have a net of their own.

    ** Not modelled

    Storage expiry: TTL requests are recorded, entries never lapse. The
    governor's [cast_vote] calls a function the source does not define (what
    an execution needs is stated for any votes recorded, [tallied]), and
    the stream's invoice and milestone functions use keys it does not declare.
    The bodies of tokens, deployers and contracts from elsewhere. Deployment
    of code ([upgrade] publishes, the code does not change); test modules; the
    oracle's [errors.rs], which no module uses. The TypeScript services, the
    database and the scripts around the contracts.
*)

From stdpp Require Import base numbers list option.
From Stdlib Require Import ZArith Lia.

#[local] Open Scope Z_scope.

Declare Scope sf_scope.
Delimit Scope sf_scope with sf.

(** ** Machine integers

    Rust integers are modelled by [Z]; the width appears in the range
    predicates below and in the checked, saturating and panicking operations
    that use them. *)

Definition u32_max : Z := 4294967295.
Definition u64_max : Z := 18446744073709551615.
Definition u128_max : Z := 340282366920938463463374607431768211455.
Definition i128_max : Z := 170141183460469231731687303715884105727.
Definition i128_min : Z := -170141183460469231731687303715884105728.
Definition u256_max : Z :=
  115792089237316195423570985008687907853269984665640564039457584007913129639935.

Definition in_range (lo hi z : Z) : bool := (lo <=? z) && (z <=? hi).
Definition in_u32 (z : Z) : bool := in_range 0 u32_max z.
Definition in_u64 (z : Z) : bool := in_range 0 u64_max z.
Definition in_u128 (z : Z) : bool := in_range 0 u128_max z.
Definition in_i128 (z : Z) : bool := in_range i128_min i128_max z.
Definition in_u256 (z : Z) : bool := in_range 0 u256_max z.

(** [checked_*]: [None] when the exact result does not fit the width. *)
Definition checked (fits : Z -> bool) (z : Z) : option Z :=
  if fits z then Some z else None.
Definition checked_u32 : Z -> option Z := checked in_u32.
Definition checked_u64 : Z -> option Z := checked in_u64.
Definition checked_u128 : Z -> option Z := checked in_u128.
Definition checked_i128 : Z -> option Z := checked in_i128.

(** [saturating_*]: the exact result clamped into the width. *)
Definition clamp (lo hi z : Z) : Z := Z.max lo (Z.min hi z).
Definition sat_u32 (z : Z) : Z := clamp 0 u32_max z.
Definition sat_u64 (z : Z) : Z := clamp 0 u64_max z.
Definition sat_i128 (z : Z) : Z := clamp i128_min i128_max z.

(** [u64::div_ceil] for a positive divisor. *)
Definition div_ceil (a b : Z) : Z := (a + b - 1) / b.

(** ** Propositional ranges *)

Definition U32 (z : Z) : Prop := 0 <= z <= u32_max.
Definition U64 (z : Z) : Prop := 0 <= z <= u64_max.
Definition I128 (z : Z) : Prop := i128_min <= z <= i128_max.

(** ** Tactics *)

(** [mlia]: [lia] after unfolding the widths. *)
Ltac munfold :=
  unfold checked_u32, checked_u64, checked_u128, checked_i128, checked,
    sat_u32, sat_u64, sat_i128, clamp,
    in_u32, in_u64, in_u128, in_i128, in_u256, in_range, U32, U64, I128,
    u32_max, u64_max, u128_max, i128_max, i128_min, u256_max in *.
Ltac mlia := munfold; lia.

(** Split every boolean conjunction, disjunction and comparison in the context
    into its propositional form. *)
Ltac breflect :=
  repeat match goal with
  | H : (_ && _)%bool = true |- _ => apply andb_true_iff in H as [? ?]
  | H : (_ && _)%bool = false |- _ => apply andb_false_iff in H
  | H : (_ || _)%bool = false |- _ => apply orb_false_iff in H as [? ?]
  | H : (_ || _)%bool = true |- _ => apply orb_true_iff in H
  | H : negb _ = true |- _ => apply negb_true_iff in H
  | H : negb _ = false |- _ => apply negb_false_iff in H
  | H : (_ <=? _)%Z = true |- _ => apply Z.leb_le in H
  | H : (_ <=? _)%Z = false |- _ => apply Z.leb_gt in H
  | H : (_ <? _)%Z = true |- _ => apply Z.ltb_lt in H
  | H : (_ <? _)%Z = false |- _ => apply Z.ltb_ge in H
  | H : (_ =? _)%Z = true |- _ => apply Z.eqb_eq in H
  | H : (_ =? _)%Z = false |- _ => apply Z.eqb_neq in H
  | H : bool_decide _ = true |- _ => apply bool_decide_eq_true in H
  | H : bool_decide _ = false |- _ => apply bool_decide_eq_false in H
  end.

(** Split conjunctions and existentials of the context. *)
Ltac splits :=
  repeat match goal with
  | H : _ /\ _ |- _ => destruct H as [? ?]
  | H : exists _, _ |- _ => destruct H as [? ?]
  end.

(** ** Lemmas on the operations *)

Lemma in_range_spec lo hi z : in_range lo hi z = true <-> lo <= z <= hi.
Proof. unfold in_range. rewrite andb_true_iff, !Z.leb_le. tauto. Qed.

Lemma checked_Some fits z r : checked fits z = Some r <-> fits z = true /\ r = z.
Proof. unfold checked. destruct (fits z); split; intros; naive_solver. Qed.

Lemma checked_None fits z : checked fits z = None <-> fits z = false.
Proof. unfold checked. destruct (fits z); split; intros; naive_solver. Qed.

Lemma checked_i128_Some z r : checked_i128 z = Some r <-> I128 z /\ r = z.
Proof. unfold checked_i128, in_i128. rewrite checked_Some, in_range_spec. reflexivity. Qed.

Lemma checked_u64_Some z r : checked_u64 z = Some r <-> U64 z /\ r = z.
Proof. unfold checked_u64, in_u64. rewrite checked_Some, in_range_spec. reflexivity. Qed.

Lemma checked_i128_in z : I128 z -> checked_i128 z = Some z.
Proof. intros. by apply checked_i128_Some. Qed.

Lemma checked_u64_in z : U64 z -> checked_u64 z = Some z.
Proof. intros. by apply checked_u64_Some. Qed.

Lemma checked_i128_None z : checked_i128 z = None <-> ~ I128 z.
Proof.
  unfold checked_i128. rewrite checked_None. unfold in_i128.
  rewrite <- not_true_iff_false, in_range_spec. reflexivity.
Qed.

Lemma sat_i128_in z : I128 z -> sat_i128 z = z.
Proof. mlia. Qed.

Lemma sat_u64_in z : U64 z -> sat_u64 z = z.
Proof. mlia. Qed.

(** ** Sums over a list of indices *)

Definition zsum {A} (f : A -> Z) (l : list A) : Z := foldr (fun i acc => f i + acc) 0 l.

Lemma zsum_ext {A} (f g : A -> Z) l : (forall i, i ∈ l -> f i = g i) -> zsum f l = zsum g l.
Proof.
  induction l as [|x l IH]; intros H; [done|].
  change (f x + zsum f l = g x + zsum g l). rewrite (H x), IH; [done| |by left].
  intros i Hi. apply H. by right.
Qed.

Lemma zsum_app {A} (f : A -> Z) l l' : zsum f (l ++ l') = zsum f l + zsum f l'.
Proof.
  induction l as [|x l IH]; [done|].
  change (f x + zsum f (l ++ l') = f x + zsum f l + zsum f l'). lia.
Qed.

(** Changing a sum at one index. *)
Lemma zsum_update {A} (f g : A -> Z) l i :
  NoDup l -> i ∈ l -> (forall j, j <> i -> f j = g j) -> zsum f l = zsum g l - g i + f i.
Proof.
  intros Hnd Hi H. induction Hnd as [|x l Hx Hnd IH]; [by apply elem_of_nil in Hi|].
  change (f x + zsum f l = g x + zsum g l - g i + f i). apply elem_of_cons in Hi as [->|Hi].
  - rewrite (zsum_ext f g); [lia|]. intros j Hj. apply H. by intros ->.
  - rewrite (IH Hi), (H x); [lia|]. by intros ->.
Qed.

(** [breflect] also turns successful checked operations into range facts. *)
Ltac checked_inv :=
  repeat match goal with
  | H : checked_i128 _ = Some _ |- _ => apply checked_i128_Some in H as [? ->]
  | H : checked_u64 _ = Some _ |- _ => apply checked_u64_Some in H as [? ->]
  | H : checked_i128 _ = None |- _ => apply checked_i128_None in H
  end.

Create Rewrite HintDb sf.
#[export] Hint Rewrite sat_i128_in sat_u64_in checked_i128_in checked_u64_in
  using mlia : sf.
