(* ===== verification/Host.v ===== *)
(** * The contract host

    What the contracts see of the Soroban host: addresses, the ledger
    environment of an invocation, instance storage, authorisation, events,
    instance-TTL extension requests and the SEP-41 token client.

    Instance storage is a typed dictionary: the keys of a contract are the
    constructors of its [DataKey] and every key has the type of the values the
    contract stores under it.  The token contracts are code that is not part
    of this repository: they are the parameter [TokenClient], and what the
    contracts rely on is the class [TokenLaws].  A contract function is a
    computation of the monad [M] below, whose outcome is a value, a Rust [Err]
    or a trap. *)

From stdpp Require Import base numbers list option gmap.
From Stdlib Require Import ZArith Lia Eqdep_dec.
From S2P Require Import Prelude.

#[local] Open Scope Z_scope.

(** ** Addresses

    An [Address] wraps an account (an Ed25519 public key) or a contract (a
    32-byte id), both read as a number here. *)

Inductive Address : Type :=
| Account (key : N)
| Contract (id : N).

#[export] Instance Address_eq_dec : EqDecision Address.
Proof. solve_decision. Defined.

#[export] Instance Address_countable : Countable Address.
Proof.
  refine (inj_countable'
    (fun a => match a with Account k => inl k | Contract k => inr k end)
    (fun s => match s with inl k => Account k | inr k => Contract k end) _).
  by intros [].
Defined.

(** The degenerate addresses: the all-zero account key and contract id. *)
Definition zero_account : Address := Account 0.
Definition zero_contract : Address := Contract 0.

Definition is_zero_address (a : Address) : bool :=
  if bool_decide (a = zero_account) then true else bool_decide (a = zero_contract).

Definition is_zero_stellar_account (a : Address) : bool := is_zero_address a.

Definition addr_eqb (a b : Address) : bool := bool_decide (a = b).
Infix "=?a" := addr_eqb (at level 70) : sf_scope.

(** ** Invocation environment *)

Record Env := mkEnv {
  timestamp : Z;             (** [env.ledger().timestamp()], a [u64] *)
  sequence : Z;              (** [env.ledger().sequence()], a [u32] *)
  current_contract : Address;
  authorized : Address -> bool  (** who signed the invocation *)
}.

(** ** Typed instance storage *)

Class StorageKeys (K : Type) := {
  key_eq_dec :: EqDecision K;
  key_val : K -> Type
}.

Definition Store (K : Type) `{StorageKeys K} : Type := forall k : K, option (key_val k).

Definition empty_store {K} `{StorageKeys K} : Store K := fun _ => None.

Definition store_put {K} `{StorageKeys K} (k : K) (v : option (key_val k)) (s : Store K)
  : Store K :=
  fun k' => match decide (k = k') with
            | left e => eq_rect k (fun j => option (key_val j)) v k' e
            | right _ => s k'
            end.

(** A value of type [A] is stored under key [k]: the pair of conversions
    [IntoVal]/[TryFromVal] of the storage interface. *)
Class Stored {K : Type} `{StorageKeys K} (A : Type) (k : K) := {
  into_val : A -> key_val k;
  try_from_val : key_val k -> option A;
  try_from_into a : try_from_val (into_val a) = Some a
}.
Arguments into_val {K _ A} k {_} _.
Arguments try_from_val {K _ A} k {_} _.

(** Events of type [Ev] are published in a log of type [X]. *)
Class Emits (Ev X : Type) := { inject : Ev -> X }.

(** ** The SEP-41 token client

    [T] is the state of all token contracts.  [tok_balance] and
    [tok_transfer] answer [None] when the token contract traps;
    [tok_transfer] receives the authorisations that hold in the invocation. *)

Class TokenClient (T : Type) := {
  tok_balance : T -> Address -> Address -> option Z;
  tok_transfer : T -> (Address -> bool) -> Address -> Address -> Address -> Z -> option T
}.

(** What the contracts rely on: balances are non-negative [i128]s, and a
    transfer that returns was authorised by its source, moved exactly the
    amount, touched no other balance and made no balance readable. *)
Class TokenLaws (T : Type) `{TokenClient T} : Prop := {
  tok_balance_range tk a t b : tok_balance t tk a = Some b -> 0 <= b <= i128_max;
  tok_transfer_amount t auth tk from to amt t' :
    tok_transfer t auth tk from to amt = Some t' -> 0 <= amt;
  tok_transfer_auth t auth tk from to amt t' :
    tok_transfer t auth tk from to amt = Some t' -> auth from = true;
  tok_transfer_balance t auth tk from to amt t' a b :
    tok_transfer t auth tk from to amt = Some t' ->
    tok_balance t tk a = Some b ->
    tok_balance t' tk a =
      Some (b + (if addr_eqb a to then amt else 0) - (if addr_eqb a from then amt else 0));
  tok_transfer_other t auth tk from to amt t' tk' a :
    tok_transfer t auth tk from to amt = Some t' -> tk' <> tk ->
    tok_balance t' tk' a = tok_balance t tk' a;
  tok_transfer_defined t auth tk from to amt t' a b :
    tok_transfer t auth tk from to amt = Some t' -> tok_balance t' tk a = Some b ->
    is_Some (tok_balance t tk a)
}.

(** An authorised, funded transfer that cannot overflow the receiver goes
    through: the liveness of a standard asset contract. *)
Class TokenLive (T : Type) `{TokenClient T} : Prop := {
  tok_transfer_live t (auth : Address -> bool) tk from to amt bf bt :
    auth from = true -> 0 <= amt ->
    tok_balance t tk from = Some bf -> amt <= bf ->
    tok_balance t tk to = Some bt -> bt + amt <= i128_max ->
    is_Some (tok_transfer t auth tk from to amt)
}.

(** ** The contract monad *)

Inductive Trap : Type :=
| PanicWithError (code : Z)   (** [panic_with_error!], with the error's code *)
| ArithmeticPanic             (** an overflow check of the release profile *)
| AuthFailed                  (** [require_auth] without an authorisation *)
| HostFailure                 (** a host call or a called contract trapped *)
| ConversionPanic.            (** a stored value of another type *)

Section Monad.
Context {K : Type} `{SK : StorageKeys K}.
Context {T X : Type}.

Record World := mkWorld {
  w_store : Store K;            (** instance storage *)
  w_persist : Store K;          (** persistent storage *)
  w_temp : Store K;             (** temporary storage *)
  w_tokens : T;                 (** the token contracts *)
  w_events : list X;            (** published events, oldest first *)
  w_ttl : list (option K * Z * Z)
    (** [extend_ttl(threshold, extend_to)] requests, oldest first: of the
        instance ([None]) or of a persistent entry *)
}.

Inductive Outcome (E A : Type) : Type :=
| ROk (a : A) (w : World)
| RErr (e : E) (w : World)
| RTrap (t : Trap).

Definition M (E A : Type) : Type := Env -> World -> Outcome E A.

Definition ret {E A} (a : A) : M E A := fun _ w => ROk E A a w.

Definition bind {E A B} (m : M E A) (f : A -> M E B) : M E B :=
  fun env w => match m env w with
               | ROk _ _ a w' => f a env w'
               | RErr _ _ e w' => RErr E B e w'
               | RTrap _ _ t => RTrap E B t
               end.

Definition throw {E A} (e : E) : M E A := fun _ w => RErr E A e w.
Definition trap {E A} (t : Trap) : M E A := fun _ _ => RTrap E A t.

(** [if cond { return Err(e) }] *)
Definition throw_if {E} (cond : bool) (e : E) : M E unit :=
  if cond then throw e else ret tt.

(** [if cond { panic_with_error!(env, e) }] *)
Definition panic_if {E} (cond : bool) (code : Z) : M E unit :=
  if cond then trap (PanicWithError code) else ret tt.

(** [o.ok_or(e)?] *)
Definition ok_or {E A} (o : option A) (e : E) : M E A :=
  match o with Some a => ret a | None => throw e end.

(** An unchecked [i128] operation: the release profile keeps overflow checks. *)
Definition i128_op {E} (z : Z) : M E Z :=
  match checked_i128 z with Some r => ret r | None => trap ArithmeticPanic end.
Definition u64_op {E} (z : Z) : M E Z :=
  match checked_u64 z with Some r => ret r | None => trap ArithmeticPanic end.
Definition u32_op {E} (z : Z) : M E Z :=
  match checked_u32 z with Some r => ret r | None => trap ArithmeticPanic end.

(** [r.map_err(f)] *)
Definition map_err {E1 E2 A} (f : E1 -> E2) (m : M E1 A) : M E2 A :=
  fun env w => match m env w with
               | ROk _ _ a w' => ROk E2 A a w'
               | RErr _ _ e w' => RErr E2 A (f e) w'
               | RTrap _ _ t => RTrap E2 A t
               end.

(** [let _ = r]: the result is dropped, the state is kept. *)
Definition ignore_result {E1 E2 A} (m : M E1 A) : M E2 unit :=
  fun env w => match m env w with
               | ROk _ _ _ w' | RErr _ _ _ w' => ROk E2 unit tt w'
               | RTrap _ _ t => RTrap E2 unit t
               end.

(** [r.unwrap_or(d)] on a [Result]. *)
Definition unwrap_or {E1 E2 A} (m : M E1 A) (d : A) : M E2 A :=
  fun env w => match m env w with
               | ROk _ _ a w' => ROk E2 A a w'
               | RErr _ _ _ w' => ROk E2 A d w'
               | RTrap _ _ t => RTrap E2 A t
               end.

(** A result as a value: [match f() { Ok(a) => .., Err(e) => .. }]. *)
Definition attempt {E1 E2 A} (m : M E1 A) : M E2 (E1 + A) :=
  fun env w => match m env w with
               | ROk _ _ a w' => ROk E2 (E1 + A) (inr a) w'
               | RErr _ _ e w' => ROk E2 (E1 + A) (inl e) w'
               | RTrap _ _ t => RTrap E2 (E1 + A) t
               end.

(** [o.unwrap()] on an [Option]. *)
Definition unwrap {E A} (o : option A) : M E A :=
  match o with Some a => ret a | None => trap HostFailure end.

(** *** Host functions *)

Definition ledger_timestamp {E} : M E Z := fun env w => ROk E Z (timestamp env) w.
Definition ledger_sequence {E} : M E Z := fun env w => ROk E Z (sequence env) w.
Definition contract_address {E} : M E Address :=
  fun env w => ROk E Address (current_contract env) w.

Definition require_auth {E} (a : Address) : M E unit :=
  fun env w => if authorized env a then ROk E unit tt w else RTrap E unit AuthFailed.

Definition set_store (s : Store K) (w : World) : World :=
  mkWorld s (w_persist w) (w_temp w) (w_tokens w) (w_events w) (w_ttl w).
Definition set_persist (s : Store K) (w : World) : World :=
  mkWorld (w_store w) s (w_temp w) (w_tokens w) (w_events w) (w_ttl w).
Definition set_temp (s : Store K) (w : World) : World :=
  mkWorld (w_store w) (w_persist w) s (w_tokens w) (w_events w) (w_ttl w).
Definition set_tokens (t : T) (w : World) : World :=
  mkWorld (w_store w) (w_persist w) (w_temp w) t (w_events w) (w_ttl w).
Definition add_event (x : X) (w : World) : World :=
  mkWorld (w_store w) (w_persist w) (w_temp w) (w_tokens w) (w_events w ++ [x]) (w_ttl w).
Definition add_ttl (k : option K) (threshold extend_to : Z) (w : World) : World :=
  mkWorld (w_store w) (w_persist w) (w_temp w) (w_tokens w) (w_events w)
    (w_ttl w ++ [(k, threshold, extend_to)]).

Definition put (k : K) (v : option (key_val k)) (w : World) : World :=
  set_store (store_put k v (w_store w)) w.
Definition put_temp (k : K) (v : option (key_val k)) (w : World) : World :=
  set_temp (store_put k v (w_temp w)) w.
Definition put_persist (k : K) (v : option (key_val k)) (w : World) : World :=
  set_persist (store_put k v (w_persist w)) w.

Definition is_some {A} (o : option A) : bool :=
  match o with Some _ => true | None => false end.

(** [env.storage().instance()] *)
Definition sget {E} (k : K) : M E (option (key_val k)) :=
  fun _ w => ROk E _ (w_store w k) w.
Definition shas {E} (k : K) : M E bool :=
  fun _ w => ROk E bool (is_some (w_store w k)) w.
Definition sset {E} (k : K) (v : key_val k) : M E unit :=
  fun _ w => ROk E unit tt (put k (Some v) w).
Definition sremove {E} (k : K) : M E unit :=
  fun _ w => ROk E unit tt (put k None w).
Definition extend_ttl {E} (threshold extend_to : Z) : M E unit :=
  fun _ w => ROk E unit tt (add_ttl None threshold extend_to w).

(** A typed read of a key whose values may have another type: a value that
    does not convert is a panic of the storage interface. *)
Definition convert_val {E} (A : Type) (k : K) `{!Stored A k} (o : option (key_val k))
  : M E (option A) :=
  match o with
  | None => ret None
  | Some v => match try_from_val (A := A) k v with
              | Some a => ret (Some a)
              | None => trap ConversionPanic
              end
  end.
Definition sget_as {E} (A : Type) (k : K) `{!Stored A k} : M E (option A) :=
  fun env w => convert_val A k (w_store w k) env w.
Definition sset_as {E A} (k : K) `{!Stored A k} (a : A) : M E unit :=
  sset k (into_val k a).

(** [env.storage().temporary()] *)
Definition thas {E} (k : K) : M E bool :=
  fun _ w => ROk E bool (is_some (w_temp w k)) w.
Definition tget {E} (k : K) : M E (option (key_val k)) :=
  fun _ w => ROk E _ (w_temp w k) w.
Definition tset {E} (k : K) (v : key_val k) : M E unit :=
  fun _ w => ROk E unit tt (put_temp k (Some v) w).
Definition tremove {E} (k : K) : M E unit :=
  fun _ w => ROk E unit tt (put_temp k None w).

(** [env.storage().persistent()]; extending a missing entry is a host error. *)
Definition pget {E} (k : K) : M E (option (key_val k)) :=
  fun _ w => ROk E _ (w_persist w k) w.
Definition phas {E} (k : K) : M E bool :=
  fun _ w => ROk E bool (is_some (w_persist w k)) w.
Definition pset {E} (k : K) (v : key_val k) : M E unit :=
  fun _ w => ROk E unit tt (put_persist k (Some v) w).
Definition premove {E} (k : K) : M E unit :=
  fun _ w => ROk E unit tt (put_persist k None w).
Definition extend_ttl_persistent {E} (k : K) (threshold extend_to : Z) : M E unit :=
  fun _ w => if is_some (w_persist w k)
             then ROk E unit tt (add_ttl (Some k) threshold extend_to w)
             else RTrap E unit HostFailure.

Definition publish {E} (x : X) : M E unit := fun _ w => ROk E unit tt (add_event x w).

Definition emit {E Ev} `{Emits Ev X} (e : Ev) : M E unit := publish (inject e).

(** *** Token client calls

    The called token sees the signatures of the invocation and the calling
    contract itself, which authorises its direct calls. *)

Definition call_auth (env : Env) (a : Address) : bool :=
  addr_eqb a (current_contract env) || authorized env a.

Definition token_balance `{TokenClient T} {E} (tk a : Address) : M E Z :=
  fun _ w => match tok_balance (w_tokens w) tk a with
             | Some b => ROk E Z b w
             | None => RTrap E Z HostFailure
             end.

Definition token_try_balance `{TokenClient T} {E} (tk a : Address) : M E (option Z) :=
  fun _ w => ROk E _ (tok_balance (w_tokens w) tk a) w.

Definition token_transfer `{TokenClient T} {E} (tk from to : Address) (amt : Z) : M E unit :=
  fun env w => match tok_transfer (w_tokens w) (call_auth env) tk from to amt with
               | Some t' => ROk E unit tt (set_tokens t' w)
               | None => RTrap E unit HostFailure
               end.

(** [try_transfer]: whether the transfer went through; a rejected one is
    rolled back. *)
Definition token_try_transfer `{TokenClient T} {E} (tk from to : Address) (amt : Z) : M E bool :=
  fun env w => match tok_transfer (w_tokens w) (call_auth env) tk from to amt with
               | Some t' => ROk E bool true (set_tokens t' w)
               | None => ROk E bool false w
               end.

(** ** Invocations

    The host commits the effects of a contract function that returns and
    discards those of one that returns an error or traps. *)

Inductive Reply (E A : Type) : Type :=
| Returned (a : A)
| Failed (e : E)
| Trapped (t : Trap).

Definition invoke {E A} (m : M E A) (env : Env) (w : World) : Reply E A * World :=
  match m env w with
  | ROk _ _ a w' => (Returned E A a, w')
  | RErr _ _ e _ => (Failed E A e, w)
  | RTrap _ _ t => (Trapped E A t, w)
  end.

End Monad.

Arguments World K {SK} T X.
Arguments Outcome K {SK} T X E A.
Arguments ROk {K SK T X E A} a w.
Arguments RErr {K SK T X E A} e w.
Arguments RTrap {K SK T X E A} t.
Arguments M K {SK} T X E A.
Arguments bind : simpl never.
Arguments put : simpl never.
Arguments put_temp : simpl never.
Arguments put_persist : simpl never.
Arguments store_put : simpl never.
Arguments Returned {E A} a.
Arguments Failed {E A} e.
Arguments Trapped {E A} t.

Notation "'let!' x ':=' c 'in' k" := (bind c (fun x => k))
  (at level 10, x name, c at level 100, k at level 200) : sf_scope.
Notation "'do!' c ';' k" := (bind c (fun _ => k))
  (at level 10, c at level 100, k at level 200) : sf_scope.

(** ** A reference ledger

    A concrete token host, used to evaluate the contracts: every token keeps
    non-negative balances, a missing entry is zero, and a transfer needs an
    authorised and funded source. *)

Abbreviation Ledger := (gmap (Address * Address) Z).

Definition ledger_balance (l : Ledger) (tk a : Address) : option Z :=
  let b := default 0 (l !! (tk, a)) in
  if in_range 0 i128_max b then Some b else None.

Definition ledger_transfer (l : Ledger) (auth : Address -> bool)
    (tk from to : Address) (amt : Z) : option Ledger :=
  match ledger_balance l tk from, ledger_balance l tk to with
  | Some bf, Some bt =>
      if auth from && (0 <=? amt) && (amt <=? bf) && (bt + amt <=? i128_max) then
        let l1 := <[(tk, from) := bf - amt]> l in
        Some (<[(tk, to) := default 0 (l1 !! (tk, to)) + amt]> l1)
      else None
  | _, _ => None
  end.

#[export] Instance ledger_client : TokenClient Ledger := {
  tok_balance := ledger_balance;
  tok_transfer := ledger_transfer
}.

(** ** Lemmas on addresses *)

Lemma addr_eqb_true a b : addr_eqb a b = true <-> a = b.
Proof. unfold addr_eqb. apply bool_decide_eq_true. Qed.

Lemma addr_eqb_false a b : addr_eqb a b = false <-> a <> b.
Proof. unfold addr_eqb. apply bool_decide_eq_false. Qed.

Lemma addr_eqb_refl a : addr_eqb a a = true.
Proof. by apply addr_eqb_true. Qed.

Lemma is_zero_address_spec a :
  is_zero_address a = true <-> a = zero_account \/ a = zero_contract.
Proof.
  unfold is_zero_address. case_bool_decide; [naive_solver|].
  rewrite bool_decide_eq_true. naive_solver.
Qed.

(** ** Lemmas on the store *)

Section StoreLemmas.
Context {K : Type} `{SK : StorageKeys K}.

Lemma put_eq (k : K) v s : store_put k v s k = v.
Proof.
  unfold store_put. destruct (decide (k = k)) as [e|]; [|done].
  by rewrite (UIP_dec (@key_eq_dec K SK) e eq_refl).
Qed.

Lemma put_ne (k k' : K) v s : k <> k' -> store_put k v s k' = s k'.
Proof. intros. unfold store_put. by destruct (decide (k = k')). Qed.

Context {T X : Type}.
Implicit Types w : World K T X.

Lemma put_store_eq (k : K) v w : w_store (put k v w) k = v.
Proof. apply put_eq. Qed.

Lemma put_store_ne (k k' : K) v w : k <> k' -> w_store (put k v w) k' = w_store w k'.
Proof. apply put_ne. Qed.

Lemma put_tokens (k : K) v w : w_tokens (put k v w) = w_tokens w.
Proof. done. Qed.

Lemma put_events (k : K) v w : w_events (put k v w) = w_events w.
Proof. done. Qed.

Lemma put_ttl (k : K) v w : w_ttl (put k v w) = w_ttl w.
Proof. done. Qed.

Lemma put_temp_eq (k : K) v w : w_temp (put_temp k v w) k = v.
Proof. apply put_eq. Qed.

Lemma put_temp_store (k : K) v w : w_store (put_temp k v w) = w_store w.
Proof. done. Qed.

End StoreLemmas.

(** [store_simpl]: evaluate reads of a store after a chain of writes. *)
Ltac store_simpl :=
  repeat first
    [ rewrite put_store_eq
    | rewrite put_eq
    | rewrite put_ne by congruence
    | rewrite put_store_ne by congruence
    | rewrite put_temp_eq
    | rewrite put_temp_store
    | rewrite put_tokens
    | rewrite put_events
    | progress cbn [w_store w_temp w_persist w_tokens w_events w_ttl
                    add_event add_ttl set_tokens] ].

Ltac store_simpl_in H :=
  repeat first
    [ rewrite put_store_eq in H
    | rewrite put_eq in H
    | rewrite put_ne in H by congruence
    | rewrite put_store_ne in H by congruence
    | rewrite put_temp_eq in H
    | rewrite put_temp_store in H
    | rewrite put_tokens in H
    | rewrite put_events in H
    | progress cbn [w_store w_temp w_persist w_tokens w_events w_ttl
                    add_event add_ttl set_tokens] in H ].

(** ** Running computations forward *)

Section Running.
Context {K : Type} `{SK : StorageKeys K} {T X E : Type}.
Implicit Types (w : World K T X).

Lemma bind_run {A B} (m : M K T X E A) (f : A -> M K T X E B) env w a w1 :
  m env w = ROk a w1 -> bind m f env w = f a env w1.
Proof. unfold bind. by intros ->. Qed.

Lemma bind_err {A B} (m : M K T X E A) (f : A -> M K T X E B) env w e w1 :
  m env w = RErr e w1 -> bind m f env w = RErr e w1.
Proof. unfold bind. by intros ->. Qed.

Lemma bind_trap {A B} (m : M K T X E A) (f : A -> M K T X E B) env w t :
  m env w = RTrap t -> bind m f env w = RTrap t.
Proof. unfold bind. by intros ->. Qed.

Lemma map_err_run {E' A} (g : E -> E') (m : M K T X E A) env w a w1 :
  m env w = ROk a w1 -> map_err g m env w = ROk a w1.
Proof. unfold map_err. by intros ->. Qed.

Lemma map_err_err {E' A} (g : E -> E') (m : M K T X E A) env w e w1 :
  m env w = RErr e w1 -> map_err g m env w = RErr (g e) w1.
Proof. unfold map_err. by intros ->. Qed.

Lemma bind_throw_if {B} c (e : E) (f : unit -> M K T X E B) env w :
  bind (throw_if c e) f env w = if c then RErr e w else f tt env w.
Proof. by destruct c. Qed.

Lemma bind_panic_if {B} c code (f : unit -> M K T X E B) env w :
  c = false -> bind (panic_if c code) f env w = f tt env w.
Proof. by intros ->. Qed.

Lemma bind_checked {B} z (e : E) (f : Z -> M K T X E B) env w :
  bind (ok_or (checked_i128 z) e) f env w = if in_i128 z then f z env w else RErr e w.
Proof. unfold checked_i128, checked. by destruct (in_i128 z). Qed.

End Running.

(** ** Inversion of successful computations *)

Section Inversion.
Context {K : Type} `{SK : StorageKeys K} {T X E : Type}.
Implicit Types (w : World K T X).

Lemma bind_ok {A B} (m : M K T X E A) (f : A -> M K T X E B) env w b w' :
  bind m f env w = ROk b w' ->
  exists a w1, m env w = ROk a w1 /\ f a env w1 = ROk b w'.
Proof. unfold bind. destruct (m env w) eqn:?; intros H; inversion H; eauto. Qed.

Lemma map_err_ok {E' A} (g : E -> E') (m : M K T X E A) env w a w' :
  map_err g m env w = ROk a w' -> m env w = ROk a w'.
Proof. unfold map_err. destruct (m env w); intros H; by inversion H. Qed.

Lemma attempt_ok {E' A} (m : M K T X E A) env w r w' :
  attempt (E2 := E') m env w = ROk r w' ->
  match r with inr a => m env w = ROk a w' | inl e => m env w = RErr e w' end.
Proof. unfold attempt. destruct (m env w); intros H; by inversion H. Qed.

Lemma unwrap_ok {A} (o : option A) env w a w' :
  unwrap (K := K) (T := T) (X := X) (E := E) o env w = ROk a w' -> o = Some a /\ w' = w.
Proof. destruct o; intros H; by inversion H. Qed.

Lemma throw_if_ok c (e : E) env w u w' :
  throw_if (K := K) (T := T) (X := X) c e env w = ROk u w' -> c = false /\ w' = w.
Proof. destruct c; intros H; by inversion H. Qed.

Lemma panic_if_ok c code env w u w' :
  panic_if (K := K) (T := T) (X := X) (E := E) c code env w = ROk u w' ->
  c = false /\ w' = w.
Proof. destruct c; intros H; by inversion H. Qed.

Lemma ok_or_ok {A} (o : option A) (e : E) env w a w' :
  ok_or (K := K) (T := T) (X := X) o e env w = ROk a w' -> o = Some a /\ w' = w.
Proof. destruct o; intros H; by inversion H. Qed.

Lemma i128_op_ok z env w r w' :
  i128_op (K := K) (T := T) (X := X) (E := E) z env w = ROk r w' ->
  I128 z /\ r = z /\ w' = w.
Proof.
  unfold i128_op. destruct (checked_i128 z) eqn:Hc; intros H; inversion H; subst.
  by checked_inv.
Qed.

Lemma u64_op_ok z env w r w' :
  u64_op (K := K) (T := T) (X := X) (E := E) z env w = ROk r w' ->
  U64 z /\ r = z /\ w' = w.
Proof.
  unfold u64_op. destruct (checked_u64 z) eqn:Hc; intros H; inversion H; subst.
  by checked_inv.
Qed.

Lemma require_auth_ok a env w u w' :
  require_auth (K := K) (T := T) (X := X) (E := E) a env w = ROk u w' ->
  authorized env a = true /\ w' = w.
Proof. unfold require_auth. destruct (authorized env a); intros H; by inversion H. Qed.

Lemma sget_as_ok (A : Type) (k : K) `{!Stored A k} env w o w' :
  sget_as (T := T) (X := X) (E := E) A k env w = ROk o w' ->
  w' = w /\ o = w_store w k ≫= try_from_val k /\
  (o = None -> w_store w k = None).
Proof.
  unfold sget_as, convert_val. destruct (w_store w k) as [v|]; cbn.
  - destruct (try_from_val k v); intros Hr; inversion Hr; naive_solver.
  - intros Hr; inversion Hr; naive_solver.
Qed.

Context `{TC : TokenClient T}.

Lemma token_balance_ok tk a env w b w' :
  token_balance (K := K) (X := X) (E := E) tk a env w = ROk b w' ->
  tok_balance (w_tokens w) tk a = Some b /\ w' = w.
Proof. unfold token_balance. destruct (tok_balance _ _ _); intros H; by inversion H. Qed.

Lemma token_transfer_ok tk from to amt env w u w' :
  token_transfer (K := K) (X := X) (E := E) tk from to amt env w = ROk u w' ->
  exists t', tok_transfer (w_tokens w) (call_auth env) tk from to amt = Some t' /\
             w' = set_tokens t' w.
Proof.
  unfold token_transfer. destruct (tok_transfer _ _ _ _ _ _); intros H; inversion H; eauto.
Qed.

Lemma token_try_transfer_ok tk from to amt env w r w' :
  token_try_transfer (K := K) (X := X) (E := E) tk from to amt env w = ROk r w' ->
  match tok_transfer (w_tokens w) (call_auth env) tk from to amt with
  | Some t' => r = true /\ w' = set_tokens t' w
  | None => r = false /\ w' = w
  end.
Proof. unfold token_try_transfer. destruct (tok_transfer _ _ _ _ _ _); intros H; by inversion H. Qed.

End Inversion.

(** [inv_ok]: decompose every hypothesis [m env w = ROk a w'] along the binds
    and the branches of [m], down to facts about the host primitives. *)
Ltac inv_ok_hook := fail.
Ltac inv_ok_step :=
  match goal with
  | H : bind _ _ _ _ = ROk _ _ |- _ =>
      apply bind_ok in H as (? & ? & ? & ?); cbv beta in *
  | H : ret _ _ _ = ROk _ _ |- _ => injection H as <- <-
  | H : throw _ _ _ = ROk _ _ |- _ => discriminate H
  | H : trap _ _ _ = ROk _ _ |- _ => discriminate H
  | H : ROk _ _ = ROk _ _ |- _ => injection H as <- <-
  | H : RErr _ _ = ROk _ _ |- _ => discriminate H
  | H : RTrap _ = ROk _ _ |- _ => discriminate H
  | H : throw_if _ _ _ _ = ROk _ _ |- _ => apply throw_if_ok in H as [? ->]
  | H : panic_if _ _ _ _ = ROk _ _ |- _ => apply panic_if_ok in H as [? ->]
  | H : ok_or _ _ _ _ = ROk _ _ |- _ => apply ok_or_ok in H as [? ->]
  | H : i128_op _ _ _ = ROk _ _ |- _ => apply i128_op_ok in H as (? & -> & ->)
  | H : u64_op _ _ _ = ROk _ _ |- _ => apply u64_op_ok in H as (? & -> & ->)
  | H : require_auth _ _ _ = ROk _ _ |- _ => apply require_auth_ok in H as [? ->]
  | H : ledger_timestamp _ _ = ROk _ _ |- _ => injection H as <- <-
  | H : ledger_sequence _ _ = ROk _ _ |- _ => injection H as <- <-
  | H : contract_address _ _ = ROk _ _ |- _ => injection H as <- <-
  | H : sget _ _ _ = ROk _ _ |- _ => injection H as <- <-
  | H : shas _ _ _ = ROk _ _ |- _ => injection H as <- <-
  | H : sset _ _ _ _ = ROk _ _ |- _ => injection H as <- <-
  | H : sremove _ _ _ = ROk _ _ |- _ => injection H as <- <-
  | H : thas _ _ _ = ROk _ _ |- _ => injection H as <- <-
  | H : tget _ _ _ = ROk _ _ |- _ => injection H as <- <-
  | H : tset _ _ _ _ = ROk _ _ |- _ => injection H as <- <-
  | H : tremove _ _ _ = ROk _ _ |- _ => injection H as <- <-
  | H : pget _ _ _ = ROk _ _ |- _ => injection H as <- <-
  | H : phas _ _ _ = ROk _ _ |- _ => injection H as <- <-
  | H : pset _ _ _ _ = ROk _ _ |- _ => injection H as <- <-
  | H : premove _ _ _ = ROk _ _ |- _ => injection H as <- <-
  | H : publish _ _ _ = ROk _ _ |- _ => injection H as <- <-
  | H : extend_ttl _ _ _ _ = ROk _ _ |- _ => injection H as <- <-
  | H : token_try_balance _ _ _ _ = ROk _ _ |- _ => injection H as <- <-
  | H : sset_as _ _ _ _ = ROk _ _ |- _ => injection H as <- <-
  | H : emit _ _ _ = ROk _ _ |- _ => injection H as <- <-
  | H : sget_as _ _ _ _ = ROk _ _ |- _ => apply sget_as_ok in H as (-> & ? & ?)
  | H : token_balance _ _ _ _ = ROk _ _ |- _ => apply token_balance_ok in H as [? ->]
  | H : token_transfer _ _ _ _ _ _ = ROk _ _ |- _ =>
      apply token_transfer_ok in H as (? & ? & ->)
  | _ => inv_ok_hook
  | H : (if ?b then _ else _) _ _ = ROk _ _ |- _ => destruct b eqn:?
  | H : (match ?o with Some _ => _ | None => _ end) _ _ = ROk _ _ |- _ => destruct o eqn:?
  end.
Ltac inv_ok := repeat inv_ok_step.

(** ** The reference ledger satisfies the token laws *)

Lemma ledger_balance_Some l tk a b :
  ledger_balance l tk a = Some b <-> default 0 (l !! (tk, a)) = b /\ 0 <= b <= i128_max.
Proof.
  unfold ledger_balance. cbv zeta.
  destruct (in_range 0 i128_max _) eqn:Hr.
  - apply in_range_spec in Hr. naive_solver.
  - split; [done|]. intros [<- Hb]. apply in_range_spec in Hb. congruence.
Qed.

Lemma ledger_transfer_inv l auth tk from to amt l' :
  ledger_transfer l auth tk from to amt = Some l' ->
  exists bf bt, ledger_balance l tk from = Some bf /\ ledger_balance l tk to = Some bt /\
    auth from = true /\ 0 <= amt <= bf /\ bt + amt <= i128_max /\
    l' = (let l1 := <[(tk, from) := bf - amt]> l in
          <[(tk, to) := default 0 (l1 !! (tk, to)) + amt]> l1).
Proof.
  unfold ledger_transfer. intros H. repeat case_match; try done. breflect.
  simplify_eq. eauto 10.
Qed.

#[export] Instance ledger_laws : TokenLaws Ledger.
Proof.
  constructor; cbn.
  - intros * H%ledger_balance_Some. lia.
  - intros * (?&?&?&?&?&?&?&?)%ledger_transfer_inv. lia.
  - intros * (?&?&?&?&?&?&?&?)%ledger_transfer_inv. done.
  - intros * (bf&bt&Hf&Ht&_&Hamt&Hmax&->)%ledger_transfer_inv Hb.
    apply ledger_balance_Some in Hf as [Hf ?], Ht as [Ht ?], Hb as [Hb ?].
    unfold addr_eqb. apply ledger_balance_Some. cbv zeta. rewrite !lookup_insert.
    repeat (case_decide || case_bool_decide); simplify_eq; cbn; lia.
  - intros * (?&?&_&_&_&_&_&->)%ledger_transfer_inv Hne. unfold ledger_balance.
    cbv zeta. do 2 rewrite (lookup_insert_ne _ (tk, _) (tk', a)) by congruence. done.
  - intros * (bf&bt&Hf&Ht&_&_&_&->)%ledger_transfer_inv Hb.
    destruct (decide (a = from)) as [->|Hnf]; [by eexists|].
    destruct (decide (a = to)) as [->|Hnt]; [by eexists|].
    exists b. revert Hb. cbv zeta. unfold ledger_balance.
    by rewrite !lookup_insert_ne by congruence.
Qed.

#[export] Instance ledger_live : TokenLive Ledger.
Proof.
  constructor. cbn. intros * Ha Hamt Hf Hle Ht Hmax.
  unfold ledger_transfer. rewrite Hf, Ht, Ha.
  rewrite (proj2 (Z.leb_le 0 amt)), (proj2 (Z.leb_le amt bf)),
    (proj2 (Z.leb_le _ i128_max)) by lia. cbn. eauto.
Qed.

(** [mrun]: unfold the monad and the host primitives in the goal. *)
Ltac mrun :=
  unfold bind, ret, throw, trap, throw_if, panic_if, ok_or, map_err, ignore_result,
    ledger_timestamp, ledger_sequence, contract_address, emit, publish, extend_ttl,
    sget, shas, sset, sremove, sset_as, sget_as, convert_val, thas, tget, tset, tremove;
  cbn beta iota match.

(** ** Payments *)

Definition total_of (amounts : list Z) : Z := foldr Z.add 0 amounts.

(** ** Net token movements

    [moved tk t t' d]: between [t] and [t'] the balance of every address in
    token [tk] changed by [d], and no other token moved. *)

Section Moved.
Context {T : Type} `{TC : TokenClient T} `{TL : !TokenLaws T}.
Implicit Types (t : T) (d : Address -> Z).

Record moved (tk : Address) (t t' : T) (d : Address -> Z) : Prop := {
  moved_by a b : tok_balance t tk a = Some b -> tok_balance t' tk a = Some (b + d a);
  moved_other tk' a : tk' <> tk -> tok_balance t' tk' a = tok_balance t tk' a
}.

(** One address's share of a movement. *)
Definition at_addr (a : Address) (v : Z) (x : Address) : Z := if addr_eqb x a then v else 0.

(** What an address receives from a list of payments. *)
Fixpoint received (items : list (Address * Z)) (a : Address) : Z :=
  match items with
  | [] => 0
  | (r, amt) :: rest => at_addr r amt a + received rest a
  end.

(** [a] has lost nothing, in any token. *)
Definition no_loss (a : Address) (t t' : T) : Prop :=
  forall tk b', tok_balance t' tk a = Some b' ->
  exists b, tok_balance t tk a = Some b /\ b <= b'.

#[export] Instance no_loss_preorder a : PreOrder (no_loss a).
Proof.
  split.
  - intros t tk b Hb. exists b. split; [done|lia].
  - intros t1 t2 t3 H1 H2 tk b3 H3. destruct (H2 _ _ H3) as (b2 & Hb2 & ?).
    destruct (H1 _ _ Hb2) as (b1 & ? & ?). exists b1. split; [done|lia].
Qed.

Lemma no_loss_transfer t auth tk from to amt t' a :
  tok_transfer t auth tk from to amt = Some t' -> from <> a -> no_loss a t t'.
Proof.
  intros Ht Hne tk' b' Hb'. destruct (decide (tk' = tk)) as [->|Hk].
  - destruct (tok_transfer_defined _ _ _ _ _ _ _ _ _ Ht Hb') as [b Hb]. exists b. split; [done|].
    pose proof (tok_transfer_balance _ _ _ _ _ _ _ _ _ Ht Hb) as Hb2.
    rewrite Hb' in Hb2. injection Hb2 as ->.
    pose proof (tok_transfer_amount _ _ _ _ _ _ _ Ht).
    rewrite (proj2 (addr_eqb_false a from)) by congruence. destruct (addr_eqb a to); lia.
  - rewrite (tok_transfer_other _ _ _ _ _ _ _ _ _ Ht) in Hb' by done. exists b'. split; [done|lia].
Qed.

Lemma moved_refl tk t : moved tk t t (fun _ => 0).
Proof. constructor; [|done]. intros a b ->. f_equal. lia. Qed.

Lemma moved_ext tk t t' d d' : (forall a, d a = d' a) -> moved tk t t' d -> moved tk t t' d'.
Proof. intros He [H1 H2]. constructor; [|done]. intros a b. rewrite <- He. auto. Qed.

Lemma moved_trans tk t1 t2 t3 d1 d2 :
  moved tk t1 t2 d1 -> moved tk t2 t3 d2 -> moved tk t1 t3 (fun a => d1 a + d2 a).
Proof.
  intros [H1 O1] [H2 O2]. constructor.
  - intros a b Hb. rewrite Z.add_assoc. auto.
  - intros tk' a Hne. rewrite O2 by done. auto.
Qed.

Lemma moved_transfer tk t auth from to amt t' :
  tok_transfer t auth tk from to amt = Some t' ->
  moved tk t t' (fun a => at_addr to amt a - at_addr from amt a).
Proof.
  intros Ht. constructor.
  - intros a b Hb. rewrite (tok_transfer_balance _ _ _ _ _ _ _ _ _ Ht Hb).
    unfold at_addr. f_equal. lia.
  - intros. by eapply tok_transfer_other.
Qed.

(** The final balance of an address whose initial one is known. *)
Lemma moved_at tk t t' d a b :
  moved tk t t' d -> tok_balance t tk a = Some b -> tok_balance t' tk a = Some (b + d a).
Proof. intros [H _]. apply H. Qed.

Lemma at_addr_eq a v : at_addr a v a = v.
Proof. unfold at_addr. by rewrite addr_eqb_refl. Qed.

Lemma at_addr_ne a b v : b <> a -> at_addr a v b = 0.
Proof. intros H. unfold at_addr. by apply addr_eqb_false in H as ->. Qed.

End Moved.
