(* ===== verification/Ttl.v ===== *)
(** * Instance TTL and the keeper reward pool ([contracts/common/src/ttl.rs])

    The protocol-wide TTL policy, the instance bump every contract calls, and
    the reward pool that pays keepers for extending persistent entries. *)

From stdpp Require Import base numbers list option.
From Stdlib Require Import ZArith Lia.
From S2P Require Import Prelude Host.

#[local] Open Scope Z_scope.
#[local] Open Scope sf_scope.

(** ** Policy constants (mainnet build) *)

Record TtlConfig := mkTtlConfig { min_ttl_ledgers : Z; extend_ttl_ledgers : Z }.

Definition TESTNET_MIN_TTL_LEDGERS : Z := 17280.
Definition TESTNET_EXTEND_TTL_LEDGERS : Z := 34560.
Definition MAINNET_MIN_TTL_LEDGERS : Z := 100000.
Definition MAINNET_EXTEND_TTL_LEDGERS : Z := 200000.
Definition TESTNET_TTL_CONFIG : TtlConfig :=
  mkTtlConfig TESTNET_MIN_TTL_LEDGERS TESTNET_EXTEND_TTL_LEDGERS.
Definition MAINNET_TTL_CONFIG : TtlConfig :=
  mkTtlConfig MAINNET_MIN_TTL_LEDGERS MAINNET_EXTEND_TTL_LEDGERS.
Definition MIN_TTL_LEDGERS : Z := MAINNET_MIN_TTL_LEDGERS.
Definition EXTEND_TTL_LEDGERS : Z := MAINNET_EXTEND_TTL_LEDGERS.

Definition DEFAULT_KEEPER_REWARD_PER_KEY : Z := 1000000.

(** ** Keeper reward pool *)

Record KeeperRewardPool := mkKeeperRewardPool { reward_per_key : Z; pool_balance : Z }.

Inductive KeeperRewardError :=
| InvalidReward
| KInvalidAmount
| InsufficientPoolBalance.

Section Ttl.
Context {K : Type} `{SK : StorageKeys K} {T X : Type} `{TC : TokenClient T}.
Abbreviation M := (M K T X).

(** Renew the instance entry on the protocol's schedule. *)
Definition bump_instance {E} : M E unit := extend_ttl MIN_TTL_LEDGERS EXTEND_TTL_LEDGERS.

Definition bump_persistent {E} (key : K) : M E unit :=
  extend_ttl_persistent key MIN_TTL_LEDGERS EXTEND_TTL_LEDGERS.

Definition ensure_active_ttl {E} : M E unit := bump_instance.
Definition ensure_persistent_active_ttl {E} (key : K) : M E unit := bump_persistent key.

Context (pool_key : K) `{SP : !Stored KeeperRewardPool pool_key}.

Definition configure_keeper_reward_pool (reward : Z)
  : M KeeperRewardError KeeperRewardPool :=
  do! throw_if (reward <=? 0) InvalidReward;
  let pool := mkKeeperRewardPool reward 0 in
  do! sset_as pool_key pool;
  ret pool.

Definition keeper_reward_pool {E} : M E (option KeeperRewardPool) :=
  sget_as KeeperRewardPool pool_key.

Definition fund_keeper_reward_pool (token funder : Address) (amount : Z)
  : M KeeperRewardError KeeperRewardPool :=
  do! throw_if (amount <=? 0) KInvalidAmount;
  let! stored := sget_as KeeperRewardPool pool_key in
  let! pool := ok_or stored InvalidReward in
  let! balance := ok_or (checked_i128 (pool_balance pool + amount)) KInvalidAmount in
  let pool' := mkKeeperRewardPool (reward_per_key pool) balance in
  do! require_auth funder;
  let! contract := contract_address in
  do! token_transfer token funder contract amount;
  do! sset_as pool_key pool';
  ret pool'.

Definition bump_persistent_with_reward (key : K) (token keeper : Address)
  : M KeeperRewardError Z :=
  let! stored := sget_as KeeperRewardPool pool_key in
  let! pool := ok_or stored InvalidReward in
  do! throw_if (reward_per_key pool <=? 0) InvalidReward;
  do! throw_if (pool_balance pool <? reward_per_key pool) InsufficientPoolBalance;
  do! bump_persistent key;
  let! contract := contract_address in
  do! token_transfer token contract keeper (reward_per_key pool);
  let! balance := i128_op (pool_balance pool - reward_per_key pool) in
  do! sset_as pool_key (mkKeeperRewardPool (reward_per_key pool) balance);
  ret (reward_per_key pool).

End Ttl.
