(* ===== verification/Pause.v ===== *)
(** * Emergency pause ([contracts/common/src/pause.rs])

    The pause flag every contract keeps under one instance key, with automatic
    expiry and an optional cooldown against re-pausing.  The value under the
    key is either a legacy boolean or a [PauseState]. *)

From stdpp Require Import base numbers list option.
From Stdlib Require Import ZArith Lia.
From S2P Require Import Prelude Host.

#[local] Open Scope Z_scope.
#[local] Open Scope sf_scope.

Definition DEFAULT_MAX_PAUSE_DURATION : Z := 14 * 24 * 60 * 60.

Inductive PausedError := ContractPaused.

Record PauseState := mkPauseState {
  paused : bool;
  ps_paused_at : Z;
  max_duration : option Z;
  unpaused_at : option Z;
  unpause_cooldown : option Z
}.

(** What a pause key promises: it stores both shapes, told apart on reading. *)
Class PauseKey {K : Type} `{StorageKeys K} (k : K) := {
  pause_bool :: Stored bool k;
  pause_state :: Stored PauseState k;
  pause_state_not_bool (s : PauseState) : try_from_val (A := bool) k (into_val k s) = None;
  pause_bool_not_state (b : bool) : try_from_val (A := PauseState) k (into_val k b) = None
}.

(** The canonical cell of a pause key. *)
Inductive PauseCell :=
| PauseBool (b : bool)
| PauseRecord (s : PauseState).

Section Pause.
Context {K : Type} `{SK : StorageKeys K} {T X : Type}.
Context (paused_key : K) `{PK : !PauseKey paused_key}.
Abbreviation M := (M K T X).

(** Reads the flag; a legacy [true] is rewritten as a fresh pause, an expired
    pause is cleared. *)
Definition is_paused {E} : M E bool :=
  let! raw := sget paused_key in
  match raw with
  | None => ret false
  | Some raw_val =>
      match try_from_val (A := bool) paused_key raw_val with
      | Some b =>
          do! (if b then
                 let! now := ledger_timestamp in
                 sset_as paused_key
                   (mkPauseState true now (Some DEFAULT_MAX_PAUSE_DURATION) None None)
               else ret tt);
          ret b
      | None =>
          match try_from_val (A := PauseState) paused_key raw_val with
          | Some state =>
              if negb (paused state) then ret false
              else match max_duration state with
                   | Some max_dur =>
                       let! now := ledger_timestamp in
                       if sat_u64 (ps_paused_at state + max_dur) <=? now then
                         do! sset_as paused_key
                               (mkPauseState false 0 None (Some now) (unpause_cooldown state));
                         ret false
                       else ret true
                   | None => ret true
                   end
          | None => ret false
          end
      end
  end.

(** Re-pausing within the cooldown of the last unpause is refused. *)
Definition set_paused_with_cooldown (pause : bool) (duration cooldown : option Z)
  : M PausedError unit :=
  let! now := ledger_timestamp in
  let! current_state := sget_as PauseState paused_key in
  do! throw_if
        (pause &&
         match current_state with
         | Some current =>
             negb (paused current) &&
             match unpaused_at current, cooldown with
             | Some last_unpaused, Some c => now <=? sat_u64 (last_unpaused + c)
             | _, _ => false
             end
         | None => false
         end) ContractPaused;
  sset_as paused_key
    (mkPauseState pause
       (if pause then now else 0)
       (if pause
        then Some (Z.min (default DEFAULT_MAX_PAUSE_DURATION duration)
                         DEFAULT_MAX_PAUSE_DURATION)
        else None)
       (if negb pause && is_some current_state then Some now else None)
       cooldown).

Definition set_paused_with_duration (pause : bool) (duration : option Z)
  : M PausedError unit :=
  set_paused_with_cooldown pause duration None.

Definition set_paused (pause : bool) : M PausedError unit :=
  set_paused_with_duration pause None.

Definition get_pause_state {E} : M E (option PauseState) :=
  let! raw := sget paused_key in
  match raw with
  | None => ret None
  | Some raw_val =>
      if is_some (try_from_val (A := PauseState) paused_key raw_val) then
        do! is_paused;
        sget_as PauseState paused_key
      else
        match try_from_val (A := bool) paused_key raw_val with
        | Some b =>
            if b then do! is_paused; sget_as PauseState paused_key
            else ret (Some (mkPauseState false 0 None None None))
        | None => ret None
        end
  end.

Definition require_not_paused_flag (flag : bool) : M PausedError unit :=
  if flag then throw ContractPaused else ret tt.

Definition require_not_paused : M PausedError unit :=
  let! flag := is_paused in require_not_paused_flag flag.

End Pause.

(** ** Abstract view

    What a cell means at a time: [pause_active cell now] is whether the
    contract is halted, and [pause_after cell now] is the cell a read leaves. *)

Definition pause_active (cell : option PauseCell) (now : Z) : bool :=
  match cell with
  | None => false
  | Some (PauseBool b) => b
  | Some (PauseRecord s) =>
      paused s && match max_duration s with
                  | Some d => now <? sat_u64 (ps_paused_at s + d)
                  | None => true
                  end
  end.

Definition pause_after (cell : option PauseCell) (now : Z) : option PauseCell :=
  match cell with
  | Some (PauseBool true) =>
      Some (PauseRecord
              (mkPauseState true now (Some DEFAULT_MAX_PAUSE_DURATION) None None))
  | Some (PauseRecord s) =>
      if paused s && negb (pause_active cell now)
      then Some (PauseRecord (mkPauseState false 0 None (Some now) (unpause_cooldown s)))
      else cell
  | _ => cell
  end.

Section PauseFacts.
Context {K : Type} `{SK : StorageKeys K} {T X E : Type}.
Context (k : K) `{PK : !PauseKey k}.
Implicit Types w : World K T X.

Definition cell_into (c : PauseCell) : key_val k :=
  match c with PauseBool b => into_val k b | PauseRecord s => into_val k s end.

(** The cell a store holds under the key. *)
Definition holds (w : World K T X) (c : option PauseCell) : Prop :=
  w_store w k = cell_into <$> c.

Ltac settle :=
  eexists; split; [reflexivity|]; store_simpl;
  split_and!; intros; store_simpl; done.

(** Reading the flag implements the abstract view: the answer is
    [pause_active] and the cell left behind is [pause_after]. *)
Lemma is_paused_refines w env c :
  holds w c ->
  exists w', is_paused (E := E) k env w = ROk (pause_active c (timestamp env)) w' /\
             holds w' (pause_after c (timestamp env)) /\
             (forall j, j <> k -> w_store w' j = w_store w j) /\
             w_tokens w' = w_tokens w /\ w_events w' = w_events w.
Proof.
  unfold holds, is_paused. intros Hc. unfold bind, sget. rewrite Hc.
  destruct c as [[[]|s]|]; cbn.
  - rewrite try_from_into. settle.
  - rewrite try_from_into. settle.
  - rewrite pause_state_not_bool, try_from_into.
    destruct (paused s) eqn:Hp; cbn; [|by settle].
    destruct (max_duration s) as [d|] eqn:Hd; cbn; [|by settle].
    rewrite Z.ltb_antisym.
    destruct (sat_u64 (ps_paused_at s + d) <=? timestamp env); cbn; settle.
  - settle.
Qed.

Lemma is_paused_ok w env c b w' :
  holds w c -> is_paused (E := E) k env w = ROk b w' ->
  b = pause_active c (timestamp env) /\ holds w' (pause_after c (timestamp env)).
Proof.
  intros Hc H. destruct (is_paused_refines w env c Hc) as (w1 & Heq & Hh & _).
  rewrite H in Heq. injection Heq as -> ->. done.
Qed.

(** A pause that reading cleared stays cleared, and reading is idempotent. *)
Lemma pause_after_active c now now' :
  pause_active c now = false -> now <= now' -> pause_active (pause_after c now) now' = false.
Proof.
  destruct c as [[[]|s]|]; cbn; try done.
  destruct (paused s) eqn:Hp; cbn; [|by rewrite ?Hp].
  intros H. rewrite H. cbn. done.
Qed.

(** What a successful [set_paused_with_cooldown] writes. *)
Lemma set_paused_with_cooldown_ok pause d c env w u w' :
  set_paused_with_cooldown k pause d c env w = ROk u w' ->
  holds w' (Some (PauseRecord
    (mkPauseState pause (if pause then timestamp env else 0)
       (if pause then Some (Z.min (default DEFAULT_MAX_PAUSE_DURATION d)
                                  DEFAULT_MAX_PAUSE_DURATION)
        else None)
       (if negb pause && is_some (w_store w k) then Some (timestamp env) else None)
       c))).
Proof.
  unfold set_paused_with_cooldown. intros H. inv_ok. unfold holds. store_simpl.
  destruct (w_store w k) as [v|]; cbn in *; [|by subst].
  destruct (try_from_val k v) as [s|]; subst; cbn; [done|].
  exfalso. naive_solver.
Qed.

(** Frames: only the cell changes. *)
Lemma is_paused_shape env w b w' :
  is_paused (E := E) k env w = ROk b w' -> w' = w \/ exists v, w' = put k (Some v) w.
Proof.
  unfold is_paused. intros H. apply bind_ok in H as (raw & w1 & Hg & H).
  injection Hg as <- <-. destruct (w_store w k) as [v|]; [|inv_ok; by left].
  destruct (try_from_val (A := bool) k v) as [c|].
  { apply bind_ok in H as (u & w1 & H1 & H). destruct c; inv_ok; eauto. }
  destruct (try_from_val (A := PauseState) k v) as [s|]; [|inv_ok; by left].
  destruct (negb (paused s)); [inv_ok; by left|].
  destruct (max_duration s); [|inv_ok; by left].
  apply bind_ok in H as (now & w1 & Hn & H). injection Hn as <- <-.
  destruct (_ <=? _); inv_ok; eauto.
Qed.

Lemma set_paused_shape pause env w u w' :
  ignore_result (E2 := E) (set_paused k pause) env w = ROk u w' ->
  w' = w \/ exists v, w' = put k (Some v) w.
Proof.
  unfold set_paused, set_paused_with_duration, set_paused_with_cooldown, ignore_result.
  unfold bind, ledger_timestamp, sget_as, convert_val, throw_if, throw, ret, trap.
  destruct (w_store w k) as [v|]; [destruct (try_from_val k v) as [s|]; [|done]|];
    (destruct (pause && _); [|unfold sset_as, sset]); intros H; injection H as _ <-; eauto.
Qed.

End PauseFacts.

Section PauseTheorems.
Context {K : Type} `{SK : StorageKeys K} {T X E : Type}.
Context (k : K) `{PK : !PauseKey k}.
Implicit Types w : World K T X.

(** A pause is never unbounded: after a successful pause, every later read
    answers exactly whether the granted window (the requested duration, at
    most fourteen days, counted from the pausing ledger time) is still open,
    and the read itself always returns. *)
Theorem pause_window d c env w u w1 env' :
  set_paused_with_cooldown k true d c env w = ROk u w1 ->
  exists w2, is_paused (E := E) k env' w1 =
    ROk (timestamp env' <?
         sat_u64 (timestamp env + Z.min (default DEFAULT_MAX_PAUSE_DURATION d)
                                        DEFAULT_MAX_PAUSE_DURATION)) w2.
Proof.
  intros H%set_paused_with_cooldown_ok.
  destruct (is_paused_refines (E := E) k w1 env' _ H) as (w2 & Hok & _). eauto.
Qed.

(** Re-pausing is refused exactly inside the cooldown window of the last
    unpause, and then nothing is written; outside it the pause is recorded. *)
Theorem pause_cooldown_exact s d c env w :
  holds k w (Some (PauseRecord s)) ->
  match paused s, unpaused_at s, c with
  | false, Some last, Some cd =>
      if timestamp env <=? sat_u64 (last + cd)
      then set_paused_with_cooldown k true d c env w = RErr ContractPaused w
      else exists w', set_paused_with_cooldown k true d c env w = ROk tt w'
  | _, _, _ => exists w', set_paused_with_cooldown k true d c env w = ROk tt w'
  end.
Proof.
  unfold holds, set_paused_with_cooldown, bind, sget_as, convert_val. cbn.
  intros ->. cbn. rewrite try_from_into. cbn.
  destruct (paused s), (unpaused_at s), c; cbn; eauto.
  case_match; cbn; eauto.
Qed.

End PauseTheorems.
