(* ===== verification/Rbac.v ===== *)
(** * Role-based access control ([contracts/common/src/rbac.rs])

    Role assignments with optional expiry, the admin counter with its
    last-admin guard, and the membership index kept for enumeration. *)

From stdpp Require Import base numbers list option gmap.
From Stdlib Require Import ZArith Lia String.
From S2P Require Import Prelude Host.

#[local] Open Scope Z_scope.
#[local] Open Scope sf_scope.

Inductive RbacError := NotAuthorized | LastAdmin.

Record RoleAssignment := mkRoleAssignment { expires_at : option Z }.

Record RoleRevokedEvent := mkRoleRevokedEvent {
  account : Address;
  role : string;
  revoked_by : option Address;
  revoked_at : Z
}.

(** A role key stores an assignment, or a boolean written by an older
    version. *)
Class RoleKey {K : Type} `{StorageKeys K} (k : K) := {
  role_assignment :: Stored RoleAssignment k;
  role_bool :: Stored bool k
}.

Section Rbac.
Context {K : Type} `{SK : StorageKeys K} {T X : Type} `{RE : Emits RoleRevokedEvent X}.
Abbreviation M := (M K T X).

(** An assignment counts until its expiry timestamp. *)
Definition has_role {E} (role_key : K) `{!RoleKey role_key} : M E bool :=
  let! assignment := sget_as RoleAssignment role_key in
  match assignment with
  | Some a =>
      match expires_at a with
      | Some exp => let! now := ledger_timestamp in ret (now <? exp)
      | None => ret true
      end
  | None =>
      let! present := shas role_key in
      if present then
        let! is_bool := sget_as bool role_key in ret (default false is_bool)
      else ret false
  end.

Definition admin_count {E} (admin_count_key : K) `{!Stored Z admin_count_key} : M E Z :=
  let! n := sget_as Z admin_count_key in ret (default 0 n).

Definition role_members {E} (members_key : K) `{!Stored (list Address) members_key}
  : M E (list Address) :=
  let! l := sget_as (list Address) members_key in ret (default [] l).

Definition grant_with_expiration {E} (role_key admin_count_key members_key : K)
    `{!RoleKey role_key} `{!Stored Z admin_count_key} `{!Stored (list Address) members_key}
    (is_admin : bool) (acct : Address) (expiry : option Z) : M E bool :=
  let! was_active := has_role role_key in
  let! assignment_exists := shas role_key in
  if was_active || assignment_exists then
    do! sset_as role_key (mkRoleAssignment expiry);
    ret (negb was_active)
  else
    do! sset_as role_key (mkRoleAssignment expiry);
    do! (if is_admin then
           let! n := admin_count admin_count_key in
           let! next := u32_op (n + 1) in
           sset_as admin_count_key next
         else ret tt);
    let! members := role_members members_key in
    do! sset_as members_key (members ++ [acct]);
    ret true.

Definition grant {E} (role_key admin_count_key members_key : K)
    `{!RoleKey role_key} `{!Stored Z admin_count_key} `{!Stored (list Address) members_key}
    (is_admin : bool) (acct : Address) : M E bool :=
  grant_with_expiration role_key admin_count_key members_key is_admin acct None.

(** Rebuild the index without [acct]. *)
Definition without (acct : Address) (members : list Address) : list Address :=
  List.filter (fun m => negb (addr_eqb m acct)) members.

Definition revoke_with_event (role_key admin_count_key members_key : K)
    `{!RoleKey role_key} `{!Stored Z admin_count_key} `{!Stored (list Address) members_key}
    (is_admin : bool) (acct : Address) (by_ : option Address) (role_name : string)
  : M RbacError bool :=
  let! is_active := has_role role_key in
  let! assignment := sget_as RoleAssignment role_key in
  let! now := ledger_timestamp in
  let has_expired_assignment :=
    match assignment ≫= expires_at with Some exp => exp <=? now | None => false end in
  if negb is_active && negb has_expired_assignment then ret false
  else
    do! (if is_admin && is_active then
           let! count := admin_count admin_count_key in
           do! throw_if (count <=? 1) LastAdmin;
           let! count' := u32_op (count - 1) in
           sset_as admin_count_key count'
         else if is_admin && has_expired_assignment then
           let! count := admin_count admin_count_key in
           sset_as admin_count_key (sat_u32 (count - 1))
         else ret tt);
    do! sremove role_key;
    let! members := role_members members_key in
    do! sset_as members_key (without acct members);
    do! emit (mkRoleRevokedEvent acct role_name by_ now);
    ret true.

Definition revoke (role_key admin_count_key members_key : K)
    `{!RoleKey role_key} `{!Stored Z admin_count_key} `{!Stored (list Address) members_key}
    (is_admin : bool) (acct : Address) : M RbacError bool :=
  revoke_with_event role_key admin_count_key members_key is_admin acct None ""%string.

Definition require_role_or_admin (caller : Address) (role_key admin_key : K)
    `{!RoleKey role_key} `{!RoleKey admin_key} (on_success : option (M RbacError unit))
  : M RbacError unit :=
  do! require_auth caller;
  let! admin := has_role admin_key in
  let! ok := (if admin then ret true else has_role role_key) in
  if ok then match on_success with Some bump => bump | None => ret tt end
  else throw NotAuthorized.

Definition require_role (caller : Address) (role_key : K)
    `{!RoleKey role_key} (on_success : option (M RbacError unit)) : M RbacError unit :=
  do! require_auth caller;
  let! ok := has_role role_key in
  if ok then match on_success with Some bump => bump | None => ret tt end
  else throw NotAuthorized.

End Rbac.

(** ** Abstract roster

    The holders of one role: who has an assignment and until when, with the
    holders in the order they were granted.  [represents w ro] says that the
    instance storage of [w] is an implementation of the roster [ro]. *)

Record Roster := mkRoster { assigned : gmap Address (option Z); members : list Address }.

Definition active (now : Z) (e : option Z) : bool :=
  match e with Some exp => now <? exp | None => true end.

Definition holds_role (now : Z) (ro : Roster) (a : Address) : bool :=
  match assigned ro !! a with Some e => active now e | None => false end.

Definition roster_grant (a : Address) (e : option Z) (ro : Roster) : Roster :=
  mkRoster (<[a := e]> (assigned ro))
    (if is_some (assigned ro !! a) then members ro else members ro ++ [a]).

Definition roster_revoke (a : Address) (ro : Roster) : Roster :=
  mkRoster (delete a (assigned ro)) (without a (members ro)).

(** The keys of one role: distinct accounts have distinct keys, and none of
    them is the index or the counter. *)
Class RoleLayout {K : Type} `{StorageKeys K} (rk : Address -> K) (ck mk : K) := {
  layout_role a :: RoleKey (rk a);
  layout_count :: Stored Z ck;
  layout_members :: Stored (list Address) mk;
  layout_inj a b : rk a = rk b -> a = b;
  layout_role_count a : rk a <> ck;
  layout_role_members a : rk a <> mk;
  layout_count_members : ck <> mk
}.

Section Roster.
Context {K : Type} `{SK : StorageKeys K} {T X : Type} `{RE : Emits RoleRevokedEvent X}.
Context (rk : Address -> K) (ck mk : K) `{RL : !RoleLayout rk ck mk} (is_admin : bool).
Implicit Types (w : World K T X) (ro : Roster).

Definition stores {A} (w : World K T X) (k : K) `{!Stored A k} (d a : A) : Prop :=
  (w_store w k = None /\ a = d) \/ w_store w k = Some (into_val k a).

Record represents (w : World K T X) (ro : Roster) : Prop := {
  rep_nodup : NoDup (members ro);
  rep_members a : a ∈ members ro <-> is_Some (assigned ro !! a);
  rep_role a : w_store w (rk a) =
    (fun e => into_val (rk a) (mkRoleAssignment e)) <$> assigned ro !! a;
  rep_index : stores w mk [] (members ro);
  rep_count : is_admin = true -> stores w ck 0 (Z.of_nat (List.length (members ro)))
}.

Lemma stores_put {A} w k `{!Stored A k} (d a : A) :
  stores (put k (Some (into_val k a)) w) k d a.
Proof. right. by store_simpl. Qed.

Lemma sget_default {A E} w (k : K) `{!Stored A k} (d a : A) env :
  stores w k d a ->
  exists o, sget_as (E := E) A k env w = ROk o w /\ default d o = a.
Proof.
  unfold sget_as, convert_val. intros [[-> ->]| ->]; [by exists None|].
  rewrite try_from_into. by exists (Some a).
Qed.

Lemma has_role_eval {E} w ro a env :
  represents w ro ->
  has_role (E := E) (rk a) env w = ROk (holds_role (timestamp env) ro a) w.
Proof.
  intros R. unfold has_role, holds_role. mrun.
  pose proof (rep_role _ _ R a) as Ha. rewrite Ha.
  destruct (assigned ro !! a) as [e|]; cbn; [|by rewrite Ha].
  rewrite try_from_into. destruct e; done.
Qed.

Lemma assignment_eval {E} w ro a env :
  represents w ro ->
  sget_as (E := E) RoleAssignment (rk a) env w = ROk (mkRoleAssignment <$> assigned ro !! a) w.
Proof.
  intros R. unfold sget_as, convert_val. rewrite (rep_role _ _ R).
  destruct (assigned ro !! a); cbn; [by rewrite try_from_into|done].
Qed.

Lemma members_eval {E} w ro env :
  represents w ro -> role_members (E := E) mk env w = ROk (members ro) w.
Proof.
  intros R. unfold role_members, bind.
  destruct (sget_default (E := E) w mk [] (members ro) env (rep_index _ _ R)) as (o&->&<-).
  done.
Qed.

Lemma count_eval {E} w ro env :
  represents w ro -> is_admin = true ->
  admin_count (E := E) ck env w = ROk (Z.of_nat (List.length (members ro))) w.
Proof.
  intros R Ha. unfold admin_count, bind.
  destruct (sget_default (E := E) w ck 0 _ env (rep_count _ _ R Ha)) as (o&->&Heq).
  by rewrite <- Heq.
Qed.

Lemma without_spec (a b : Address) (l : list Address) : b ∈ without a l <-> b ∈ l /\ b <> a.
Proof.
  unfold without. rewrite !list_elem_of_In, filter_In.
  unfold addr_eqb. rewrite negb_true_iff, bool_decide_eq_false. tauto.
Qed.

Lemma without_nodup a (l : list Address) : NoDup l -> NoDup (without a l).
Proof. rewrite !NoDup_ListNoDup. apply List.NoDup_filter. Qed.

Lemma without_length a (l : list Address) :
  NoDup l -> a ∈ l -> List.length l = S (List.length (without a l)).
Proof.
  induction 1 as [|x l Hx Hl IH]; [by intros ?%elem_of_nil|].
  unfold without in *. cbn. unfold addr_eqb at 1. case_bool_decide as Hc; cbn.
  - subst x. intros _. f_equal. symmetry. f_equal.
    apply forallb_filter_id, forallb_forall. intros y Hy.
    unfold addr_eqb. rewrite bool_decide_eq_false_2; [done|].
    intros ->. by apply Hx, list_elem_of_In.
  - intros [->|Ha]%elem_of_cons; [done|]. f_equal. by apply IH.
Qed.

Lemma rep_put_role w ro a e :
  represents w ro -> is_Some (assigned ro !! a) ->
  represents (put (rk a) (Some (into_val (rk a) (mkRoleAssignment e))) w)
    (mkRoster (<[a := e]> (assigned ro)) (members ro)).
Proof.
  intros R [e0 Ha].
  assert (Hne : forall b, b <> a -> rk a <> rk b) by (intros ? ? ?%layout_inj; done).
  pose proof (layout_role_members (rk := rk) (ck := ck) (mk := mk) a).
  pose proof (layout_role_count (rk := rk) (ck := ck) (mk := mk) a).
  split; cbn.
  - apply R.
  - intros b. rewrite (rep_members _ _ R), lookup_insert.
    case_decide; [subst b; split; eauto|done].
  - intros b. rewrite lookup_insert. case_decide as Hab.
    + subst b. by store_simpl.
    + rewrite put_store_ne by auto. apply R.
  - unfold stores. rewrite put_store_ne by done. apply R.
  - intros Hadm. unfold stores. rewrite put_store_ne by done. by apply R.
Qed.

Lemma rep_new_member w ro a e :
  represents w ro -> assigned ro !! a = None ->
  forall w1,
    (forall k, k <> rk a -> k <> ck -> k <> mk -> w_store w1 k = w_store w k) ->
    w_store w1 (rk a) = Some (into_val (rk a) (mkRoleAssignment e)) ->
    w_store w1 mk = Some (into_val mk (members ro ++ [a])) ->
    (is_admin = true ->
     w_store w1 ck = Some (into_val ck (Z.of_nat (List.length (members ro)) + 1))) ->
    represents w1 (mkRoster (<[a := e]> (assigned ro)) (members ro ++ [a])).
Proof.
  intros R Ha w1 Hframe Hrole Hidx Hcnt.
  assert (a ∉ members ro) by (rewrite (rep_members _ _ R), Ha; by intros [? ?]).
  split; cbn.
  - apply NoDup_app. split; [apply R|]. split; [|apply NoDup_singleton]. set_solver.
  - intros b. rewrite elem_of_app, (rep_members _ _ R), list_elem_of_singleton, lookup_insert.
    case_decide; [subst; split; eauto|]. split; [by intros [?| ->]|by left].
  - intros b. rewrite lookup_insert. case_decide as Hab; [by subst b|].
    rewrite Hframe; [apply R| | |].
    + intros ?%layout_inj. done.
    + apply (layout_role_count (rk := rk) (mk := mk)).
    + apply (layout_role_members (rk := rk) (ck := ck)).
  - by right.
  - intros Hadm. right. rewrite (Hcnt Hadm), length_app. cbn. do 2 f_equal. lia.
Qed.

Lemma rep_without w ro a :
  represents w ro -> is_Some (assigned ro !! a) ->
  forall w1,
    (forall k, k <> rk a -> k <> ck -> k <> mk -> w_store w1 k = w_store w k) ->
    w_store w1 (rk a) = None ->
    w_store w1 mk = Some (into_val mk (without a (members ro))) ->
    (is_admin = true ->
     w_store w1 ck = Some (into_val ck (Z.of_nat (List.length (members ro)) - 1))) ->
    represents w1 (roster_revoke a ro).
Proof.
  intros R Ha w1 Hframe Hrole Hidx Hcnt. split; cbn.
  - apply without_nodup, R.
  - intros b. rewrite without_spec, (rep_members _ _ R), lookup_delete.
    case_decide; [subst; split; [naive_solver|by intros [? ?]]|naive_solver].
  - intros b. rewrite lookup_delete. case_decide as Hab; [by subst b|].
    rewrite Hframe; [apply R| | |].
    + intros ?%layout_inj. done.
    + apply (layout_role_count (rk := rk) (mk := mk)).
    + apply (layout_role_members (rk := rk) (ck := ck)).
  - by right.
  - intros Hadm. right. rewrite (Hcnt Hadm).
    rewrite (without_length a (members ro)); [do 2 f_equal; lia|apply R|].
    by apply (rep_members _ _ R).
Qed.

Lemma members_run {E A} w l env (f : list Address -> M K T X E A) :
  stores w mk [] l -> bind (role_members mk) f env w = f l env w.
Proof.
  intros H. destruct (sget_default (E := E) w mk [] l env H) as (o & Ho & Hd).
  unfold role_members, bind. rewrite Ho. unfold ret. by rewrite Hd.
Qed.

Lemma count_run {E A} w n env (f : Z -> M K T X E A) :
  stores w ck 0 n -> bind (admin_count ck) f env w = f n env w.
Proof.
  intros H. destruct (sget_default (E := E) w ck 0 n env H) as (o & Ho & Hd).
  unfold admin_count, bind. rewrite Ho. unfold ret. by rewrite Hd.
Qed.

Lemma stores_frame {A} w w' k `{!Stored A k} (d a : A) :
  w_store w' k = w_store w k -> stores w k d a -> stores w' k d a.
Proof. unfold stores. by intros ->. Qed.

Lemma u32_op_run {E} z env w :
  U32 z -> u32_op (K := K) (T := T) (X := X) (E := E) z env w = ROk z w.
Proof.
  intros. unfold u32_op, checked_u32, checked.
  assert (in_u32 z = true) as -> by by apply in_range_spec. done.
Qed.

Lemma layout_distinct a : rk a <> ck /\ rk a <> mk /\ ck <> mk.
Proof.
  split_and!; [apply (layout_role_count (rk := rk) (mk := mk))
              |apply (layout_role_members (rk := rk) (ck := ck))
              |apply (layout_count_members (rk := rk))].
Qed.

Lemma sset_run {E A B} (k : K) `{!Stored A k} (a : A) env w (m : M K T X E B) :
  bind (sset_as k a) (fun _ => m) env w = m env (put k (Some (into_val k a)) w).
Proof. done. Qed.

(** The counter step of a fresh grant. *)
Lemma count_up {E} w n env :
  (is_admin = true -> stores w ck 0 n) -> 0 <= n -> (is_admin = true -> n < u32_max) ->
  exists w1,
    (if is_admin then
       let! n := admin_count ck in let! next := u32_op (n + 1) in sset_as ck next
     else ret tt) env w = ROk (E := E) tt w1 /\
    (forall k, k <> ck -> w_store w1 k = w_store w k) /\
    (is_admin = true -> w_store w1 ck = Some (into_val ck (n + 1))) /\
    w_events w1 = w_events w /\ w_tokens w1 = w_tokens w.
Proof.
  intros Hs H0 Hn. destruct is_admin; [specialize (Hn eq_refl)|by exists w].
  rewrite (count_run _ n) by auto.
  erewrite bind_run by (apply u32_op_run; mlia).
  eexists. split; [reflexivity|]. split_and!; intros; by store_simpl.
Qed.

Lemma grant_run {E} w ro a e env :
  represents w ro ->
  (is_admin = true -> Z.of_nat (List.length (members ro)) < u32_max) ->
  exists w',
    grant_with_expiration (E := E) (rk a) ck mk is_admin a e env w =
      ROk (negb (holds_role (timestamp env) ro a)) w' /\
    represents w' (roster_grant a e ro) /\
    w_events w' = w_events w /\ w_tokens w' = w_tokens w.
Proof.
  intros R Hlen. unfold grant_with_expiration, roster_grant.
  erewrite bind_run by by apply has_role_eval.
  erewrite bind_run by reflexivity.
  rewrite (rep_role _ _ R a). destruct (assigned ro !! a) as [e0|] eqn:Hass; cbn.
  - rewrite orb_true_r, sset_run. eexists. split_and!; [reflexivity| |done|done].
    apply rep_put_role; [done|]. by rewrite Hass.
  - assert (holds_role (timestamp env) ro a = false) as ->.
    { unfold holds_role. by rewrite Hass. }
    cbn. rewrite sset_run. set (w0 := put (rk a) _ w).
    destruct (layout_distinct a) as (Hc & Hm & Hcm).
    destruct (count_up (E := E) w0 (Z.of_nat (List.length (members ro))) env)
      as (w1 & Hrun & Hframe & Hcount & Hev & Htok); [|lia|done|].
    { intros Hadm. apply (stores_frame w); [by unfold w0; store_simpl|by apply R]. }
    erewrite bind_run by exact Hrun.
    erewrite members_run.
    2: { apply (stores_frame w); [|apply R].
         rewrite Hframe by done. unfold w0. by store_simpl. }
    rewrite sset_run. eexists.
    split_and!; [reflexivity| |done|done].
    apply (rep_new_member w); [done|done|intros k ???| | |intros Hadm];
      store_simpl; rewrite ?Hframe by done; unfold w0; store_simpl; auto.
Qed.

(** The counter step of a revocation. *)
Lemma count_down w n env act expd :
  (is_admin = true -> stores w ck 0 n) -> 1 <= n <= u32_max -> act || expd = true ->
  let step :=
    if is_admin && act then
      let! count := admin_count ck in
      do! throw_if (count <=? 1) LastAdmin;
      let! count' := u32_op (count - 1) in
      sset_as ck count'
    else if is_admin && expd then
      let! count := admin_count ck in
      sset_as ck (sat_u32 (count - 1))
    else ret tt in
  if is_admin && act && (n <=? 1) then step env w = RErr LastAdmin w
  else exists w1, step env w = ROk tt w1 /\
    (forall k, k <> ck -> w_store w1 k = w_store w k) /\
    (is_admin = true -> w_store w1 ck = Some (into_val ck (n - 1))) /\
    w_events w1 = w_events w /\ w_tokens w1 = w_tokens w.
Proof.
  intros Hs Hn Hor. cbv zeta. destruct is_admin; cbn [andb]; [|by exists w].
  destruct act; cbn [andb].
  - rewrite (count_run _ n) by auto. destruct (n <=? 1) eqn:Hle; [done|].
    erewrite bind_run by reflexivity. breflect.
    erewrite bind_run by (apply u32_op_run; mlia).
    eexists. split; [reflexivity|]. split_and!; intros; by store_simpl.
  - cbn in Hor. subst expd. rewrite (count_run _ n) by auto.
    replace (sat_u32 (n - 1)) with (n - 1) by mlia.
    eexists. split; [reflexivity|]. split_and!; intros; by store_simpl.
Qed.

Lemma revoke_run w ro a env by_ name :
  represents w ro ->
  Z.of_nat (List.length (members ro)) <= u32_max ->
  let m := revoke_with_event (rk a) ck mk is_admin a by_ name in
  match assigned ro !! a with
  | None => m env w = ROk false w
  | Some e =>
      if is_admin && active (timestamp env) e && (Z.of_nat (List.length (members ro)) <=? 1)
      then m env w = RErr LastAdmin w
      else exists w', m env w = ROk true w' /\ represents w' (roster_revoke a ro) /\
           w_events w' = w_events w ++ [inject (mkRoleRevokedEvent a name by_ (timestamp env))]
  end.
Proof.
  intros R Hlen. cbv zeta. unfold revoke_with_event.
  erewrite bind_run by by apply has_role_eval.
  erewrite bind_run by by apply assignment_eval.
  erewrite bind_run by reflexivity. unfold holds_role.
  destruct (assigned ro !! a) as [e|] eqn:Hass; cbn; [|done].
  set (expd := match e with Some exp => exp <=? timestamp env | None => false end).
  assert (Hex : expd = negb (active (timestamp env) e)).
  { unfold expd. destruct e; cbn; [by rewrite Z.leb_antisym|done]. }
  assert (negb (active (timestamp env) e) && negb expd = false) as ->.
  { rewrite Hex. by destruct (active _ _). }
  assert (Ha : a ∈ members ro) by (apply (rep_members _ _ R); by rewrite Hass).
  pose proof (without_length a (members ro) (rep_nodup _ _ R) Ha) as Hl.
  pose proof (count_down w (Z.of_nat (List.length (members ro))) env
    (active (timestamp env) e) expd (rep_count _ _ R)) as Hcd.
  cbv zeta in Hcd. lapply Hcd; [clear Hcd; intros Hcd|lia].
  lapply Hcd; [clear Hcd; intros Hcd|by rewrite Hex; destruct (active _ _)].
  destruct (is_admin && active (timestamp env) e && _).
  - unfold bind at 1. by rewrite Hcd.
  - destruct Hcd as (w1 & Hrun & Hframe & Hcount & Hev & Htok).
    erewrite bind_run by exact Hrun. erewrite bind_run by reflexivity.
    destruct (layout_distinct a) as (Hc & Hm & Hcm).
    erewrite members_run.
    2: { apply (stores_frame w); [|apply R]. store_simpl. by apply Hframe. }
    rewrite sset_run. erewrite bind_run by reflexivity.
    eexists. split_and!; [reflexivity| |store_simpl; by rewrite Hev].
    apply (rep_without w); [done|by rewrite Hass|intros k ???| | |intros Hadm];
      store_simpl; rewrite ?Hframe by done; auto.
Qed.

(** A grant that would overflow the counter traps. *)
Lemma grant_full {E} w ro a e env :
  represents w ro -> is_admin = true -> assigned ro !! a = None ->
  u32_max <= Z.of_nat (List.length (members ro)) ->
  grant_with_expiration (E := E) (rk a) ck mk is_admin a e env w = RTrap ArithmeticPanic.
Proof.
  intros R Hadm Hass Hlen. unfold grant_with_expiration.
  erewrite bind_run by by apply has_role_eval.
  erewrite bind_run by reflexivity.
  rewrite (rep_role _ _ R a), Hass. unfold holds_role. rewrite Hass, Hadm. cbn.
  rewrite sset_run. unfold bind at 1. unfold admin_count at 1.
  destruct (sget_default (E := E) (put (rk a) (Some (into_val (rk a) (mkRoleAssignment e))) w)
    ck 0 (Z.of_nat (List.length (members ro))) env) as (o & Ho & Hd).
  { destruct (layout_distinct a) as (Hc & _). apply (stores_frame w); [by store_simpl|].
    by apply (rep_count _ _ R). }
  unfold bind. rewrite Ho. cbn [ret]. unfold u32_op, checked_u32, checked. rewrite Hd.
  by assert (in_u32 (Z.of_nat (List.length (members ro)) + 1) = false) as -> by mlia.
Qed.

Definition fits (ro : Roster) : Prop := Z.of_nat (List.length (members ro)) <= u32_max.

(** A grant updates the roster, or traps on a full counter. *)
Lemma grant_cases {E} w ro a e env :
  represents w ro ->
  (exists w',
     grant_with_expiration (E := E) (rk a) ck mk is_admin a e env w =
       ROk (negb (holds_role (timestamp env) ro a)) w' /\
     represents w' (roster_grant a e ro) /\
     (is_admin = true -> fits ro -> fits (roster_grant a e ro))) \/
  grant_with_expiration (E := E) (rk a) ck mk is_admin a e env w = RTrap ArithmeticPanic.
Proof.
  intros R. destruct (assigned ro !! a) as [e0|] eqn:Hass.
  - left. unfold grant_with_expiration, fits, roster_grant.
    erewrite bind_run by by apply has_role_eval.
    erewrite bind_run by reflexivity.
    rewrite (rep_role _ _ R a), Hass. cbn. rewrite orb_true_r, sset_run.
    eexists. split_and!; [reflexivity| |done]. apply rep_put_role; [done|]. by rewrite Hass.
  - assert (Hlen : (is_admin = true -> Z.of_nat (List.length (members ro)) < u32_max) \/
                   (is_admin = true /\ u32_max <= Z.of_nat (List.length (members ro)))).
    { destruct is_admin; [|by left].
      destruct (Z.lt_ge_cases (Z.of_nat (List.length (members ro))) u32_max); auto. }
    destruct Hlen as [Hlen|[Hadm Hlen]]; [left|right; by apply (grant_full w ro)].
    destruct (grant_run (E := E) w ro a e env R Hlen) as (w1 & H1 & R1 & _).
    exists w1. split_and!; [done|done|]. intros Hadm Hf. specialize (Hlen Hadm).
    unfold fits, roster_grant in *. rewrite Hass. cbn. rewrite length_app. cbn. lia.
Qed.

(** A revocation removes the assignment, and keeps an active admin. *)
Lemma revoke_cases w ro a by_ name env :
  represents w ro -> fits ro ->
  (exists w',
     revoke_with_event (rk a) ck mk is_admin a by_ name env w =
       ROk (is_some (assigned ro !! a)) w' /\
     represents w' (if is_some (assigned ro !! a) then roster_revoke a ro else ro) /\
     (is_admin = true -> forall e, assigned ro !! a = Some e -> active (timestamp env) e = true ->
      2 <= Z.of_nat (List.length (members ro)))) \/
  revoke_with_event (rk a) ck mk is_admin a by_ name env w = RErr LastAdmin w.
Proof.
  intros R Hf. pose proof (revoke_run w ro a env by_ name R Hf) as Hr. cbv zeta in Hr.
  destruct (assigned ro !! a) as [e|]; cbn; [|left; by exists w].
  destruct (is_admin && active (timestamp env) e && _) eqn:Hc; [by right|left].
  destruct Hr as (w1 & H1 & R1 & _). exists w1. split_and!; [done|done|].
  intros -> e' [= <-] Ha. rewrite Ha in Hc. cbn in Hc. breflect. lia.
Qed.

Lemma fits_revoke ro a : fits ro -> fits (roster_revoke a ro).
Proof.
  unfold fits. cbn. unfold without.
  pose proof (filter_length_le (fun m => negb (addr_eqb m a)) (members ro)). lia.
Qed.

(** A frame that spares the keys of a role spares its roster. *)
Lemma represents_frame w w' ro :
  (forall a, w_store w' (rk a) = w_store w (rk a)) -> w_store w' mk = w_store w mk ->
  (is_admin = true -> w_store w' ck = w_store w ck) ->
  represents w ro -> represents w' ro.
Proof.
  intros Hr Hm Hc [? ? Hrole Hidx Hcnt]. constructor; try done.
  - intros a. by rewrite Hr.
  - by eapply stores_frame.
  - intros Hadm. eapply stores_frame; [exact (Hc Hadm)|exact (Hcnt Hadm)].
Qed.

(** *** Sequences of role operations *)

Inductive role_op :=
| OpGrant (a : Address) (expiry : option Z)
| OpRevoke (a : Address) (by_ : option Address) (name : string).

Definition exec_op (op : role_op) : M K T X RbacError bool :=
  match op with
  | OpGrant a e => grant_with_expiration (rk a) ck mk is_admin a e
  | OpRevoke a by_ name => revoke_with_event (rk a) ck mk is_admin a by_ name
  end.

(** What an operation does to the roster, and what it answers. *)
Definition spec_op (now : Z) (op : role_op) (ro : Roster) : (RbacError + bool) * Roster :=
  match op with
  | OpGrant a e => (inr (negb (holds_role now ro a)), roster_grant a e ro)
  | OpRevoke a _ _ =>
      match assigned ro !! a with
      | None => (inr false, ro)
      | Some e =>
          if is_admin && active now e && (Z.of_nat (List.length (members ro)) <=? 1)
          then (inl LastAdmin, ro) else (inr true, roster_revoke a ro)
      end
  end.

Lemma exec_op_refines op w ro env :
  represents w ro -> Z.of_nat (List.length (members ro)) < u32_max ->
  match spec_op (timestamp env) op ro with
  | (inr b, ro') => exists w', exec_op op env w = ROk b w' /\ represents w' ro'
  | (inl e, _) => exec_op op env w = RErr e w
  end.
Proof.
  intros R Hlen. destruct op as [a e|a by_ name]; cbn [exec_op spec_op].
  - destruct (grant_run (E := RbacError) w ro a e env R (fun _ => Hlen)) as (w' & ? & ? & _). eauto.
  - pose proof (revoke_run w ro a env by_ name R ltac:(lia)) as H. cbv zeta in H.
    destruct (assigned ro !! a); [|by eauto].
    destruct (is_admin && _ && _); [done|]. destruct H as (w' & ? & ? & _). eauto.
Qed.

Fixpoint run_ops (ops : list (Env * role_op)) (w : World K T X) : World K T X :=
  match ops with
  | [] => w
  | (env, op) :: ops' => run_ops ops' (snd (invoke (exec_op op) env w))
  end.

Fixpoint spec_ops (ops : list (Env * role_op)) (ro : Roster) : Roster :=
  match ops with
  | [] => ro
  | (env, op) :: ops' => spec_ops ops' (snd (spec_op (timestamp env) op ro))
  end.

Lemma spec_op_length now op ro :
  (List.length (members (snd (spec_op now op ro))) <= S (List.length (members ro)))%nat.
Proof.
  destruct op as [a e|a by_ name]; cbn.
  - destruct (is_some _); rewrite ?length_app; cbn; lia.
  - destruct (assigned ro !! a); [|cbn; lia]. destruct (_ && _ && _); cbn; [lia|].
    unfold without. pose proof (filter_length_le (fun m => negb (addr_eqb m a)) (members ro)).
    lia.
Qed.

(** C28 Any sequence of grants and revocations, each committed or rolled back
    by the host, implements the same sequence on the abstract roster: the
    assignments, the membership index and the admin counter never diverge. *)
Theorem role_ops_refine_roster ops w ro :
  represents w ro ->
  Z.of_nat (List.length (members ro)) + Z.of_nat (List.length ops) < u32_max ->
  represents (run_ops ops w) (spec_ops ops ro).
Proof.
  revert w ro. induction ops as [|[env op] ops IH]; intros w ro R Hlen; [done|].
  cbn -[spec_op] in *. pose proof (exec_op_refines op w ro env R ltac:(lia)) as Hop.
  pose proof (spec_op_length (timestamp env) op ro) as Hle.
  unfold invoke. destruct (spec_op (timestamp env) op ro) as [[e|b] ro'] eqn:Hs; cbn in Hle.
  - rewrite Hop. cbn. apply IH; [|lia]. destruct op as [a ?|a by_ name]; [done|]. cbn in Hs.
    destruct (assigned ro !! a); [|done]. by destruct (_ && _ && _); simplify_eq.
  - destruct Hop as (w' & -> & R'). cbn. apply IH; [done|lia].
Qed.

Definition permanent (ro : Roster) : Prop := forall a e, assigned ro !! a = Some e -> e = None.
Definition permanent_op (op : role_op) : Prop :=
  match op with OpGrant _ e => e = None | OpRevoke _ _ _ => True end.

Lemma spec_op_keeps_admin now op ro w :
  is_admin = true -> represents w ro -> permanent ro -> permanent_op op ->
  members ro <> [] ->
  permanent (snd (spec_op now op ro)) /\ members (snd (spec_op now op ro)) <> [].
Proof.
  intros Hadm R Hp Hop Hne. destruct op as [a e|a by_ name]; cbn in Hop |- *.
  - subst e. split.
    + intros b e. cbn. rewrite lookup_insert. case_decide; [by intros [= <-]|apply Hp].
    + destruct (is_some _); [done|]. by destruct (members ro).
  - destruct (assigned ro !! a) as [e|] eqn:Ha; [|done].
    rewrite Hadm, (Hp _ _ Ha). cbn.
    destruct (Z.leb_spec (Z.of_nat (List.length (members ro))) 1) as [|Hlen]; [done|].
    split; [intros b e'; cbn; rewrite lookup_delete; case_decide; [done|apply Hp]|].
    cbn. assert (Hin : a ∈ members ro) by (apply (rep_members _ _ R); by rewrite Ha).
    pose proof (without_length a _ (rep_nodup _ _ R) Hin). intros Hnil.
    rewrite Hnil in *. cbn in *. lia.
Qed.

(** Governance can never be frozen: starting from a role with permanent
    holders and granting only permanent assignments, no sequence of grants and
    revocations of the admin role leaves it without an active holder. *)
Theorem last_admin_survives ops w ro env :
  is_admin = true -> represents w ro -> permanent ro -> members ro <> [] ->
  Forall (fun p => permanent_op p.2) ops ->
  Z.of_nat (List.length (members ro)) + Z.of_nat (List.length ops) < u32_max ->
  exists a, has_role (E := RbacError) (rk a) env (run_ops ops w) = ROk true (run_ops ops w).
Proof.
  intros Hadm. revert w ro. induction ops as [|[env0 op] ops IH]; intros w ro R Hp Hne HF Hlen.
  - destruct (members ro) as [|a l] eqn:Hm; [done|]. exists a. cbn.
    rewrite (has_role_eval _ _ _ _ R). f_equal. unfold holds_role.
    assert (is_Some (assigned ro !! a)) as [e He].
    { apply (rep_members _ _ R). rewrite Hm. by left. }
    by rewrite He, (Hp _ _ He).
  - apply Forall_cons in HF as [Hop HF]. cbn [run_ops] in *. cbn [List.length] in Hlen.
    pose proof (exec_op_refines op w ro env0 R ltac:(lia)) as Hex.
    pose proof (spec_op_length (timestamp env0) op ro) as Hle.
    destruct (spec_op_keeps_admin (timestamp env0) op ro w) as [Hp' Hne']; [done..|].
    unfold invoke.
    destruct (spec_op (timestamp env0) op ro) as [[e|b] ro'] eqn:Hs; cbn in *.
    + rewrite Hex. cbn. apply (IH w ro); auto; lia.
    + destruct Hex as (w' & -> & R'). cbn. apply (IH w' ro'); auto; lia.
Qed.

End Roster.
