(* ===== verification/Frame.v ===== *)
(** * Frames: what a computation leaves alone

    [Keeps R m]: whatever [m] does, value or error, relates the world before to
    the world after by the preorder [R].  The class is closed under the monad
    and the host operations, so that a frame property of an entry point is
    found by instance resolution.  Two relations are used: [frame P], which
    lets the instance-storage keys in [P] change and no other, and
    [same_tokens], which keeps the token contracts. *)

From stdpp Require Import base numbers list option.
From Stdlib Require Import ZArith Lia.
From S2P Require Import Prelude Host Ttl Pause Rbac.

Section Frame.
Context {K : Type} `{SK : StorageKeys K} {T X : Type}.
Implicit Types (w : World K T X) (R : World K T X -> World K T X -> Prop).

Class Keeps {E A} R (m : M K T X E A) : Prop :=
  keeps env w : match m env w with ROk _ w' | RErr _ w' => R w w' | RTrap _ => True end.

(** A primitive change of the world stays inside the relation. *)
Class Allows R (f : World K T X -> World K T X) : Prop := allows w : R w (f w).

Lemma keeps_ok {E A} R (m : M K T X E A) `{!Keeps R m} env w a w' :
  m env w = ROk a w' -> R w w'.
Proof. intros H. pose proof (keeps env w) as Hk. by rewrite H in Hk. Qed.

(** ** The relations *)

Definition frame (P : K -> Prop) : World K T X -> World K T X -> Prop :=
  fun w w' => forall k, ~ P k -> w_store w' k = w_store w k.

Definition same_tokens : World K T X -> World K T X -> Prop :=
  fun w w' => w_tokens w' = w_tokens w.

(** The same for persistent storage. *)
Definition pframe (P : K -> Prop) : World K T X -> World K T X -> Prop :=
  fun w w' => forall k, ~ P k -> w_persist w' k = w_persist w k.

#[export] Instance pframe_preorder P : PreOrder (pframe P).
Proof.
  constructor; [by intros w k|]. intros w1 w2 w3 H1 H2 k Hk. by rewrite H2, H1.
Qed.

#[export] Instance frame_preorder P : PreOrder (frame P).
Proof.
  constructor; [by intros w k|]. intros w1 w2 w3 H1 H2 k Hk. by rewrite H2, H1.
Qed.

#[export] Instance same_tokens_preorder : PreOrder same_tokens.
Proof. constructor; [done|]. unfold same_tokens. by intros ? ? ? -> ->. Qed.

(** An invariant as a relation: what establishes it keeps it. *)
Definition stable (I : World K T X -> Prop) : World K T X -> World K T X -> Prop :=
  fun w w' => I w -> I w'.

#[export] Instance stable_preorder I : PreOrder (stable I).
Proof. constructor; unfold stable; [by intros w|]. intros w1 w2 w3; auto. Qed.

(** Invariants of the instance storage outside the keys of [P] are stable under
    every primitive change that stays inside [frame P]. *)
Definition frames (P : K -> Prop) (I : World K T X -> Prop) : Prop :=
  forall w w', frame P w w' -> I w -> I w'.

Lemma stable_allows P I f : frames P I -> Allows (frame P) f -> Allows (stable I) f.
Proof. intros HI Hf w H. eapply HI; [apply Hf|done]. Qed.

Lemma stable_keeps {E A} P I (m : M K T X E A) :
  frames P I -> Keeps (frame P) m -> Keeps (stable I) m.
Proof.
  intros HI Hm env w. specialize (Hm env w). destruct (m env w); try done; intros H; by eapply HI.
Qed.

(** The same for invariants of persistent storage. *)
Lemma pstable_allows P (I : World K T X -> Prop) f :
  (forall w w', pframe P w w' -> I w -> I w') -> Allows (pframe P) f -> Allows (stable I) f.
Proof. intros HI Hf w. exact (HI _ _ (Hf w)). Qed.

Lemma frame_weaken (P Q : K -> Prop) w w' :
  (forall k, P k -> Q k) -> frame P w w' -> frame Q w w'.
Proof. intros HPQ H k Hk. apply H. naive_solver. Qed.

(** The keys a frame lets change. *)
Class InFrame (P : K -> Prop) (k : K) : Prop := in_frame : P k.

#[export] Instance frame_put P k v `{!InFrame P k} : Allows (frame P) (put k v).
Proof. intros w j Hj. apply put_store_ne. intros <-. by apply Hj. Qed.
#[export] Instance frame_temp P k v : Allows (frame P) (put_temp k v).
Proof. by intros w j. Qed.
#[export] Instance frame_persist P k v : Allows (frame P) (put_persist k v).
Proof. by intros w j. Qed.
#[export] Instance frame_tokens P t : Allows (frame P) (set_tokens t).
Proof. by intros w j. Qed.
#[export] Instance frame_event P x : Allows (frame P) (add_event x).
Proof. by intros w j. Qed.
#[export] Instance frame_ttl P o a b : Allows (frame P) (add_ttl o a b).
Proof. by intros w j. Qed.

#[export] Instance pframe_put P k v : Allows (pframe P) (put k v).
Proof. by intros w j. Qed.
#[export] Instance pframe_temp P k v : Allows (pframe P) (put_temp k v).
Proof. by intros w j. Qed.
#[export] Instance pframe_persist P k v `{!InFrame P k} : Allows (pframe P) (put_persist k v).
Proof. intros w j Hj. apply put_ne. intros <-. by apply Hj. Qed.
#[export] Instance pframe_tokens P t : Allows (pframe P) (set_tokens t).
Proof. by intros w j. Qed.
#[export] Instance pframe_event P x : Allows (pframe P) (add_event x).
Proof. by intros w j. Qed.
#[export] Instance pframe_ttl P o a b : Allows (pframe P) (add_ttl o a b).
Proof. by intros w j. Qed.

#[export] Instance tokens_put k v : Allows same_tokens (put k v).
Proof. done. Qed.
#[export] Instance tokens_temp k v : Allows same_tokens (put_temp k v).
Proof. done. Qed.
#[export] Instance tokens_persist k v : Allows same_tokens (put_persist k v).
Proof. done. Qed.
#[export] Instance tokens_event x : Allows same_tokens (add_event x).
Proof. done. Qed.
#[export] Instance tokens_ttl o a b : Allows same_tokens (add_ttl o a b).
Proof. done. Qed.

(** ** Closure under the monad *)

Ltac kdone := cbn; first [reflexivity | exact I | assumption | apply allows].

Section Monad.
Context R `{!PreOrder R} {E : Type}.

#[export] Instance keeps_ret {A} (a : A) : Keeps (E := E) R (ret a).
Proof. intros env w. kdone. Qed.
#[export] Instance keeps_throw {A} (e : E) : Keeps (A := A) R (throw e).
Proof. intros env w. kdone. Qed.
#[export] Instance keeps_trap {A} t : Keeps (E := E) (A := A) R (trap t).
Proof. intros env w. kdone. Qed.
#[export] Instance keeps_bind {A B} (m : M K T X E A) (f : A -> M K T X E B) :
  Keeps R m -> (forall a, Keeps R (f a)) -> Keeps R (bind m f).
Proof.
  intros Hm Hf env w. unfold bind. pose proof (Hm env w) as H1.
  destruct (m env w) as [a w1|e w1|t]; [|kdone..].
  pose proof (Hf a env w1) as H2. destruct (f a env w1); [by etransitivity..|exact I].
Qed.
#[export] Instance keeps_throw_if c (e : E) : Keeps R (throw_if c e).
Proof. destruct c; apply _. Qed.
Lemma keeps_guard {A} c (e : E) (m : M K T X E A) :
  (c = false -> Keeps R m) -> Keeps R (bind (throw_if c e) (fun _ => m)).
Proof.
  intros H env w. rewrite bind_throw_if. destruct c; [kdone|]. by apply (H eq_refl).
Qed.
#[export] Instance keeps_panic_if c n : Keeps (E := E) R (panic_if c n).
Proof. destruct c; apply _. Qed.
#[export] Instance keeps_ok_or {A} (o : option A) (e : E) : Keeps R (ok_or o e).
Proof. destruct o; apply _. Qed.
#[export] Instance keeps_i128 z : Keeps (E := E) R (i128_op z).
Proof. unfold i128_op. destruct (checked_i128 z); apply _. Qed.
#[export] Instance keeps_u64 z : Keeps (E := E) R (u64_op z).
Proof. unfold u64_op. destruct (checked_u64 z); apply _. Qed.
#[export] Instance keeps_u32 z : Keeps (E := E) R (u32_op z).
Proof. unfold u32_op. destruct (checked_u32 z); apply _. Qed.
#[export] Instance keeps_map_err {E' A} (g : E' -> E) (m : M K T X E' A) :
  Keeps R m -> Keeps R (map_err g m).
Proof. intros H env w. pose proof (H env w). unfold map_err. destruct (m env w); kdone. Qed.
#[export] Instance keeps_ignore {E' A} (m : M K T X E' A) :
  Keeps R m -> Keeps (E := E) R (ignore_result m).
Proof. intros H env w. pose proof (H env w). unfold ignore_result. destruct (m env w); kdone. Qed.

#[export] Instance keeps_unwrap_or {E' A} (m : M K T X E' A) (d : A) :
  Keeps R m -> Keeps (E := E) R (unwrap_or m d).
Proof. intros H env w. pose proof (H env w). unfold unwrap_or. destruct (m env w); kdone. Qed.
#[export] Instance keeps_attempt {E' A} (m : M K T X E' A) :
  Keeps R m -> Keeps (E := E) R (attempt m).
Proof. intros H env w. pose proof (H env w). unfold attempt. destruct (m env w); kdone. Qed.
#[export] Instance keeps_unwrap {A} (o : option A) : Keeps (E := E) R (unwrap o).
Proof. destruct o; apply _. Qed.

(** *** Host operations *)

#[export] Instance keeps_timestamp : Keeps (E := E) R ledger_timestamp.
Proof. intros env w. kdone. Qed.
#[export] Instance keeps_sequence : Keeps (E := E) R ledger_sequence.
Proof. intros env w. kdone. Qed.
#[export] Instance keeps_address : Keeps (E := E) R contract_address.
Proof. intros env w. kdone. Qed.
#[export] Instance keeps_auth a : Keeps (E := E) R (require_auth a).
Proof. intros env w. unfold require_auth. destruct (authorized env a); kdone. Qed.
#[export] Instance keeps_sget k : Keeps (E := E) R (sget k).
Proof. intros env w. kdone. Qed.
#[export] Instance keeps_shas k : Keeps (E := E) R (shas k).
Proof. intros env w. kdone. Qed.
#[export] Instance keeps_pget k : Keeps (E := E) R (pget k).
Proof. intros env w. kdone. Qed.
#[export] Instance keeps_phas k : Keeps (E := E) R (phas k).
Proof. intros env w. kdone. Qed.
#[export] Instance keeps_sget_as A k `{!Stored A k} : Keeps (E := E) R (sget_as A k).
Proof.
  intros env w. unfold sget_as, convert_val.
  destruct (w_store w k) as [v|]; [|kdone]. destruct (try_from_val k v); kdone.
Qed.
#[export] Instance keeps_sset k v `{!Allows R (put k (Some v))} : Keeps (E := E) R (sset k v).
Proof. intros env w. kdone. Qed.
#[export] Instance keeps_sset_as {A} k `{!Stored A k} (a : A)
  `{!Allows R (put k (Some (into_val k a)))} : Keeps (E := E) R (sset_as k a).
Proof. intros env w. kdone. Qed.
#[export] Instance keeps_sremove k `{!Allows R (put k None)} : Keeps (E := E) R (sremove k).
Proof. intros env w. kdone. Qed.
#[export] Instance keeps_pset k v `{!Allows R (put_persist k (Some v))} :
  Keeps (E := E) R (pset k v).
Proof. intros env w. kdone. Qed.
#[export] Instance keeps_premove k `{!Allows R (put_persist k None)} :
  Keeps (E := E) R (premove k).
Proof. intros env w. kdone. Qed.
#[export] Instance keeps_thas k : Keeps (E := E) R (thas k).
Proof. intros env w. kdone. Qed.
#[export] Instance keeps_tget k : Keeps (E := E) R (tget k).
Proof. intros env w. kdone. Qed.
#[export] Instance keeps_tset k v `{!Allows R (put_temp k (Some v))} : Keeps (E := E) R (tset k v).
Proof. intros env w. kdone. Qed.
#[export] Instance keeps_tremove k `{!Allows R (put_temp k None)} : Keeps (E := E) R (tremove k).
Proof. intros env w. kdone. Qed.
#[export] Instance keeps_balance `{TokenClient T} tk a : Keeps (E := E) R (token_balance tk a).
Proof. intros env w. unfold token_balance. destruct (tok_balance _ _ _); kdone. Qed.
#[export] Instance keeps_try_balance `{TokenClient T} tk a :
  Keeps (E := E) R (token_try_balance tk a).
Proof. intros env w. kdone. Qed.
#[export] Instance keeps_publish x `{!Allows R (add_event x)} : Keeps (E := E) R (publish x).
Proof. intros env w. kdone. Qed.
#[export] Instance keeps_emit {Ev} `{Emits Ev X} (e : Ev) `{!Allows R (add_event (inject e))} :
  Keeps (E := E) R (emit e).
Proof. intros env w. kdone. Qed.
#[export] Instance keeps_extend a b `{!Allows R (add_ttl None a b)} :
  Keeps (E := E) R (extend_ttl a b).
Proof. intros env w. kdone. Qed.
#[export] Instance keeps_extend_persistent k a b `{!Allows R (add_ttl (Some k) a b)} :
  Keeps (E := E) R (extend_ttl_persistent k a b).
Proof. intros env w. unfold extend_ttl_persistent. destruct (is_some _); kdone. Qed.
#[export] Instance keeps_transfer `{TokenClient T} tk f t amt
  `{!forall t', Allows R (set_tokens t')} : Keeps (E := E) R (token_transfer tk f t amt).
Proof. intros env w. unfold token_transfer. destruct (tok_transfer _ _ _ _ _ _); kdone. Qed.

#[export] Instance keeps_try_transfer `{TokenClient T} tk f t amt
  `{!forall t', Allows R (set_tokens t')} : Keeps (E := E) R (token_try_transfer tk f t amt).
Proof. intros env w. unfold token_try_transfer. destruct (tok_transfer _ _ _ _ _ _); kdone. Qed.

End Monad.
End Frame.

(** Branches, and keys of a concrete frame. *)
#[export] Hint Extern 2 (Keeps _ (match ?x with _ => _ end)) => destruct x : typeclass_instances.
#[export] Hint Extern 1 (InFrame _ _) => red; cbn; congruence : typeclass_instances.

(** Unfold a computation and find its frame. *)
Ltac solve_keeps := intros; repeat (apply _ || (progress cbv zeta)).

Section Library.
Context {K : Type} `{SK : StorageKeys K} {T X E : Type}.
Context (R : World K T X -> World K T X -> Prop) `{!PreOrder R}.

#[export] Instance keeps_bump `{!forall o a b, Allows R (add_ttl o a b)} :
  Keeps (E := E) R bump_instance.
Proof. unfold bump_instance. apply _. Qed.
#[export] Instance keeps_bump_persistent k `{!forall o a b, Allows R (add_ttl o a b)} :
  Keeps (E := E) R (bump_persistent k).
Proof. unfold bump_persistent. apply _. Qed.

(** *** The pause library writes its key only *)

Context (k : K) `{PK : !PauseKey k} `{!forall v, Allows R (put k v)}.

#[export] Instance keeps_is_paused : Keeps (E := E) R (Pause.is_paused k).
Proof. unfold Pause.is_paused. solve_keeps. Qed.
#[export] Instance keeps_set_paused b : Keeps R (Pause.set_paused k b).
Proof.
  unfold Pause.set_paused, set_paused_with_duration, set_paused_with_cooldown. solve_keeps.
Qed.
#[export] Instance keeps_require_not_paused : Keeps R (Pause.require_not_paused k).
Proof. unfold Pause.require_not_paused, require_not_paused_flag. solve_keeps. Qed.

End Library.

Section Roles.
Context {K : Type} `{SK : StorageKeys K} {T X E : Type} `{RE : Emits RoleRevokedEvent X}.
Context (R : World K T X -> World K T X -> Prop) `{!PreOrder R}.

#[export] Instance keeps_has_role k `{!RoleKey k} : Keeps (E := E) R (has_role k).
Proof. unfold has_role. solve_keeps. Qed.

#[export] Instance keeps_require_role caller k `{!RoleKey k} (b : M K T X RbacError unit) :
  Keeps R b -> Keeps R (require_role caller k (Some b)).
Proof. intros. unfold require_role. solve_keeps. Qed.

#[export] Instance keeps_require_role_or_admin caller k k' `{!RoleKey k} `{!RoleKey k'}
    (b : M K T X RbacError unit) :
  Keeps R b -> Keeps R (require_role_or_admin caller k k' (Some b)).
Proof. intros. unfold require_role_or_admin. solve_keeps. Qed.

(** Granting and revoking write the account's key, the index and, for the
    admin role, the counter. *)
Context (rk ck mk : K) `{!RoleKey rk} `{!Stored Z ck} `{!Stored (list Address) mk}
  `{!forall v, Allows R (put rk v)} `{!forall v, Allows R (put mk v)}
  `{!forall x, Allows R (add_event x)}.

#[export] Instance keeps_grant is_admin a e :
  (is_admin = true -> forall v, Allows R (put ck v)) ->
  Keeps (E := E) R (grant_with_expiration rk ck mk is_admin a e).
Proof.
  intros Hc. unfold grant_with_expiration, admin_count, role_members.
  destruct is_admin; [specialize (Hc eq_refl)|]; solve_keeps.
Qed.

#[export] Instance keeps_revoke is_admin a by_ name :
  (is_admin = true -> forall v, Allows R (put ck v)) ->
  Keeps R (revoke_with_event rk ck mk is_admin a by_ name).
Proof.
  intros Hc. unfold revoke_with_event, admin_count, role_members.
  destruct is_admin; [specialize (Hc eq_refl)|]; solve_keeps.
Qed.

End Roles.
