(* ===== verification/Safe.v ===== *)
(** * Safety of the outside world

    [Safe env P m]: run by [env], [m] keeps the property [P] of what lies
    outside the contract (the tokens and the other contracts), on success and
    on error.  A computation that calls nobody is safe for every property; a
    token transfer is safe for the properties closed under the transfers the
    contract can sign for.  With it a property of the whole chain is carried
    through the calls of every contract.  [Same env P m1 m2]: the two
    computations cannot be told apart from there. *)

From stdpp Require Import base numbers list option.
From Stdlib Require Import ZArith Lia.
From S2P Require Import Prelude Host Ttl Pause Frame.

(** The storage of a contract, seen on another state of the outside world. *)
Definition rebase {K : Type} `{SK : StorageKeys K} {T T' X : Type} (t : T') (w : World K T X)
  : World K T' X :=
  mkWorld (w_store w) (w_persist w) (w_temp w) t (w_events w) (w_ttl w).

Section Safe.
Context {K : Type} `{SK : StorageKeys K} {T X : Type} (env : Env) (P : T -> Prop).
Implicit Types (w : World K T X).

Class Safe {E A} (m : M K T X E A) : Prop :=
  safe w : P (w_tokens w) ->
    match m env w with ROk _ w' | RErr _ w' => P (w_tokens w') | RTrap _ => True end.

(** The property survives the transfers the contract can sign for. *)
Class TransferClosed `{TokenClient T} : Prop :=
  transfer_closed t tk from to amt t' :
    tok_transfer t (call_auth env) tk from to amt = Some t' -> P t -> P t'.

Lemma safe_ok {E A} (m : M K T X E A) `{!Safe m} w a w' :
  m env w = ROk a w' -> P (w_tokens w) -> P (w_tokens w').
Proof. intros H HP. pose proof (safe w HP) as Hs. by rewrite H in Hs. Qed.

#[export] Instance safe_bind {E A B} (m : M K T X E A) (f : A -> M K T X E B) :
  Safe m -> (forall a, Safe (f a)) -> Safe (bind m f) | 1.
Proof.
  intros Hm Hf w HP. unfold bind. specialize (Hm w HP).
  destruct (m env w) as [a w1|e w1|t]; [exact (Hf a w1 Hm)|exact Hm|exact I].
Qed.

#[export] Instance safe_keeps {E A} (m : M K T X E A) : Keeps same_tokens m -> Safe m | 5.
Proof.
  intros Hm w HP. specialize (Hm env w). unfold same_tokens in Hm.
  destruct (m env w); [by rewrite Hm..|exact I].
Qed.

#[export] Instance safe_transfer `{TokenClient T} `{!TransferClosed} {E} tk from to amt :
  Safe (E := E) (token_transfer tk from to amt) | 1.
Proof.
  intros w HP. unfold token_transfer. destruct (tok_transfer _ _ _ _ _ _) eqn:Ht; [|exact I].
  by eapply transfer_closed.
Qed.

#[export] Instance safe_try_transfer `{TokenClient T} `{!TransferClosed} {E} tk from to amt :
  Safe (E := E) (token_try_transfer tk from to amt) | 1.
Proof.
  intros w HP. unfold token_try_transfer. destruct (tok_transfer _ _ _ _ _ _) eqn:Ht; [|exact HP].
  by eapply transfer_closed.
Qed.

#[export] Instance safe_map_err {E1 E2 A} (g : E1 -> E2) (m : M K T X E1 A) :
  Safe m -> Safe (map_err g m) | 1.
Proof. intros Hm w HP. specialize (Hm w HP). unfold map_err. by destruct (m env w). Qed.

#[export] Instance safe_ignore {E1 E2 A} (m : M K T X E1 A) :
  Safe m -> Safe (ignore_result (E2 := E2) m) | 1.
Proof. intros Hm w HP. specialize (Hm w HP). unfold ignore_result. by destruct (m env w). Qed.

(** What the host commits. *)
Lemma safe_invoke {E A} (m : M K T X E A) `{!Safe m} w r w' :
  invoke m env w = (r, w') -> P (w_tokens w) -> P (w_tokens w').
Proof.
  unfold invoke. intros H HP. pose proof (safe w HP) as Hs.
  destruct (m env w); injection H as _ <-; done.
Qed.

End Safe.

#[export] Hint Extern 2 (Safe _ _ (match ?x with _ => _ end)) => destruct x : typeclass_instances.

(** Unfold a computation and find its safety. *)
Ltac solve_safe := intros; repeat (apply _ || (progress cbv zeta)).

(** ** Computations that agree

    [Same env P m1 m2]: run by [env] where the property [P] holds of what lies
    outside the contract, the two computations do the same and keep [P].  With
    it a computation over one model of the called contracts is replaced by the
    same computation over another model that answers alike. *)

Section Same.
Context {K : Type} `{SK : StorageKeys K} {T X : Type} (env : Env) (P : T -> Prop).
Implicit Types (w : World K T X).

Class Same {E A} (m1 m2 : M K T X E A) : Prop :=
  same w : P (w_tokens w) ->
    m1 env w = m2 env w /\
    match m2 env w with ROk _ w' | RErr _ w' => P (w_tokens w') | RTrap _ => True end.

Lemma same_run {E A} (m1 m2 : M K T X E A) `{!Same m1 m2} w :
  P (w_tokens w) -> m1 env w = m2 env w.
Proof. intros HP. by apply same. Qed.

(** A computation that agrees with itself is safe. *)
Lemma same_safe {E A} (m1 m2 : M K T X E A) : Same m1 m2 -> Safe env P m2.
Proof. intros H w HP. by apply H. Qed.

Lemma same_refl {E A} (m : M K T X E A) : Safe env P m -> Same m m.
Proof. intros H w HP. split; [done|by apply H]. Qed.

Lemma same_bind {E A B} (m1 m2 : M K T X E A) (f1 f2 : A -> M K T X E B) :
  Same m1 m2 -> (forall a, Same (f1 a) (f2 a)) -> Same (bind m1 f1) (bind m2 f2).
Proof.
  intros Hm Hf w HP. unfold bind. destruct (Hm w HP) as [-> Hs].
  destruct (m2 env w) as [a w1|e w1|t]; [exact (Hf a w1 Hs)|by split..].
Qed.

Lemma same_attempt {E1 E2 A} (m1 m2 : M K T X E1 A) :
  Same m1 m2 -> Same (attempt (E2 := E2) m1) (attempt m2).
Proof.
  intros Hm w HP. unfold attempt. destruct (Hm w HP) as [-> Hs].
  by destruct (m2 env w).
Qed.

End Same.

(** Compare two computations of the same shape: what differs is left over. *)
Ltac solve_same :=
  repeat lazymatch goal with
  | |- Same _ _ ?m ?m => apply same_refl; solve_safe
  | |- Same _ _ (bind _ _) (bind _ _) => apply same_bind; [|intros ?]
  | |- Same _ _ (attempt _) (attempt _) => apply same_attempt
  | |- Same _ _ (match ?x with _ => _ end) _ => destruct x
  | |- forall _, Same _ _ _ _ => intros ?
  | |- Same _ _ (let _ := _ in _) _ => cbv zeta
  end.
