(* ===== verification/StreamData.v ===== *)
(** * DripStream: data ([contracts/stream/src/{storage,errors,events}.rs])

    The errors, stored records, storage keys and events of the stream
    contract. *)

From stdpp Require Import base numbers list option strings.
From Stdlib Require Import ZArith Lia.
From S2P Require Import Prelude Host Pause.

#[local] Open Scope Z_scope.

(** ** Errors *)

Module Error.

Inductive stream_error : Type :=
| NotAuthorized
| StreamNotFound
| StreamCancelled
| StreamNotStarted
| StreamEnded
| NothingToWithdraw
| InsufficientDeposit
| InvalidTimeRange
| AlreadyPaused
| NotPaused
| ClawbackDisabled
| ArithmeticOverflow
| PauseThresholdNotMet
| AlreadyInitialized
| InvalidAmount
| ReentrancyForbidden
| OperatorAlreadySet
| NotInitialized
| InvalidRecipient
| BackdatedStream
| StreamUnderfunded
| WithdrawalTooFrequent
| ContractPaused
| StreamNotCancelable
| ZeroRateStreamNotAllowed
| StreamDurationTooShort
| DescriptionTooLong
| InvalidKeeperRewardToken
| KeeperRewardPoolNotConfigured
| InsufficientKeeperRewardPool
| KeeperPingTooFrequent
| KeeperRewardTransferFailed.

(** The [repr(u32)] codes. *)
Definition code (e : stream_error) : Z :=
  match e with
  | NotAuthorized => 1
  | StreamNotFound => 2
  | StreamCancelled => 3
  | StreamNotStarted => 4
  | StreamEnded => 5
  | NothingToWithdraw => 6
  | InsufficientDeposit => 7
  | InvalidTimeRange => 8
  | AlreadyPaused => 9
  | NotPaused => 10
  | ClawbackDisabled => 11
  | ArithmeticOverflow => 12
  | PauseThresholdNotMet => 13
  | AlreadyInitialized => 14
  | InvalidAmount => 15
  | ReentrancyForbidden => 16
  | OperatorAlreadySet => 17
  | NotInitialized => 18
  | InvalidRecipient => 19
  | BackdatedStream => 20
  | StreamUnderfunded => 21
  | WithdrawalTooFrequent => 22
  | ContractPaused => 23
  | StreamNotCancelable => 24
  | ZeroRateStreamNotAllowed => 25
  | StreamDurationTooShort => 26
  | DescriptionTooLong => 27
  | InvalidKeeperRewardToken => 28
  | KeeperRewardPoolNotConfigured => 29
  | InsufficientKeeperRewardPool => 30
  | KeeperPingTooFrequent => 31
  | KeeperRewardTransferFailed => 32
  end.

End Error.

(** ** Stored records *)

Definition FLAG_PAUSED : Z := 1.
Definition FLAG_CLAWBACK_ENABLED : Z := Z.shiftl 1 1.
Definition FLAG_CANCELLED : Z := Z.shiftl 1 2.
Definition FLAG_REGULATED_ASSET : Z := Z.shiftl 1 3.

Definition CURRENT_STORAGE_VERSION : Z := 1.

Record StreamInfo := mkStreamInfo {
  sender : Address;
  recipient : Address;
  token : Address;
  rate_per_second : Z;
  start_time : Z;
  end_time : Z;
  withdrawn : Z;
  paused_at : Z;
  flags : Z;
  event_sequence : Z;
  cumulative_fees : Z
}.

Definition is_paused (i : StreamInfo) : bool :=
  negb (Z.land (flags i) FLAG_PAUSED =? 0).
Definition is_cancelled (i : StreamInfo) : bool :=
  negb (Z.land (flags i) FLAG_CANCELLED =? 0).
Definition is_clawback_enabled (i : StreamInfo) : bool :=
  negb (Z.land (flags i) FLAG_CLAWBACK_ENABLED =? 0).
Definition is_regulated_asset (i : StreamInfo) : bool :=
  negb (Z.land (flags i) FLAG_REGULATED_ASSET =? 0).

(** Field updates of a copied record ([updated.field = v]). *)
Definition with_recipient (v : Address) (i : StreamInfo) : StreamInfo :=
  mkStreamInfo (sender i) v (token i) (rate_per_second i) (start_time i) (end_time i)
    (withdrawn i) (paused_at i) (flags i) (event_sequence i) (cumulative_fees i).
Definition with_rate (v : Z) (i : StreamInfo) : StreamInfo :=
  mkStreamInfo (sender i) (recipient i) (token i) v (start_time i) (end_time i)
    (withdrawn i) (paused_at i) (flags i) (event_sequence i) (cumulative_fees i).
Definition with_start_time (v : Z) (i : StreamInfo) : StreamInfo :=
  mkStreamInfo (sender i) (recipient i) (token i) (rate_per_second i) v (end_time i)
    (withdrawn i) (paused_at i) (flags i) (event_sequence i) (cumulative_fees i).
Definition with_end_time (v : Z) (i : StreamInfo) : StreamInfo :=
  mkStreamInfo (sender i) (recipient i) (token i) (rate_per_second i) (start_time i) v
    (withdrawn i) (paused_at i) (flags i) (event_sequence i) (cumulative_fees i).
Definition with_withdrawn (v : Z) (i : StreamInfo) : StreamInfo :=
  mkStreamInfo (sender i) (recipient i) (token i) (rate_per_second i) (start_time i)
    (end_time i) v (paused_at i) (flags i) (event_sequence i) (cumulative_fees i).
Definition with_paused_at (v : Z) (i : StreamInfo) : StreamInfo :=
  mkStreamInfo (sender i) (recipient i) (token i) (rate_per_second i) (start_time i)
    (end_time i) (withdrawn i) v (flags i) (event_sequence i) (cumulative_fees i).
Definition with_flags (v : Z) (i : StreamInfo) : StreamInfo :=
  mkStreamInfo (sender i) (recipient i) (token i) (rate_per_second i) (start_time i)
    (end_time i) (withdrawn i) (paused_at i) v (event_sequence i) (cumulative_fees i).
Definition with_event_sequence (v : Z) (i : StreamInfo) : StreamInfo :=
  mkStreamInfo (sender i) (recipient i) (token i) (rate_per_second i) (start_time i)
    (end_time i) (withdrawn i) (paused_at i) (flags i) v (cumulative_fees i).

Definition mark_cancelled (i : StreamInfo) : StreamInfo :=
  with_flags (Z.lor (flags i) FLAG_CANCELLED) i.
Definition mark_regulated_asset (i : StreamInfo) : StreamInfo :=
  with_flags (Z.lor (flags i) FLAG_REGULATED_ASSET) i.

Record ImmutableConfig := mkImmutableConfig {
  ic_start_time : Z;
  ic_stop_time : Z;
  ic_token : Address;
  ic_rate_per_second : Z;
  ic_sender : Address;
  ic_recipient : Address
}.

Record StreamKeeperRewardPool := mkStreamKeeperRewardPool {
  kp_token : Address;
  kp_reward_per_ping : Z;
  kp_balance : Z
}.

Record SplitConfig := mkSplitConfig { secondary_recipient : Address; split_bps : Z }.
Record CliffConfig := mkCliffConfig { cliff_time : Z; cliff_unlock_amount : Z }.
Record RateCheckpoint := mkRateCheckpoint { accrued : Z; at_ : Z }.
Record StreamConfig := mkStreamConfig { is_cancelable_flag : bool }.

Inductive StreamStatus := Pending | Active | Paused | Cancelled | Completed.

Record StreamSummary := mkStreamSummary {
  ss_sender : Address;
  ss_recipient : Address;
  ss_token : Address;
  ss_total_amount : Z;
  ss_streamed_amount : Z;
  ss_status : StreamStatus;
  ss_start_time : Z;
  ss_stop_time : Z
}.

(** ** Storage keys *)

Module DataKey.

Inductive data_key : Type :=
| Config
| Guard
| StorageVersion
| Operator
| ForceCancelPauseThresholdSecs
| SplitConfig
| CliffConfig
| MinWithdrawalInterval
| LastWithdrawalTime
| RateCheckpoint
| EmergencyPaused
| ImmutableConfig
| CliffReached
| StreamCompleted
| StreamConfig
| StreamTitle
| ReferenceTag
| StreamDescription
| KeeperRewardPool
| LastKeeperPingLedger
| AutoForwardAddress
| CumulativeDeposited.

End DataKey.

#[export] Instance data_key_eq_dec : EqDecision DataKey.data_key.
Proof. solve_decision. Defined.

(** The type of the value each key stores. *)
Definition data_key_val (k : DataKey.data_key) : Type :=
  match k with
  | DataKey.Config => StreamInfo
  | DataKey.Operator | DataKey.AutoForwardAddress => Address
  | DataKey.SplitConfig => SplitConfig
  | DataKey.CliffConfig => CliffConfig
  | DataKey.RateCheckpoint => RateCheckpoint
  | DataKey.EmergencyPaused => PauseCell
  | DataKey.ImmutableConfig => ImmutableConfig
  | DataKey.CliffReached | DataKey.StreamCompleted => bool
  | DataKey.StreamConfig => StreamConfig
  | DataKey.StreamTitle | DataKey.ReferenceTag | DataKey.StreamDescription => string
  | DataKey.KeeperRewardPool => StreamKeeperRewardPool
  | DataKey.Guard | DataKey.StorageVersion | DataKey.ForceCancelPauseThresholdSecs
  | DataKey.MinWithdrawalInterval | DataKey.LastWithdrawalTime
  | DataKey.LastKeeperPingLedger | DataKey.CumulativeDeposited => Z
  end.

#[export] Instance stream_keys : StorageKeys DataKey.data_key := {
  key_eq_dec := data_key_eq_dec;
  key_val := data_key_val
}.

#[export] Instance emergency_bool : Stored bool DataKey.EmergencyPaused.
Proof.
  refine {| into_val := (fun b => PauseBool b : key_val DataKey.EmergencyPaused);
            try_from_val := (fun c : key_val DataKey.EmergencyPaused =>
              match c with PauseBool b => Some b | PauseRecord _ => None end) |}.
  done.
Defined.

#[export] Instance emergency_state : Stored PauseState DataKey.EmergencyPaused.
Proof.
  refine {| into_val := (fun s => PauseRecord s : key_val DataKey.EmergencyPaused);
            try_from_val := (fun c : key_val DataKey.EmergencyPaused =>
              match c with PauseBool _ => None | PauseRecord s => Some s end) |}.
  done.
Defined.

#[export] Instance emergency_key : PauseKey DataKey.EmergencyPaused.
Proof. by refine {| pause_bool := _; pause_state := _ |}. Defined.

(** ** Events: the topics and the data of every [publish] *)

Module Event.

Inductive stream_event : Type :=
| created (by_ : Address) (seq : Z) (to token : Address) (rate start stop version : Z)
| withdrawn (to : Address) (seq : Z) (amount total_withdrawn remaining : Z)
| cancelled (by_ : Address) (seq : Z) (refund_amount withdrawn_so_far remaining_deposit : Z)
| force_cxl (by_ : Address) (seq : Z) (refund_amount withdrawn_so_far remaining_deposit : Z)
| paused (by_ : Address) (seq : Z) (paused_at withdrawable : Z)
| resumed (by_ : Address) (seq : Z) (resumed_at : Z)
| topped_up (by_ : Address) (seq : Z) (amount new_balance : Z)
| top_ext (by_ : Address) (seq : Z) (old_balance new_balance old_end_time new_end_time : Z)
| rate_chg (by_ : Address) (seq : Z) (old_rate new_rate : Z)
| clawback (by_ : Address) (seq : Z) (amount : Z)
| xfer_rec (old_recipient : Address) (seq : Z) (new_recipient : Address)
| set_op (by_ operator : Address) (seq : Z)
| rm_op (by_ : Address) (seq : Z)
| set_split (by_ secondary : Address) (seq : Z) (split_bps : Z)
| rm_split (by_ : Address) (seq : Z)
| set_cliff (by_ : Address) (seq : Z) (cliff_time cliff_unlock_amount : Z)
| min_w_int (by_ : Address) (seq : Z) (interval_seconds : Z)
| StreamKeeperPing (keeper : Address) (seq : Z) (bounty_amount : Z)
| keepercfg (by_ : Address) (seq : Z) (reward_token : Address) (reward_per_ping : Z)
| keeperfnd (by_ : Address) (seq : Z) (reward_token : Address) (amount : Z)
| keeper_wd (by_ : Address) (seq : Z) (reward_token : Address) (amount : Z)
| emg_pause (by_ : Address) (seq : Z) (at_ : Z)
| emg_unps (by_ : Address) (seq : Z) (at_ : Z)
| cliff_rch (to : Address) (seq : Z) (at_ unlock_amount : Z)
| completed (to : Address) (seq : Z) (total_withdrawn : Z).

End Event.
