(* ===== verification/StreamState.v ===== *)
(** * DripStream: state access, events and TTL
    ([contracts/stream/src/{state,events,ttl}.rs])

    Loading and saving the consolidated record, the re-entrancy guard, the
    event functions with their per-stream sequence numbers, and the TTL
    extension scaled to the remaining duration. *)

From stdpp Require Import base numbers list option strings.
From Stdlib Require Import ZArith Lia.
From S2P Require Import Prelude Host Ttl Pause StreamData.
Import Error.

#[local] Open Scope Z_scope.
#[local] Open Scope sf_scope.

(** ** [ttl.rs] *)

Definition MAX_PAUSE_SECS : Z := 2592000.
Definition SECONDS_PER_LEDGER : Z := 5.
Definition MAX_TTL_LEDGERS : Z := 6312000.

Definition extend_to_for_remaining (remaining_secs : Z) : Z :=
  let remaining_ledgers := Z.min (div_ceil remaining_secs SECONDS_PER_LEDGER) u32_max in
  clamp EXTEND_TTL_LEDGERS MAX_TTL_LEDGERS (sat_u32 (remaining_ledgers + MIN_TTL_LEDGERS)).

Section State.
Context {T : Type}.
Abbreviation SM := (M DataKey.data_key T Event.stream_event stream_error).

Definition bump_for_remaining (remaining_secs : Z) : SM unit :=
  extend_ttl MIN_TTL_LEDGERS (extend_to_for_remaining remaining_secs).

Definition bump : SM unit := bump_instance.

(** ** [state.rs] *)

Definition try_load : SM StreamInfo :=
  let! s := sget DataKey.Config in ok_or s NotInitialized.

(** [panic_with_error!(env, err)] on a missing record. *)
Definition load : SM StreamInfo :=
  fun env w => match try_load env w with
               | ROk info w' => ROk info w'
               | RErr err _ => RTrap (PanicWithError (code err))
               | RTrap t => RTrap t
               end.

Definition save (info : StreamInfo) : SM unit := sset DataKey.Config info.

Definition assert_not_cancelled (info : StreamInfo) : SM unit :=
  throw_if (is_cancelled info) StreamCancelled.

Definition MAX_REENTRANCY_DEPTH : Z := 1.

Definition lock : SM unit :=
  let! g := sget DataKey.Guard in
  let depth := default 0 g in
  do! throw_if (MAX_REENTRANCY_DEPTH <=? depth) ReentrancyForbidden;
  let! depth' := u32_op (depth + 1) in
  sset DataKey.Guard depth'.

Definition unlock : SM unit :=
  let! g := sget DataKey.Guard in
  let depth := default 0 g in
  if 0 <? depth then sset DataKey.Guard (depth - 1) else ret tt.

(** The guard is released on the normal and on the error path of [f]. *)
Definition with_guard {R} (f : SM R) : SM R :=
  do! lock;
  fun env w => match f env w with
               | ROk r w1 => bind unlock (fun _ => ret r) env w1
               | RErr e w1 => bind unlock (fun _ => throw e) env w1
               | RTrap t => RTrap t
               end.

(** [ttl::bump_stream_instance]: keeper maintenance of one stream. *)
Definition bump_stream_instance (stream_id : string) : SM unit :=
  let! present := shas DataKey.Config in
  do! throw_if (negb present) StreamNotFound;
  let! info := load in
  let! now := ledger_timestamp in
  bump_for_remaining (if 0 <? end_time info then sat_u64 (end_time info - now) else 0).

(** ** [events.rs] *)

Definition next_sequence : SM Z :=
  let! before := load in
  match checked_u64 (event_sequence before + 1) with
  | None => trap (PanicWithError (code ArithmeticOverflow))
  | Some next =>
      let! info := load in
      do! save (with_event_sequence next info);
      ret next
  end.

Definition assert_non_negative_amount (value : Z) : SM unit :=
  panic_if (value <? 0) (code InvalidAmount).

Definition ev_created (sender_ recipient_ token_ : Address)
    (rate start stop version : Z) : SM unit :=
  do! assert_non_negative_amount rate;
  let! seq := next_sequence in
  publish (Event.created sender_ seq recipient_ token_ rate start stop version).

Definition ev_withdrawn (recipient_ : Address) (amount total_withdrawn remaining : Z) : SM unit :=
  do! assert_non_negative_amount amount;
  do! assert_non_negative_amount total_withdrawn;
  do! assert_non_negative_amount remaining;
  let! seq := next_sequence in
  publish (Event.withdrawn recipient_ seq amount total_withdrawn remaining).

Definition ev_cancelled (sender_ : Address)
    (refund_amount withdrawn_so_far remaining_deposit : Z) : SM unit :=
  do! assert_non_negative_amount refund_amount;
  do! assert_non_negative_amount withdrawn_so_far;
  do! assert_non_negative_amount remaining_deposit;
  let! seq := next_sequence in
  publish (Event.cancelled sender_ seq refund_amount withdrawn_so_far remaining_deposit).

Definition ev_force_cancelled (sender_ : Address)
    (refund_amount withdrawn_so_far remaining_deposit : Z) : SM unit :=
  do! assert_non_negative_amount refund_amount;
  do! assert_non_negative_amount withdrawn_so_far;
  do! assert_non_negative_amount remaining_deposit;
  let! seq := next_sequence in
  publish (Event.force_cxl sender_ seq refund_amount withdrawn_so_far remaining_deposit).

Definition ev_paused (initiator : Address) (paused_at_ withdrawable_ : Z) : SM unit :=
  do! assert_non_negative_amount withdrawable_;
  let! seq := next_sequence in
  publish (Event.paused initiator seq paused_at_ withdrawable_).

Definition ev_resumed (initiator : Address) (resumed_at : Z) : SM unit :=
  let! seq := next_sequence in
  publish (Event.resumed initiator seq resumed_at).

Definition ev_topped_up (sender_ : Address) (amount new_balance : Z) : SM unit :=
  do! assert_non_negative_amount amount;
  do! assert_non_negative_amount new_balance;
  let! seq := next_sequence in
  publish (Event.topped_up sender_ seq amount new_balance).

Definition ev_topped_up_and_extended (caller : Address)
    (old_balance new_balance old_end_time new_end_time : Z) : SM unit :=
  do! assert_non_negative_amount old_balance;
  do! assert_non_negative_amount new_balance;
  let! seq := next_sequence in
  publish (Event.top_ext caller seq old_balance new_balance old_end_time new_end_time).

Definition ev_rate_changed (caller : Address) (old_rate new_rate : Z) : SM unit :=
  do! assert_non_negative_amount old_rate;
  do! assert_non_negative_amount new_rate;
  let! seq := next_sequence in
  publish (Event.rate_chg caller seq old_rate new_rate).

Definition ev_clawback (sender_ : Address) (amount : Z) : SM unit :=
  do! assert_non_negative_amount amount;
  let! seq := next_sequence in
  publish (Event.clawback sender_ seq amount).

Definition ev_recipient_transferred (old_recipient new_recipient : Address) : SM unit :=
  let! seq := next_sequence in
  publish (Event.xfer_rec old_recipient seq new_recipient).

Definition ev_operator_set (sender_ operator : Address) : SM unit :=
  let! seq := next_sequence in publish (Event.set_op sender_ operator seq).

Definition ev_operator_revoked (sender_ : Address) : SM unit :=
  let! seq := next_sequence in publish (Event.rm_op sender_ seq).

Definition ev_split_recipient_set (caller secondary : Address) (bps : Z) : SM unit :=
  let! seq := next_sequence in publish (Event.set_split caller secondary seq bps).

Definition ev_split_recipient_removed (caller : Address) : SM unit :=
  let! seq := next_sequence in publish (Event.rm_split caller seq).

Definition ev_cliff_configured (sender_ : Address) (time unlock : Z) : SM unit :=
  do! assert_non_negative_amount unlock;
  let! seq := next_sequence in publish (Event.set_cliff sender_ seq time unlock).

Definition ev_min_withdrawal_interval_set (sender_ : Address) (interval : Z) : SM unit :=
  let! seq := next_sequence in publish (Event.min_w_int sender_ seq interval).

Definition ev_keeper_ping (keeper : Address) (bounty : Z) : SM unit :=
  do! assert_non_negative_amount bounty;
  let! seq := next_sequence in publish (Event.StreamKeeperPing keeper seq bounty).

Definition ev_keeper_reward_pool_configured (caller reward_token : Address) (reward : Z)
  : SM unit :=
  do! assert_non_negative_amount reward;
  let! seq := next_sequence in publish (Event.keepercfg caller seq reward_token reward).

Definition ev_keeper_reward_pool_funded (funder reward_token : Address) (amount : Z)
  : SM unit :=
  do! assert_non_negative_amount amount;
  let! seq := next_sequence in publish (Event.keeperfnd funder seq reward_token amount).

Definition ev_keeper_reward_pool_withdrawn (caller reward_token : Address) (amount : Z)
  : SM unit :=
  do! assert_non_negative_amount amount;
  let! seq := next_sequence in publish (Event.keeper_wd caller seq reward_token amount).

Definition ev_emergency_paused (caller : Address) (at_time : Z) : SM unit :=
  let! seq := next_sequence in publish (Event.emg_pause caller seq at_time).

Definition ev_emergency_unpaused (caller : Address) (at_time : Z) : SM unit :=
  let! seq := next_sequence in publish (Event.emg_unps caller seq at_time).

Definition ev_cliff_reached (recipient_ : Address) (at_time unlock : Z) : SM unit :=
  do! assert_non_negative_amount unlock;
  let! seq := next_sequence in publish (Event.cliff_rch recipient_ seq at_time unlock).

Definition ev_stream_completed (recipient_ : Address) (total : Z) : SM unit :=
  do! assert_non_negative_amount total;
  let! seq := next_sequence in publish (Event.completed recipient_ seq total).

End State.
