(* ===== verification/StreamMath.v ===== *)
(** * DripStream: accrual arithmetic ([contracts/stream/src/math.rs])

    How much has streamed at a ledger time, as the contract computes it, and
    the exact integer function it is compared with. *)

From stdpp Require Import base numbers list option strings.
From Stdlib Require Import ZArith Lia.
From S2P Require Import Prelude Host Ttl Pause StreamData StreamState.
Import Error.

#[local] Open Scope Z_scope.
#[local] Open Scope sf_scope.

Section Math.
Context {T : Type}.
Abbreviation SM := (M DataKey.data_key T Event.stream_event stream_error).

(** 256-bit arithmetic of the host: an overflow traps. *)
Definition u256_op (z : Z) : SM Z :=
  if in_u256 z then ret z else trap HostFailure.

(** [value * multiplier / divisor] through a 256-bit intermediate. *)
Definition mul_div (value multiplier divisor : Z) : SM Z :=
  do! throw_if ((value <? 0) || (divisor =? 0)) ArithmeticOverflow;
  let! product := u256_op (value * multiplier) in
  ok_or (checked_u128 (product / divisor) ≫= checked_i128) ArithmeticOverflow.

Definition effective_now_of (info : StreamInfo) (now : Z) : Z :=
  if is_paused info then
    if (0 <? end_time info) && (end_time info <? paused_at info)
    then end_time info else paused_at info
  else if (0 <? end_time info) && (end_time info <? now) then end_time info
  else now.

(** Tokens streamed up to now, excluding paused time. *)
Definition streamed_amount (info : StreamInfo) : SM Z :=
  let! now := ledger_timestamp in
  if now <? start_time info then ret 0
  else
    let effective_now := effective_now_of info now in
    let! checkpoint := sget DataKey.RateCheckpoint in
    match checkpoint with
    | Some cp =>
        if effective_now <? at_ cp then ret 0
        else
          let! elapsed := ok_or (checked_u64 (effective_now - at_ cp)) ArithmeticOverflow in
          let! linear := mul_div (rate_per_second info) elapsed 1 in
          ok_or (checked_i128 (accrued cp + linear)) ArithmeticOverflow
    | None =>
        let! cliff_cfg := sget DataKey.CliffConfig in
        match cliff_cfg with
        | Some cfg =>
            if effective_now <? cliff_time cfg then ret 0
            else
              let! elapsed :=
                ok_or (checked_u64 (effective_now - cliff_time cfg)) ArithmeticOverflow in
              let! linear := mul_div (rate_per_second info) elapsed 1 in
              ok_or (checked_i128 (cliff_unlock_amount cfg + linear)) ArithmeticOverflow
        | None =>
            let! elapsed :=
              ok_or (checked_u64 (effective_now - start_time info)) ArithmeticOverflow in
            mul_div (rate_per_second info) elapsed 1
        end
    end.

Definition calculate_streamed_amount (rate elapsed : Z) : SM Z :=
  if (rate =? 0) || (elapsed =? 0) then ret 0
  else ok_or (checked_i128 (rate * elapsed)) ArithmeticOverflow.

Definition rate_duration_saturating (rate duration : Z) : Z :=
  if (rate =? 0) || (duration =? 0) then 0 else sat_i128 (rate * duration).

(** Tokens the recipient can withdraw now. *)
Definition withdrawable (info : StreamInfo) : SM Z :=
  let! streamed := streamed_amount info in
  ret (Z.max (sat_i128 (streamed - withdrawn info)) 0).

End Math.
