(* ===== verification/StreamOps.v ===== *)
(** * DripStream: settlement and lifecycle operations ([contracts/stream/src/lib.rs])

    [initialize], the money-moving operations (withdraw, cancel, clawback,
    top-up, extension, force-cancel) and the state machine (pause, resume, rate
    change, recipient transfer).  Each [_op] is the private method; the entry
    point of the same name without underscore runs it under the guard. *)

From stdpp Require Import base numbers list option strings.
From Stdlib Require Import ZArith Lia.
From S2P Require Import Prelude Host Ttl Pause StreamData StreamState StreamMath.
Import Error.

#[local] Open Scope Z_scope.
#[local] Open Scope sf_scope.

Definition MIN_STREAM_DURATION : Z := 60.
Definition MAX_STREAM_DURATION : Z := 3155760000.
Definition MAX_DESCRIPTION_LEN : Z := 128.
Definition DEFAULT_PAUSE_THRESHOLD_SECS : Z := 2592000.

Section Ops.
Context {T : Type} `{TC : TokenClient T}.
Abbreviation SM := (M DataKey.data_key T Event.stream_event stream_error).

(** ** Shared helpers *)

(** The pause gate on the loaded record, through the shared flag gate. *)
Definition require_not_paused (info : StreamInfo) : SM unit :=
  map_err (fun _ => NotPaused) (require_not_paused_flag (is_paused info)).

Definition require_sender_or_operator (caller sender_ : Address) : SM unit :=
  let! operator := sget DataKey.Operator in
  match operator with
  | Some op =>
      if addr_eqb caller sender_ || addr_eqb caller op then require_auth caller
      else throw NotAuthorized
  | None =>
      if negb (addr_eqb caller sender_) then throw NotAuthorized
      else require_auth caller
  end.

Definition auto_forward_address (recipient_ : Address) : SM Address :=
  let! fwd := sget DataKey.AutoForwardAddress in ret (default recipient_ fwd).

Definition cumulative_deposited (info : StreamInfo) : SM Z :=
  let! stored := sget DataKey.CumulativeDeposited in
  match stored with
  | Some total => ret total
  | None =>
      let! contract := contract_address in
      let! balance := token_balance (token info) contract in
      ok_or (checked_i128 (balance + withdrawn info)) ArithmeticOverflow
  end.

Definition add_cumulative_deposit (info : StreamInfo) (amount : Z) : SM unit :=
  let! current := cumulative_deposited info in
  let! total := ok_or (checked_i128 (current + amount)) ArithmeticOverflow in
  sset DataKey.CumulativeDeposited total.

(** Pay [to_send] out of escrow to the payout address, with the configured
    basis points of it to the secondary recipient. *)
Definition pay_recipient (info : StreamInfo) (to_send : Z) : SM unit :=
  let! contract := contract_address in
  let! split_opt := sget DataKey.SplitConfig in
  match split_opt with
  | Some split =>
      let! secondary_amount := mul_div to_send (split_bps split) 10000 in
      let! primary_amount :=
        ok_or (checked_i128 (to_send - secondary_amount)) ArithmeticOverflow in
      let! payout_recipient := auto_forward_address (recipient info) in
      do! (if 0 <? primary_amount
           then token_transfer (token info) contract payout_recipient primary_amount
           else ret tt);
      if 0 <? secondary_amount
      then token_transfer (token info) contract (secondary_recipient split) secondary_amount
      else ret tt
  | None =>
      let! payout_recipient := auto_forward_address (recipient info) in
      token_transfer (token info) contract payout_recipient to_send
  end.

(** ** Creation *)

Definition initialize (sender_ recipient_ token_ : Address) (rate start stop : Z)
    (clawback_enabled : bool) (force_cancel_pause_secs : Z) (is_regulated : bool)
    (description : option string) : SM unit :=
  let! has_config := shas DataKey.Config in
  do! panic_if has_config (code AlreadyInitialized);
  do! panic_if (rate <=? 0) (code InvalidAmount);
  do! panic_if (force_cancel_pause_secs =? 0) (code InvalidAmount);
  do! panic_if (is_zero_address recipient_ || addr_eqb recipient_ sender_)
        (code InvalidRecipient);
  do! panic_if ((0 <? stop) && (stop <=? start)) (code InvalidTimeRange);
  do! panic_if ((0 <? stop) && (stop - start <? MIN_STREAM_DURATION))
        (code StreamDurationTooShort);
  do! panic_if ((0 <? stop) && (MAX_STREAM_DURATION <? stop - start))
        (code InvalidTimeRange);
  do! panic_if (match description with
                | Some desc => MAX_DESCRIPTION_LEN <? Z.of_nat (String.length desc)
                | None => false
                end) (code DescriptionTooLong);
  do! panic_if ((0 <? stop) && negb (in_i128 (rate * (stop - start))))
        (code ArithmeticOverflow);
  let! now := ledger_timestamp in
  do! panic_if (start <? now) (code BackdatedStream);
  do! bump_for_remaining (sat_u64 (stop - now));
  let flags0 := 0 in
  let flags1 := if clawback_enabled then Z.lor flags0 FLAG_CLAWBACK_ENABLED else flags0 in
  let flags2 := if is_regulated then Z.lor flags1 FLAG_REGULATED_ASSET else flags1 in
  do! (match description with
       | Some desc => sset DataKey.StreamDescription desc
       | None => ret tt
       end);
  do! sset DataKey.StorageVersion CURRENT_STORAGE_VERSION;
  do! sset DataKey.ForceCancelPauseThresholdSecs force_cancel_pause_secs;
  do! sset DataKey.ImmutableConfig
        (mkImmutableConfig start stop token_ rate sender_ recipient_);
  let! contract := contract_address in
  let! initial_deposit :=
    (if 0 <? stop then i128_op (rate * (stop - start))
     else token_balance token_ contract) in
  do! sset DataKey.CumulativeDeposited initial_deposit;
  do! save (mkStreamInfo sender_ recipient_ token_ rate start stop 0 0 flags2 0 0);
  ev_created sender_ recipient_ token_ rate start stop CURRENT_STORAGE_VERSION.

(** ** Withdrawal *)

(** The [MinWithdrawalInterval] rate limit. *)
Definition check_withdrawal_interval : SM unit :=
  let! interval := sget DataKey.MinWithdrawalInterval in
  let min_interval := default 0 interval in
  if 0 <? min_interval then
    let! now := ledger_timestamp in
    let! last := sget DataKey.LastWithdrawalTime in
    let last_withdrawal := default 0 last in
    throw_if ((0 <? last_withdrawal) && (now <? sat_u64 (last_withdrawal + min_interval)))
      WithdrawalTooFrequent
  else ret tt.

(** One-time milestone events after a withdrawal. *)
Definition emit_cliff_reached (info : StreamInfo) (now : Z) : SM unit :=
  let! cliff_opt := sget DataKey.CliffConfig in
  match cliff_opt with
  | Some cliff =>
      let! reached := shas DataKey.CliffReached in
      if (cliff_time cliff <=? now) && negb reached then
        do! sset DataKey.CliffReached true;
        ev_cliff_reached (recipient info) now (cliff_unlock_amount cliff)
      else ret tt
  | None => ret tt
  end.

Definition emit_stream_completed (info : StreamInfo) (balance remaining new_withdrawn : Z)
  : SM unit :=
  let! done_ := shas DataKey.StreamCompleted in
  if (remaining =? 0) && ((0 <? end_time info) || (0 <? balance)) && negb done_ then
    do! sset DataKey.StreamCompleted true;
    ev_stream_completed (recipient info) new_withdrawn
  else ret tt.

Definition _withdraw (amount : Z) : SM Z :=
  do! throw_if (amount <=? 0) InvalidAmount;
  do! bump;
  let! info := load in
  do! assert_not_cancelled info;
  do! require_auth (recipient info);
  do! check_withdrawal_interval;
  let! available := withdrawable info in
  do! throw_if (available =? 0) NothingToWithdraw;
  let! contract := contract_address in
  let! balance := token_balance (token info) contract in
  let to_send := Z.min (Z.min amount available) balance in
  do! throw_if (to_send =? 0) StreamUnderfunded;
  let! new_withdrawn := ok_or (checked_i128 (withdrawn info + to_send)) ArithmeticOverflow in
  do! save (with_withdrawn new_withdrawn info);
  do! pay_recipient info to_send;
  let! now := ledger_timestamp in
  do! sset DataKey.LastWithdrawalTime now;
  let! remaining := ok_or (checked_i128 (balance - to_send)) ArithmeticOverflow in
  do! ev_withdrawn (recipient info) to_send new_withdrawn remaining;
  do! emit_cliff_reached info now;
  do! emit_stream_completed info balance remaining new_withdrawn;
  ret to_send.

Definition withdraw (amount : Z) : SM Z := with_guard (_withdraw amount).

(** Dry run of the validation of [withdraw]. *)
Definition validate_withdraw (amount : Z) : SM unit :=
  do! throw_if (amount <=? 0) InvalidAmount;
  let! info := load in
  do! assert_not_cancelled info;
  do! check_withdrawal_interval;
  let! available := withdrawable info in
  do! throw_if (available =? 0) NothingToWithdraw;
  let! contract := contract_address in
  let! balance := token_balance (token info) contract in
  let to_send := Z.min (Z.min amount available) balance in
  do! throw_if (to_send =? 0) StreamUnderfunded;
  do! ok_or (checked_i128 (withdrawn info + to_send)) ArithmeticOverflow;
  let! split_opt := sget DataKey.SplitConfig in
  match split_opt with
  | Some split =>
      let! secondary_amount := mul_div to_send (split_bps split) 10000 in
      do! ok_or (checked_i128 (to_send - secondary_amount)) ArithmeticOverflow;
      ret tt
  | None => ret tt
  end.

(** ** Cancellation *)

(** Settle both parties: the accrued remainder to the recipient side, the rest
    of the balance to the sender, and the record marked cancelled before any
    transfer.  Answers the refund and the total withdrawn. *)
Definition settle_cancel (info : StreamInfo) : SM (Z * Z) :=
  let! contract := contract_address in
  let! balance := token_balance (token info) contract in
  let! streamed := streamed_amount info in
  let! accrued_left := i128_op (streamed - withdrawn info) in
  let owed_to_recipient := Z.min (Z.max accrued_left 0) balance in
  let! rest := i128_op (balance - owed_to_recipient) in
  let refund_to_sender := Z.max rest 0 in
  let! total_withdrawn :=
    ok_or (checked_i128 (withdrawn info + owed_to_recipient)) ArithmeticOverflow in
  do! save (with_withdrawn total_withdrawn (mark_cancelled info));
  do! (if 0 <? owed_to_recipient then pay_recipient info owed_to_recipient else ret tt);
  do! (if 0 <? refund_to_sender
       then token_transfer (token info) contract (sender info) refund_to_sender
       else ret tt);
  ret (refund_to_sender, total_withdrawn).

Definition _cancel (caller : Address) : SM unit :=
  do! bump;
  let! info := load in
  do! assert_not_cancelled info;
  let! cfg_opt := sget DataKey.StreamConfig in
  do! throw_if (match cfg_opt with
                | Some cfg => negb (is_cancelable_flag cfg)
                | None => false
                end) StreamNotCancelable;
  do! require_sender_or_operator caller (sender info);
  let! settled := settle_cancel info in
  ev_cancelled (sender info) settled.1 settled.2 settled.1.

Definition cancel (caller : Address) : SM unit := with_guard (_cancel caller).

Definition _force_cancel : SM unit :=
  let! threshold := sget DataKey.ForceCancelPauseThresholdSecs in
  let pause_threshold_secs := default DEFAULT_PAUSE_THRESHOLD_SECS threshold in
  do! bump;
  let! info := load in
  do! assert_not_cancelled info;
  do! throw_if (negb (is_paused info)) NotPaused;
  let! now := ledger_timestamp in
  let paused_secs := sat_u64 (now - paused_at info) in
  do! throw_if (paused_secs <? pause_threshold_secs) PauseThresholdNotMet;
  do! require_auth (recipient info);
  let! settled := settle_cancel info in
  ev_force_cancelled (sender info) settled.1 settled.2 settled.1.

Definition force_cancel : SM unit := with_guard _force_cancel.

(** ** Pause and resume *)

Definition _pause (caller : Address) : SM unit :=
  do! bump;
  let! info := load in
  do! assert_not_cancelled info;
  do! throw_if (is_paused info) AlreadyPaused;
  do! require_sender_or_operator caller (sender info);
  let! now := ledger_timestamp in
  do! throw_if (now <? start_time info) StreamNotStarted;
  do! throw_if ((0 <? end_time info) && (end_time info <? now)) StreamEnded;
  let! w := withdrawable info in
  do! save (with_paused_at now (with_flags (Z.lor (flags info) FLAG_PAUSED) info));
  ev_paused caller now w.

Definition pause (caller : Address) : SM unit := with_guard (_pause caller).

(** Move an active rate checkpoint forward by the paused duration. *)
Definition shift_checkpoint (info : StreamInfo) (paused_duration : Z) : SM unit :=
  let! checkpoint := sget DataKey.RateCheckpoint in
  match checkpoint with
  | Some cp =>
      if at_ cp <=? paused_at info then
        let! shifted := ok_or (checked_u64 (at_ cp + paused_duration)) ArithmeticOverflow in
        sset DataKey.RateCheckpoint (mkRateCheckpoint (accrued cp) shifted)
      else ret tt
  | None => ret tt
  end.

(** [flags & !FLAG_PAUSED] on 32 bits. *)
Definition clear_paused (f : Z) : Z := Z.land f (u32_max - FLAG_PAUSED).

Definition _resume (caller : Address) : SM unit :=
  do! bump;
  let! info := load in
  do! assert_not_cancelled info;
  do! throw_if (negb (is_paused info)) NotPaused;
  do! require_sender_or_operator caller (sender info);
  let! now := ledger_timestamp in
  let! paused_duration := ok_or (checked_u64 (now - paused_at info)) ArithmeticOverflow in
  do! shift_checkpoint info paused_duration;
  do! throw_if (MAX_PAUSE_SECS <? paused_duration) PauseThresholdNotMet;
  let! new_start := ok_or (checked_u64 (start_time info + paused_duration)) ArithmeticOverflow in
  let resumed := with_paused_at 0 (with_flags (clear_paused (flags info))
                   (with_start_time new_start info)) in
  let! updated :=
    (if 0 <? end_time info then
       let! new_end := ok_or (checked_u64 (end_time info + paused_duration))
                         ArithmeticOverflow in
       ret (with_end_time new_end resumed)
     else ret resumed) in
  do! save updated;
  do! (if 0 <? end_time updated
       then bump_for_remaining (sat_u64 (end_time updated - now)) else ret tt);
  ev_resumed caller now.

Definition resume (caller : Address) : SM unit := with_guard (_resume caller).

(** ** Rate change *)

(** Where the new rate takes over and what has accrued there. *)
Definition rate_checkpoint_for (info : StreamInfo) (cliff_cfg : option CliffConfig)
    (change_time accrued_now : Z) : RateCheckpoint :=
  match cliff_cfg with
  | Some cfg =>
      if change_time <? cliff_time cfg
      then mkRateCheckpoint (cliff_unlock_amount cfg) (cliff_time cfg)
      else mkRateCheckpoint accrued_now change_time
  | None =>
      if change_time <? start_time info then mkRateCheckpoint 0 (start_time info)
      else mkRateCheckpoint accrued_now change_time
  end.

Definition _change_rate (caller : Address) (new_rate : Z) : SM unit :=
  do! throw_if (new_rate <=? 0) InvalidAmount;
  let! info := load in
  do! assert_not_cancelled info;
  do! require_sender_or_operator caller (sender info);
  let! now := ledger_timestamp in
  do! throw_if ((0 <? end_time info) && (end_time info <=? now)) StreamEnded;
  let! accrued_now := streamed_amount info in
  let change_time := if is_paused info then paused_at info else now in
  let! cliff_cfg := sget DataKey.CliffConfig in
  let cp := rate_checkpoint_for info cliff_cfg change_time accrued_now in
  do! (if (0 <? end_time info) && (at_ cp <? end_time info) then
         let! remaining := ok_or (checked_u64 (end_time info - at_ cp)) ArithmeticOverflow in
         let! future := ok_or (checked_i128 (new_rate * remaining)) ArithmeticOverflow in
         do! ok_or (checked_i128 (accrued cp + future)) ArithmeticOverflow;
         ret tt
       else ret tt);
  do! bump;
  do! save (with_rate new_rate info);
  do! sset DataKey.RateCheckpoint cp;
  ev_rate_changed caller (rate_per_second info) new_rate.

Definition change_rate (caller : Address) (new_rate : Z) : SM unit :=
  with_guard (_change_rate caller new_rate).

(** ** Funding *)

Definition _top_up (caller : Address) (amount : Z) : SM unit :=
  do! throw_if (amount <=? 0) InvalidAmount;
  let! info := load in
  do! require_auth caller;
  do! bump;
  do! assert_not_cancelled info;
  let! now := ledger_timestamp in
  do! throw_if ((0 <? end_time info) && (end_time info <=? now)) StreamEnded;
  let! contract := contract_address in
  do! add_cumulative_deposit info amount;
  do! token_transfer (token info) caller contract amount;
  let! new_balance := token_balance (token info) contract in
  ev_topped_up caller amount new_balance.

Definition top_up (caller : Address) (amount : Z) : SM unit :=
  with_guard (_top_up caller amount).

Definition _extend_duration (caller : Address) (extra : Z) : SM unit :=
  do! throw_if (extra =? 0) InvalidTimeRange;
  do! bump;
  let! info := load in
  do! assert_not_cancelled info;
  do! require_sender_or_operator caller (sender info);
  do! throw_if (end_time info =? 0) InvalidTimeRange;
  let! required_deposit :=
    ok_or (checked_i128 (extra * rate_per_second info)) ArithmeticOverflow in
  let! contract := contract_address in
  do! add_cumulative_deposit info required_deposit;
  do! token_transfer (token info) caller contract required_deposit;
  let! new_end := ok_or (checked_u64 (end_time info + extra)) ArithmeticOverflow in
  do! save (with_end_time new_end info);
  let! now := ledger_timestamp in
  do! bump_for_remaining (sat_u64 (new_end - now));
  let! new_balance := token_balance (token info) contract in
  ev_topped_up caller required_deposit new_balance.

Definition extend_duration (caller : Address) (extra : Z) : SM unit :=
  with_guard (_extend_duration caller extra).

Definition _top_up_and_extend (caller : Address) (amount extra : Z) : SM unit :=
  do! throw_if (amount <=? 0) InvalidAmount;
  do! throw_if (extra =? 0) InvalidTimeRange;
  let! info := load in
  do! require_sender_or_operator caller (sender info);
  do! bump;
  do! assert_not_cancelled info;
  do! throw_if (end_time info =? 0) InvalidTimeRange;
  let! contract := contract_address in
  let! old_balance := token_balance (token info) contract in
  do! add_cumulative_deposit info amount;
  do! token_transfer (token info) caller contract amount;
  let! new_end := ok_or (checked_u64 (end_time info + extra)) ArithmeticOverflow in
  do! save (with_end_time new_end info);
  let! now := ledger_timestamp in
  do! bump_for_remaining (sat_u64 (new_end - now));
  let! new_balance := token_balance (token info) contract in
  ev_topped_up_and_extended caller old_balance new_balance (end_time info) new_end.

Definition top_up_and_extend (caller : Address) (amount extra : Z) : SM unit :=
  with_guard (_top_up_and_extend caller amount extra).

(** ** Clawback and recipient transfer *)

Definition _clawback (caller : Address) : SM Z :=
  do! bump;
  let! info := load in
  do! assert_not_cancelled info;
  do! require_not_paused info;
  do! throw_if (negb (is_clawback_enabled info)) ClawbackDisabled;
  do! require_sender_or_operator caller (sender info);
  let! streamed := streamed_amount info in
  let! accrued_left := i128_op (streamed - withdrawn info) in
  let owed := Z.max accrued_left 0 in
  let! contract := contract_address in
  let! balance := token_balance (token info) contract in
  let! rest := i128_op (balance - owed) in
  let amount := Z.max rest 0 in
  do! (if 0 <? amount then token_transfer (token info) contract (sender info) amount
       else ret tt);
  do! ev_clawback caller amount;
  ret amount.

Definition clawback (caller : Address) : SM Z := with_guard (_clawback caller).

Definition _transfer_recipient (new_recipient : Address) : SM unit :=
  do! bump;
  let! info := load in
  do! assert_not_cancelled info;
  do! require_auth (recipient info);
  do! throw_if (is_zero_address new_recipient || addr_eqb new_recipient (recipient info))
        InvalidRecipient;
  let! now := ledger_timestamp in
  do! throw_if ((0 <? end_time info) && (end_time info <=? now)) StreamEnded;
  do! save (with_recipient new_recipient info);
  do! sremove DataKey.AutoForwardAddress;
  ev_recipient_transferred (recipient info) new_recipient.

Definition transfer_recipient (new_recipient : Address) : SM unit :=
  with_guard (_transfer_recipient new_recipient).

End Ops.
