(* ===== verification/StreamAdmin.v ===== *)
(** * DripStream: configuration, keeper pool and views ([contracts/stream/src/lib.rs])

    Operator delegation, payout forwarding and splitting, cliff and rate-limit
    configuration, metadata, the emergency flag, the keeper reward pool and the
    read-only entry points. *)

From stdpp Require Import base numbers list option strings.
From Stdlib Require Import ZArith Lia.
From S2P Require Import Prelude Host Ttl Pause StreamData StreamState StreamMath StreamOps.
Import Error.

#[local] Open Scope Z_scope.
#[local] Open Scope sf_scope.

Section Admin.
Context {T : Type} `{TC : TokenClient T}.
Abbreviation SM := (M DataKey.data_key T Event.stream_event stream_error).

(** ** Emergency flag *)

Definition is_emergency_paused : SM bool := Pause.is_paused DataKey.EmergencyPaused.

Definition emergency_pause (caller : Address) : SM unit :=
  do! require_auth caller;
  let! halted := is_emergency_paused in
  do! throw_if halted AlreadyPaused;
  do! bump;
  do! ignore_result (set_paused DataKey.EmergencyPaused true);
  let! now := ledger_timestamp in
  ev_emergency_paused caller now.

Definition emergency_unpause (caller : Address) : SM unit :=
  do! require_auth caller;
  let! halted := is_emergency_paused in
  do! throw_if (negb halted) NotPaused;
  do! bump;
  do! ignore_result (set_paused DataKey.EmergencyPaused false);
  let! now := ledger_timestamp in
  ev_emergency_unpaused caller now.

(** ** Keeper reward pool *)

Definition configure_keeper_reward_pool (caller reward_token : Address) (reward : Z)
  : SM unit :=
  with_guard (
    let! info := load in
    do! require_sender_or_operator caller (sender info);
    do! assert_not_cancelled info;
    do! throw_if (reward <=? 0) InvalidAmount;
    do! throw_if (is_zero_address reward_token || addr_eqb reward_token (token info))
          InvalidKeeperRewardToken;
    let! contract := contract_address in
    let! probe := token_try_balance reward_token contract in
    do! throw_if (negb (is_some probe)) InvalidKeeperRewardToken;
    let! existing := sget DataKey.KeeperRewardPool in
    let! balance :=
      match existing with
      | Some pool =>
          if addr_eqb (kp_token pool) reward_token then ret (kp_balance pool)
          else throw InvalidKeeperRewardToken
      | None => ret 0
      end in
    do! bump;
    do! sset DataKey.KeeperRewardPool (mkStreamKeeperRewardPool reward_token reward balance);
    ev_keeper_reward_pool_configured caller reward_token reward).

Definition fund_keeper_reward_pool (caller : Address) (amount : Z) : SM unit :=
  with_guard (
    let! info := load in
    do! require_sender_or_operator caller (sender info);
    do! assert_not_cancelled info;
    do! throw_if (amount <=? 0) InvalidAmount;
    let! stored := sget DataKey.KeeperRewardPool in
    let! pool := ok_or stored KeeperRewardPoolNotConfigured in
    let! new_pool_balance := ok_or (checked_i128 (kp_balance pool + amount))
                               ArithmeticOverflow in
    let! contract := contract_address in
    let! before := token_balance (kp_token pool) contract in
    let! expected := ok_or (checked_i128 (before + amount)) ArithmeticOverflow in
    do! sset DataKey.KeeperRewardPool
          (mkStreamKeeperRewardPool (kp_token pool) (kp_reward_per_ping pool)
             new_pool_balance);
    do! bump;
    do! token_transfer (kp_token pool) caller contract amount;
    let! after := token_balance (kp_token pool) contract in
    do! throw_if (negb (after =? expected)) KeeperRewardTransferFailed;
    ev_keeper_reward_pool_funded caller (kp_token pool) amount).

Definition withdraw_keeper_reward_pool (caller : Address) (amount : Z) : SM unit :=
  with_guard (
    let! info := load in
    do! require_sender_or_operator caller (sender info);
    do! throw_if (amount <=? 0) InvalidAmount;
    let! stored := sget DataKey.KeeperRewardPool in
    let! pool := ok_or stored KeeperRewardPoolNotConfigured in
    let! left_ := ok_or (checked_i128 (kp_balance pool - amount))
                    InsufficientKeeperRewardPool in
    let! contract := contract_address in
    let! contract_balance := token_balance (kp_token pool) contract in
    let! expected := ok_or (checked_i128 (contract_balance - amount))
                       InsufficientKeeperRewardPool in
    let! caller_balance := token_balance (kp_token pool) caller in
    let! expected_caller := ok_or (checked_i128 (caller_balance + amount))
                              ArithmeticOverflow in
    do! sset DataKey.KeeperRewardPool
          (mkStreamKeeperRewardPool (kp_token pool) (kp_reward_per_ping pool) left_);
    do! bump;
    do! token_transfer (kp_token pool) contract caller amount;
    let! after := token_balance (kp_token pool) contract in
    let! caller_after := token_balance (kp_token pool) caller in
    do! throw_if (negb (after =? expected) || negb (caller_after =? expected_caller))
          KeeperRewardTransferFailed;
    ev_keeper_reward_pool_withdrawn caller (kp_token pool) amount).

Definition keeper_reward_pool : SM (option StreamKeeperRewardPool) :=
  sget DataKey.KeeperRewardPool.

Definition keeper_ping (keeper : Address) : SM Z :=
  with_guard (
    do! require_auth keeper;
    let! info := load in
    do! assert_not_cancelled info;
    let! stored := sget DataKey.KeeperRewardPool in
    let! pool := ok_or stored KeeperRewardPoolNotConfigured in
    do! throw_if (kp_balance pool <? kp_reward_per_ping pool) InsufficientKeeperRewardPool;
    let! ledger := ledger_sequence in
    let! last_ping := sget DataKey.LastKeeperPingLedger in
    do! throw_if (match last_ping with
                  | Some last => ledger <? sat_u32 (last + MIN_TTL_LEDGERS)
                  | None => false
                  end) KeeperPingTooFrequent;
    let bounty_amount := kp_reward_per_ping pool in
    let! left_ := ok_or (checked_i128 (kp_balance pool - bounty_amount))
                    ArithmeticOverflow in
    do! sset DataKey.KeeperRewardPool
          (mkStreamKeeperRewardPool (kp_token pool) (kp_reward_per_ping pool) left_);
    do! sset DataKey.LastKeeperPingLedger ledger;
    let! now := ledger_timestamp in
    do! bump_for_remaining (if 0 <? end_time info then sat_u64 (end_time info - now) else 0);
    let! contract := contract_address in
    let! contract_balance := token_balance (kp_token pool) contract in
    let! expected := ok_or (checked_i128 (contract_balance - bounty_amount))
                       InsufficientKeeperRewardPool in
    let! keeper_balance := token_balance (kp_token pool) keeper in
    let! expected_keeper := ok_or (checked_i128 (keeper_balance + bounty_amount))
                              ArithmeticOverflow in
    do! token_transfer (kp_token pool) contract keeper bounty_amount;
    let! after := token_balance (kp_token pool) contract in
    let! keeper_after := token_balance (kp_token pool) keeper in
    do! throw_if (negb (after =? expected) || negb (keeper_after =? expected_keeper))
          KeeperRewardTransferFailed;
    do! ev_keeper_ping keeper bounty_amount;
    ret bounty_amount).

(** ** Payout forwarding and splitting *)

Definition set_auto_forward_address (address : Address) : SM unit :=
  with_guard (
    do! bump;
    let! info := load in
    do! assert_not_cancelled info;
    do! require_auth (recipient info);
    do! throw_if (is_zero_address address) InvalidRecipient;
    if addr_eqb address (recipient info) then sremove DataKey.AutoForwardAddress
    else sset DataKey.AutoForwardAddress address).

(** Sender, operator or recipient. *)
Definition split_authorized (info : StreamInfo) (caller : Address) : SM bool :=
  let! operator := sget DataKey.Operator in
  let is_sender := addr_eqb caller (sender info) in
  let is_op := match operator with Some op => addr_eqb caller op | None => false end in
  let is_recipient := addr_eqb caller (recipient info) in
  ret (is_sender || is_op || is_recipient).

Definition _set_split_recipient (caller secondary : Address) (bps : Z) : SM unit :=
  do! bump;
  let! info := load in
  do! assert_not_cancelled info;
  let! allowed := split_authorized info caller in
  do! throw_if (negb allowed) NotAuthorized;
  do! require_auth caller;
  do! throw_if ((bps =? 0) || (10000 <=? bps)) InvalidAmount;
  do! throw_if (is_zero_address secondary || addr_eqb secondary (sender info)
                || addr_eqb secondary (recipient info)) InvalidRecipient;
  do! sset DataKey.SplitConfig (mkSplitConfig secondary bps);
  ev_split_recipient_set caller secondary bps.

Definition set_split_recipient (caller secondary : Address) (bps : Z) : SM unit :=
  with_guard (_set_split_recipient caller secondary bps).

Definition _remove_split_recipient (caller : Address) : SM unit :=
  do! bump;
  let! info := load in
  do! assert_not_cancelled info;
  let! allowed := split_authorized info caller in
  do! throw_if (negb allowed) NotAuthorized;
  do! require_auth caller;
  do! sremove DataKey.SplitConfig;
  ev_split_recipient_removed caller.

Definition remove_split_recipient (caller : Address) : SM unit :=
  with_guard (_remove_split_recipient caller).

(** ** Operator delegation *)

Definition set_operator (caller operator : Address) : SM unit :=
  let! info := load in
  do! assert_not_cancelled info;
  do! throw_if (negb (addr_eqb caller (sender info))) NotAuthorized;
  do! require_auth caller;
  do! bump;
  let! existing := sget DataKey.Operator in
  match existing with
  | Some op =>
      if addr_eqb op operator then ret tt
      else do! ev_operator_revoked caller;
           do! sset DataKey.Operator operator;
           ev_operator_set caller operator
  | None =>
      do! sset DataKey.Operator operator;
      ev_operator_set caller operator
  end.

Definition revoke_operator (caller : Address) : SM unit :=
  let! info := load in
  do! assert_not_cancelled info;
  do! throw_if (negb (addr_eqb caller (sender info))) NotAuthorized;
  do! require_auth caller;
  do! bump;
  do! sremove DataKey.Operator;
  ev_operator_revoked caller.

(** ** Metadata *)

Definition set_stream_title (caller : Address) (title : string) : SM unit :=
  let! info := load in
  do! assert_not_cancelled info;
  do! throw_if (negb (addr_eqb caller (sender info))) NotAuthorized;
  do! require_auth caller;
  do! bump;
  sset DataKey.StreamTitle title.

Definition set_reference_tag (caller : Address) (tag : string) : SM unit :=
  let! info := load in
  do! assert_not_cancelled info;
  do! throw_if (negb (addr_eqb caller (sender info))) NotAuthorized;
  do! require_auth caller;
  do! bump;
  sset DataKey.ReferenceTag tag.

(** ** Cliff, rate limit and cancelability *)

Definition _set_cliff (caller : Address) (time unlock : Z) : SM unit :=
  do! bump;
  let! info := load in
  do! assert_not_cancelled info;
  do! require_sender_or_operator caller (sender info);
  do! throw_if (unlock <? 0) InvalidAmount;
  do! throw_if ((time <? start_time info) || ((0 <? end_time info) && (end_time info <? time)))
        InvalidTimeRange;
  do! sset DataKey.CliffConfig (mkCliffConfig time unlock);
  ev_cliff_configured caller time unlock.

Definition set_cliff (caller : Address) (time unlock : Z) : SM unit :=
  with_guard (_set_cliff caller time unlock).

Definition _set_min_withdrawal_interval (caller : Address) (interval : Z) : SM unit :=
  do! bump;
  let! info := load in
  do! assert_not_cancelled info;
  do! require_sender_or_operator caller (sender info);
  do! sset DataKey.MinWithdrawalInterval interval;
  ev_min_withdrawal_interval_set caller interval.

Definition set_min_withdrawal_interval (caller : Address) (interval : Z) : SM unit :=
  with_guard (_set_min_withdrawal_interval caller interval).

Definition set_stream_config (caller : Address) (config : StreamConfig) : SM unit :=
  with_guard (
    do! bump;
    let! info := load in
    do! assert_not_cancelled info;
    do! require_sender_or_operator caller (sender info);
    sset DataKey.StreamConfig config).

Definition set_cancelable (caller : Address) (cancelable : bool) : SM unit :=
  set_stream_config caller (mkStreamConfig cancelable).

(** ** Read-only entry points *)

Definition withdrawable_view : SM Z :=
  let! info := load in
  if is_cancelled info then ret 0 else withdrawable info.

Definition streamed_total : SM Z :=
  let! info := load in
  if is_cancelled info then ret 0 else streamed_amount info.

Definition total_streamed : SM Z := streamed_total.

Definition cumulative_deposited_view : SM Z :=
  let! info := try_load in cumulative_deposited info.

Definition clawback_enabled : SM bool := let! info := load in ret (is_clawback_enabled info).
Definition info_view : SM StreamInfo := load.
Definition sender_view : SM Address := let! info := load in ret (sender info).
Definition recipient_view : SM Address := let! info := load in ret (recipient info).
Definition token_view : SM Address := let! info := load in ret (token info).
Definition rate_per_second_view : SM Z := let! info := load in ret (rate_per_second info).
Definition is_open_ended : SM bool := let! info := load in ret (end_time info =? 0).
Definition event_sequence_view : SM Z := let! info := load in ret (event_sequence info).
Definition storage_version : SM Z :=
  let! v := sget DataKey.StorageVersion in ret (default 0 v).
Definition operator_view : SM (option Address) := sget DataKey.Operator.
Definition split_recipient : SM (option SplitConfig) := sget DataKey.SplitConfig.
Definition auto_forward_address_view : SM (option Address) := sget DataKey.AutoForwardAddress.
Definition stream_title : SM (option string) := sget DataKey.StreamTitle.
Definition reference_tag : SM (option string) := sget DataKey.ReferenceTag.
Definition description : SM (option string) := sget DataKey.StreamDescription.
Definition cliff_config : SM (option CliffConfig) := sget DataKey.CliffConfig.
Definition stream_config : SM (option StreamConfig) := sget DataKey.StreamConfig.
Definition min_withdrawal_interval : SM Z :=
  let! v := sget DataKey.MinWithdrawalInterval in ret (default 0 v).
Definition last_withdrawal_time : SM Z :=
  let! v := sget DataKey.LastWithdrawalTime in ret (default 0 v).
Definition is_cancelable : SM bool :=
  let! cfg := sget DataKey.StreamConfig in
  ret (match cfg with Some c => is_cancelable_flag c | None => true end).

Definition immutable_config : SM ImmutableConfig :=
  let! stored := sget DataKey.ImmutableConfig in
  match stored with
  | Some cfg => ret cfg
  | None =>
      let! info := try_load in
      ret (mkImmutableConfig (start_time info) (end_time info) (token info)
             (rate_per_second info) (sender info) (recipient info))
  end.

Definition status_of (info : StreamInfo) (now : Z) : StreamStatus :=
  if is_cancelled info then Cancelled
  else if StreamData.is_paused info then Paused
  else if now <? start_time info then Pending
  else if (0 <? end_time info) && (end_time info <=? now) then Completed
  else Active.

Definition get_summary : SM StreamSummary :=
  let! info := load in
  let! now := ledger_timestamp in
  let status := status_of info now in
  let! streamed := unwrap_or streamed_total 0 in
  let! total_amount :=
    (if start_time info <? end_time info then
       i128_op ((end_time info - start_time info) * rate_per_second info)
     else
       let! contract := contract_address in
       let! balance := token_balance (token info) contract in
       i128_op (balance + withdrawn info)) in
  ret (mkStreamSummary (sender info) (recipient info) (token info) total_amount streamed
         status (start_time info) (end_time info)).

End Admin.
