(* ===== verification/StreamFacts.v ===== *)
(** * DripStream: characterisations of the shared operations

    The exact integer meaning of the accrual arithmetic, and inversion lemmas
    for the helpers every operation uses, registered with [inv_ok]. *)

From stdpp Require Import base numbers list option strings.
From Stdlib Require Import ZArith Lia.
From S2P Require Import Prelude Host Ttl Pause StreamData StreamState StreamMath StreamOps.
Import Error.

#[local] Open Scope Z_scope.
#[local] Open Scope sf_scope.

(** ** The ideal accrual function

    Value accrues linearly from a base point, the last rate change, else the
    cliff, else the start, up to the last counted second: the moment of the
    pause of a paused stream, else now, and never past the end of a bounded
    stream. The reference is written on its own terms and calls nothing of
    the code. *)

Definition last_second (info : StreamInfo) (now : Z) : Z :=
  let t := if StreamData.is_paused info then paused_at info else now in
  if 0 <? end_time info then Z.min t (end_time info) else t.

Definition accrual_base (info : StreamInfo) (cp : option RateCheckpoint)
    (cliff : option CliffConfig) : Z * Z :=
  match cp with
  | Some c => (accrued c, at_ c)
  | None => match cliff with
            | Some k => (cliff_unlock_amount k, cliff_time k)
            | None => (0, start_time info)
            end
  end.

Definition streamed_at (info : StreamInfo) (cp : option RateCheckpoint)
    (cliff : option CliffConfig) (now : Z) : Z :=
  let '(base, from) := accrual_base info cp cliff in
  let e := last_second info now in
  if (now <? start_time info) || (e <? from) then 0
  else base + rate_per_second info * (e - from).

(** The clock the code computes is that second, on every record. *)
Lemma effective_now_is_last_second info now :
  effective_now_of info now = last_second info now.
Proof.
  unfold effective_now_of, last_second. destruct (StreamData.is_paused info);
    repeat case_match; breflect; lia.
Qed.

(** Well-formed records: the machine ranges, and the order of the times. *)
Record wf_info (info : StreamInfo) : Prop := {
  wf_rate : 0 < rate_per_second info <= i128_max;
  wf_withdrawn : 0 <= withdrawn info <= i128_max;
  wf_start : U64 (start_time info);
  wf_end : U64 (end_time info);
  wf_span : end_time info = 0 \/ start_time info + MIN_STREAM_DURATION <= end_time info;
  wf_paused : StreamData.is_paused info = true ->
    start_time info <= paused_at info /\ U64 (paused_at info) /\
    (end_time info = 0 \/ paused_at info <= end_time info);
  wf_seq : U64 (event_sequence info);
  wf_flags : 0 <= flags info < 16
}.

Definition wf_base (base from : Z) : Prop := 0 <= base <= i128_max /\ U64 from.

Definition wf_accrual (cp : option RateCheckpoint) (cliff : option CliffConfig) : Prop :=
  match cp with Some c => wf_base (accrued c) (at_ c) | None => True end /\
  match cliff with
  | Some k => wf_base (cliff_unlock_amount k) (cliff_time k)
  | None => True
  end.

Section Facts.
Context {T : Type}.
Abbreviation SM := (M DataKey.data_key T Event.stream_event stream_error).
Implicit Types w : World DataKey.data_key T Event.stream_event.

(** *** Arithmetic *)

Lemma mul_div_eval v m d env w :
  0 <= v <= i128_max -> 0 <= m <= u128_max -> 0 < d <= u128_max ->
  mul_div (T := T) v m d env w =
    (if in_i128 (v * m / d) then ROk (v * m / d) w else RErr ArithmeticOverflow w).
Proof.
  intros Hv Hm Hd. unfold mul_div, u256_op.
  assert (Hvd : (v <? 0) || (d =? 0) = false) by (apply orb_false_iff; lia).
  assert (Hp : in_u256 (v * m) = true).
  { apply in_range_spec. munfold. nia. }
  assert (Hq : 0 <= v * m / d) by (apply Z.div_pos; nia).
  rewrite Hvd, Hp. unfold bind, throw_if, ret, ok_or.
  unfold checked_u128, checked_i128, checked.
  destruct (in_i128 (v * m / d)) eqn:Hi.
  - assert (in_u128 (v * m / d) = true) as ->.
    { apply in_range_spec in Hi. apply in_range_spec. mlia. }
    cbn. by rewrite Hi.
  - destruct (in_u128 (v * m / d)); cbn; [by rewrite Hi|done].
Qed.

Lemma mul_div_ok v m d env w r w' :
  mul_div (T := T) v m d env w = ROk r w' ->
  0 <= v /\ d <> 0 /\ I128 r /\ r = v * m / d /\ w' = w.
Proof.
  unfold mul_div, u256_op. intros H. inv_ok. breflect.
  destruct (checked_u128 _) as [q|] eqn:Hq; [|discriminate]. cbn in *.
  apply checked_Some in Hq as [_ ->]. checked_inv. done.
Qed.

Lemma mul_div_1 v m env w r w' :
  mul_div (T := T) v m 1 env w = ROk r w' -> 0 <= v /\ I128 r /\ r = v * m /\ w' = w.
Proof. intros H%mul_div_ok. rewrite Z.div_1_r in H. tauto. Qed.

Lemma streamed_ok info env w v w' :
  streamed_amount (T := T) info env w = ROk v w' ->
  w' = w /\ I128 v /\
  v = streamed_at info (w_store w DataKey.RateCheckpoint) (w_store w DataKey.CliffConfig)
        (timestamp env).
Proof.
  unfold streamed_amount, streamed_at, accrual_base.
  rewrite <- effective_now_is_last_second. intros H. inv_ok.
  all: repeat match goal with
       | H : mul_div _ _ 1 _ _ = ROk _ _ |- _ => apply mul_div_1 in H as (? & ? & -> & ->)
       end; checked_inv; cbn [orb].
  - split_and!; [done|mlia|]. by repeat case_match.
  - split_and!; [done|mlia|done].
  - done.
  - split_and!; [done|mlia|done].
  - done.
  - case_match; breflect; [munfold; lia|]. split_and!; [done|done|lia].
Qed.

(** The exact outcome on well-formed data: the ideal value when it fits an
    [i128], [ArithmeticOverflow] otherwise; never a trap. *)
Lemma streamed_eval info env w :
  wf_info info -> U64 (timestamp env) ->
  wf_accrual (w_store w DataKey.RateCheckpoint) (w_store w DataKey.CliffConfig) ->
  let v := streamed_at info (w_store w DataKey.RateCheckpoint)
             (w_store w DataKey.CliffConfig) (timestamp env) in
  streamed_amount (T := T) info env w =
    (if in_i128 v then ROk v w else RErr ArithmeticOverflow w).
Proof.
  intros Hwf Ht [Hcp Hcl]. cbv zeta. unfold streamed_amount, streamed_at, accrual_base.
  rewrite <- effective_now_is_last_second.
  destruct Hwf as [Hr _ Hst Hen Hsp Hpa _ _].
  assert (He : U64 (effective_now_of info (timestamp env)) /\
    (start_time info <= timestamp env ->
     start_time info <= effective_now_of info (timestamp env))).
  { unfold effective_now_of. destruct (StreamData.is_paused info);
      repeat case_match; breflect; unfold MIN_STREAM_DURATION in *; munfold; intuition lia. }
  destruct He as [He1 He2]. unfold bind at 1. cbn [ledger_timestamp]. revert He1 He2.
  generalize (effective_now_of info (timestamp env)) as e. intros e He1 He2.
  destruct (timestamp env <? start_time info) eqn:Hlt; cbn [orb].
  { by repeat case_match. }
  breflect. specialize (He2 Hlt).
  assert (Hrun : forall base from, 0 <= base <= i128_max -> U64 from -> from <= e ->
    bind (ok_or (checked_u64 (e - from)) ArithmeticOverflow) (fun elapsed =>
      bind (mul_div (rate_per_second info) elapsed 1) (fun linear =>
        ok_or (checked_i128 (base + linear)) ArithmeticOverflow)) env w =
    (if in_i128 (base + rate_per_second info * (e - from))
     then ROk (T := T) (base + rate_per_second info * (e - from)) w
     else RErr ArithmeticOverflow w)).
  { intros base from Hb Hf Hle. rewrite checked_u64_in by mlia.
    unfold bind, ok_or, ret. rewrite mul_div_eval, Z.div_1_r by mlia.
    destruct (in_i128 (rate_per_second info * (e - from))) eqn:Hi.
    - unfold checked_i128, checked. by destruct (in_i128 (base + _)).
    - assert (in_i128 (base + rate_per_second info * (e - from)) = false) as ->; [|done].
      apply not_true_iff_false. apply not_true_iff_false in Hi.
      intros Hs. apply Hi. apply in_range_spec in Hs. apply in_range_spec. munfold. nia. }
  unfold bind at 1. cbn [sget].
  destruct (w_store w DataKey.RateCheckpoint) as [c|] eqn:Hc.
  { destruct Hcp. destruct (e <? at_ c) eqn:Hb; [done|]. breflect. by apply Hrun. }
  unfold bind at 1. cbn [sget].
  destruct (w_store w DataKey.CliffConfig) as [k|] eqn:Hk.
  { destruct Hcl. destruct (e <? cliff_time k) eqn:Hb; [done|]. breflect. by apply Hrun. }
  assert (e <? start_time info = false) as -> by lia.
  rewrite checked_u64_in by mlia. unfold bind, ok_or, ret.
  rewrite mul_div_eval, Z.div_1_r by mlia. done.
Qed.

(** A started stream without checkpoint or cliff accrues by the plain product
    [calculate_streamed_amount] charges elsewhere. *)
Lemma streamed_linear info env w :
  wf_info info -> U64 (timestamp env) -> start_time info <= timestamp env ->
  w_store w DataKey.RateCheckpoint = None -> w_store w DataKey.CliffConfig = None ->
  streamed_amount (T := T) info env w =
    calculate_streamed_amount (rate_per_second info)
      (last_second info (timestamp env) - start_time info) env w.
Proof.
  intros Hwf Ht Hst Hcp Hcl. rewrite streamed_eval by (done || by rewrite Hcp, Hcl).
  rewrite Hcp, Hcl. unfold streamed_at, accrual_base, calculate_streamed_amount.
  assert (start_time info <= last_second info (timestamp env)).
  { destruct Hwf as [Hr _ Hs He Hsp Hpa _ _]. unfold last_second, MIN_STREAM_DURATION in *.
    destruct (StreamData.is_paused info); repeat case_match; breflect; munfold; intuition lia. }
  assert ((timestamp env <? start_time info) ||
    (last_second info (timestamp env) <? start_time info) = false) as ->
    by (apply orb_false_iff; lia).
  rewrite Z.add_0_l. destruct (_ || _) eqn:Hz.
  - apply orb_true_iff in Hz.
    assert (rate_per_second info * (last_second info (timestamp env) - start_time info) = 0)
      as -> by (breflect; nia). done.
  - unfold ok_or, checked_i128, checked. by destruct (in_i128 _).
Qed.

(** *** State access *)

Lemma load_ok env w info w' :
  load (T := T) env w = ROk info w' -> w_store w DataKey.Config = Some info /\ w' = w.
Proof.
  unfold load, try_load, bind, sget, ok_or, ret, throw.
  destruct (w_store w DataKey.Config) as [i|]; intros H; by inversion H.
Qed.

Lemma try_load_ok env w info w' :
  try_load (T := T) env w = ROk info w' -> w_store w DataKey.Config = Some info /\ w' = w.
Proof. unfold try_load. intros H. inv_ok. done. Qed.

Lemma load_run {A} info env w (f : StreamInfo -> SM A) :
  w_store w DataKey.Config = Some info -> bind load f env w = f info env w.
Proof. unfold bind, load, try_load, bind, sget, ok_or, ret. by intros ->. Qed.

Lemma assert_not_cancelled_ok info env w u w' :
  assert_not_cancelled (T := T) info env w = ROk u w' -> is_cancelled info = false /\ w' = w.
Proof. apply throw_if_ok. Qed.

Lemma non_negative_ok v env w u w' :
  assert_non_negative_amount (T := T) v env w = ROk u w' -> 0 <= v /\ w' = w.
Proof. intros [H ->]%panic_if_ok. breflect. done. Qed.

(** The world after allocating the next sequence number. *)
Definition bump_seq (info : StreamInfo) (w : World DataKey.data_key T Event.stream_event) :=
  put DataKey.Config (Some (with_event_sequence (event_sequence info + 1) info)) w.

Lemma next_sequence_ok env w seq w' :
  next_sequence (T := T) env w = ROk seq w' ->
  exists info, w_store w DataKey.Config = Some info /\ U64 (event_sequence info + 1) /\
    seq = event_sequence info + 1 /\ w' = bump_seq info w.
Proof.
  unfold next_sequence. intros H. apply bind_ok in H as (i & w1 & Hl & H).
  apply load_ok in Hl as [Hi ->].
  destruct (checked_u64 (event_sequence i + 1)) as [n|] eqn:Hn; [|discriminate].
  apply bind_ok in H as (i2 & w2 & Hl & H). apply load_ok in Hl as [Hi2 ->].
  rewrite Hi in Hi2. injection Hi2 as <-. unfold save in H. inv_ok. checked_inv. eauto.
Qed.

Lemma next_sequence_run env w info :
  w_store w DataKey.Config = Some info -> U64 (event_sequence info + 1) ->
  next_sequence (T := T) env w = ROk (event_sequence info + 1) (bump_seq info w).
Proof.
  intros Hi Hu. unfold next_sequence. rewrite (load_run info) by done.
  rewrite checked_u64_in by done. by rewrite (load_run info).
Qed.

(** Publishing a numbered event goes through while the counter has room. *)
Lemma numbered_publish_run (mk : Z -> Event.stream_event) env w info :
  w_store w DataKey.Config = Some info -> U64 (event_sequence info + 1) ->
  bind next_sequence (fun seq => publish (mk seq)) env w =
    ROk (T := T) (E := stream_error) tt
      (add_event (mk (event_sequence info + 1)) (bump_seq info w)).
Proof. intros Hi Hu. erewrite bind_run by (by apply next_sequence_run). done. Qed.

Lemma non_negative_run {A} v env w (f : unit -> SM A) :
  0 <= v -> bind (assert_non_negative_amount v) f env w = f tt env w.
Proof.
  intros Hv. unfold assert_non_negative_amount, panic_if.
  assert (v <? 0 = false) as -> by lia. done.
Qed.

Lemma lock_ok env w u w' :
  lock (T := T) env w = ROk u w' ->
  exists d, d = default 0 (w_store w DataKey.Guard) /\ d < MAX_REENTRANCY_DEPTH /\
    w' = put DataKey.Guard (Some (d + 1)) w.
Proof.
  unfold lock. intros H. apply bind_ok in H as (g & w1 & Hg & H). inv_ok.
  unfold u32_op in *. destruct (checked_u32 _) eqn:Hc; [|discriminate].
  inv_ok. apply checked_Some in Hc as [_ ->]. breflect. eauto.
Qed.

(** Releasing the guard never fails. *)
Definition unlocked (w : World DataKey.data_key T Event.stream_event) :=
  let d := default 0 (w_store w DataKey.Guard) in
  if 0 <? d then put DataKey.Guard (Some (d - 1)) w else w.

Lemma unlock_run env w : unlock (T := T) env w = ROk tt (unlocked w).
Proof.
  unfold unlock, unlocked, bind, sget.
  by destruct (0 <? default 0 (w_store w DataKey.Guard)).
Qed.

Lemma with_guard_ok {R} (f : SM R) env w r w' :
  with_guard f env w = ROk r w' ->
  exists w1, default 0 (w_store w DataKey.Guard) < MAX_REENTRANCY_DEPTH /\
    f env (put DataKey.Guard (Some (default 0 (w_store w DataKey.Guard) + 1)) w) = ROk r w1 /\
    w' = unlocked w1.
Proof.
  unfold with_guard. intros H. apply bind_ok in H as (u & w0 & Hl & H).
  apply lock_ok in Hl as (d & -> & Hd & ->).
  destruct (f env _) as [r1 w1|e w1|t] eqn:Hf; [|exfalso|discriminate].
  - unfold bind in H. rewrite unlock_run in H. injection H as <- <-. eauto.
  - unfold bind in H. rewrite unlock_run in H. discriminate.
Qed.

(** A guarded call on a free guard runs its body once and releases the guard on
    both exits. *)
Definition locked (w : World DataKey.data_key T Event.stream_event) :=
  put DataKey.Guard (Some 1) w.

Lemma with_guard_run {R} (f : SM R) env w :
  default 0 (w_store w DataKey.Guard) = 0 ->
  with_guard f env w =
    match f env (locked w) with
    | ROk r w1 => ROk r (unlocked w1)
    | RErr e w1 => RErr e (unlocked w1)
    | RTrap t => RTrap t
    end.
Proof.
  intros Hd. unfold with_guard, lock, locked.
  unfold bind at 1 2, sget. cbv beta iota. rewrite Hd. cbn [Z.leb MAX_REENTRANCY_DEPTH].
  unfold u32_op, checked_u32, checked. cbn. unfold bind, throw_if, ret, sset.
  change (MAX_REENTRANCY_DEPTH <=? 0) with false.
  change (in_u32 (0 + 1)) with true. change (0 + 1) with 1. cbv beta iota.
  destruct (f env _) as [r w1|e w1|t]; rewrite ?unlock_run; done.
Qed.

Lemma unlocked_store w k : k <> DataKey.Guard -> w_store (unlocked w) k = w_store w k.
Proof. intros. unfold unlocked. case_match; by store_simpl. Qed.

Lemma unlocked_tokens w : w_tokens (unlocked w) = w_tokens w.
Proof. unfold unlocked. by case_match. Qed.

Lemma unlocked_events w : w_events (unlocked w) = w_events w.
Proof. unfold unlocked. by case_match. Qed.

Lemma rso_ok caller s env w u w' :
  require_sender_or_operator (T := T) caller s env w = ROk u w' ->
  w' = w /\ authorized env caller = true /\
  (caller = s \/ w_store w DataKey.Operator = Some caller).
Proof.
  unfold require_sender_or_operator. intros H.
  apply bind_ok in H as (o & w1 & Ho & H). injection Ho as <- <-.
  destruct (w_store w DataKey.Operator) as [op|] eqn:Hop.
  - destruct (addr_eqb caller s || addr_eqb caller op) eqn:Hc; inv_ok.
    apply orb_true_iff in Hc as [Hc|Hc]; apply addr_eqb_true in Hc; subst; eauto.
  - destruct (addr_eqb caller s) eqn:Hc; cbn in H; inv_ok.
    apply addr_eqb_true in Hc. eauto.
Qed.

Lemma require_not_paused_ok info env w u w' :
  require_not_paused (T := T) info env w = ROk u w' ->
  StreamData.is_paused info = false /\ w' = w.
Proof.
  unfold require_not_paused, map_err, require_not_paused_flag.
  destruct (StreamData.is_paused info); intros H; by inversion H.
Qed.

Lemma withdrawable_ok info env w v w' :
  withdrawable (T := T) info env w = ROk v w' ->
  let s := streamed_at info (w_store w DataKey.RateCheckpoint)
             (w_store w DataKey.CliffConfig) (timestamp env) in
  w' = w /\ I128 s /\ v = Z.max (sat_i128 (s - withdrawn info)) 0.
Proof.
  unfold withdrawable. intros H. cbv zeta. apply bind_ok in H as (s & w1 & Hs & H). inv_ok.
  apply streamed_ok in Hs as (-> & ? & <-). done.
Qed.

(** The exact outcome of [withdrawable] on well-formed data. *)
Lemma withdrawable_eval info env w :
  wf_info info -> U64 (timestamp env) ->
  wf_accrual (w_store w DataKey.RateCheckpoint) (w_store w DataKey.CliffConfig) ->
  let v := streamed_at info (w_store w DataKey.RateCheckpoint)
             (w_store w DataKey.CliffConfig) (timestamp env) in
  withdrawable (T := T) info env w =
    (if in_i128 v then ROk (Z.max (sat_i128 (v - withdrawn info)) 0) w
     else RErr ArithmeticOverflow w).
Proof.
  intros Hw Ht Ha. cbv zeta. unfold withdrawable.
  pose proof (streamed_eval info env w Hw Ht Ha) as Hs. cbv zeta in Hs.
  destruct (in_i128 _); [by erewrite bind_run|by erewrite bind_err].
Qed.

End Facts.

(** ** Payouts and deposits *)

Section Payout.
Context {T : Type} `{TC : TokenClient T} `{TL : !TokenLaws T}.
Abbreviation SM := (M DataKey.data_key T Event.stream_event stream_error).
Implicit Types w : World DataKey.data_key T Event.stream_event.

(** The configured split is a share of the payout. *)
Definition split_ok w : Prop :=
  match w_store w DataKey.SplitConfig with
  | Some s => 0 <= split_bps s <= 10000
  | None => True
  end.

(** Where the recipient side of a payout goes. *)
Definition payout_address w (info : StreamInfo) : Address :=
  default (recipient info) (w_store w DataKey.AutoForwardAddress).

Definition secondary_share (sp : option SplitConfig) (amt : Z) : Z :=
  match sp with Some s => amt * split_bps s / 10000 | None => 0 end.

(** What a payout of [amt] credits to each address. *)
Definition payout_credit w (info : StreamInfo) (amt : Z) (a : Address) : Z :=
  let sp := w_store w DataKey.SplitConfig in
  at_addr (payout_address w info) (amt - secondary_share sp amt) a +
  match sp with
  | Some s => at_addr (secondary_recipient s) (secondary_share sp amt) a
  | None => 0
  end.

Lemma auto_forward_run info env w :
  auto_forward_address (T := T) (recipient info) env w = ROk (payout_address w info) w.
Proof. done. Qed.

Lemma secondary_share_bound s amt :
  0 <= amt -> 0 <= split_bps s <= 10000 -> 0 <= amt * split_bps s / 10000 <= amt.
Proof.
  intros Ha Hb. split; [apply Z.div_pos; nia|].
  apply Z.div_le_upper_bound; [lia|]. nia.
Qed.

(** A guarded transfer: nothing happens for a zero share. *)
Lemma transfer_if_ok tk from to v env w u w' :
  (if 0 <? v then token_transfer (K := DataKey.data_key) (X := Event.stream_event)
                    (E := stream_error) tk from to v
   else ret tt) env w = ROk u w' ->
  0 <= v ->
  exists t', w' = set_tokens t' w /\
    moved tk (w_tokens w) t' (fun a => at_addr to v a - at_addr from v a).
Proof.
  intros H Hv. destruct (0 <? v) eqn:Hp.
  - apply token_transfer_ok in H as (t' & Ht & ->). eauto using moved_transfer.
  - injection H as <- <-. exists (w_tokens w). split; [by destruct w|].
    eapply moved_ext; [|apply moved_refl]. intros a. unfold at_addr. breflect.
    repeat case_match; lia.
Qed.

Lemma pay_recipient_ok info amt env w u w' :
  pay_recipient info amt env w = ROk u w' ->
  match w_store w DataKey.SplitConfig with
  | Some s => 0 <= split_bps s <= 10000 | None => True end ->
  exists t', w' = set_tokens t' w /\
    moved (token info) (w_tokens w) t'
      (fun a => payout_credit w info amt a - at_addr (current_contract env) amt a).
Proof.
  unfold pay_recipient, payout_credit. intros H Hs. unfold bind at 1, contract_address in H.
  unfold bind at 1, sget in H. cbv beta iota in H.
  destruct (w_store w DataKey.SplitConfig) as [s|] eqn:Hsp; cbn [secondary_share].
  - apply bind_ok in H as (sec & w1 & Hm & H). apply mul_div_ok in Hm as (Ha & _ & _ & -> & ->).
    pose proof (secondary_share_bound s amt Ha Hs) as Hb.
    apply bind_ok in H as (prim & w2 & Hp & H). apply ok_or_ok in Hp as [Hp ->]. checked_inv.
    unfold bind at 1 in H. rewrite auto_forward_run in H.
    apply bind_ok in H as (u1 & w3 & H1 & H2).
    apply transfer_if_ok in H1 as (t1 & -> & M1); [|lia].
    apply transfer_if_ok in H2 as (t2 & -> & M2); [|lia].
    exists t2. split; [done|]. eapply moved_ext; [|exact (moved_trans _ _ _ _ _ _ M1 M2)].
    intros a. cbn. unfold at_addr. repeat case_match; lia.
  - unfold bind at 1 in H. rewrite auto_forward_run in H.
    apply token_transfer_ok in H as (t' & Ht & ->). exists t'. split; [done|].
    eapply moved_ext; [|exact (moved_transfer _ _ _ _ _ _ _ Ht)]. intros a. cbn.
    rewrite Z.sub_0_r, Z.add_0_r. done.
Qed.

(** An address that can take in [amt] more. *)
Definition can_receive (t : T) (tk : Address) (amt : Z) (a : Address) : Prop :=
  exists b, tok_balance t tk a = Some b /\ b + amt <= i128_max.

Lemma transfer_live `{!TokenLive T} env w tk to amt bal :
  0 <= amt <= bal -> tok_balance (w_tokens w) tk (current_contract env) = Some bal ->
  can_receive (w_tokens w) tk amt to ->
  exists t', token_transfer (K := DataKey.data_key) (X := Event.stream_event)
               (E := stream_error) tk (current_contract env) to amt env w =
             ROk tt (set_tokens t' w) /\
             moved tk (w_tokens w) t' (fun a => at_addr to amt a -
                                              at_addr (current_contract env) amt a).
Proof.
  intros Ha Hb (b & Ht & Hr). unfold token_transfer.
  destruct (tok_transfer_live (w_tokens w) (call_auth env) tk (current_contract env) to amt
              bal b) as [t' Ht']; try done; try lia.
  { unfold call_auth. by rewrite addr_eqb_refl. }
  rewrite Ht'. eauto using moved_transfer.
Qed.

Lemma can_receive_less t tk amt amt' a : can_receive t tk amt a -> amt' <= amt ->
  can_receive t tk amt' a.
Proof. intros (b & ? & ?) ?. exists b. split; [done|lia]. Qed.

Lemma transfer_if_live `{!TokenLive T} env w tk to v bal :
  0 <= v <= bal -> tok_balance (w_tokens w) tk (current_contract env) = Some bal ->
  can_receive (w_tokens w) tk v to ->
  exists t', (if 0 <? v then token_transfer (K := DataKey.data_key) (X := Event.stream_event)
                (E := stream_error) tk (current_contract env) to v
              else ret tt) env w = ROk tt (set_tokens t' w) /\
             moved tk (w_tokens w) t' (fun a => at_addr to v a -
                                              at_addr (current_contract env) v a).
Proof.
  intros Hv Hb Hr. destruct (0 <? v) eqn:Hz; [by eapply transfer_live|].
  exists (w_tokens w). split; [by destruct w|]. eapply moved_ext; [|apply moved_refl].
  intros a. unfold at_addr. repeat case_match; lia.
Qed.

Lemma moved_can_receive t t' tk d amt1 amt2 a :
  moved tk t t' d -> can_receive t tk amt1 a -> d a + amt2 <= amt1 ->
  can_receive t' tk amt2 a.
Proof.
  intros Hm (b & Hb & Hr) Hd. exists (b + d a). split; [by eapply moved_at|lia].
Qed.

(** A funded payout goes through whenever its payees can take it. *)
Lemma pay_recipient_live `{!TokenLive T} info amt env w bal :
  split_ok w -> 0 < amt <= bal ->
  tok_balance (w_tokens w) (token info) (current_contract env) = Some bal ->
  can_receive (w_tokens w) (token info) amt (payout_address w info) ->
  (forall s, w_store w DataKey.SplitConfig = Some s ->
     can_receive (w_tokens w) (token info) amt (secondary_recipient s)) ->
  exists t', pay_recipient info amt env w = ROk tt (set_tokens t' w).
Proof.
  intros Hs Ha Hb Hp Hsec. unfold pay_recipient. unfold bind at 1, contract_address.
  unfold bind at 1, sget. unfold split_ok in Hs.
  pose proof (tok_balance_range _ _ _ _ Hb) as Hbr.
  destruct (w_store w DataKey.SplitConfig) as [s|].
  - pose proof (secondary_share_bound s amt ltac:(lia) Hs) as Hsh.
    erewrite bind_run; [|rewrite mul_div_eval by (munfold; lia)]; cycle 1.
    { assert (in_i128 (amt * split_bps s / 10000) = true) as ->; [|done].
      apply in_range_spec. mlia. }
    rewrite bind_checked.
    assert (in_i128 (amt - amt * split_bps s / 10000) = true) as ->
      by (apply in_range_spec; mlia).
    set (sec := amt * split_bps s / 10000) in *.
    unfold bind at 1. rewrite auto_forward_run.
    destruct (transfer_if_live env w (token info) (payout_address w info) (amt - sec) bal)
      as (t1 & H1 & M1); [lia|done|by eapply can_receive_less; [exact Hp|lia]|].
    erewrite bind_run by exact H1.
    destruct (transfer_if_live env (set_tokens t1 w) (token info) (secondary_recipient s) sec
      (bal + (at_addr (payout_address w info) (amt - sec) (current_contract env)
              - at_addr (current_contract env) (amt - sec) (current_contract env))))
      as (t2 & H2 & _); [| | |by exists t2; rewrite H2].
    + unfold at_addr. rewrite addr_eqb_refl. repeat case_match; lia.
    + cbn. eapply (moved_at _ _ _ _ _ _ M1 Hb).
    + cbn. eapply moved_can_receive; [exact M1|by apply Hsec|].
      unfold at_addr. repeat case_match; lia.
  - unfold bind at 1. rewrite auto_forward_run.
    destruct (transfer_live env w (token info) (payout_address w info) amt bal) as (t' & H & _);
      [lia|done|done|eauto].
Qed.

(** The whole amount reaches the recipient side. *)
Lemma payout_credit_direct w info amt a :
  w_store w DataKey.SplitConfig = None ->
  payout_credit w info amt a = at_addr (payout_address w info) amt a.
Proof. intros Hs. unfold payout_credit. rewrite Hs. cbn. rewrite Z.sub_0_r. lia. Qed.

(** *** The deposit ledger *)

(** What [cumulative_deposited] answers. *)
Definition deposited w (info : StreamInfo) (contract : Address) : option Z :=
  match w_store w DataKey.CumulativeDeposited with
  | Some total => Some total
  | None => match tok_balance (w_tokens w) (token info) contract with
            | Some b => Some (b + withdrawn info)
            | None => None
            end
  end.

Lemma cumulative_deposited_ok info env w v w' :
  cumulative_deposited info env w = ROk v w' ->
  w' = w /\ deposited w info (current_contract env) = Some v.
Proof.
  unfold cumulative_deposited, deposited. intros H. inv_ok; try done.
  checked_inv. split; [done|]. by match goal with H : tok_balance _ _ _ = _ |- _ => rewrite H end.
Qed.

Lemma add_cumulative_deposit_ok info amt env w u w' :
  add_cumulative_deposit info amt env w = ROk u w' ->
  exists v, deposited w info (current_contract env) = Some v /\ I128 (v + amt) /\
    w' = put DataKey.CumulativeDeposited (Some (v + amt)) w.
Proof.
  unfold add_cumulative_deposit. intros H. apply bind_ok in H as (v & w1 & Hv & H).
  apply cumulative_deposited_ok in Hv as [-> Hv]. inv_ok. checked_inv. eauto.
Qed.

(** *** The rate limit *)

Definition rate_limited w (now : Z) : bool :=
  let min_interval := default 0 (w_store w DataKey.MinWithdrawalInterval) in
  let last := default 0 (w_store w DataKey.LastWithdrawalTime) in
  (0 <? min_interval) && ((0 <? last) && (now <? sat_u64 (last + min_interval))).

Lemma check_withdrawal_interval_run env w :
  check_withdrawal_interval (T := T) env w =
    (if rate_limited w (timestamp env) then RErr WithdrawalTooFrequent w else ROk tt w).
Proof.
  unfold check_withdrawal_interval, rate_limited, bind, sget, ledger_timestamp, throw_if.
  destruct (0 <? default 0 (w_store w DataKey.MinWithdrawalInterval)); cbn [andb]; [|done].
  by case_match.
Qed.

Lemma check_withdrawal_interval_ok env w u w' :
  check_withdrawal_interval (T := T) env w = ROk u w' ->
  rate_limited w (timestamp env) = false /\ w' = w.
Proof.
  rewrite check_withdrawal_interval_run. destruct (rate_limited _ _); intros H; by inversion H.
Qed.

(** *** Settlement *)

Lemma payout_credit_zero w info a : payout_credit w info 0 a = 0.
Proof.
  unfold payout_credit. destruct (w_store w DataKey.SplitConfig); cbn;
    unfold at_addr; repeat case_match; done.
Qed.

Lemma pay_recipient_if_ok info amt env w u w' :
  (if 0 <? amt then pay_recipient info amt else ret tt) env w = ROk u w' ->
  0 <= amt -> split_ok w ->
  exists t', w' = set_tokens t' w /\
    moved (token info) (w_tokens w) t'
      (fun a => payout_credit w info amt a - at_addr (current_contract env) amt a).
Proof.
  intros H Ha Hs. destruct (0 <? amt) eqn:Hp; [by eapply pay_recipient_ok|].
  injection H as <- <-. exists (w_tokens w). split; [by destruct w|].
  replace amt with 0 by (breflect; lia).
  eapply moved_ext; [|apply moved_refl]. intros a. rewrite payout_credit_zero.
  unfold at_addr. by case_match.
Qed.

(** What a settlement does: the accrued remainder, bounded by the escrow, to
    the recipient side, everything else to the sender, and a cancelled record. *)
Lemma settle_cancel_ok info env w refund total w' :
  settle_cancel info env w = ROk (refund, total) w' -> split_ok w ->
  let contract := current_contract env in
  let accrued_now := streamed_at info (w_store w DataKey.RateCheckpoint)
                       (w_store w DataKey.CliffConfig) (timestamp env) in
  exists balance owed t',
    tok_balance (w_tokens w) (token info) contract = Some balance /\
    I128 accrued_now /\ I128 (accrued_now - withdrawn info) /\
    owed = Z.min (Z.max (accrued_now - withdrawn info) 0) balance /\
    refund = balance - owed /\ total = withdrawn info + owed /\ I128 total /\
    w' = set_tokens t' (put DataKey.Config
           (Some (with_withdrawn total (mark_cancelled info))) w) /\
    moved (token info) (w_tokens w) t'
      (fun a => payout_credit w info owed a + at_addr (sender info) refund a
                - at_addr contract balance a).
Proof.
  unfold settle_cancel. intros H Hs. cbv zeta.
  apply bind_ok in H as (? & w0 & Hc & H). injection Hc as <- <-.
  apply bind_ok in H as (balance & w0 & Hb & H). apply token_balance_ok in Hb as [Hb ->].
  apply bind_ok in H as (acc & w0 & Hst & H). apply streamed_ok in Hst as (-> & Hacc & Hacc2).
  apply bind_ok in H as (left_ & w0 & Hl & H). apply i128_op_ok in Hl as (Hl & -> & ->).
  apply bind_ok in H as (rest & w0 & Hr & H). apply i128_op_ok in Hr as (_ & -> & ->).
  apply bind_ok in H as (tot & w0 & Ht & H). apply ok_or_ok in Ht as [Ht ->]. checked_inv.
  apply bind_ok in H as (u & w0 & Hsv & H). injection Hsv as <- <-.
  apply bind_ok in H as (u1 & w1 & H1 & H). apply bind_ok in H as (u2 & w2 & H2 & H).
  injection H as <- <- <-.
  pose proof (tok_balance_range _ _ _ _ Hb) as Hbr. rewrite <- Hacc2.
  set (owed := Z.min (Z.max (acc - withdrawn info) 0) balance) in *.
  assert (Ho : 0 <= owed <= balance) by lia.
  apply pay_recipient_if_ok in H1 as (t1 & -> & M1); [|lia|unfold split_ok; by store_simpl].
  apply transfer_if_ok in H2 as (t2 & -> & M2); [|lia].
  exists balance, owed, t2. split_and!; try done; [lia|].
  eapply moved_ext; [|exact (moved_trans _ _ _ _ _ _ M1 M2)].
  intros a. cbn beta. replace (Z.max (balance - owed) 0) with (balance - owed) by lia.
  unfold payout_credit, payout_address. store_simpl. unfold at_addr.
  repeat case_match; lia.
Qed.

(** Frames: a payout or a settlement only moves tokens and saves the record. *)
Lemma pay_recipient_shape info amt env w u w' :
  pay_recipient info amt env w = ROk u w' -> exists t', w' = set_tokens t' w.
Proof.
  unfold pay_recipient. intros H. inv_ok.
  all: try match goal with H : mul_div _ _ _ _ _ = ROk _ _ |- _ =>
         apply mul_div_ok in H as (_ & _ & _ & -> & ->) end.
  all: repeat match goal with H : auto_forward_address _ _ _ = ROk _ _ |- _ =>
         injection H as <- <- end.
  all: try (by eexists); exists (w_tokens w); by destruct w.
Qed.

Lemma settle_cancel_shape info env w p w' :
  settle_cancel info env w = ROk p w' ->
  exists t j, w' = set_tokens t (put DataKey.Config (Some j) w).
Proof.
  unfold settle_cancel. intros H. inv_ok.
  all: repeat match goal with
       | H : streamed_amount _ _ _ = ROk _ _ |- _ => apply streamed_ok in H as (-> & _ & _)
       | H : save _ _ _ = ROk _ _ |- _ => injection H as <- <-
       | H : pay_recipient _ _ _ _ = ROk _ _ |- _ => apply pay_recipient_shape in H as (? & ->)
       end.
  all: first [by eexists _, _ | eexists (w_tokens w), _; by destruct w].
Qed.

End Payout.

(** The stream helpers join the inversion tactic. *)
Ltac inv_ok_hook ::=
  match goal with
  | H : load _ _ = ROk _ _ |- _ => apply load_ok in H as [? ->]
  | H : try_load _ _ = ROk _ _ |- _ => apply try_load_ok in H as [? ->]
  | H : save _ _ _ = ROk _ _ |- _ => injection H as <- <-
  | H : bump _ _ = ROk _ _ |- _ => injection H as <- <-
  | H : bump_for_remaining _ _ _ = ROk _ _ |- _ => injection H as <- <-
  | H : assert_not_cancelled _ _ _ = ROk _ _ |- _ =>
      apply assert_not_cancelled_ok in H as [? ->]
  | H : assert_non_negative_amount _ _ _ = ROk _ _ |- _ => apply non_negative_ok in H as [? ->]
  | H : next_sequence _ _ = ROk _ _ |- _ =>
      apply next_sequence_ok in H as (? & ? & ? & -> & ->)
  | H : require_sender_or_operator _ _ _ _ = ROk _ _ |- _ =>
      apply rso_ok in H as (-> & ? & ?)
  | H : require_not_paused _ _ _ = ROk _ _ |- _ => apply require_not_paused_ok in H as [? ->]
  | H : streamed_amount _ _ _ = ROk _ _ |- _ =>
      apply streamed_ok in H as (-> & ? & ?)
  | H : withdrawable _ _ _ = ROk _ _ |- _ =>
      apply withdrawable_ok in H as (-> & ? & ?)
  | H : auto_forward_address _ _ _ = ROk _ _ |- _ => injection H as <- <-
  | H : cumulative_deposited _ _ _ = ROk _ _ |- _ =>
      apply cumulative_deposited_ok in H as [-> ?]
  | H : add_cumulative_deposit _ _ _ _ = ROk _ _ |- _ =>
      apply add_cumulative_deposit_ok in H as (? & ? & ? & ->)
  | H : check_withdrawal_interval _ _ = ROk _ _ |- _ =>
      apply check_withdrawal_interval_ok in H as [? ->]
  end.
