(* ===== verification/StreamSpec.v ===== *)
(** * DripStream: abstract specification

    The stream as a state machine on what decides who is owed what: the
    record, the rate checkpoint, the cliff and the split.  [astep] lists every
    transition the contract promises; the invariants of this file are proved
    by rule induction on it, and [StreamRefine] proves that every successful
    call of the contract is one of these transitions. *)

From stdpp Require Import base numbers list option strings.
From Stdlib Require Import ZArith Lia.
From S2P Require Import Prelude Host StreamData StreamState StreamMath StreamOps StreamFacts.

#[local] Open Scope Z_scope.

#[local] Arguments streamed_at : simpl never.

(** ** Abstract states *)

Record Astate := mkA {
  a_info : StreamInfo;
  a_cp : option RateCheckpoint;
  a_cliff : option CliffConfig;
  a_split : option SplitConfig
}.

Definition accrued_at (s : Astate) (now : Z) : Z :=
  streamed_at (a_info s) (a_cp s) (a_cliff s) now.

(** What the recipient is still owed. *)
Definition owed_at (s : Astate) (now : Z) : Z :=
  Z.max (accrued_at s now - withdrawn (a_info s)) 0.

Definition live (s : Astate) : Prop := is_cancelled (a_info s) = false.

(** [upd f s n]: the record changed by [f], with event counter [n]. *)
Definition upd (f : StreamInfo -> StreamInfo) (n : Z) (s : Astate) : Astate :=
  mkA (with_event_sequence n (f (a_info s))) (a_cp s) (a_cliff s) (a_split s).

Definition wf_split (sp : option SplitConfig) : Prop :=
  match sp with Some c => 0 < split_bps c < 10000 | None => True end.

(** The record and the checkpoint a resume after [d] paused seconds leaves. *)
Definition resumed_info (d : Z) (i : StreamInfo) : StreamInfo :=
  with_end_time (if 0 <? end_time i then end_time i + d else end_time i)
    (with_paused_at 0 (with_flags (clear_paused (flags i))
       (with_start_time (start_time i + d) i))).

Definition shifted_cp (d : Z) (i : StreamInfo) (cp : option RateCheckpoint)
  : option RateCheckpoint :=
  match cp with
  | Some c => if at_ c <=? paused_at i then Some (mkRateCheckpoint (accrued c) (at_ c + d))
              else Some c
  | None => None
  end.

Definition paused_info (now : Z) (i : StreamInfo) : StreamInfo :=
  with_paused_at now (with_flags (Z.lor (flags i) FLAG_PAUSED) i).

Definition change_time_of (i : StreamInfo) (now : Z) : Z :=
  if StreamData.is_paused i then paused_at i else now.

(** ** Transitions

    A transition is labelled with its kind; [n] is the event counter after
    the call. *)

Inductive kind : Type :=
| KConfig | KWithdraw | KSettle | KPause | KResume | KRate | KExtend | KRecipient | KCliff.

Inductive astep (now : Z) (s : Astate) : kind -> Astate -> Prop :=
| st_config n sp :
    U64 n -> wf_split sp ->
    astep now s KConfig (mkA (with_event_sequence n (a_info s)) (a_cp s) (a_cliff s) sp)
| st_withdraw n amt :
    U64 n -> live s -> 0 < amt <= owed_at s now -> withdrawn (a_info s) + amt <= i128_max ->
    astep now s KWithdraw (upd (fun i => with_withdrawn (withdrawn i + amt) i) n s)
| st_settle n amt :
    U64 n -> live s -> 0 <= amt <= owed_at s now -> withdrawn (a_info s) + amt <= i128_max ->
    astep now s KSettle (upd (fun i => with_withdrawn (withdrawn i + amt) (mark_cancelled i)) n s)
| st_pause n :
    U64 n -> live s -> StreamData.is_paused (a_info s) = false ->
    start_time (a_info s) <= now -> end_time (a_info s) = 0 \/ now <= end_time (a_info s) ->
    astep now s KPause (upd (paused_info now) n s)
| st_resume n d :
    U64 n -> live s -> StreamData.is_paused (a_info s) = true ->
    d = now - paused_at (a_info s) -> 0 <= d <= MAX_PAUSE_SECS ->
    U64 (start_time (a_info s) + d) ->
    (0 < end_time (a_info s) -> U64 (end_time (a_info s) + d)) ->
    wf_accrual (shifted_cp d (a_info s) (a_cp s)) (a_cliff s) ->
    astep now s KResume (mkA (with_event_sequence n (resumed_info d (a_info s)))
                   (shifted_cp d (a_info s) (a_cp s)) (a_cliff s) (a_split s))
| st_rate n r cp :
    U64 n -> live s -> 0 < r <= i128_max ->
    end_time (a_info s) = 0 \/ now < end_time (a_info s) ->
    I128 (accrued_at s now) ->
    cp = rate_checkpoint_for (a_info s) (a_cliff s) (change_time_of (a_info s) now)
           (accrued_at s now) ->
    (0 < end_time (a_info s) -> at_ cp < end_time (a_info s) ->
     accrued cp + r * (end_time (a_info s) - at_ cp) <= i128_max) ->
    astep now s KRate (mkA (with_event_sequence n (with_rate r (a_info s)))
                   (Some cp) (a_cliff s) (a_split s))
| st_extend n extra :
    U64 n -> live s -> 0 < extra -> end_time (a_info s) <> 0 ->
    U64 (end_time (a_info s) + extra) ->
    astep now s KExtend (upd (fun i => with_end_time (end_time i + extra) i) n s)
| st_recipient n a :
    U64 n -> live s -> astep now s KRecipient (upd (with_recipient a) n s)
| st_cliff n c :
    U64 n -> live s -> wf_base (cliff_unlock_amount c) (cliff_time c) ->
    start_time (a_info s) <= cliff_time c ->
    end_time (a_info s) = 0 \/ cliff_time c <= end_time (a_info s) ->
    astep now s KCliff (mkA (with_event_sequence n (a_info s)) (a_cp s) (Some c) (a_split s)).

(** No cliff is
    configured. *)
Definition no_cliff (s : Astate) : Prop := a_cliff s = None.

(** ** Flags *)

Ltac enum_flags f :=
  let H := fresh in
  assert (H : f = 0 \/ f = 1 \/ f = 2 \/ f = 3 \/ f = 4 \/ f = 5 \/ f = 6 \/ f = 7 \/
              f = 8 \/ f = 9 \/ f = 10 \/ f = 11 \/ f = 12 \/ f = 13 \/ f = 14 \/ f = 15)
    by lia;
  repeat destruct H as [H|H]; subst f; vm_compute; repeat split; congruence.

Lemma flags_pause f : 0 <= f < 16 ->
  0 <= Z.lor f FLAG_PAUSED < 16 /\
  (Z.land (Z.lor f FLAG_PAUSED) FLAG_PAUSED =? 0) = false /\
  (Z.land (Z.lor f FLAG_PAUSED) FLAG_CANCELLED =? 0) = (Z.land f FLAG_CANCELLED =? 0).
Proof. intros Hf. enum_flags f. Qed.

Lemma flags_resume f : 0 <= f < 16 ->
  0 <= clear_paused f < 16 /\
  (Z.land (clear_paused f) FLAG_PAUSED =? 0) = true /\
  (Z.land (clear_paused f) FLAG_CANCELLED =? 0) = (Z.land f FLAG_CANCELLED =? 0).
Proof. intros Hf. enum_flags f. Qed.

Lemma flags_cancel f : 0 <= f < 16 ->
  0 <= Z.lor f FLAG_CANCELLED < 16 /\
  (Z.land (Z.lor f FLAG_CANCELLED) FLAG_CANCELLED =? 0) = false /\
  (Z.land (Z.lor f FLAG_CANCELLED) FLAG_PAUSED =? 0) = (Z.land f FLAG_PAUSED =? 0).
Proof. intros Hf. enum_flags f. Qed.

Lemma flags_pause_resume f : 0 <= f < 16 -> (Z.land f FLAG_PAUSED =? 0) = true ->
  clear_paused (Z.lor f FLAG_PAUSED) = f.
Proof.
  intros Hf. assert (H : f = 0 \/ f = 1 \/ f = 2 \/ f = 3 \/ f = 4 \/ f = 5 \/ f = 6 \/ f = 7 \/
              f = 8 \/ f = 9 \/ f = 10 \/ f = 11 \/ f = 12 \/ f = 13 \/ f = 14 \/ f = 15)
    by lia.
  repeat destruct H as [H|H]; subst f; vm_compute; congruence.
Qed.

(** ** Accrual *)

Lemma effective_mono i now now' :
  now <= now' -> last_second i now <= last_second i now'.
Proof.
  intros H. unfold last_second. destruct (StreamData.is_paused i); [done|].
  repeat case_match; breflect; lia.
Qed.

Lemma wf_base_of i cp cliff :
  wf_info i -> wf_accrual cp cliff ->
  wf_base (accrual_base i cp cliff).1 (accrual_base i cp cliff).2.
Proof.
  intros Hw [H1 H2]. unfold accrual_base.
  destruct cp; [done|]. destruct cliff; [done|]. cbn. split; [mlia|apply Hw].
Qed.

Lemma streamed_nonneg i cp cliff now :
  wf_info i -> wf_accrual cp cliff -> 0 <= streamed_at i cp cliff now.
Proof.
  intros Hw Ha. pose proof (wf_base_of i cp cliff Hw Ha) as Hb.
  pose proof (wf_rate _ Hw). unfold streamed_at.
  destruct (accrual_base i cp cliff) as [base from]. cbn in Hb. destruct Hb as [Hb _].
  case_match; [lia|]. breflect. nia.
Qed.

Lemma streamed_mono i cp cliff now now' :
  wf_info i -> wf_accrual cp cliff -> now <= now' ->
  streamed_at i cp cliff now <= streamed_at i cp cliff now'.
Proof.
  intros Hw Ha Hle. pose proof (streamed_nonneg i cp cliff now' Hw Ha) as Hn.
  pose proof (effective_mono i now now' Hle) as He. pose proof (wf_rate _ Hw).
  revert Hn. unfold streamed_at. destruct (accrual_base i cp cliff) as [base from].
  destruct (now <? start_time i) eqn:H1; cbn; [done|].
  destruct (last_second i now <? from) eqn:H2; [done|]. breflect.
  destruct (now' <? start_time i) eqn:H3; cbn; breflect; [lia|].
  destruct (last_second i now' <? from) eqn:H4; breflect; [lia|]. nia.
Qed.

(** ** The state invariant *)

Record Inv (now : Z) (s : Astate) : Prop := {
  inv_info : wf_info (a_info s);
  inv_accrual : wf_accrual (a_cp s) (a_cliff s);
  inv_split : wf_split (a_split s);
  inv_cp_end c : a_cp s = Some c ->
    end_time (a_info s) = 0 \/ at_ c <= end_time (a_info s);
  inv_cliff_end c : a_cliff s = Some c ->
    end_time (a_info s) = 0 \/ cliff_time c <= end_time (a_info s);
  inv_paused_now : StreamData.is_paused (a_info s) = true -> paused_at (a_info s) <= now
}.

Lemma Inv_time now now' s : now <= now' -> Inv now s -> Inv now' s.
Proof. intros Hle []. constructor; auto. intros. etrans; eauto. Qed.

(** Updates of the record that keep its schedule keep it well formed. *)
Ltac wf_fields Hw := destruct Hw; constructor; cbn in *; auto.

Lemma wf_seq_upd n i : U64 n -> wf_info i -> wf_info (with_event_sequence n i).
Proof. intros ? Hw. wf_fields Hw. Qed.

Lemma wf_withdrawn_upd v i : 0 <= v <= i128_max -> wf_info i -> wf_info (with_withdrawn v i).
Proof. intros ? Hw. wf_fields Hw. Qed.

Lemma is_paused_cancel i : 0 <= flags i < 16 ->
  StreamData.is_paused (mark_cancelled i) = StreamData.is_paused i.
Proof.
  intros Hf. unfold StreamData.is_paused. cbn. by destruct (flags_cancel _ Hf) as (_ & _ & ->).
Qed.

Lemma wf_cancel_upd i : wf_info i -> wf_info (mark_cancelled i).
Proof.
  intros Hw. pose proof (is_paused_cancel i (wf_flags _ Hw)) as Hp.
  destruct (flags_cancel _ (wf_flags _ Hw)) as [Hf _]. destruct Hw.
  constructor; cbn in *; auto. rewrite Hp. auto.
Qed.

Lemma wf_pause_upd now i :
  U64 now -> start_time i <= now -> end_time i = 0 \/ now <= end_time i ->
  wf_info i -> wf_info (paused_info now i).
Proof.
  intros ??? Hw. destruct (flags_pause _ (wf_flags _ Hw)) as [Hf _].
  wf_fields Hw.
Qed.

Lemma is_paused_resumed d i : 0 <= flags i < 16 ->
  StreamData.is_paused (resumed_info d i) = false.
Proof.
  intros Hf. unfold StreamData.is_paused. cbn. by destruct (flags_resume _ Hf) as (_ & -> & _).
Qed.

Lemma wf_resume_upd d i :
  0 <= d -> U64 (start_time i + d) -> (0 < end_time i -> U64 (end_time i + d)) ->
  wf_info i -> wf_info (resumed_info d i).
Proof.
  intros Hd Hs He Hw. destruct (flags_resume _ (wf_flags _ Hw)) as [Hf _].
  pose proof (is_paused_resumed d i (wf_flags _ Hw)) as Hp. destruct Hw.
  constructor; cbn in *; auto; try (rewrite Hp; done).
  - case_match; breflect; [auto|done].
  - unfold MIN_STREAM_DURATION in *. munfold. case_match; breflect; lia.
Qed.

Lemma wf_extend_upd extra i :
  0 < extra -> end_time i <> 0 -> U64 (end_time i + extra) ->
  wf_info i -> wf_info (with_end_time (end_time i + extra) i).
Proof.
  intros ??? Hw. destruct Hw. constructor; cbn in *; auto; [lia|].
  intros Hp. destruct (wf_paused Hp) as (? & ? & ?). split_and!; auto. lia.
Qed.

Lemma wf_rate_upd r i : 0 < r <= i128_max -> wf_info i -> wf_info (with_rate r i).
Proof. intros ? Hw. wf_fields Hw. Qed.

Lemma wf_recipient_upd a i : wf_info i -> wf_info (with_recipient a i).
Proof. intros Hw. wf_fields Hw. Qed.

(** The new checkpoint of a rate change. *)
Lemma rate_checkpoint_wf i cliff now acc :
  wf_info i -> wf_accrual None cliff -> U64 now -> 0 <= acc <= i128_max ->
  (forall c, cliff = Some c -> end_time i = 0 \/ cliff_time c <= end_time i) ->
  end_time i = 0 \/ now < end_time i ->
  let cp := rate_checkpoint_for i cliff (change_time_of i now) acc in
  wf_base (accrued cp) (at_ cp) /\ (end_time i = 0 \/ at_ cp <= end_time i).
Proof.
  intros Hw [_ Hc] Hn Hacc Hce He. cbv zeta. unfold rate_checkpoint_for.
  assert (Hct : U64 (change_time_of i now) /\
                (end_time i = 0 \/ change_time_of i now <= end_time i)).
  { unfold change_time_of. destruct (StreamData.is_paused i) eqn:Hp.
    - destruct (wf_paused _ Hw Hp) as (_ & ? & ?). done.
    - split; [done|lia]. }
  destruct cliff as [c|]; cbn in *.
  - specialize (Hce c eq_refl). destruct Hct as [Hct1 Hct2]. unfold wf_base.
    case_match; cbn; split_and!; done || apply Hc || (destruct Hc; lia).
  - pose proof (wf_span _ Hw) as Hs. pose proof (wf_start _ Hw). unfold MIN_STREAM_DURATION in Hs.
    destruct Hct as [Hct1 Hct2]. unfold wf_base.
    case_match; cbn; split_and!; try done; mlia.
Qed.

(** ** Preservation *)

Lemma astep_inv now k s s' : U64 now -> astep now s k s' -> Inv now s -> Inv now s'.
Proof.
  intros Ht Hst [Hi Ha Hsp Hcp Hcl Hpn]. pose proof (wf_withdrawn _ Hi) as Hw.
  pose proof (wf_flags _ Hi) as Hf.
  destruct Hst as [n sp|n amt|n amt|n|n d ?? Hp|n r cp|n extra ?? Hx He Hu|n a|n c].
  - constructor; cbn; auto. by apply wf_seq_upd.
  - constructor; cbn; auto. apply wf_seq_upd; [done|]. apply wf_withdrawn_upd; [lia|done].
  - constructor; cbn; auto.
    + apply wf_seq_upd; [done|]. apply wf_withdrawn_upd; [lia|]. by apply wf_cancel_upd.
    + intros Hp. apply Hpn. by rewrite <- (is_paused_cancel _ Hf).
  - constructor; cbn; auto; [|lia]. apply wf_seq_upd; [done|]. by apply wf_pause_upd.
  - constructor; cbn; auto.
    + apply wf_seq_upd; [done|]. apply wf_resume_upd; auto; lia.
    + unfold shifted_cp. intros c. destruct (a_cp s) as [c0|] eqn:Hc; [|done].
      specialize (Hcp c0 eq_refl). pose proof (wf_end _ Hi).
      case_match; intros [= <-]; cbn; case_match; breflect; munfold; lia.
    + intros c Hc. specialize (Hcl c Hc). pose proof (wf_end _ Hi).
      case_match; breflect; munfold; lia.
    + intros Hpr. pose proof (is_paused_resumed d _ Hf) as Hpr2.
      unfold StreamData.is_paused in *. cbn in *. congruence.
  - assert (Hacc : 0 <= accrued_at s now <= i128_max).
    { split; [by apply streamed_nonneg|]. munfold; lia. }
    pose proof (rate_checkpoint_wf (a_info s) (a_cliff s) now (accrued_at s now) Hi
      (conj I (proj2 Ha)) Ht Hacc Hcl ltac:(done)) as Hr. cbv zeta in Hr.
    subst cp. destruct Hr as [Hr1 Hr2].
    constructor; cbn; auto.
    + apply wf_seq_upd; [done|]. by apply wf_rate_upd.
    + split; [done|apply Ha].
    + by intros ? [= <-].
  - constructor; cbn; auto.
    + apply wf_seq_upd; [done|]. by apply wf_extend_upd.
    + intros c Hc. specialize (Hcp c Hc). lia.
    + intros c Hc. specialize (Hcl c Hc). lia.
  - constructor; cbn; auto. apply wf_seq_upd; [done|]. by apply wf_recipient_upd.
  - constructor; cbn; auto.
    + by apply wf_seq_upd.
    + split; [apply Ha|done].
    + by intros ? [= <-].
Qed.

(** A cancelled stream stays cancelled and its record is frozen. *)
Lemma astep_cancelled now k s s' :
  astep now s k s' -> ~ live s ->
  exists n sp, s' = mkA (with_event_sequence n (a_info s)) (a_cp s) (a_cliff s) sp.
Proof. intros [] Hn; try done. eauto. Qed.

(** ** Pausing and changing the rate *)

(** On well-formed records the clock of the accrual is the pause time, or the
    ledger time capped at the end. *)
Lemma effective_wf i now :
  wf_info i ->
  last_second i now =
    if StreamData.is_paused i then paused_at i
    else if 0 <? end_time i then Z.min now (end_time i) else now.
Proof.
  intros Hw. unfold last_second. destruct (StreamData.is_paused i) eqn:Hp.
  - destruct (wf_paused _ Hw Hp) as (_ & _ & ?). case_match; [|done]. breflect. lia.
  - repeat case_match; breflect; lia.
Qed.

Lemma effective_seq n i now :
  last_second (with_event_sequence n i) now = last_second i now.
Proof. done. Qed.

Lemma streamed_seq n i cp cliff now :
  streamed_at (with_event_sequence n i) cp cliff now = streamed_at i cp cliff now.
Proof. by destruct cp, cliff. Qed.

Lemma streamed_withdrawn v i cp cliff now :
  streamed_at (with_withdrawn v i) cp cliff now = streamed_at i cp cliff now.
Proof. by destruct cp, cliff. Qed.

Lemma streamed_cancel i cp cliff now :
  wf_info i -> streamed_at (mark_cancelled i) cp cliff now = streamed_at i cp cliff now.
Proof.
  intros Hw. unfold streamed_at, last_second, accrual_base.
  rewrite (is_paused_cancel i (wf_flags _ Hw)). by destruct cp, cliff.
Qed.

(** Pausing does not change what has accrued. *)
Lemma streamed_pause i cp cliff now :
  wf_info i -> StreamData.is_paused i = false -> U64 now -> start_time i <= now ->
  end_time i = 0 \/ now <= end_time i ->
  streamed_at (paused_info now i) cp cliff now = streamed_at i cp cliff now.
Proof.
  intros Hw Hp Hn Hs He. unfold streamed_at.
  rewrite (effective_wf (paused_info now i)) by (by apply wf_pause_upd).
  rewrite (effective_wf i now Hw), Hp.
  replace (StreamData.is_paused (paused_info now i)) with true.
  - replace (if 0 <? end_time i then Z.min now (end_time i) else now) with now.
    + by destruct cp, cliff.
    + case_match; breflect; lia.
  - unfold StreamData.is_paused. cbn.
    by destruct (flags_pause _ (wf_flags _ Hw)) as (_ & -> & _).
Qed.

(** A resume moves the whole schedule forward by the paused time. *)
Lemma streamed_resume i cp now d :
  wf_info i -> StreamData.is_paused i = true -> 0 <= d ->
  U64 (start_time i + d) -> (0 < end_time i -> U64 (end_time i + d)) ->
  (forall c, cp = Some c -> at_ c <= paused_at i) -> paused_at i + d <= now ->
  streamed_at (resumed_info d i) (shifted_cp d i cp) None now =
    streamed_at (with_paused_at 0 (with_flags (clear_paused (flags i)) i)) cp None (now - d).
Proof.
  intros Hw Hp Hd Hs He Hcp Hnow. destruct (wf_paused _ Hw Hp) as (Hp1 & Hp2 & Hp3).
  pose proof (is_paused_resumed d i (wf_flags _ Hw)) as Hpr.
  unfold streamed_at.
  rewrite (effective_wf (resumed_info d i)) by (by apply wf_resume_upd). rewrite Hpr.
  assert (Heff : last_second (with_paused_at 0 (with_flags (clear_paused (flags i)) i))
                   (now - d) =
                 if 0 <? end_time i then Z.min (now - d) (end_time i) else now - d).
  { unfold last_second. unfold StreamData.is_paused in *. cbn in *. rewrite Hpr.
    repeat case_match; breflect; lia. }
  rewrite Heff. cbn.
  assert (He2 : (0 <? (if 0 <? end_time i then end_time i + d else end_time i)) =
                (0 <? end_time i)) by (repeat case_match; breflect; lia).
  rewrite He2. unfold shifted_cp, accrual_base.
  destruct cp as [c|].
  - specialize (Hcp c eq_refl). assert (at_ c <=? paused_at i = true) as -> by lia. cbn.
    repeat case_match; simplify_eq; breflect; try lia.
    all: repeat match goal with H : _ \/ _ |- _ => destruct H end; breflect; try lia.
  - cbn. repeat case_match; simplify_eq; breflect; try lia.
    all: repeat match goal with H : _ \/ _ |- _ => destruct H end; breflect; try lia.
Qed.

(** Resuming does not change what has accrued. *)
Lemma streamed_resume_now i cp now d :
  wf_info i -> StreamData.is_paused i = true -> 0 <= d -> d = now - paused_at i ->
  U64 (start_time i + d) -> (0 < end_time i -> U64 (end_time i + d)) ->
  (forall c, cp = Some c -> at_ c <= paused_at i) ->
  streamed_at (resumed_info d i) (shifted_cp d i cp) None now = streamed_at i cp None now.
Proof.
  intros Hw Hp Hd Hdn Hs He Hcp. pose proof (wf_paused _ Hw Hp) as (Hp1 & Hp2 & Hp3).
  rewrite streamed_resume by (auto; lia). replace (now - d) with (paused_at i) by lia.
  set (i0 := with_paused_at 0 _). unfold streamed_at.
  rewrite (effective_wf i) by done. rewrite Hp.
  replace (last_second i0 (paused_at i)) with (paused_at i).
  - replace (accrual_base i0 cp None) with (accrual_base i cp None) by (by destruct cp).
    destruct (accrual_base i cp None). cbn.
    assert (now <? start_time i = false) as -> by lia.
    assert (paused_at i <? start_time i = false) as -> by lia. done.
  - pose proof (is_paused_resumed d i (wf_flags _ Hw)) as Hpr.
    unfold last_second, i0. unfold StreamData.is_paused in *. cbn in *. rewrite Hpr.
    case_match; breflect; lia.
Qed.

(** A rate change does not reprice what has accrued (without a cliff). *)
Lemma streamed_rate i cp r now :
  wf_info i -> wf_accrual cp None -> StreamData.is_paused i = false \/ paused_at i <= now ->
  end_time i = 0 \/ now < end_time i -> 0 < r <= i128_max -> U64 now ->
  streamed_at (with_rate r i)
    (Some (rate_checkpoint_for i None (change_time_of i now) (streamed_at i cp None now)))
    None now = streamed_at i cp None now.
Proof.
  intros Hw Ha Hpn He Hr Hn. pose proof (wf_rate_upd r i Hr Hw) as Hw'.
  unfold rate_checkpoint_for, change_time_of.
  assert (Heff : last_second i now =
                 if StreamData.is_paused i then paused_at i else now).
  { rewrite effective_wf by done. destruct (StreamData.is_paused i); [done|].
    case_match; breflect; lia. }
  assert (Hst : StreamData.is_paused i = true -> start_time i <= paused_at i)
    by apply (wf_paused _ Hw).
  unfold streamed_at at 1. cbn [start_time with_rate accrual_base].
  change (last_second (with_rate r i) now) with (last_second i now).
  rewrite Heff. destruct (now <? start_time i) eqn:Hlt; cbn [orb]; breflect.
  - unfold streamed_at. destruct (accrual_base i cp None).
    assert (now <? start_time i = true) as -> by lia. cbn [orb]. by case_match.
  - assert ((if StreamData.is_paused i then paused_at i else now) <? start_time i = false)
      as -> by (destruct (StreamData.is_paused i); [specialize (Hst eq_refl)|]; lia).
    cbn [accrued at_]. rewrite Z.ltb_irrefl. cbn [rate_per_second with_rate]. lia.
Qed.

(** Extending the end never lowers what has accrued. *)
Lemma streamed_extend i cp cliff extra now :
  wf_info i -> wf_accrual cp cliff -> 0 < extra -> end_time i <> 0 ->
  U64 (end_time i + extra) ->
  streamed_at i cp cliff now <=
    streamed_at (with_end_time (end_time i + extra) i) cp cliff now.
Proof.
  intros Hw Ha Hx He Hu. pose proof (wf_extend_upd extra i Hx He Hu Hw) as Hw'.
  pose proof (streamed_nonneg _ cp cliff now Hw' Ha) as Hnn. revert Hnn.
  assert (Heff : last_second i now <=
                 last_second (with_end_time (end_time i + extra) i) now).
  { rewrite !effective_wf by done.
    change (StreamData.is_paused (with_end_time (end_time i + extra) i))
      with (StreamData.is_paused i).
    cbn. pose proof (wf_end _ Hw). destruct (StreamData.is_paused i); [done|].
    repeat case_match; breflect; munfold; lia. }
  unfold streamed_at.
  replace (accrual_base (with_end_time (end_time i + extra) i) cp cliff)
    with (accrual_base i cp cliff) by (by destruct cp, cliff).
  destruct (accrual_base i cp cliff) as [base from]. cbn [start_time with_end_time].
  destruct (now <? start_time i); cbn [orb]; [done|].
  destruct (last_second i now <? from) eqn:H2; [done|].
  case_match; breflect; [lia|]. intros _. cbn. pose proof (wf_rate _ Hw). nia.
Qed.

(** ** The recipient is never overpaid

    As long as no cliff is configured, what has been paid out never exceeds
    what has accrued. *)

Record Solvent (now : Z) (s : Astate) : Prop := {
  sol_no_cliff : no_cliff s;
  sol_cp c : a_cp s = Some c -> at_ c <= Z.max (start_time (a_info s)) now;
  sol_cp_paused c : a_cp s = Some c -> StreamData.is_paused (a_info s) = true ->
    at_ c <= paused_at (a_info s);
  sol_paid : withdrawn (a_info s) <= accrued_at s now
}.

Lemma Solvent_time now now' s :
  now <= now' -> Inv now s -> Solvent now s -> Solvent now' s.
Proof.
  intros Hle [Hi Ha] [Hn Hcp Hcpp Hp]. constructor; auto.
  - intros c Hc. specialize (Hcp c Hc). lia.
  - etrans; [exact Hp|]. by apply streamed_mono.
Qed.

Lemma owed_no_overpay s now amt :
  amt <= owed_at s now -> withdrawn (a_info s) <= accrued_at s now ->
  withdrawn (a_info s) + amt <= accrued_at s now.
Proof. unfold owed_at. lia. Qed.

Lemma astep_solvent now k s s' :
  U64 now -> astep now s k s' -> k <> KCliff -> Inv now s -> Solvent now s ->
  Solvent now s'.
Proof.
  intros Ht Hst Hk HI [Hn Hcp Hcpp Hp]. pose proof HI as [Hi Ha Hsp Hce Hcl Hpn].
  unfold no_cliff in Hn.
  destruct Hst as [n sp|n amt ?? Hamt|n amt ?? Hamt|n ?? Hpf|n d ?? Hpt Hd|n r cp|n extra ?? Hx He Hu|n a|n c].
  - by constructor; auto.
  - constructor; auto. unfold accrued_at. cbn. rewrite streamed_seq, streamed_withdrawn.
    apply owed_no_overpay; [lia|done].
  - constructor; auto.
    + cbn. intros c Hc Hpa. apply Hcpp; [done|].
      by rewrite <- (is_paused_cancel _ (wf_flags _ Hi)).
    + unfold accrued_at. cbn. rewrite streamed_seq, streamed_withdrawn, streamed_cancel by done.
      apply owed_no_overpay; [lia|done].
  - constructor; auto.
    + cbn. intros c Hc _. specialize (Hcp c Hc). lia.
    + unfold accrued_at. cbn. rewrite streamed_seq, streamed_pause by auto. done.
  - pose proof (wf_paused _ Hi Hpt) as (Hp1 & Hp2 & Hp3). constructor; auto.
    + cbn. unfold shifted_cp. intros c. destruct (a_cp s) as [c0|] eqn:Hc; [|done].
      specialize (Hcpp c0 eq_refl Hpt). assert (at_ c0 <=? paused_at (a_info s) = true) as -> by lia.
      intros [= <-]. cbn. lia.
    + cbn. intros c Hc Hpa. pose proof (is_paused_resumed d _ (wf_flags _ Hi)) as Hpr.
      unfold StreamData.is_paused in *. cbn in *. congruence.
    + unfold accrued_at in *. cbn. rewrite streamed_seq, Hn in *.
      rewrite streamed_resume_now; auto; lia.
  - subst cp. rewrite Hn in *. constructor; [done|..]; auto.
    + cbn. intros c [= <-]. unfold rate_checkpoint_for, change_time_of.
      destruct (StreamData.is_paused (a_info s)) eqn:Hpa; [specialize (Hpn eq_refl)|];
        case_match; cbn; breflect; lia.
    + cbn. intros c [= <-] Hpa. unfold rate_checkpoint_for, change_time_of.
      assert (Hpa' : StreamData.is_paused (a_info s) = true) by exact Hpa.
      rewrite Hpa'. pose proof (wf_paused _ Hi Hpa').
      case_match; cbn; breflect; lia.
    + unfold accrued_at in *. rewrite Hn in *. cbn [a_info a_cp a_cliff]. rewrite streamed_seq.
      rewrite streamed_rate; auto. destruct (StreamData.is_paused (a_info s)); auto.
  - constructor; auto. unfold accrued_at. cbn. rewrite streamed_seq.
    etrans; [exact Hp|]. apply streamed_extend; auto.
  - by constructor; auto.
  - done.
Qed.

(** ** A bounded stream cannot overflow

    [Bounded]: everything the schedule can still accrue until its end fits an
    [i128].  Creation and rate changes check it; resuming keeps it. *)

(** The total a bounded schedule promises: the value at its base point, and
    the rate for every second from there to the end. *)
Definition promised (s : Astate) : Z :=
  let b := accrual_base (a_info s) (a_cp s) (a_cliff s) in
  b.1 + rate_per_second (a_info s) * (end_time (a_info s) - b.2).

Definition Bounded (s : Astate) : Prop :=
  0 < end_time (a_info s) -> promised s <= i128_max.

Lemma base_before_end now s :
  Inv now s -> 0 < end_time (a_info s) ->
  (accrual_base (a_info s) (a_cp s) (a_cliff s)).2 <= end_time (a_info s).
Proof.
  intros [Hi _ _ Hcp Hcl _] He. unfold accrual_base. pose proof (wf_span _ Hi).
  destruct (a_cp s) as [c|]; [destruct (Hcp c eq_refl); cbn; lia|].
  destruct (a_cliff s) as [k|]; [destruct (Hcl k eq_refl); cbn; lia|].
  unfold MIN_STREAM_DURATION in *. cbn. lia.
Qed.

Lemma last_second_end i now : 0 < end_time i -> last_second i now <= end_time i.
Proof. intros H. unfold last_second. apply Z.ltb_lt in H as ->. lia. Qed.

(** Nothing accrues beyond the promise, and a running stream past its end has
    accrued all of it. *)
Lemma accrued_promised now s :
  Inv now s -> 0 < end_time (a_info s) -> accrued_at s now <= promised s.
Proof.
  intros HI He. pose proof HI as [Hi Ha _ _ _ _]. pose proof (base_before_end _ _ HI He) as Hb.
  pose proof (last_second_end _ now He). pose proof (wf_base_of _ _ _ Hi Ha) as Hw.
  pose proof (wf_rate _ Hi). unfold accrued_at, streamed_at, promised.
  destruct (accrual_base _ _ _) as [base from]. destruct Hw as [Hw _]. cbn in *.
  destruct (_ || _); nia.
Qed.

Lemma accrued_at_end now s :
  Inv now s -> 0 < end_time (a_info s) -> end_time (a_info s) <= now ->
  StreamData.is_paused (a_info s) = false -> accrued_at s now = promised s.
Proof.
  intros HI He Hn Hp. pose proof HI as [Hi _ _ _ _ _]. pose proof (base_before_end _ _ HI He).
  pose proof (wf_span _ Hi). unfold MIN_STREAM_DURATION in *.
  unfold accrued_at, streamed_at, promised. rewrite effective_wf, Hp by done.
  rewrite (proj2 (Z.ltb_lt _ _) He), Z.min_r by done.
  destruct (accrual_base _ _ _) as [base from]. cbn in *. case_match; breflect; lia.
Qed.

Lemma astep_bounded now k s s' :
  U64 now -> astep now s k s' -> k <> KCliff -> k <> KExtend ->
  Inv now s -> Solvent now s -> Bounded s -> Bounded s'.
Proof.
  intros Ht Hst Hk Hkd HI [Hn Hcp Hcpp Hp] Hb.
  pose proof HI as [Hi Ha Hsp Hce Hcl Hpn]. unfold no_cliff in Hn.
  destruct Hst as [n sp|n amt ?? Hamt|n amt ?? Hamt|n ?? Hpf
    |n d ?? Hpt Hd|n r cp ?? Hr He Hacc|n extra ?? Hx He Hu|n a|n c];
    unfold Bounded, promised in *; try exact Hb.
  - intros He. cbn in He.
    assert (He' : 0 < end_time (a_info s)).
    { pose proof (wf_end _ Hi). case_match; breflect; munfold; lia. }
    specialize (Hb He'). cbn. rewrite (proj2 (Z.ltb_lt _ _) He').
    rewrite Hn in *. unfold accrual_base, shifted_cp in *. cbn.
    destruct (a_cp s) as [c|] eqn:Hc; cbn in *.
    + specialize (Hcpp c eq_refl Hpt).
      assert (at_ c <=? paused_at (a_info s) = true) as -> by lia. cbn. nia.
    + nia.
  - cbn [a_info a_cp a_cliff accrual_base fst snd]. intros Hend.
    destruct (Z.ltb_spec (at_ cp) (end_time (a_info s))) as [Hlt|Hge]; [auto|].
    subst cp. cbn in Hend. destruct He as [He|He]; [lia|].
    destruct (rate_checkpoint_wf (a_info s) (a_cliff s) now (accrued_at s now) Hi
      (conj I (proj2 Ha)) Ht) as [Hb1 Hb2]; auto.
    { split; [by apply streamed_nonneg|munfold; lia]. }
    cbv zeta in *. set (cp := rate_checkpoint_for _ _ _ _) in *.
    destruct Hb1 as [Hb1 _]. destruct Hb2; [lia|].
    cbn. replace (end_time (a_info s) - at_ cp) with 0 by lia. lia.
  - done.
  - done.
Qed.
