(* ===== verification/StreamRefine.v ===== *)
(** * DripStream: the calls refine the abstract specification

    Every successful call of the contract is a transition of [StreamSpec],
    and it logs events numbered consecutively from the stream's counter. *)

From stdpp Require Import base numbers list option strings.
From Stdlib Require Import ZArith Lia.
From S2P Require Import Prelude Host Ttl Pause StreamData StreamState StreamMath StreamOps.
From S2P Require Import StreamAdmin StreamFacts StreamSpec.
Import Error.

#[local] Open Scope Z_scope.
#[local] Open Scope sf_scope.
#[local] Arguments streamed_at : simpl never.

(** ** The event log *)

(** The sequence number an event carries. *)
Definition seq_of (e : Event.stream_event) : Z :=
  match e with
  | Event.created _ n _ _ _ _ _ _ | Event.withdrawn _ n _ _ _ | Event.cancelled _ n _ _ _
  | Event.force_cxl _ n _ _ _ | Event.paused _ n _ _ | Event.resumed _ n _
  | Event.topped_up _ n _ _ | Event.top_ext _ n _ _ _ _ | Event.rate_chg _ n _ _
  | Event.clawback _ n _ | Event.xfer_rec _ n _ | Event.set_op _ _ n | Event.rm_op _ n
  | Event.set_split _ _ n _ | Event.rm_split _ n | Event.set_cliff _ n _ _
  | Event.min_w_int _ n _ | Event.StreamKeeperPing _ n _ | Event.keepercfg _ n _ _
  | Event.keeperfnd _ n _ _ | Event.keeper_wd _ n _ _ | Event.emg_pause _ n _
  | Event.emg_unps _ n _ | Event.cliff_rch _ n _ _ | Event.completed _ n _ => n
  end.

(** [numbered n evs n']: [evs] carry the numbers [n+1, ..., n']. *)
Fixpoint numbered (n : Z) (evs : list Event.stream_event) (n' : Z) : Prop :=
  match evs with
  | [] => n' = n
  | e :: rest => seq_of e = n + 1 /\ numbered (n + 1) rest n'
  end.

Lemma numbered_app n evs1 n1 evs2 n2 :
  numbered n evs1 n1 -> numbered n1 evs2 n2 -> numbered n (evs1 ++ evs2) n2.
Proof.
  revert n. induction evs1 as [|e evs1 IH]; intros n; cbn.
  - by intros ->.
  - intros [? ?] ?. split; [done|]. by apply IH.
Qed.

Section Refine.
Context {T : Type} `{TC : TokenClient T} `{TL : !TokenLaws T}.
Abbreviation SM := (M DataKey.data_key T Event.stream_event stream_error).
Abbreviation SWorld := (World DataKey.data_key T Event.stream_event).
Implicit Types w : SWorld.

(** The abstract state of a world whose record is [i]. *)
Definition view (i : StreamInfo) w : Astate :=
  mkA i (w_store w DataKey.RateCheckpoint) (w_store w DataKey.CliffConfig)
    (w_store w DataKey.SplitConfig).

(** What a successful call does, seen abstractly. *)
Definition refines (env : Env) (k : kind) (i : StreamInfo) w w' : Prop :=
  exists i' evs,
    w_store w' DataKey.Config = Some i' /\
    astep (timestamp env) (view i w) k (view i' w') /\
    w_events w' = w_events w ++ evs /\
    numbered (event_sequence i) evs (event_sequence i') /\
    default 0 (w_store w' DataKey.Guard) = default 0 (w_store w DataKey.Guard).

Lemma seq_same i : with_event_sequence (event_sequence i) i = i.
Proof. by destruct i. Qed.

(** A call that writes only keys outside the abstract state, silently. *)
Lemma stutter_refines i env w w' :
  w_store w DataKey.Config = Some i -> Inv (timestamp env) (view i w) ->
  w_store w' DataKey.Config = Some i -> view i w' = view i w ->
  w_events w' = w_events w -> w_store w' DataKey.Guard = w_store w DataKey.Guard ->
  refines env KConfig i w w'.
Proof.
  intros Hi HI Hi' Hv He Hg. exists i, [].
  split_and!; [done| |by rewrite app_nil_r|done|by rewrite Hg].
  rewrite Hv. pose proof (st_config (timestamp env) (view i w) (event_sequence i)
    (w_store w DataKey.SplitConfig) (wf_seq _ (inv_info _ _ HI)) (inv_split _ _ HI)) as Hs.
  cbn in Hs. by rewrite seq_same in Hs.
Qed.
End Refine.

Create HintDb stream_ev.
#[export] Hint Unfold ev_created ev_withdrawn ev_cancelled ev_force_cancelled ev_paused
  ev_resumed ev_topped_up ev_topped_up_and_extended ev_rate_changed ev_clawback
  ev_recipient_transferred ev_operator_set ev_operator_revoked ev_split_recipient_set
  ev_split_recipient_removed ev_cliff_configured ev_min_withdrawal_interval_set
  ev_keeper_ping ev_keeper_reward_pool_configured ev_keeper_reward_pool_funded
  ev_keeper_reward_pool_withdrawn ev_emergency_paused ev_emergency_unpaused
  ev_cliff_reached ev_stream_completed emit_cliff_reached emit_stream_completed
  shift_checkpoint bump_seq : stream_ev.

(** Run a successful call to its end: every host step is resolved and every
    read of the store is evaluated. *)
Ltac store_simpl_hyps :=
  repeat match goal with
  | H : context [w_store (put _ _ _) _] |- _ => progress store_simpl_in H
  | H : context [store_put _ _ _ _] |- _ => progress store_simpl_in H
  | H : context [w_store (set_tokens _ _) _] |- _ => progress store_simpl_in H
  | H : context [w_store (add_event _ _) _] |- _ => progress store_simpl_in H
  | H : context [w_store (add_ttl _ _ _ _) _] |- _ => progress store_simpl_in H
  | H : context [w_tokens (_ _ _)] |- _ => progress store_simpl_in H
  | H : context [w_tokens (_ _ _ _)] |- _ => progress store_simpl_in H
  end.
Ltac run_frame :=
  match goal with
  | H : pay_recipient _ _ _ _ = ROk _ _ |- _ =>
      let t := fresh "t" in apply pay_recipient_shape in H as (t & ->)
  end.
Ltac run_steps :=
  repeat (progress (inv_ok; autounfold with stream_ev in *; store_simpl_hyps;
                    simplify_eq; checked_inv)).
Ltac run_ok := repeat (progress (run_steps; try run_frame)).

Lemma seq_seq n m i :
  with_event_sequence n (with_event_sequence m i) = with_event_sequence n i.
Proof. done. Qed.

(** Conclude a refinement by the transition [tac] proves. *)
Ltac refine_by tac :=
  eexists _, _; split_and!;
  [ store_simpl; reflexivity
  | unfold view; store_simpl; rewrite ?seq_seq; tac
  | store_simpl; rewrite <- ?app_assoc; reflexivity
  | cbn; auto
  | store_simpl; reflexivity ].

(** A call that leaves the schedule and the split alone. *)
Ltac refine_config w i :=
  refine_by ltac:(apply (st_config _ (view i w)); try done).

(** A call that is silent and writes only other keys. *)
Ltac refine_stutter :=
  eapply stutter_refines; [eassumption..|by store_simpl|unfold view; by store_simpl|by store_simpl|by store_simpl].

Section RefineOps.
Context {T : Type} `{TC : TokenClient T} `{TL : !TokenLaws T}.
Abbreviation SM := (M DataKey.data_key T Event.stream_event stream_error).
Abbreviation SWorld := (World DataKey.data_key T Event.stream_event).
Implicit Types w : SWorld.

Lemma withdraw_refines i amt env w r w' :
  w_store w DataKey.Config = Some i -> Inv (timestamp env) (view i w) ->
  _withdraw amt env w = ROk r w' -> refines env KWithdraw i w w'.
Proof.
  intros Hi HI H. unfold _withdraw in H. run_ok.
  all: set (pay := Z.min (Z.min amt _) _) in *.
  all: match goal with H : tok_balance _ _ _ = Some ?b |- _ =>
         pose proof (tok_balance_range _ _ _ _ H) end.
  all: assert (Hpay : 0 < pay <= owed_at (view i w) (timestamp env))
    by (unfold owed_at, accrued_at; cbn [view a_info a_cp a_cliff]; breflect; mlia).
  all: refine_by ltac:(apply (st_withdraw _ (view i w) _ pay); try done; cbn; mlia).
Qed.

Lemma inv_split_ok now i w : Inv now (view i w) -> split_ok w.
Proof.
  intros HI. pose proof (inv_split _ _ HI) as Hs. unfold split_ok. cbn in Hs.
  destruct (w_store w DataKey.SplitConfig); [cbn in Hs; lia|done].
Qed.

(** The transition of a settlement, from its effect on the record. *)
Lemma settle_step i env w balance owed n :
  Inv (timestamp env) (view i w) -> is_cancelled i = false ->
  let acc := streamed_at i (w_store w DataKey.RateCheckpoint)
               (w_store w DataKey.CliffConfig) (timestamp env) in
  owed = Z.min (Z.max (acc - withdrawn i) 0) balance -> 0 <= balance ->
  I128 (withdrawn i + owed) -> U64 n ->
  astep (timestamp env) (view i w) KSettle
    (mkA (with_event_sequence n (with_withdrawn (withdrawn i + owed) (mark_cancelled i)))
       (w_store w DataKey.RateCheckpoint) (w_store w DataKey.CliffConfig)
       (w_store w DataKey.SplitConfig)).
Proof.
  intros HI Hl acc Ho Hb Ht Hn. apply (st_settle _ (view i w) n owed); try done; cbn.
  - unfold owed_at, accrued_at. cbn [view a_info a_cp a_cliff]. fold acc. lia.
  - mlia.
Qed.

Ltac run_settle HI :=
  match goal with
  | H : settle_cancel _ _ _ = ROk ?p _ |- _ =>
      let refund := fresh "refund" in let total := fresh "total" in
      destruct p as [refund total];
      apply settle_cancel_ok in H as
        (balance & owed & t & Hbal & _ & _ & Howed & -> & -> & Htot & -> & _);
      [|exact (inv_split_ok _ _ _ HI)];
      cbn [fst snd] in *
  end.

Lemma cancel_refines i caller env w u w' :
  w_store w DataKey.Config = Some i -> Inv (timestamp env) (view i w) ->
  _cancel caller env w = ROk u w' -> refines env KSettle i w w'.
Proof.
  intros Hi HI H. unfold _cancel in H. run_ok; run_settle HI; run_ok.
  all: pose proof (tok_balance_range _ _ _ _ Hbal); store_simpl_hyps.
  all: refine_by ltac:(by eapply settle_step; try done; lia).
Qed.

Lemma force_cancel_refines i env w u w' :
  w_store w DataKey.Config = Some i -> Inv (timestamp env) (view i w) ->
  _force_cancel env w = ROk u w' -> refines env KSettle i w w'.
Proof.
  intros Hi HI H. unfold _force_cancel in H. run_ok; run_settle HI; run_ok.
  all: pose proof (tok_balance_range _ _ _ _ Hbal); store_simpl_hyps.
  all: refine_by ltac:(by eapply settle_step; try done; lia).
Qed.

Lemma pause_refines i caller env w u w' :
  w_store w DataKey.Config = Some i -> Inv (timestamp env) (view i w) ->
  _pause caller env w = ROk u w' -> refines env KPause i w w'.
Proof.
  intros Hi HI H. unfold _pause in H. run_ok. pose proof (wf_end _ (inv_info _ _ HI)) as He.
  refine_by ltac:(apply (st_pause _ (view i w)); try done; cbn in *; mlia).
Qed.

Lemma resume_step i env w d i' cp' n :
  Inv (timestamp env) (view i w) -> is_cancelled i = false ->
  StreamData.is_paused i = true -> d = timestamp env - paused_at i ->
  U64 d -> d <= MAX_PAUSE_SECS -> U64 (start_time i + d) ->
  (0 < end_time i -> U64 (end_time i + d)) ->
  (forall c, cp' = Some c -> U64 (at_ c)) -> U64 n ->
  i' = resumed_info d i -> cp' = shifted_cp d i (w_store w DataKey.RateCheckpoint) ->
  astep (timestamp env) (view i w) KResume
    (mkA (with_event_sequence n i') cp' (w_store w DataKey.CliffConfig)
       (w_store w DataKey.SplitConfig)).
Proof.
  intros HI Hl Hp Hd Hdu Hmax Hs He Hc Hn -> Hcp. subst cp'.
  apply (st_resume _ (view i w) n d); try done; [mlia|].
  destruct (inv_accrual _ _ HI) as [Ha Hk]. split; [|done]. cbn in *.
  destruct (w_store w DataKey.RateCheckpoint) as [c|]; [|done]. cbn in *.
  destruct Ha.
  destruct (at_ c <=? paused_at i); (split; [done|]); [by apply (Hc _ eq_refl)|done].
Qed.

Lemma resume_refines i caller env w u w' :
  w_store w DataKey.Config = Some i -> Inv (timestamp env) (view i w) ->
  _resume caller env w = ROk u w' -> refines env KResume i w w'.
Proof.
  intros Hi HI H. unfold _resume in H. run_ok; breflect.
  all: pose proof (inv_accrual _ _ HI) as [Ha _]; pose proof (wf_end _ (inv_info _ _ HI)) as He.
  all: cbn in Ha, He.
  all: refine_by ltac:(eapply resume_step; try done; cbn in *; simplify_eq).
  all: unfold resumed_info, shifted_cp; intros.
  all: destruct (w_store w DataKey.RateCheckpoint); simplify_eq; try destruct Ha.
  all: repeat case_match; breflect; done || mlia.
Qed.

Lemma change_rate_refines i caller r env w u w' :
  w_store w DataKey.Config = Some i -> Inv (timestamp env) (view i w) ->
  r <= i128_max ->
  _change_rate caller r env w = ROk u w' -> refines env KRate i w w'.
Proof.
  intros Hi HI Hr H. unfold _change_rate in H. run_ok.
  all: pose proof (wf_end _ (inv_info _ _ HI)) as He; cbn in He.
  all: refine_by ltac:(eapply (st_rate _ (view i w)); try done; cbn -[rate_checkpoint_for]).
  all: try (breflect; mlia).
  all: unfold accrued_at; cbn [view a_info a_cp a_cliff].
  all: fold (change_time_of i (timestamp env)) in *; try done.
  all: intros; try (breflect; mlia).
Qed.

Lemma top_up_refines i caller amt env w u w' :
  w_store w DataKey.Config = Some i -> Inv (timestamp env) (view i w) ->
  _top_up caller amt env w = ROk u w' -> refines env KConfig i w w'.
Proof.
  intros Hi HI H. unfold _top_up in H. run_ok. pose proof (inv_split _ _ HI).
  refine_config w i.
Qed.

Lemma extend_duration_refines i caller extra env w u w' :
  w_store w DataKey.Config = Some i -> Inv (timestamp env) (view i w) -> U64 extra ->
  _extend_duration caller extra env w = ROk u w' -> refines env KExtend i w w'.
Proof.
  intros Hi HI Hx H. unfold _extend_duration in H. run_ok. breflect.
  refine_by ltac:(apply (st_extend _ (view i w) _ extra); try done; mlia).
Qed.

Lemma top_up_and_extend_refines i caller amt extra env w u w' :
  w_store w DataKey.Config = Some i -> Inv (timestamp env) (view i w) -> U64 extra ->
  _top_up_and_extend caller amt extra env w = ROk u w' -> refines env KExtend i w w'.
Proof.
  intros Hi HI Hx H. unfold _top_up_and_extend in H. run_ok. breflect.
  refine_by ltac:(apply (st_extend _ (view i w) _ extra); try done; mlia).
Qed.

Lemma clawback_refines i caller env w r w' :
  w_store w DataKey.Config = Some i -> Inv (timestamp env) (view i w) ->
  _clawback caller env w = ROk r w' -> refines env KConfig i w w'.
Proof.
  intros Hi HI H. unfold _clawback in H. pose proof (inv_split _ _ HI).
  run_ok; refine_config w i.
Qed.

Lemma transfer_recipient_refines i a env w u w' :
  w_store w DataKey.Config = Some i -> Inv (timestamp env) (view i w) ->
  _transfer_recipient a env w = ROk u w' -> refines env KRecipient i w w'.
Proof.
  intros Hi HI H. unfold _transfer_recipient in H. run_ok.
  refine_by ltac:(apply (st_recipient _ (view i w)); try done).
Qed.

Lemma set_cliff_refines i caller time unlock env w u w' :
  w_store w DataKey.Config = Some i -> Inv (timestamp env) (view i w) ->
  U64 time -> unlock <= i128_max ->
  _set_cliff caller time unlock env w = ROk u w' -> refines env KCliff i w w'.
Proof.
  intros Hi HI Ht Hu H. unfold _set_cliff in H. run_ok.
  pose proof (wf_end _ (inv_info _ _ HI)) as He. cbn in He.
  refine_by ltac:(apply (st_cliff _ (view i w)); try done; cbn; unfold wf_base; mlia).
Qed.

Lemma set_split_recipient_refines i caller a bps env w u w' :
  w_store w DataKey.Config = Some i -> Inv (timestamp env) (view i w) -> U32 bps ->
  _set_split_recipient caller a bps env w = ROk u w' -> refines env KConfig i w w'.
Proof.
  intros Hi HI Hb H. unfold _set_split_recipient, split_authorized in H. run_ok. breflect.
  refine_by ltac:(apply (st_config _ (view i w)); try done; cbn; mlia).
Qed.

Lemma remove_split_recipient_refines i caller env w u w' :
  w_store w DataKey.Config = Some i -> Inv (timestamp env) (view i w) ->
  _remove_split_recipient caller env w = ROk u w' -> refines env KConfig i w w'.
Proof.
  intros Hi HI H. unfold _remove_split_recipient, split_authorized in H. run_ok.
  refine_config w i.
Qed.

Lemma set_min_withdrawal_interval_refines i caller v env w u w' :
  w_store w DataKey.Config = Some i -> Inv (timestamp env) (view i w) ->
  _set_min_withdrawal_interval caller v env w = ROk u w' -> refines env KConfig i w w'.
Proof.
  intros Hi HI H. unfold _set_min_withdrawal_interval in H. pose proof (inv_split _ _ HI).
  run_ok. refine_config w i.
Qed.

(** *** Unguarded calls *)

Lemma set_operator_refines i caller op env w u w' :
  w_store w DataKey.Config = Some i -> Inv (timestamp env) (view i w) ->
  set_operator caller op env w = ROk u w' -> refines env KConfig i w w'.
Proof.
  intros Hi HI H. unfold set_operator in H. pose proof (inv_split _ _ HI).
  run_ok; first [refine_stutter | refine_config w i].
Qed.

Lemma revoke_operator_refines i caller env w u w' :
  w_store w DataKey.Config = Some i -> Inv (timestamp env) (view i w) ->
  revoke_operator caller env w = ROk u w' -> refines env KConfig i w w'.
Proof.
  intros Hi HI H. unfold revoke_operator in H. pose proof (inv_split _ _ HI).
  run_ok. refine_config w i.
Qed.

Lemma set_stream_title_refines i caller t env w u w' :
  w_store w DataKey.Config = Some i -> Inv (timestamp env) (view i w) ->
  set_stream_title caller t env w = ROk u w' -> refines env KConfig i w w'.
Proof. intros Hi HI H. unfold set_stream_title in H. run_ok. refine_stutter. Qed.

Lemma set_reference_tag_refines i caller t env w u w' :
  w_store w DataKey.Config = Some i -> Inv (timestamp env) (view i w) ->
  set_reference_tag caller t env w = ROk u w' -> refines env KConfig i w w'.
Proof. intros Hi HI H. unfold set_reference_tag in H. run_ok. refine_stutter. Qed.

Ltac run_pause :=
  match goal with
  | H : Pause.is_paused _ _ _ = ROk _ _ |- _ =>
      apply is_paused_shape in H as [->|[? ->]]
  | H : ignore_result (set_paused _ _) _ _ = ROk _ _ |- _ =>
      apply set_paused_shape in H as [->|[? ->]]
  end.

Lemma emergency_pause_refines i caller env w u w' :
  w_store w DataKey.Config = Some i -> Inv (timestamp env) (view i w) ->
  emergency_pause caller env w = ROk u w' -> refines env KConfig i w w'.
Proof.
  intros Hi HI H. unfold emergency_pause, is_emergency_paused in H. pose proof (inv_split _ _ HI).
  run_ok; run_pause; run_ok; run_pause; run_ok; refine_config w i.
Qed.

Lemma emergency_unpause_refines i caller env w u w' :
  w_store w DataKey.Config = Some i -> Inv (timestamp env) (view i w) ->
  emergency_unpause caller env w = ROk u w' -> refines env KConfig i w w'.
Proof.
  intros Hi HI H. unfold emergency_unpause, is_emergency_paused in H. pose proof (inv_split _ _ HI).
  run_ok; run_pause; run_ok; run_pause; run_ok; refine_config w i.
Qed.

(** *** Guarded calls *)

(** The guard is invisible to the specification. *)
Lemma guard_refines {R} (f : SM R) k i env w r w' :
  w_store w DataKey.Config = Some i -> Inv (timestamp env) (view i w) ->
  0 <= default 0 (w_store w DataKey.Guard) ->
  (forall w1 w2, w_store w1 DataKey.Config = Some i -> Inv (timestamp env) (view i w1) ->
     f env w1 = ROk r w2 -> refines env k i w1 w2) ->
  with_guard f env w = ROk r w' -> refines env k i w w'.
Proof.
  intros Hi HI Hg0 Hf H. apply with_guard_ok in H as (w1 & Hd & H & ->).
  apply Hf in H as (i' & evs & Hi' & Hs & He & Hn & Hg);
    [|by store_simpl|unfold view; by store_simpl].
  exists i', evs. unfold view, unlocked in *. store_simpl_in Hs. store_simpl_in He.
  store_simpl_in Hg. cbn in Hg. rewrite Hg. case_match; store_simpl; split_and!; try done.
  - cbn. lia.
  - breflect. lia.
Qed.

End RefineOps.
