(* ===== verification/StreamSystem.v ===== *)
(** * DripStream: the contract as a transition system

    Every state-changing entry point as a [call], its execution by the host,
    and the worlds reachable from a successful [initialize] by any sequence of
    calls of any callers at non-decreasing ledger times, with the token
    contracts changing arbitrarily in between. *)

From stdpp Require Import base numbers list option strings.
From Stdlib Require Import ZArith Lia.
From S2P Require Import Prelude Host Ttl Pause StreamData StreamState StreamMath StreamOps.
From S2P Require Import StreamAdmin StreamFacts StreamSpec StreamRefine.
Import Error.

#[local] Open Scope Z_scope.
#[local] Open Scope sf_scope.
#[local] Arguments streamed_at : simpl never.

Inductive call : Type :=
| Initialize (sender_ recipient_ token_ : Address) (rate start stop : Z) (clawback_enabled : bool)
    (force_cancel_pause_secs : Z) (is_regulated : bool) (description : option string)
| Withdraw (amount : Z)
| Cancel (caller : Address)
| ForceCancel
| PauseStream (caller : Address)
| Resume (caller : Address)
| ChangeRate (caller : Address) (rate : Z)
| TopUp (caller : Address) (amount : Z)
| ExtendDuration (caller : Address) (extra : Z)
| TopUpAndExtend (caller : Address) (amount extra : Z)
| Clawback (caller : Address)
| TransferRecipient (to : Address)
| SetCliff (caller : Address) (time unlock : Z)
| SetSplit (caller secondary : Address) (bps : Z)
| RemoveSplit (caller : Address)
| SetMinInterval (caller : Address) (interval : Z)
| SetStreamConfig (caller : Address) (config : StreamConfig)
| SetAutoForward (address : Address)
| SetOperator (caller operator : Address)
| RevokeOperator (caller : Address)
| SetTitle (caller : Address) (title : string)
| SetTag (caller : Address) (tag : string)
| EmergencyPause (caller : Address)
| EmergencyUnpause (caller : Address)
| ConfigureKeeper (caller reward_token : Address) (reward : Z)
| FundKeeper (caller : Address) (amount : Z)
| WithdrawKeeper (caller : Address) (amount : Z)
| KeeperPing (keeper : Address).

(** The abstract transition a call performs.  (A stream in use refuses
    [Initialize], [stream_initialize_refused].) *)
Definition kind_of (c : call) : kind :=
  match c with
  | Withdraw _ => KWithdraw
  | Cancel _ | ForceCancel => KSettle
  | PauseStream _ => KPause
  | Resume _ => KResume
  | ChangeRate _ _ => KRate
  | ExtendDuration _ _ | TopUpAndExtend _ _ _ => KExtend
  | TransferRecipient _ => KRecipient
  | SetCliff _ _ _ => KCliff
  | _ => KConfig
  end.

(** The machine types of the arguments. *)
Definition typed (c : call) : Prop :=
  match c with
  | Withdraw a | TopUp _ a | FundKeeper _ a | WithdrawKeeper _ a | ConfigureKeeper _ _ a
  | ChangeRate _ a => I128 a
  | ExtendDuration _ x | SetMinInterval _ x => U64 x
  | TopUpAndExtend _ a x => I128 a /\ U64 x
  | SetCliff _ t u => U64 t /\ I128 u
  | SetSplit _ _ b => U32 b
  | _ => True
  end.

Section System.
Context {T : Type} `{TC : TokenClient T} `{TL : !TokenLaws T}.
Abbreviation SM := (M DataKey.data_key T Event.stream_event stream_error).
Abbreviation SWorld := (World DataKey.data_key T Event.stream_event).
Implicit Types w : SWorld.

Definition exec (c : call) : SM unit :=
  match c with
  | Initialize s r tok rate start stop claw threshold reg desc =>
      initialize s r tok rate start stop claw threshold reg desc
  | Withdraw a => do! withdraw a; ret tt
  | Cancel c => cancel c
  | ForceCancel => force_cancel
  | PauseStream c => pause c
  | Resume c => resume c
  | ChangeRate c r => change_rate c r
  | TopUp c a => top_up c a
  | ExtendDuration c x => extend_duration c x
  | TopUpAndExtend c a x => top_up_and_extend c a x
  | Clawback c => do! clawback c; ret tt
  | TransferRecipient a => transfer_recipient a
  | SetCliff c t u => set_cliff c t u
  | SetSplit c s b => set_split_recipient c s b
  | RemoveSplit c => remove_split_recipient c
  | SetMinInterval c v => set_min_withdrawal_interval c v
  | SetStreamConfig c cfg => set_stream_config c cfg
  | SetAutoForward a => set_auto_forward_address a
  | SetOperator c o => set_operator c o
  | RevokeOperator c => revoke_operator c
  | SetTitle c t => set_stream_title c t
  | SetTag c t => set_reference_tag c t
  | EmergencyPause c => emergency_pause c
  | EmergencyUnpause c => emergency_unpause c
  | ConfigureKeeper c t r => configure_keeper_reward_pool c t r
  | FundKeeper c a => fund_keeper_reward_pool c a
  | WithdrawKeeper c a => withdraw_keeper_reward_pool c a
  | KeeperPing k => do! keeper_ping k; ret tt
  end.

(** The contracts's storage before [initialize]. *)
Definition fresh w : Prop :=
  (forall k, w_store w k = None) /\ w_events w = [].

Inductive reachable (allowed : call -> Prop) : Z -> SWorld -> Prop :=
| reach_init env w0 s r tok rate start stop claw threshold reg desc w :
    fresh w0 -> U64 (timestamp env) -> I128 rate -> U64 start -> U64 stop ->
    initialize s r tok rate start stop claw threshold reg desc env w0 = ROk tt w ->
    reachable allowed (timestamp env) w
| reach_call t w env c r w' :
    reachable allowed t w -> t <= timestamp env -> U64 (timestamp env) ->
    typed c -> allowed c -> invoke (exec c) env w = (r, w') ->
    reachable allowed (timestamp env) w'
| reach_tokens t w tok :
    reachable allowed t w -> reachable allowed t (set_tokens tok w).

(** A stream that has a record cannot be initialized again. *)
Lemma stream_initialize_refused s r tok rate start stop claw threshold reg desc env w u w' :
  is_Some (w_store w DataKey.Config) ->
  initialize s r tok rate start stop claw threshold reg desc env w <> ROk u w'.
Proof.
  intros [i Hi] H. unfold initialize in H.
  apply bind_ok in H as (b & w1 & Hb & H). injection Hb as <- <-.
  apply bind_ok in H as (u1 & w1 & Hp & _). apply panic_if_ok in Hp as [Hb _].
  by rewrite Hi in Hb.
Qed.

End System.

(** The case of [Initialize] of a proof about the calls that go through. *)
Ltac refuse_initialize :=
  try match goal with H : exec (Initialize _ _ _ _ _ _ _ _ _ _) _ _ = ROk _ _ |- _ =>
        exfalso; eapply stream_initialize_refused; [|exact H]; by eexists end.

Section Steps.
Context {T : Type} `{TC : TokenClient T} `{TL : !TokenLaws T}.
Abbreviation SM := (M DataKey.data_key T Event.stream_event stream_error).
Abbreviation SWorld := (World DataKey.data_key T Event.stream_event).
Implicit Types w : SWorld.

Ltac guarded i :=
  match goal with
  | Hi : w_store ?w DataKey.Config = Some i, H : with_guard ?f ?env ?w = ROk ?r ?w' |- _ =>
      eapply (guard_refines f _ i env w r w'); [exact Hi|assumption|assumption| |exact H];
      clear Hi H; intros w1 w2 Hi1 HI1 H
  end.

Ltac drop_unit :=
  match goal with
  | H : bind _ (fun _ => ret tt) _ _ = ROk _ _ |- _ =>
      let u := fresh "u" in
      apply bind_ok in H as (? & ? & H & u); injection u as _ <-
  end.

(** Keeper and configuration calls change nothing the specification sees. *)
Lemma keeper_refines i c env w u w' :
  w_store w DataKey.Config = Some i -> Inv (timestamp env) (view i w) ->
  0 <= default 0 (w_store w DataKey.Guard) ->
  match c with
  | SetStreamConfig _ _ | SetAutoForward _ | ConfigureKeeper _ _ _ | FundKeeper _ _
  | WithdrawKeeper _ _ | KeeperPing _ => True
  | _ => False
  end ->
  exec c env w = ROk u w' -> refines env (kind_of c) i w w'.
Proof.
  intros Hi HI Hg Hc H. destruct c; try done; cbn [exec] in H; try drop_unit;
    unfold set_stream_config, set_auto_forward_address, configure_keeper_reward_pool,
      fund_keeper_reward_pool, withdraw_keeper_reward_pool, keeper_ping in H;
    guarded i; pose proof (inv_split _ _ HI1);
    run_ok; first [refine_stutter | refine_config w1 i].
Qed.

(** Every successful call refines the specification. *)
Lemma exec_step i c env w u w' :
  w_store w DataKey.Config = Some i -> Inv (timestamp env) (view i w) ->
  0 <= default 0 (w_store w DataKey.Guard) -> typed c ->
  exec c env w = ROk u w' -> refines env (kind_of c) i w w'.
Proof.
  intros Hi HI Hg Ht H.
  destruct c; refuse_initialize; try (refine (keeper_refines i _ env w u w' Hi HI Hg _ H); exact I); cbn [exec typed] in *; try drop_unit;
    unfold withdraw, cancel, force_cancel, pause, resume, change_rate, top_up, extend_duration,
      top_up_and_extend, clawback, transfer_recipient, set_cliff, set_split_recipient,
      remove_split_recipient, set_min_withdrawal_interval in H;
    first
    [ by eapply set_operator_refines | by eapply revoke_operator_refines
    | by eapply set_stream_title_refines | by eapply set_reference_tag_refines
    | by eapply emergency_pause_refines | by eapply emergency_unpause_refines
    | guarded i ].
  - by eapply withdraw_refines.
  - by eapply cancel_refines.
  - by eapply force_cancel_refines.
  - by eapply pause_refines.
  - by eapply resume_refines.
  - by eapply change_rate_refines; [..|apply Ht|].
  - by eapply top_up_refines.
  - by eapply extend_duration_refines.
  - by eapply top_up_and_extend_refines; [..|apply Ht|].
  - by eapply clawback_refines.
  - by eapply transfer_recipient_refines.
  - by eapply set_cliff_refines; [..|apply Ht|apply Ht|].
  - by eapply set_split_recipient_refines.
  - by eapply remove_split_recipient_refines.
  - by eapply set_min_withdrawal_interval_refines.
Qed.

(** *** The initial world *)

Definition init_flags (claw reg : bool) : Z :=
  if reg then Z.lor (if claw then Z.lor 0 FLAG_CLAWBACK_ENABLED else 0) FLAG_REGULATED_ASSET
  else if claw then Z.lor 0 FLAG_CLAWBACK_ENABLED else 0.

Definition init_info (s r tok : Address) (rate start stop : Z) (claw reg : bool) : StreamInfo :=
  mkStreamInfo s r tok rate start stop 0 0 (init_flags claw reg) 1 0.

Lemma init_info_flags s r tok rate start stop claw reg :
  let i := init_info s r tok rate start stop claw reg in
  0 <= flags i < 16 /\ StreamData.is_paused i = false /\ is_cancelled i = false /\
  is_clawback_enabled i = claw /\ is_regulated_asset i = reg.
Proof. destruct claw, reg; cbv -[Z.le Z.lt]; lia. Qed.

Lemma initialize_ok s r tok rate start stop claw threshold reg desc env w0 u w :
  fresh w0 -> I128 rate -> U64 start -> U64 stop ->
  initialize s r tok rate start stop claw threshold reg desc env w0 = ROk u w ->
  w_store w DataKey.Config = Some (init_info s r tok rate start stop claw reg) /\
  0 < rate /\ (stop = 0 \/ start + MIN_STREAM_DURATION <= stop <= start + MAX_STREAM_DURATION) /\
  r <> s /\ is_zero_address r = false /\ timestamp env <= start /\ threshold <> 0 /\
  (0 < stop -> rate * (stop - start) <= i128_max) /\
  w_store w DataKey.RateCheckpoint = None /\ w_store w DataKey.CliffConfig = None /\
  w_store w DataKey.SplitConfig = None /\ w_store w DataKey.Guard = None /\
  w_store w DataKey.Operator = None /\
  w_events w = [Event.created s 1 r tok rate start stop CURRENT_STORAGE_VERSION].
Proof.
  intros [Hf He] Hr Hs Hst H. unfold initialize in H. run_ok.
  all: split; [store_simpl; reflexivity|].
  all: breflect; store_simpl; rewrite ?Hf, ?He.
  all: repeat match goal with H : addr_eqb _ _ = false |- _ => apply addr_eqb_false in H end.
  all: split_and!; try done; unfold MIN_STREAM_DURATION, MAX_STREAM_DURATION in *; mlia.
Qed.

(** *** What every reachable world satisfies *)

Record Good (t : Z) w (i : StreamInfo) : Prop := {
  good_record : w_store w DataKey.Config = Some i;
  good_inv : Inv t (view i w);
  good_time : U64 t;
  good_log : numbered 0 (w_events w) (event_sequence i);
  good_guard : default 0 (w_store w DataKey.Guard) = 0
}.

Definition without_cliffs (allowed : call -> Prop) : Prop :=
  forall c, allowed c -> kind_of c <> KCliff.
Definition without_extensions (allowed : call -> Prop) : Prop :=
  forall c, allowed c -> kind_of c <> KExtend.

Lemma init_good s r tok rate start stop claw threshold reg desc env w0 u w :
  fresh w0 -> U64 (timestamp env) -> I128 rate -> U64 start -> U64 stop ->
  initialize s r tok rate start stop claw threshold reg desc env w0 = ROk u w ->
  let i := init_info s r tok rate start stop claw reg in
  Good (timestamp env) w i /\ Solvent (timestamp env) (view i w) /\ Bounded (view i w).
Proof.
  intros Hf Ht Hr Hs Hst H. cbv zeta.
  pose proof (init_info_flags s r tok rate start stop claw reg) as (Hfl & Hp & _). 
  apply initialize_ok in H as (Hc & Hr0 & Hspan & Hne & _ & Hnow & _ & Hmul & Hcp & Hcl & Hsp &
    Hg & _ & He); try done.
  set (i := init_info s r tok rate start stop claw reg) in *.
  assert (Hi : wf_info i).
  { constructor; try done; cbn; try mlia. congruence. }
  assert (HI : Inv (timestamp env) (view i w)).
  { constructor; cbn; rewrite ?Hcp, ?Hcl, ?Hsp; try done. intros Hpa. congruence. }
  split_and!.
  - constructor; try done; [by rewrite He|by rewrite Hg].
  - constructor; cbn; rewrite ?Hcp; try done.
    unfold accrued_at. apply (streamed_nonneg i _ _ _ Hi). apply (inv_accrual _ _ HI).
  - intros Hend. cbn in Hend. specialize (Hmul Hend). unfold promised. cbn. rewrite Hcp, Hcl. cbn. lia.
Qed.

Lemma good_step t w i env c u w' :
  Good t w i -> t <= timestamp env -> U64 (timestamp env) -> typed c ->
  exec c env w = ROk u w' ->
  exists i', Good (timestamp env) w' i' /\
    astep (timestamp env) (view i w) (kind_of c) (view i' w') /\ Inv (timestamp env) (view i w).
Proof.
  intros [Hi HI Ht Hl Hg] Hle Hu Hty H. pose proof (Inv_time _ _ _ Hle HI) as HI'.
  destruct (exec_step i c env w u w' Hi HI') as (i' & evs & Hi' & Hs & He & Hn & Hgd);
    [lia|done|done|].
  exists i'. split_and!; [|done|done]. constructor; [done| |done| |lia].
  - by eapply astep_inv.
  - rewrite He. by eapply numbered_app.
Qed.

Lemma view_tokens i w tok : view i (set_tokens tok w) = view i w.
Proof. done. Qed.

Lemma reach_good allowed t w : reachable allowed t w ->
  exists i, Good t w i /\
    (without_cliffs allowed -> Solvent t (view i w)) /\
    (without_cliffs allowed -> without_extensions allowed -> Bounded (view i w)).
Proof.
  induction 1 as [env w0 s r tok rate start stop claw threshold reg desc w Hf Ht Hr Hs Hst H
                 |t w env c r w' Hre (i & HG & Hsol & Hbd) Hle Hu Hty Hal H
                 |t w tok Hre (i & HG & Hsol & Hbd)].
  - eapply init_good in H as (HG & HS & HB); eauto 10.
  - unfold invoke in H. destruct (exec c env w) as [u w1|e w1|tr] eqn:Hx;
      injection H as <- <-.
    + destruct (good_step _ _ _ _ _ _ _ HG Hle Hu Hty Hx) as (i' & HG' & Hst & HI).
      exists i'. split_and!; [done| |]; intros Hnc; [|intros Hne].
      * eapply astep_solvent; eauto. eapply Solvent_time; eauto. apply HG.
      * eapply astep_bounded; eauto. eapply Solvent_time; eauto. apply HG.
    + exists i. split_and!; [|intros Hnc; eapply Solvent_time; eauto; apply HG|done].
      destruct HG. constructor; auto. by eapply Inv_time.
    + exists i. split_and!; [|intros Hnc; eapply Solvent_time; eauto; apply HG|done].
      destruct HG. constructor; auto. by eapply Inv_time.
  - exists i. rewrite view_tokens. split_and!; [|done|done]. destruct HG. by constructor.
Qed.

End Steps.
