(* ===== verification/StreamOutside.v ===== *)
(** * DripStream: what a call does to the rest of the chain

    Every entry point of a stream keeps what its own token transfers keep. *)

From stdpp Require Import base numbers list option strings.
From Stdlib Require Import ZArith Lia String.
From S2P Require Import Prelude Host Ttl Pause Frame Safe.
From S2P Require Import StreamData StreamState StreamMath StreamOps StreamAdmin StreamSystem.

#[local] Open Scope Z_scope.
#[local] Open Scope sf_scope.

Section Streams.
Context {T : Type} `{TC : TokenClient T}.
Abbreviation SM := (M DataKey.data_key T Event.stream_event Error.stream_error).
Abbreviation SWorld := (World DataKey.data_key T Event.stream_event).

(** ** Computations that move no token *)

Section Still.
Context (R : SWorld -> SWorld -> Prop) `{!PreOrder R} `{!forall k v, Allows R (put k v)}
  `{!forall x, Allows R (add_event x)}.

#[export] Instance st_load : Keeps R (load : SM _).
Proof.
  intros env w. unfold load, try_load, bind, sget, ok_or. destruct (w_store w DataKey.Config); cbn; [reflexivity|exact I].
Qed.
#[export] Instance st_sequence : Keeps R (next_sequence : SM _).
Proof. unfold next_sequence, save. solve_keeps. Qed.
#[export] Instance st_non_negative z : Keeps R (assert_non_negative_amount z : SM _).
Proof. unfold assert_non_negative_amount. solve_keeps. Qed.
#[export] Instance st_u256 z : Keeps R (u256_op z : SM _).
Proof. unfold u256_op. solve_keeps. Qed.
#[export] Instance st_mul_div a b c : Keeps R (mul_div a b c : SM _).
Proof. unfold mul_div. solve_keeps. Qed.
#[export] Instance st_streamed i : Keeps R (streamed_amount i : SM _).
Proof. unfold streamed_amount. solve_keeps. Qed.
#[export] Instance st_withdrawable i : Keeps R (withdrawable i : SM _).
Proof. unfold withdrawable. solve_keeps. Qed.
#[export] Instance st_emergency : Keeps R (is_emergency_paused : SM _).
Proof. unfold is_emergency_paused. apply _. Qed.
#[export] Instance st_deposits i : Keeps R (cumulative_deposited i : SM _).
Proof. unfold cumulative_deposited. solve_keeps. Qed.
#[export] Instance st_interval : Keeps R (check_withdrawal_interval : SM _).
Proof. unfold check_withdrawal_interval. solve_keeps. Qed.
#[export] Instance st_cliff i n : Keeps R (emit_cliff_reached i n : SM _).
Proof. unfold emit_cliff_reached, ev_cliff_reached. solve_keeps. Qed.
#[export] Instance st_completed i a b c : Keeps R (emit_stream_completed i a b c : SM _).
Proof. unfold emit_stream_completed, ev_stream_completed. solve_keeps. Qed.

End Still.

Section Guard.
Context (env : Env) (P : T -> Prop).

#[export] Instance sf_guard {A} (m : SM A) : Safe env P m -> Safe env P (with_guard m) | 1.
Proof.
  intros Hm. unfold with_guard. apply safe_bind; [unfold lock; solve_safe|].
  intros u w HP. specialize (Hm w HP). destruct (m env w) as [r w1|e w1|t]; [| |exact I].
  - assert (Hs : Safe env P (bind unlock (fun _ => ret r) : SM A)) by (unfold unlock; solve_safe).
    exact (Hs w1 Hm).
  - assert (Hs : Safe env P (bind unlock (fun _ => throw e) : SM A)) by (unfold unlock; solve_safe).
    exact (Hs w1 Hm).
Qed.

End Guard.

(** ** The entry points *)

Context (env : Env) (P : T -> Prop) `{HC : !TransferClosed env P}.

#[local] Instance sf_pay i a : Safe env P (pay_recipient i a : SM _).
Proof. unfold pay_recipient, auto_forward_address. solve_safe. Qed.

#[local] Instance sf_settle i : Safe env P (settle_cancel i : SM _).
Proof. unfold settle_cancel, save. solve_safe. Qed.

Ltac unfold_stream :=
  cbn [exec];
  unfold initialize, ev_created, withdraw, _withdraw, cancel, _cancel, force_cancel, _force_cancel, pause, _pause, resume,
    _resume, shift_checkpoint, change_rate, _change_rate, rate_checkpoint_for, top_up, _top_up,
    extend_duration, _extend_duration, top_up_and_extend, _top_up_and_extend, clawback, _clawback,
    transfer_recipient, _transfer_recipient, add_cumulative_deposit, require_not_paused,
    require_sender_or_operator, emergency_pause, emergency_unpause, configure_keeper_reward_pool,
    fund_keeper_reward_pool, withdraw_keeper_reward_pool, keeper_ping, set_auto_forward_address,
    split_authorized, set_split_recipient, _set_split_recipient, remove_split_recipient,
    _remove_split_recipient, set_operator, revoke_operator, set_stream_title, set_reference_tag,
    set_cliff, _set_cliff, set_min_withdrawal_interval, _set_min_withdrawal_interval,
    set_stream_config, bump, bump_for_remaining, save, assert_not_cancelled, ev_withdrawn,
    ev_cancelled, ev_force_cancelled, ev_paused, ev_resumed, ev_topped_up, ev_topped_up_and_extended,
    ev_rate_changed, ev_clawback, ev_recipient_transferred, ev_operator_set, ev_operator_revoked,
    ev_split_recipient_set, ev_split_recipient_removed, ev_cliff_configured,
    ev_min_withdrawal_interval_set, ev_keeper_ping, ev_keeper_reward_pool_configured,
    ev_keeper_reward_pool_funded, ev_keeper_reward_pool_withdrawn, ev_emergency_paused,
    ev_emergency_unpaused.

(** A call of a stream keeps what its transfers keep. *)
Lemma stream_exec_safe c : Safe env P (exec c : SM unit).
Proof. destruct c; unfold_stream; solve_safe. Qed.

End Streams.

(** ** A withdrawal takes from the stream only *)

Section Withdrawal.
Context {T : Type} `{TC : TokenClient T} `{TL : !TokenLaws T}.
Abbreviation SM := (M DataKey.data_key T Event.stream_event Error.stream_error).
Context (env : Env) (a : Address) (t0 : T) (Hne : a <> current_contract env).
Abbreviation P := (no_loss a t0).

#[local] Instance own_address {A} (f : Address -> SM A) :
  Safe env P (f (current_contract env)) -> Safe env P (bind contract_address f) | 0.
Proof. intros Hf w HP. exact (Hf w HP). Qed.

#[local] Instance own_transfer tk to amt :
  Safe env P (token_transfer tk (current_contract env) to amt : SM unit) | 0.
Proof.
  intros w HP. unfold token_transfer. destruct (tok_transfer _ _ _ _ _ _) eqn:Ht; [|exact I].
  transitivity (w_tokens w); [exact HP|]. eapply no_loss_transfer; [exact Ht|]. congruence.
Qed.

#[local] Instance own_pay i amt : Safe env P (pay_recipient i amt : SM _).
Proof. unfold pay_recipient, auto_forward_address. solve_safe. Qed.

Lemma withdraw_spares_others amt : Safe env P (withdraw amt : SM _).
Proof.
  unfold withdraw, _withdraw, bump, save, assert_not_cancelled, ev_withdrawn. solve_safe.
Qed.

End Withdrawal.
