(* ===== verification/StreamExample.v ===== *)
(** * DripStream: a concrete stream

    A funded stream on the reference ledger, on which the theorems are
    exercised: Alice pays Bob 10 units per second from time 1000 to 2000 out of
    an escrow of 10000. *)

From stdpp Require Import base numbers list option strings gmap.
From Stdlib Require Import ZArith Lia.
From S2P Require Import Prelude Host StreamData StreamState StreamMath StreamOps StreamAdmin.
From S2P Require Import StreamFacts StreamSpec StreamRefine StreamSystem.
Import Error.

#[local] Open Scope Z_scope.

Definition alice : Address := Account 1.
Definition bob : Address := Account 2.
Definition carol : Address := Account 3.
Definition keeper : Address := Account 4.
Definition usdc : Address := Contract 100.
Definition xlm : Address := Contract 101.
Definition stream_addr : Address := Contract 7.

(** At time [t] (ledger [s]), signed by everyone. *)
Definition env_at (t : Z) : Env := mkEnv t (t * 1000) stream_addr (fun _ => true).

Definition ex_tokens : Ledger :=
  <[(usdc, stream_addr) := 10000]> (<[(usdc, alice) := 50000]>
    (<[(xlm, alice) := 900]> (<[(xlm, stream_addr) := 500]> ∅))).

Abbreviation ExWorld := (World DataKey.data_key Ledger Event.stream_event).

Definition ex_blank : ExWorld :=
  mkWorld (fun _ => None) (fun _ => None) (fun _ => None) ex_tokens [] [].

(** The world a call leaves (unchanged when it fails). *)
Definition after {A} (m : M DataKey.data_key Ledger Event.stream_event stream_error A)
    (t : Z) (w : ExWorld) : ExWorld := (invoke m (env_at t) w).2.

Definition ex_init : M DataKey.data_key Ledger Event.stream_event stream_error unit :=
  initialize alice bob usdc 10 1000 2000 true 86400 false None.

Definition ex_stream : ExWorld := after ex_init 900 ex_blank.

Definition ex_info : StreamInfo :=
  mkStreamInfo alice bob usdc 10 1000 2000 0 0 FLAG_CLAWBACK_ENABLED 1 0.

(** What a call answers. *)
Definition answer {A} (m : M DataKey.data_key Ledger Event.stream_event stream_error A)
    (t : Z) (w : ExWorld) : Reply stream_error A := (invoke m (env_at t) w).1.

Definition held (w : ExWorld) (tk a : Address) : option Z := tok_balance (w_tokens w) tk a.

Lemma ran {A} (m : M DataKey.data_key Ledger Event.stream_event stream_error A) t w (r : A) :
  answer m t w = Returned r -> m (env_at t) w = ROk r (after m t w).
Proof. unfold answer, after, invoke. destruct (m (env_at t) w); cbn; congruence. Qed.

Lemma ex_stream_record : w_store ex_stream DataKey.Config = Some ex_info.
Proof. reflexivity. Qed.

(** A scenario: halfway Bob withdraws 3000, at 1600 Alice pauses, at 1700 she
    resumes, and at 1800 she cancels. *)
Definition ex_withdrawn : ExWorld := after (exec (Withdraw 3000)) 1500 ex_stream.
Definition ex_paused : ExWorld := after (exec (PauseStream alice)) 1600 ex_withdrawn.
Definition ex_resumed : ExWorld := after (exec (Resume alice)) 1700 ex_paused.
Definition ex_cancelled : ExWorld := after (exec (Cancel alice)) 1800 ex_resumed.

(** The record of the example stream after the withdrawal. *)
Definition ex_info_withdrawn : StreamInfo :=
  mkStreamInfo alice bob usdc 10 1000 2000 3000 0 FLAG_CLAWBACK_ENABLED 2 0.

Definition ex_info_paused : StreamInfo :=
  mkStreamInfo alice bob usdc 10 1000 2000 3000 1600
    (Z.lor FLAG_CLAWBACK_ENABLED FLAG_PAUSED) 3 0.

Example ex_withdraw_answer : answer (withdraw 3000) 1500 ex_stream = Returned 3000.
Proof. reflexivity. Qed.

Example ex_bob_after_cancel :
  (held ex_cancelled usdc bob, held ex_cancelled usdc stream_addr, held ex_cancelled usdc alice)
  = (Some 7000, Some 0, Some 53000).
Proof. vm_compute. reflexivity. Qed.

Lemma ex_reachable (allowed : call -> Prop) : reachable allowed 900 ex_stream.
Proof.
  apply (reach_init allowed (env_at 900) ex_blank alice bob usdc 10 1000 2000 true 86400 false None);
    try (munfold; cbn; lia); done.
Qed.

Lemma reach_after (allowed : call -> Prop) (t t' : Z) (c : call) (w : ExWorld) :
  reachable allowed t w -> t <= t' -> U64 t' -> typed c -> allowed c ->
  reachable allowed t' (after (exec c) t' w).
Proof.
  intros. eapply (reach_call allowed t w (env_at t') c (invoke (exec c) (env_at t') w).1);
    try done. unfold after. by destruct (invoke _ _ _).
Qed.

(** The concrete record of a reachable example world satisfies the state
    invariant. *)
Lemma ex_inv t w i :
  reachable (fun _ => True) t w -> w_store w DataKey.Config = Some i ->
  Inv t (view i w) /\ split_ok w.
Proof.
  intros H Hi. destruct (reach_good _ _ _ H) as (j & HG & _).
  pose proof (good_record _ _ _ HG) as Hj. rewrite Hi in Hj. injection Hj as <-.
  split; [apply HG|]. eapply inv_split_ok, HG.
Qed.

Lemma ex_inv_at t t' w i :
  reachable (fun _ => True) t w -> w_store w DataKey.Config = Some i -> t <= t' ->
  Inv t' (view i w).
Proof. intros H Hi Hle. eapply Inv_time; [exact Hle|]. by apply (ex_inv t w i). Qed.

Lemma ex_reach_withdrawn : reachable (fun _ => True) 1500 ex_withdrawn.
Proof. apply (reach_after _ 900); try apply ex_reachable; done || (munfold; cbn; munfold; lia). Qed.

Lemma ex_reach_paused : reachable (fun _ => True) 1600 ex_paused.
Proof. apply (reach_after _ 1500); try apply ex_reach_withdrawn; done || (munfold; lia). Qed.

Lemma ex_reach_resumed : reachable (fun _ => True) 1700 ex_resumed.
Proof. apply (reach_after _ 1600); try apply ex_reach_paused; done || (munfold; lia). Qed.

(** Restricted sets of calls. *)
Definition no_cliff_call (c : call) : Prop := kind_of c <> KCliff.
Definition plain_call (c : call) : Prop := kind_of c <> KCliff /\ kind_of c <> KExtend.

Lemma ex_reach_allowed (allowed : call -> Prop) :
  allowed (Withdraw 3000) -> reachable allowed 1500 ex_withdrawn.
Proof.
  intros. apply (reach_after _ 900); try apply ex_reachable; done || (munfold; cbn; munfold; lia).
Qed.
