(* ===== verification/StreamMoney.v ===== *)
(** * DripStream: theorems on the movement of money

    What every paying operation pays to whom, the agreement of the dry run
    with the withdrawal, and the refund rules of cancellation and clawback. *)

From stdpp Require Import base numbers list option strings gmap.
From Stdlib Require Import ZArith Lia.
From S2P Require Import Prelude Host Ttl Pause StreamData StreamState StreamMath StreamOps.
From S2P Require Import StreamAdmin StreamFacts StreamSpec StreamRefine StreamSystem.
From S2P Require Import StreamExample.
Import Error.

#[local] Open Scope Z_scope.
#[local] Open Scope sf_scope.
#[local] Arguments streamed_at : simpl never.

(** Enter a guarded call: its body ran on the locked world. *)
Ltac enter H :=
  let w1 := fresh "w1" in let Hd := fresh "Hd" in
  apply with_guard_ok in H as (w1 & Hd & H & ->).

(** Read through the released guard. *)
Ltac leave :=
  rewrite ?unlocked_tokens, ?unlocked_events, ?unlocked_store by congruence; store_simpl.

Section Money.
Context {T : Type} `{TC : TokenClient T} `{TL : !TokenLaws T}.
Abbreviation SM := (M DataKey.data_key T Event.stream_event stream_error).
Abbreviation SWorld := (World DataKey.data_key T Event.stream_event).
Implicit Types w : SWorld.

(** Reading what is owed never saturates on well-formed states. *)
Lemma owed_sat now i w :
  Inv now (view i w) ->
  let acc := streamed_at i (w_store w DataKey.RateCheckpoint)
               (w_store w DataKey.CliffConfig) now in
  I128 acc -> Z.max (sat_i128 (acc - withdrawn i)) 0 = owed_at (view i w) now.
Proof.
  intros HI acc Hacc. pose proof (wf_withdrawn _ (inv_info _ _ HI)) as Hw. cbn in Hw.
  assert (0 <= acc) by (apply (streamed_nonneg i _ _ now (inv_info _ _ HI) (inv_accrual _ _ HI))).
  unfold owed_at, accrued_at. cbn [view a_info a_cp a_cliff]. fold acc. mlia.
Qed.

(** The guard is invisible to what is owed and to where payouts go. *)
Lemma credit_frame w w0 i amt a :
  w_store w0 DataKey.SplitConfig = w_store w DataKey.SplitConfig ->
  w_store w0 DataKey.AutoForwardAddress = w_store w DataKey.AutoForwardAddress ->
  payout_credit w0 i amt a = payout_credit w i amt a.
Proof. intros H1 H2. unfold payout_credit, payout_address. by rewrite H1, H2. Qed.

(** What a withdrawal that goes through pays, and what it leaves. *)
Lemma withdraw_ok amt env w r w' i :
  w_store w DataKey.Config = Some i -> Inv (timestamp env) (view i w) ->
  withdraw amt env w = ROk r w' ->
  let contract := current_contract env in
  exists b,
    tok_balance (w_tokens w) (token i) contract = Some b /\
    r = Z.min (Z.min amt (owed_at (view i w) (timestamp env))) b /\ 0 < r /\
    authorized env (recipient i) = true /\ live (view i w) /\
    moved (token i) (w_tokens w) (w_tokens w')
      (fun a => payout_credit w i r a - at_addr contract r a) /\
    (exists n, w_store w' DataKey.Config =
       Some (with_event_sequence n (with_withdrawn (withdrawn i + r) i))) /\
    w_store w' DataKey.LastWithdrawalTime = Some (timestamp env) /\ view i w' = view i w.
Proof.
  intros Hi HI H. cbv zeta. enter H. unfold _withdraw in H. run_steps.
  all: match goal with H : pay_recipient _ _ _ _ = _ |- _ =>
         apply pay_recipient_ok in H as (t & -> & Hmv);
         [|store_simpl; exact (inv_split_ok _ _ _ HI)] end.
  all: run_steps.
  all: match goal with H : I128 (streamed_at _ _ _ _) |- _ =>
         rewrite (owed_sat _ _ _ HI H) in * end.
  all: match goal with H : tok_balance _ _ _ = Some ?b |- _ =>
         pose proof (tok_balance_range _ _ _ _ H); exists b end.
  all: set (pay := Z.min (Z.min amt _) _) in *.
  all: split_and!; try done; try (unfold pay in *; breflect; lia).
  all: try (unfold view; by leave).
  all: leave; rewrite ?seq_seq; eauto.
  all: eapply moved_ext; [|exact Hmv]; intros a; cbn; f_equal;
       apply credit_frame; by store_simpl.
Qed.

(** C8 A successful withdrawal pays exactly the smallest of the requested
    amount, what is owed and the escrow balance; the payout goes to the payout
    address and the split, out of the escrow only; the record advances by
    exactly that amount and the schedule stays as it was. *)
Theorem withdraw_pays_what_is_owed amt env w r w' i :
  w_store w DataKey.Config = Some i -> Inv (timestamp env) (view i w) ->
  withdraw amt env w = ROk r w' ->
  let contract := current_contract env in
  exists b,
    tok_balance (w_tokens w) (token i) contract = Some b /\
    r = Z.min (Z.min amt (owed_at (view i w) (timestamp env))) b /\ 0 < r /\
    authorized env (recipient i) = true /\ live (view i w) /\
    moved (token i) (w_tokens w) (w_tokens w')
      (fun a => payout_credit w i r a - at_addr contract r a) /\
    (exists n, w_store w' DataKey.Config =
       Some (with_event_sequence n (with_withdrawn (withdrawn i + r) i))) /\
    w_store w' DataKey.LastWithdrawalTime = Some (timestamp env) /\ view i w' = view i w.
Proof. exact (withdraw_ok amt env w r w' i). Qed.

(** What both cancellations do with the escrow. *)
Definition settled (env : Env) (i : StreamInfo) w w' : Prop :=
  let contract := current_contract env in
  exists b owed,
    tok_balance (w_tokens w) (token i) contract = Some b /\
    owed = Z.min (owed_at (view i w) (timestamp env)) b /\ 0 <= owed <= b /\
    moved (token i) (w_tokens w) (w_tokens w')
      (fun a => payout_credit w i owed a + at_addr (sender i) (b - owed) a
                - at_addr contract b a) /\
    (exists n, w_store w' DataKey.Config = Some
       (with_event_sequence n (with_withdrawn (withdrawn i + owed) (mark_cancelled i)))).

Lemma settled_intro env i w w1 refund total w2 w' :
  Inv (timestamp env) (view i w) ->
  (forall k, k <> DataKey.Guard -> w_store w1 k = w_store w k) -> w_tokens w1 = w_tokens w ->
  settle_cancel i env w1 = ROk (refund, total) w2 ->
  w_tokens w' = w_tokens w2 ->
  (forall j, w_store w2 DataKey.Config = Some j ->
     exists n, w_store w' DataKey.Config = Some (with_event_sequence n j)) ->
  settled env i w w'.
Proof.
  intros HI Hw1 Ht H Htk Hcfg. pose proof (inv_split_ok _ _ _ HI) as Hs.
  apply settle_cancel_ok in H as (b & owed & t & Hb & Hacc & _ & Ho & -> & -> & _ & -> & Hmv);
    [|unfold split_ok; by rewrite Hw1].
  rewrite !Hw1 in * by done. rewrite Ht in *.
  pose proof (tok_balance_range _ _ _ _ Hb) as Hbr.
  exists b, owed. split_and!; [done| |lia..| |].
  - rewrite Ho. f_equal.
  - rewrite Htk. eapply moved_ext; [|exact Hmv]. intros a. cbn.
    do 2 f_equal. apply credit_frame; by apply Hw1.
  - apply (Hcfg _). by store_simpl.
Qed.

(** Peel a cancellation down to its settlement. *)
Ltac run_settled HI :=
  match goal with
  | H : settle_cancel _ _ _ = ROk ?p ?w2 |- settled ?env ?i ?w _ =>
      destruct p as [refund total];
      eapply (settled_intro env i w _ refund total w2); [exact HI| | |exact H| |]; cbn [fst snd] in *;
      [intros; by store_simpl|by store_simpl|run_steps; leave; done|run_steps; intros; leave;
       simplify_eq; eauto]
  end.

(** C23 Cancelling settles both parties at once: the recipient side receives
    what is owed (at most the escrow), the sender receives everything else,
    nothing stays in the escrow, and the record is marked cancelled with the
    payment booked. Only the sender or the operator of a cancelable stream can
    do it. *)
Theorem cancel_settles_both_parties caller env w u w' i :
  w_store w DataKey.Config = Some i -> Inv (timestamp env) (view i w) ->
  cancel caller env w = ROk u w' ->
  settled env i w w' /\ live (view i w) /\ authorized env caller = true /\
  (caller = sender i \/ w_store w DataKey.Operator = Some caller) /\
  match w_store w DataKey.StreamConfig with
  | Some cfg => is_cancelable_flag cfg = true
  | None => True
  end.
Proof.
  intros Hi HI H. enter H. unfold _cancel in H. run_steps.
  all: split_and!; try done; try run_settled HI.
  all: case_match; [by apply negb_false_iff|done].
Qed.

(** The recipient's escape hatch: a force-cancel settles exactly like a
    cancel, needs only the recipient's signature, and goes through only on a
    stream that has been paused for at least its threshold. *)
Theorem force_cancel_settles_after_threshold env w u w' i :
  w_store w DataKey.Config = Some i -> Inv (timestamp env) (view i w) ->
  U64 (timestamp env) ->
  force_cancel env w = ROk u w' ->
  settled env i w w' /\ live (view i w) /\ authorized env (recipient i) = true /\
  StreamData.is_paused i = true /\
  default DEFAULT_PAUSE_THRESHOLD_SECS (w_store w DataKey.ForceCancelPauseThresholdSecs)
    <= timestamp env - paused_at i.
Proof.
  intros Hi HI Hu H. enter H. unfold _force_cancel in H. run_steps.
  all: split_and!; try done; try run_settled HI.
  - by apply negb_false_iff.
  - pose proof (inv_paused_now _ _ HI) as Hp. cbn in Hp.
    breflect. specialize (Hp ltac:(assumption)).
    pose proof (wf_paused _ (inv_info _ _ HI)) as Hw. cbn in Hw. 
    destruct Hw as (_ & Hpu & _); [done|]. rewrite sat_u64_in in * by mlia. lia.
Qed.

(** A clawback takes from a running stream exactly what is not owed: the
    recipient's accrued remainder (at most the escrow) stays in the contract,
    and the accrual record is untouched. *)
Theorem clawback_leaves_what_is_owed caller env w r w' i :
  w_store w DataKey.Config = Some i -> Inv (timestamp env) (view i w) ->
  sender i <> current_contract env ->
  clawback caller env w = ROk r w' ->
  let contract := current_contract env in
  exists b n,
    tok_balance (w_tokens w) (token i) contract = Some b /\
    r = Z.max (b - owed_at (view i w) (timestamp env)) 0 /\
    tok_balance (w_tokens w') (token i) contract =
      Some (Z.min b (owed_at (view i w) (timestamp env))) /\
    moved (token i) (w_tokens w) (w_tokens w')
      (fun a => at_addr (sender i) r a - at_addr contract r a) /\
    view (with_event_sequence n i) w' = view (with_event_sequence n i) w /\
    w_store w' DataKey.Config = Some (with_event_sequence n i) /\
    StreamData.is_paused i = false /\ is_clawback_enabled i = true /\
    authorized env caller = true /\
    (caller = sender i \/ w_store w DataKey.Operator = Some caller).
Proof.
  intros Hi HI Hne H. cbv zeta. enter H. unfold _clawback in H. run_steps.
  all: match goal with H : tok_balance _ _ _ = Some ?b |- _ =>
         pose proof (tok_balance_range _ _ _ _ H); rename H into Hb; rename b into bal end.
  all: change (Z.max (streamed_at i _ _ _ - withdrawn i) 0)
         with (owed_at (view i w) (timestamp env)) in *.
  all: assert (Ho : 0 <= owed_at (view i w) (timestamp env)) by (unfold owed_at; lia).
  all: set (r := Z.max (bal - _) 0) in *.
  all: match goal with |- context [unlocked ?w2] =>
         assert (Hm : moved (token i) (w_tokens w) (w_tokens (unlocked w2))
           (fun a => at_addr (sender i) r a - at_addr (current_contract env) r a)) end.
  all: try (leave; by eapply moved_transfer).
  all: try (leave; eapply moved_ext; [|apply moved_refl]; intros a; unfold at_addr; breflect;
            repeat case_match; unfold r in *; lia).
  all: exists bal, (event_sequence i + 1); split_and!; try done; try by leave.
  all: try (rewrite (moved_at _ _ _ _ _ _ Hm Hb), at_addr_eq, at_addr_ne by congruence;
            f_equal; unfold r; lia).
  all: first [by apply negb_false_iff | unfold view; by leave].
Qed.

(** *** The dry run *)

(** The milestone events never fail while the event counter has room. *)
Lemma milestones_run env w i balance remaining total n r :
  w_store w DataKey.Config = Some i -> U64 (event_sequence i + 2) -> 0 <= event_sequence i ->
  0 <= total ->
  (forall c, w_store w DataKey.CliffConfig = Some c -> 0 <= cliff_unlock_amount c) ->
  exists w', (do! emit_cliff_reached n (timestamp env);
              do! emit_stream_completed n balance remaining total;
              ret r : SM Z) env w = ROk r w'.
Proof.
  intros Hi Hu Hs Ht Hc.
  assert (H1 : exists j w1, emit_cliff_reached n (timestamp env) env w = ROk (T := T) tt w1 /\
    w_store w1 DataKey.Config = Some j /\ 0 <= event_sequence j <= event_sequence i + 1).
  { unfold emit_cliff_reached. unfold bind at 1, sget.
    destruct (w_store w DataKey.CliffConfig) as [c|]; [|exists i, w; split_and!; [done..|lia|lia]].
    specialize (Hc c eq_refl). unfold bind at 1, shas.
    case_match; [|exists i, w; split_and!; [done..|lia|lia]].
    unfold bind at 1, sset. unfold ev_cliff_reached. rewrite non_negative_run by done.
    erewrite numbered_publish_run; [|by store_simpl|munfold; lia].
    exists (with_event_sequence (event_sequence i + 1) i). eexists.
    split_and!; [reflexivity| |cbn; lia|cbn; lia]. unfold bump_seq. by store_simpl. }
  destruct H1 as (j & w1 & H1 & Hj & Hjs). erewrite bind_run by exact H1.
  unfold emit_stream_completed. unfold bind at 1 2, shas.
  match goal with |- context [if ?b then _ else ret tt] => destruct b end; [|unfold bind; eauto].
  unfold bind at 1, sset. unfold ev_stream_completed. rewrite non_negative_run by done.
  erewrite numbered_publish_run; [|by store_simpl|munfold; lia]. eauto.
Qed.

(** The checks of the withdrawal that precede any transfer, as a pure
    verdict: the amount that would be paid, or the error. *)
Definition withdraw_verdict (amt : Z) (env : Env) (i : StreamInfo) w (bal : Z)
  : stream_error + Z :=
  let now := timestamp env in
  let pay := Z.min (Z.min amt (owed_at (view i w) now)) bal in
  if amt <=? 0 then inl InvalidAmount
  else if is_cancelled i then inl StreamCancelled
  else if rate_limited w now then inl WithdrawalTooFrequent
  else if negb (in_i128 (accrued_at (view i w) now)) then inl ArithmeticOverflow
  else if owed_at (view i w) now =? 0 then inl NothingToWithdraw
  else if pay =? 0 then inl StreamUnderfunded
  else if negb (in_i128 (withdrawn i + pay)) then inl ArithmeticOverflow
  else inr pay.

Lemma rate_limited_frame w w1 now :
  (forall k, k <> DataKey.Guard -> w_store w1 k = w_store w k) ->
  rate_limited w1 now = rate_limited w now.
Proof. intros H. unfold rate_limited. by rewrite !H. Qed.

(** Both entry points start with the same verdict. *)
Lemma validate_verdict amt env w i bal :
  w_store w DataKey.Config = Some i -> Inv (timestamp env) (view i w) -> U64 (timestamp env) ->
  tok_balance (w_tokens w) (token i) (current_contract env) = Some bal ->
  validate_withdraw amt env w =
    match withdraw_verdict amt env i w bal with
    | inl e => RErr e w
    | inr _ => ROk tt w
    end.
Proof.
  intros Hi HI Hu Hb. unfold validate_withdraw, withdraw_verdict. rewrite bind_throw_if.
  destruct (amt <=? 0) eqn:Ha; [done|]. rewrite (load_run i) by done.
  unfold assert_not_cancelled. rewrite bind_throw_if. destruct (is_cancelled i); [done|].
  unfold bind at 1. rewrite check_withdrawal_interval_run.
  destruct (rate_limited w (timestamp env)); [done|].
  pose proof (withdrawable_eval i env w (inv_info _ _ HI) Hu (inv_accrual _ _ HI)) as Hw.
  cbv zeta in Hw. unfold bind at 1. rewrite Hw.
  change (streamed_at i (w_store w DataKey.RateCheckpoint) (w_store w DataKey.CliffConfig)
    (timestamp env)) with (accrued_at (view i w) (timestamp env)).
  destruct (in_i128 (accrued_at (view i w) (timestamp env))) eqn:Hacc; cbn [negb]; [|done].
  unfold accrued_at in Hacc |- *. cbn [view a_info a_cp a_cliff] in Hacc |- *.
  rewrite (owed_sat _ _ _ HI) by (by apply in_range_spec).
  rewrite bind_throw_if. destruct (owed_at (view i w) (timestamp env) =? 0) eqn:Ho; [done|].
  unfold bind at 1, contract_address. unfold bind at 1, token_balance. rewrite Hb.
  pose proof (tok_balance_range _ _ _ _ Hb) as Hbr.
  set (pay := Z.min _ bal). rewrite bind_throw_if. destruct (pay =? 0) eqn:Hp; [done|].
  rewrite bind_checked. destruct (in_i128 (withdrawn i + pay)); cbn [negb]; [|done].
  unfold bind at 1, sget. pose proof (inv_split_ok _ _ _ HI) as Hs. unfold split_ok in Hs.
  destruct (w_store w DataKey.SplitConfig) as [s|]; [|done].
  assert (Hpay : 0 <= pay <= i128_max) by (unfold pay, owed_at in *; breflect; lia).
  pose proof (secondary_share_bound s pay ltac:(lia) Hs) as Hsh.
  unfold bind at 1. rewrite mul_div_eval by (munfold; lia).
  assert (in_i128 (pay * split_bps s / 10000) = true) as -> by (apply in_range_spec; mlia).
  rewrite bind_checked.
  assert (in_i128 (pay - pay * split_bps s / 10000) = true) as -> by (apply in_range_spec; mlia).
  done.
Qed.

(** The addresses a payout of [amt] goes to can take it. *)
Definition payees_can_receive (amt : Z) (i : StreamInfo) w : Prop :=
  can_receive (w_tokens w) (token i) amt (payout_address w i) /\
  (forall s, w_store w DataKey.SplitConfig = Some s ->
     can_receive (w_tokens w) (token i) amt (secondary_recipient s)).

Lemma withdraw_verdict_pay amt env i w bal pay :
  withdraw_verdict amt env i w bal = inr pay -> 0 <= bal ->
  pay = Z.min (Z.min amt (owed_at (view i w) (timestamp env))) bal /\ 0 < pay <= bal /\
  pay <= amt /\ I128 (withdrawn i + pay).
Proof.
  unfold withdraw_verdict. intros H Hb. repeat case_match; simplify_eq; breflect.
  assert (0 <= owed_at (view i w) (timestamp env)) by (unfold owed_at; lia).
  apply in_range_spec in H6. split_and!; try done; lia.
Qed.

(** What [_withdraw] does after its checks. *)
Definition withdraw_tail (i : StreamInfo) (balance pay : Z) : SM Z :=
  do! save (with_withdrawn (withdrawn i + pay) i);
  do! pay_recipient i pay;
  let! now := ledger_timestamp in
  do! sset DataKey.LastWithdrawalTime now;
  let! remaining := ok_or (checked_i128 (balance - pay)) ArithmeticOverflow in
  do! ev_withdrawn (recipient i) pay (withdrawn i + pay) remaining;
  do! emit_cliff_reached i now;
  do! emit_stream_completed i balance remaining (withdrawn i + pay);
  ret pay.

Lemma withdraw_verdict_run amt env w i bal out :
  w_store w DataKey.Config = Some i -> Inv (timestamp env) (view i w) -> U64 (timestamp env) ->
  tok_balance (w_tokens w) (token i) (current_contract env) = Some bal ->
  authorized env (recipient i) = true ->
  _withdraw amt env w = out ->
  match withdraw_verdict amt env i w bal with
  | inl e => exists w', out = RErr e w'
  | inr pay => out = withdraw_tail i bal pay env
                       (add_ttl None MIN_TTL_LEDGERS EXTEND_TTL_LEDGERS w)
  end.
Proof.
  intros Hi HI Hu Hb Hau. unfold withdraw_verdict, _withdraw. rewrite bind_throw_if.
  destruct (amt <=? 0); [intros <-; eauto|].
  erewrite bind_run by reflexivity. set (w1 := add_ttl _ _ _ w).
  rewrite (load_run i) by done. unfold assert_not_cancelled. rewrite bind_throw_if.
  destruct (is_cancelled i); [intros <-; eauto|].
  erewrite bind_run; [|unfold require_auth; by rewrite Hau].
  unfold bind at 1. rewrite check_withdrawal_interval_run.
  change (rate_limited w1) with (rate_limited w).
  destruct (rate_limited w (timestamp env)); [intros <-; eauto|].
  pose proof (withdrawable_eval i env w1 (inv_info _ _ HI) Hu (inv_accrual _ _ HI)) as Hw.
  cbv zeta in Hw. unfold bind at 1. rewrite Hw.
  change (streamed_at i (w_store w1 DataKey.RateCheckpoint) (w_store w1 DataKey.CliffConfig)
    (timestamp env)) with (accrued_at (view i w) (timestamp env)).
  destruct (in_i128 (accrued_at _ _)) eqn:Hacc; cbn [negb]; [|intros <-; eauto].
  unfold accrued_at in Hacc |- *. cbn [view a_info a_cp a_cliff] in Hacc |- *.
  rewrite (owed_sat _ _ _ HI) by (by apply in_range_spec). rewrite bind_throw_if.
  destruct (owed_at (view i w) (timestamp env) =? 0); [intros <-; eauto|].
  erewrite bind_run by reflexivity.
  erewrite (bind_run (token_balance _ _) _ env w1 bal w1)
    by (unfold token_balance; change (w_tokens w1) with (w_tokens w); by rewrite Hb).
  rewrite bind_throw_if. set (pay := Z.min _ bal). destruct (pay =? 0); [intros <-; eauto|].
  rewrite bind_checked. destruct (in_i128 (withdrawn i + pay)); intros <-; cbn [negb];
    [done|eauto].
Qed.

Lemma withdraw_tail_live `{!TokenLive T} env w i bal pay :
  w_store w DataKey.Config = Some i -> Inv (timestamp env) (view i w) ->
  tok_balance (w_tokens w) (token i) (current_contract env) = Some bal ->
  0 < pay <= bal -> I128 (withdrawn i + pay) -> U64 (event_sequence i + 3) ->
  payees_can_receive pay i w ->
  exists w', withdraw_tail i bal pay env w = ROk pay w'.
Proof.
  intros Hi HI Hb Hp Ht Hu [Hr1 Hr2]. unfold withdraw_tail.
  pose proof (wf_seq _ (inv_info _ _ HI)) as Hseq. cbn in Hseq.
  pose proof (wf_withdrawn _ (inv_info _ _ HI)) as Hw. cbn in Hw.
  pose proof (tok_balance_range _ _ _ _ Hb) as Hbr.
  erewrite bind_run by reflexivity. set (i1 := with_withdrawn _ i). set (w1 := put _ _ w).
  assert (Hf : forall k, k <> DataKey.Config -> w_store w1 k = w_store w k)
    by (intros; unfold w1; by store_simpl).
  destruct (pay_recipient_live i pay env w1 bal) as [t Hpay]; try done.
  { unfold split_ok. rewrite Hf by done. exact (inv_split_ok _ _ _ HI). }
  erewrite bind_run by exact Hpay. erewrite bind_run by reflexivity.
  erewrite bind_run by reflexivity. rewrite bind_checked.
  assert (in_i128 (bal - pay) = true) as -> by (apply in_range_spec; mlia).
  unfold ev_withdrawn. erewrite bind_run; [|rewrite !non_negative_run by lia;
    eapply numbered_publish_run; [unfold w1; by store_simpl|cbn; munfold; lia]].
  apply (milestones_run env _ (with_event_sequence (event_sequence i + 1) i1)); cbn; try done.
  all: try (munfold; lia).
  - intros c Hc. unfold bump_seq in Hc. store_simpl_in Hc. rewrite Hf in Hc by done.
    destruct (inv_accrual _ _ HI) as [_ Hk]. cbn in Hk. rewrite Hc in Hk. apply Hk.
Qed.

(** C10 Every outcome of a withdrawal is known beforehand. Signed by the recipient
    and with payees that can receive the tokens, [withdraw] never traps: it
    fails with the error of the first check that fails, in the order amount,
    cancelled, interval, accrual overflow, nothing owed, empty escrow, total
    overflow, and otherwise pays the least of the amount, what is owed and the
    escrow. The dry run [validate_withdraw] gives the same verdict, error for
    error, and changes nothing. *)
Theorem dry_run_agrees_with_withdraw `{!TokenLive T} amt env w i bal :
  w_store w DataKey.Config = Some i -> Inv (timestamp env) (view i w) -> U64 (timestamp env) ->
  default 0 (w_store w DataKey.Guard) = 0 -> authorized env (recipient i) = true ->
  tok_balance (w_tokens w) (token i) (current_contract env) = Some bal ->
  U64 (event_sequence i + 3) -> payees_can_receive amt i w ->
  match withdraw_verdict amt env i w bal with
  | inl e => validate_withdraw amt env w = RErr e w /\ exists w', withdraw amt env w = RErr e w'
  | inr pay => validate_withdraw amt env w = ROk tt w /\ exists w', withdraw amt env w = ROk pay w'
  end.
Proof.
  intros Hi HI Hu Hg Hau Hb Hseq Hrec. rewrite (validate_verdict amt env w i bal) by done.
  unfold withdraw. rewrite with_guard_run by done.
  pose proof (withdraw_verdict_run amt env (locked w) i bal (_withdraw amt env (locked w))) as Hrun.
  change (withdraw_verdict amt env i (locked w) bal) with (withdraw_verdict amt env i w bal) in Hrun.
  unfold locked in *. specialize (Hrun ltac:(by store_simpl) ltac:(unfold view; by store_simpl)
    Hu Hb Hau eq_refl).
  destruct (withdraw_verdict amt env i w bal) as [e|pay] eqn:Hv.
  - destruct Hrun as [w' ->]. split; [done|]. eauto.
  - pose proof (tok_balance_range _ _ _ _ Hb) as Hbr.
    apply withdraw_verdict_pay in Hv as (_ & Hp & Hle & Ht); [|lia].
    rewrite Hrun. split; [done|].
    destruct (withdraw_tail_live env (add_ttl None MIN_TTL_LEDGERS EXTEND_TTL_LEDGERS
      (locked w)) i bal pay) as [w' Hw']; try done.
    { destruct Hrec as [Hr1 Hr2]. split.
      - eapply can_receive_less; [exact Hr1|lia].
      - intros s Hs. eapply can_receive_less; [by apply Hr2|lia]. }
    unfold locked in Hw'. rewrite Hw'. eauto.
Qed.

End Money.

(** ** Witnesses on the example stream *)

Lemma withdraw_pays_what_is_owed_witness :
  exists b, tok_balance (w_tokens ex_stream) usdc stream_addr = Some b /\
    3000 = Z.min (Z.min 3000 (owed_at (view ex_info ex_stream) 1500)) b.
Proof.
  destruct (withdraw_pays_what_is_owed 3000 (env_at 1500) ex_stream 3000
              (after (withdraw 3000) 1500 ex_stream) ex_info) as (b & Hb & Hr & _).
  - reflexivity.
  - apply (ex_inv_at 900); [apply ex_reachable|reflexivity|cbn; lia].
  - apply ran. reflexivity.
  - exists b. split; [exact Hb|exact Hr].
Defined.

Lemma cancel_settles_both_parties_witness :
  settled (env_at 1800) ex_info_withdrawn ex_withdrawn
    (after (cancel alice) 1800 ex_withdrawn).
Proof.
  refine (proj1 (cancel_settles_both_parties alice (env_at 1800) ex_withdrawn tt
            (after (cancel alice) 1800 ex_withdrawn) ex_info_withdrawn _ _ _)).
  - reflexivity.
  - apply (ex_inv_at 1500); [apply ex_reach_withdrawn|reflexivity|cbn; lia].
  - apply ran. reflexivity.
Defined.

Lemma force_cancel_settles_after_threshold_witness :
  settled (env_at 90000) ex_info_paused ex_paused (after force_cancel 90000 ex_paused).
Proof.
  refine (proj1 (force_cancel_settles_after_threshold (env_at 90000) ex_paused tt
            (after force_cancel 90000 ex_paused) ex_info_paused _ _ _ _)).
  - reflexivity.
  - apply (ex_inv_at 1600); [apply ex_reach_paused|reflexivity|cbn; lia].
  - munfold; cbn; lia.
  - apply ran. reflexivity.
Defined.

Lemma clawback_leaves_what_is_owed_witness :
  tok_balance (w_tokens (after (clawback alice) 1500 ex_stream)) usdc stream_addr =
    Some (Z.min 10000 (owed_at (view ex_info ex_stream) 1500)).
Proof.
  destruct (clawback_leaves_what_is_owed alice (env_at 1500) ex_stream 5000
              (after (clawback alice) 1500 ex_stream) ex_info) as (b & n & Hb & _ & He & _).
  - reflexivity.
  - apply (ex_inv_at 900); [apply ex_reachable|reflexivity|cbn; lia].
  - discriminate.
  - apply ran. reflexivity.
  - cbn in Hb. injection Hb as <-. exact He.
Defined.

Lemma dry_run_agrees_with_withdraw_witness :
  (exists w', withdraw 3000 (env_at 1500) ex_stream = ROk 3000 w') /\
  (exists w', withdraw 3000 (env_at 999) ex_stream = RErr NothingToWithdraw w').
Proof.
  assert (H : forall t, 900 <= t < 2000 ->
    match withdraw_verdict 3000 (env_at t) ex_info ex_stream 10000 with
    | inl e => validate_withdraw 3000 (env_at t) ex_stream = RErr e ex_stream /\
        exists w', withdraw 3000 (env_at t) ex_stream = RErr e w'
    | inr pay => validate_withdraw 3000 (env_at t) ex_stream = ROk tt ex_stream /\
        exists w', withdraw 3000 (env_at t) ex_stream = ROk pay w'
    end).
  { intros t Ht. apply (dry_run_agrees_with_withdraw 3000 (env_at t) ex_stream ex_info 10000).
    - reflexivity.
    - apply (ex_inv_at 900); [apply ex_reachable|reflexivity|cbn; lia].
    - munfold; cbn; lia.
    - reflexivity.
    - reflexivity.
    - reflexivity.
    - munfold; cbn; lia.
    - split; [exists 0; split; [reflexivity|munfold; lia]|discriminate]. }
  split; [exact (proj2 (H 1500 ltac:(lia)))|exact (proj2 (H 999 ltac:(lia)))].
Defined.
