(* ===== verification/StreamProps.v ===== *)
(** * DripStream: theorems on the life of a stream

    Refinement of the specification, invariants of every reachable world, the
    arithmetic of accrual, pausing, rate changes, cancellation and
    authorisation. *)

From stdpp Require Import base numbers list option strings gmap.
From Stdlib Require Import ZArith Lia.
From S2P Require Import Prelude Host Ttl Pause StreamData StreamState StreamMath StreamOps.
From S2P Require Import StreamAdmin StreamFacts StreamSpec StreamRefine StreamSystem.
From S2P Require Import StreamExample.
Import Error.

#[local] Open Scope Z_scope.
#[local] Open Scope sf_scope.
#[local] Arguments streamed_at : simpl never.

Section Props.
Context {T : Type} `{TC : TokenClient T} `{TL : !TokenLaws T}.
Abbreviation SM := (M DataKey.data_key T Event.stream_event stream_error).
Abbreviation SWorld := (World DataKey.data_key T Event.stream_event).
Implicit Types w : SWorld.

(** ** Refinement and reachable invariants *)

(** C1 The contract implements its specification: every call that returns, in
    any reachable world, performs exactly the abstract transition of its kind
    on the accrual state, and nothing else. *)
Theorem calls_refine_specification allowed t w env c u w' :
  reachable allowed t w -> t <= timestamp env -> U64 (timestamp env) -> typed c ->
  exec c env w = ROk u w' ->
  exists i i', w_store w DataKey.Config = Some i /\ w_store w' DataKey.Config = Some i' /\
    astep (timestamp env) (view i w) (kind_of c) (view i' w').
Proof.
  intros Hre Hle Hu Hty H. destruct (reach_good _ _ _ Hre) as (i & HG & _).
  destruct (good_step _ _ _ _ _ _ _ HG Hle Hu Hty H) as (i' & HG' & Hst & _).
  exists i, i'. split_and!; [apply HG|apply HG'|done].
Qed.

(** C30 Every reachable world is well formed: the record's machine ranges and
    time order, the checkpoint, cliff and split bounds hold, and the
    re-entrancy guard is free between calls. *)
Theorem reachable_worlds_well_formed allowed t w :
  reachable allowed t w ->
  exists i, w_store w DataKey.Config = Some i /\ Inv t (view i w) /\
    default 0 (w_store w DataKey.Guard) = 0.
Proof.
  intros Hre. destruct (reach_good _ _ _ Hre) as (i & HG & _). exists i.
  split_and!; apply HG.
Qed.

(** C9 The recipient is never overpaid: over any sequence of calls that
    configures no cliff (pauses, resumes, rate changes, extensions, settlements
    included), the total paid out never exceeds the total accrued. *)
Theorem recipient_never_overpaid allowed t w i :
  reachable allowed t w -> without_cliffs allowed -> w_store w DataKey.Config = Some i ->
  withdrawn i <= streamed_at i (w_store w DataKey.RateCheckpoint) None t.
Proof.
  intros Hre Hnc Hi. destruct (reach_good _ _ _ Hre) as (j & HG & Hs & _).
  specialize (Hs Hnc). pose proof (good_record _ _ _ HG) as Hj. rewrite Hi in Hj.
  injection Hj as <-. pose proof (sol_paid _ _ Hs) as Hp. pose proof (sol_no_cliff _ _ Hs) as Hn.
  unfold accrued_at, no_cliff in *. cbn in *. by rewrite Hn in Hp.
Qed.

Lemma numbered_seqZ n evs n' :
  numbered n evs n' -> n' = n + Z.of_nat (List.length evs) /\
  map seq_of evs = seqZ (n + 1) (Z.of_nat (List.length evs)).
Proof.
  revert n. induction evs as [|e evs IH]; intros n; cbn [numbered List.length].
  - intros ->. split; [lia|done].
  - intros [He H]. destruct (IH _ H) as [-> Hm]. split; [lia|].
    rewrite seqZ_cons by lia. cbn [map]. rewrite He, Hm. do 2 f_equal; lia.
Qed.

(** The event log is complete and ordered: the stream's events carry the
    numbers 1, 2, 3, ... without gap or repetition, and the record's counter is
    the number of events published. *)
Theorem events_are_numbered allowed t w i :
  reachable allowed t w -> w_store w DataKey.Config = Some i ->
  event_sequence i = Z.of_nat (List.length (w_events w)) /\
  map seq_of (w_events w) = seqZ 1 (Z.of_nat (List.length (w_events w))).
Proof.
  intros Hre Hi. destruct (reach_good _ _ _ Hre) as (j & HG & _).
  pose proof (good_record _ _ _ HG) as Hj. rewrite Hi in Hj. injection Hj as <-.
  destruct (numbered_seqZ _ _ _ (good_log _ _ _ HG)) as [-> ->]. split; [lia|done].
Qed.

(** Cancellation is final: afterwards every call that still returns leaves
    the accrual record, the checkpoint and the cliff as they were, and is none
    of the withdrawing, settling, pausing, extending or rate-changing calls. *)
Theorem cancelled_is_final allowed t w env c u w' i :
  reachable allowed t w -> t <= timestamp env -> U64 (timestamp env) -> typed c ->
  w_store w DataKey.Config = Some i -> is_cancelled i = true ->
  exec c env w = ROk u w' ->
  kind_of c = KConfig /\
  exists n, w_store w' DataKey.Config = Some (with_event_sequence n i) /\
    w_store w' DataKey.RateCheckpoint = w_store w DataKey.RateCheckpoint /\
    w_store w' DataKey.CliffConfig = w_store w DataKey.CliffConfig.
Proof.
  intros Hre Hle Hu Hty Hi Hc H. destruct (reach_good _ _ _ Hre) as (j & HG & _).
  pose proof (good_record _ _ _ HG) as Hj. rewrite Hi in Hj. injection Hj as <-.
  destruct (good_step _ _ _ _ _ _ _ HG Hle Hu Hty H) as (i' & HG' & Hst & _).
  assert (Hl : ~ live (view i w)) by (unfold live; cbn; congruence).
  split; [destruct (kind_of c); [done|by inversion Hst..]|].
  destruct (astep_cancelled _ _ _ _ Hst Hl) as (n & sp & Heq). exists n.
  unfold view in Heq. injection Heq as -> -> -> _. split_and!; try done. apply HG'.
Qed.

End Props.

(** ** Witnesses *)

Lemma ex_reach_no_cliff : reachable no_cliff_call 1500 ex_withdrawn.
Proof. apply ex_reach_allowed. discriminate. Qed.

Lemma calls_refine_specification_witness :
  exists i i', w_store ex_withdrawn DataKey.Config = Some i /\
    w_store ex_paused DataKey.Config = Some i' /\
    astep 1600 (view i ex_withdrawn) KPause (view i' ex_paused).
Proof.
  apply (calls_refine_specification (fun _ => True) 1500 ex_withdrawn (env_at 1600)
           (PauseStream alice) tt ex_paused).
  - apply ex_reach_withdrawn.
  - cbn; lia.
  - munfold; cbn; lia.
  - exact I.
  - apply ran. reflexivity.
Defined.

Lemma reachable_worlds_well_formed_witness :
  exists i, w_store ex_resumed DataKey.Config = Some i /\ Inv 1700 (view i ex_resumed) /\
    default 0 (w_store ex_resumed DataKey.Guard) = 0.
Proof. apply (reachable_worlds_well_formed (fun _ => True)). apply ex_reach_resumed. Defined.

Lemma recipient_never_overpaid_witness :
  withdrawn ex_info_withdrawn <=
    streamed_at ex_info_withdrawn (w_store ex_withdrawn DataKey.RateCheckpoint) None 1500.
Proof.
  apply (recipient_never_overpaid no_cliff_call 1500 ex_withdrawn _ ex_reach_no_cliff).
  - intros c Hc. exact Hc.
  - reflexivity.
Defined.

Lemma events_are_numbered_witness : map seq_of (w_events ex_withdrawn) = seqZ 1 2.
Proof.
  refine (proj2 (events_are_numbered (fun _ => True) 1500 ex_withdrawn ex_info_withdrawn
            ex_reach_withdrawn _)).
  reflexivity.
Defined.

Lemma ex_reach_cancelled : reachable (fun _ => True) 1800 ex_cancelled.
Proof. apply (reach_after _ 1700); try apply ex_reach_resumed; done || (munfold; lia). Qed.

Definition ex_info_cancelled : StreamInfo :=
  mkStreamInfo alice bob usdc 10 1100 2100 7000 0
    (Z.lor FLAG_CLAWBACK_ENABLED FLAG_CANCELLED) 5 0.

Lemma cancelled_is_final_witness :
  let w' := after (exec (EmergencyPause carol)) 1900 ex_cancelled in
  exists n, w_store w' DataKey.Config = Some (with_event_sequence n ex_info_cancelled).
Proof.
  destruct (cancelled_is_final (fun _ => True) 1800 ex_cancelled (env_at 1900)
    (EmergencyPause carol) tt (after (exec (EmergencyPause carol)) 1900 ex_cancelled)
    ex_info_cancelled) as (_ & n & Hn & _).
  - apply ex_reach_cancelled.
  - cbn; lia.
  - munfold; cbn; lia.
  - exact I.
  - reflexivity.
  - reflexivity.
  - apply ran. reflexivity.
  - exists n. exact Hn.
Defined.
