(* ===== verification/StreamAccrual.v ===== *)
(** * DripStream: theorems on accrual

    The accrual arithmetic against its reference function, monotonicity,
    freezing and shifting by a pause, repricing by a rate change, and the
    absence of overflow on bounded streams; the places where a cliff breaks
    the rule. *)

From stdpp Require Import base numbers list option strings gmap.
From Stdlib Require Import ZArith Lia.
From S2P Require Import Prelude Host Ttl Pause StreamData StreamState StreamMath StreamOps.
From S2P Require Import StreamAdmin StreamFacts StreamSpec StreamRefine StreamSystem.
From S2P Require Import StreamExample.
Import Error.

#[local] Open Scope Z_scope.
#[local] Open Scope sf_scope.
#[local] Arguments streamed_at : simpl never.

Section Accrual.
Context {T : Type} `{TC : TokenClient T} `{TL : !TokenLaws T}.
Abbreviation SM := (M DataKey.data_key T Event.stream_event stream_error).
Abbreviation SWorld := (World DataKey.data_key T Event.stream_event).
Implicit Types w : SWorld.

(** [mul_div] is the floor of the exact product over the divisor, whatever
    the size of the product: it returns [q] exactly when [q] is that floor and
    fits an [i128]. *)
Theorem mul_div_is_exact_floor v m d q env w :
  0 <= v <= i128_max -> 0 <= m <= u128_max -> 0 < d <= u128_max ->
  mul_div (T := T) v m d env w = ROk q w <-> I128 q /\ q * d <= v * m < (q + 1) * d.
Proof.
  intros Hv Hm Hd. rewrite mul_div_eval by done.
  assert (Hq : q * d <= v * m < (q + 1) * d <-> q = v * m / d).
  { split.
    - intros Hb. apply (Z.div_unique _ _ _ (v * m - q * d)); lia.
    - intros ->. pose proof (Z.mul_div_le (v * m) d ltac:(lia)).
      pose proof (Z.mul_succ_div_gt (v * m) d ltac:(lia)). lia. }
  rewrite Hq. split.
  - destruct (in_i128 _) eqn:Hi; [|done]. intros [= <-]. by apply in_range_spec in Hi.
  - intros [Hi ->]. apply in_range_spec in Hi. unfold in_i128. by rewrite Hi.
Qed.

(** The reachable worlds' accrual, as reached from [reach_good]. *)
Lemma reach_accrual allowed t w i :
  reachable allowed t w -> w_store w DataKey.Config = Some i -> Inv t (view i w) /\ U64 t.
Proof.
  intros Hre Hi. destruct (reach_good _ _ _ Hre) as (j & HG & _).
  pose proof (good_record _ _ _ HG) as Hj. rewrite Hi in Hj. injection Hj as <-.
  split; apply HG.
Qed.

(** C25 In every reachable world the accrual computation equals the reference
    function [streamed_at], written apart from the code: the value at the last
    rate change, else the cliff, else the start, plus the rate for every
    second from there to the last counted one, which is the moment of the
    pause for a paused stream, else now, and never later than the end. It
    returns that value when it fits an [i128], reports [ArithmeticOverflow]
    otherwise, never traps and changes nothing. On a started stream without
    rate change or cliff it is the outcome of [calculate_streamed_amount] on
    those seconds. (The source documents the counted second of a paused
    stream as the later of pause and end; the code takes the earlier, as does
    the reference.) *)
Theorem accrual_matches_reference allowed t w i env :
  reachable allowed t w -> w_store w DataKey.Config = Some i -> U64 (timestamp env) ->
  let v := streamed_at i (w_store w DataKey.RateCheckpoint)
             (w_store w DataKey.CliffConfig) (timestamp env) in
  streamed_amount i env w = (if in_i128 v then ROk v w else RErr ArithmeticOverflow w) /\
  (w_store w DataKey.RateCheckpoint = None -> w_store w DataKey.CliffConfig = None ->
   start_time i <= timestamp env ->
   streamed_amount i env w =
     calculate_streamed_amount (rate_per_second i)
       (last_second i (timestamp env) - start_time i) env w).
Proof.
  intros Hre Hi Hu. destruct (reach_accrual _ _ _ _ Hre Hi) as [HI _]. cbv zeta. split.
  - apply streamed_eval; [apply HI|done|apply HI].
  - intros Hcp Hcl Hst. apply streamed_linear; try done. apply HI.
Qed.

(** Accrual never goes backwards: in every reachable world a later reading
    is at least the earlier one, whether the stream is pending, running,
    paused, past its end, under a cliff or after a rate change. *)
Theorem accrual_never_decreases allowed t w i env1 env2 v1 v2 w1 w2 :
  reachable allowed t w -> w_store w DataKey.Config = Some i ->
  timestamp env1 <= timestamp env2 ->
  streamed_amount i env1 w = ROk v1 w1 -> streamed_amount i env2 w = ROk v2 w2 ->
  0 <= v1 <= v2.
Proof.
  intros Hre Hi Hle H1 H2. destruct (reach_accrual _ _ _ _ Hre Hi) as [HI _].
  apply streamed_ok in H1 as (_ & _ & ->). apply streamed_ok in H2 as (_ & _ & ->).
  split; [apply streamed_nonneg|apply streamed_mono]; done || apply HI.
Qed.

(** What a stream without a cliff promises. *)
Lemma promised_total i w :
  no_cliff (view i w) ->
  match w_store w DataKey.RateCheckpoint with
  | Some c => accrued c + rate_per_second i * (end_time i - at_ c)
  | None => rate_per_second i * (end_time i - start_time i)
  end = promised (view i w).
Proof.
  unfold no_cliff, promised, accrual_base. cbn. intros ->.
  by destruct (w_store w DataKey.RateCheckpoint).
Qed.

(** C37 A bounded stream can never be locked by overflow: as long as no cliff
    was configured and the stream was not extended, the accrual computation
    every settlement depends on returns at every later time; it never exceeds
    the total the schedule promises (what had accrued at the last rate change
    plus the rate for every second from there to the end, or the rate for
    every second from start to end), a total that itself fits an [i128]; and
    once the end has passed an unpaused stream has accrued exactly that. *)
Theorem bounded_streams_never_overflow allowed t w i env :
  reachable allowed t w -> without_cliffs allowed -> without_extensions allowed ->
  w_store w DataKey.Config = Some i -> 0 < end_time i ->
  t <= timestamp env -> U64 (timestamp env) ->
  let total := match w_store w DataKey.RateCheckpoint with
               | Some c => accrued c + rate_per_second i * (end_time i - at_ c)
               | None => rate_per_second i * (end_time i - start_time i)
               end in
  exists v, streamed_amount i env w = ROk v w /\ 0 <= v <= total /\ total <= i128_max /\
    (StreamData.is_paused i = false -> end_time i <= timestamp env -> v = total).
Proof.
  intros Hre Hnc Hne Hi He Hle Hu. destruct (reach_good _ _ _ Hre) as (j & HG & HS & Hb).
  pose proof (good_record _ _ _ HG) as Hj. rewrite Hi in Hj. injection Hj as <-.
  specialize (Hb Hnc Hne). specialize (HS Hnc).
  pose proof (Inv_time _ _ _ Hle (good_inv _ _ _ HG)) as HI.
  pose proof (accrued_promised _ _ HI He) as Hmax. specialize (Hb He).
  pose proof (accrued_at_end _ _ HI He) as Hend.
  pose proof (streamed_nonneg i _ _ (timestamp env) (inv_info _ _ HI) (inv_accrual _ _ HI)) as Hn.
  pose proof (streamed_eval i env w (inv_info _ _ HI) Hu (inv_accrual _ _ HI)) as Hs.
  cbv zeta. rewrite (promised_total _ _ (sol_no_cliff _ _ HS)).
  unfold accrued_at in Hmax, Hend. cbn [view a_info a_cp a_cliff] in Hmax, Hn, Hend.
  cbv zeta in Hs. eexists. rewrite Hs.
  assert (in_i128 (streamed_at i (w_store w DataKey.RateCheckpoint)
    (w_store w DataKey.CliffConfig) (timestamp env)) = true) as ->
    by (apply in_range_spec; munfold; lia).
  split_and!; [done|done|done|done|auto].
Qed.

(** *** Pause and resume *)





(** *** Rate changes *)




(** *** Where a cliff breaks the rule *)

(** On the abstract state: after a pause of a stream that has passed its
    cliff, the paused seconds have accrued too. *)
Lemma cliff_shift s s1 s2 k t1 t2 :
  U64 t1 -> Inv t1 s -> a_cp s = None -> a_cliff s = Some k -> cliff_time k <= t1 ->
  astep t1 s KPause s1 -> astep t2 s1 KResume s2 ->
  forall x, t2 <= x ->
    accrued_at s2 x =
      accrued_at s (x - (t2 - t1)) + rate_per_second (a_info s) * (t2 - t1).
Proof.
  intros Hu1 HI Hcp Hk Hkt Hp Hr x Hx. pose proof (inv_info _ _ HI) as Hi.
  pose proof (inv_cliff_end _ _ HI k Hk) as Hke.
  inversion Hp as [| | |n ?? Hpf Hst He| | | | |]; subst. clear Hp.
  assert (Hw1 : wf_info (with_event_sequence n (paused_info t1 (a_info s))))
    by (apply wf_seq_upd, wf_pause_upd; done).
  inversion Hr as [| | | |n2 d ?? Hpt Hd Hdm Hs He2 Hwa| | | |]; subst. clear Hr.
  cbn [upd a_info a_cp a_cliff] in *.
  change (paused_at (with_event_sequence n (paused_info t1 (a_info s)))) with t1 in *.
  set (i1 := with_event_sequence n (paused_info t1 (a_info s))) in *.
  unfold accrued_at. cbn [a_info a_cp a_cliff]. rewrite Hcp, Hk, streamed_seq.
  unfold streamed_at. cbn [accrual_base shifted_cp].
  rewrite effective_wf by (apply wf_resume_upd; done || lia).
  rewrite (is_paused_resumed _ i1 (wf_flags _ Hw1)). rewrite effective_wf by done. rewrite Hpf.
  unfold i1. cbn. pose proof (wf_span _ Hi) as Hsp. unfold MIN_STREAM_DURATION in Hsp.
  pose proof (wf_start _ Hi). munfold.
  destruct (0 <? end_time (a_info s)) eqn:Hend; repeat case_match; breflect; try lia.
Qed.

(** Observed defect: a cliff breaks the rule that paused time does not
    accrue. Once the cliff has passed, a pause and resume leave the cliff where
    it was, so at every later time the paused seconds are paid at the full
    rate. *)
Theorem paused_time_accrues_after_cliff allowed t w env1 env2 c1 c2 u1 u2 w1 w2 i k :
  reachable allowed t w -> w_store w DataKey.Config = Some i ->
  w_store w DataKey.RateCheckpoint = None -> w_store w DataKey.CliffConfig = Some k ->
  cliff_time k <= timestamp env1 -> t <= timestamp env1 -> timestamp env1 <= timestamp env2 ->
  U64 (timestamp env1) -> U64 (timestamp env2) ->
  pause c1 env1 w = ROk u1 w1 -> resume c2 env2 w1 = ROk u2 w2 ->
  exists i2, w_store w2 DataKey.Config = Some i2 /\
    forall x, timestamp env2 <= x ->
      accrued_at (view i2 w2) x =
        accrued_at (view i w) (x - (timestamp env2 - timestamp env1)) +
        rate_per_second i * (timestamp env2 - timestamp env1).
Proof.
  intros Hre Hi Hcp Hk Hkt Hle1 Hle2 Hu1 Hu2 H1 H2.
  destruct (reach_good _ _ _ Hre) as (j & HG & _).
  pose proof (good_record _ _ _ HG) as Hj. rewrite Hi in Hj. injection Hj as <-.
  destruct (good_step _ _ _ env1 (PauseStream c1) u1 w1 HG Hle1 Hu1 I H1) as (i1 & HG1 & Hs1 & HI).
  destruct (good_step _ _ _ env2 (Resume c2) u2 w2 HG1 Hle2 Hu2 I H2) as (i2 & HG2 & Hs2 & _).
  exists i2. split; [apply HG2|]. by eapply (cliff_shift (view i w)).
Qed.

End Accrual.

(** ** Witnesses *)

Lemma mul_div_is_exact_floor_witness :
  mul_div (T := Ledger) 3000 2500 10000 (env_at 0) ex_stream = ROk 750 ex_stream.
Proof.
  apply (mul_div_is_exact_floor 3000 2500 10000 750); [munfold; lia| | |split; munfold; lia];
    unfold u128_max; lia.
Defined.

Lemma accrual_matches_reference_witness :
  streamed_amount ex_info_withdrawn (env_at 1700) ex_withdrawn = ROk 7000 ex_withdrawn.
Proof.
  refine (proj1 (accrual_matches_reference (fun _ => True) 1500 ex_withdrawn ex_info_withdrawn
             (env_at 1700) (ex_reach_allowed _ I) eq_refl _)).
  munfold; cbn; lia.
Defined.

Lemma accrual_never_decreases_witness : 0 <= 6000 <= 7000.
Proof.
  apply (accrual_never_decreases (fun _ => True) 1500 ex_withdrawn ex_info_withdrawn
           (env_at 1600) (env_at 1700) 6000 7000 ex_withdrawn ex_withdrawn).
  - apply ex_reach_allowed. exact I.
  - reflexivity.
  - cbn; lia.
  - reflexivity.
  - reflexivity.
Defined.

Lemma bounded_streams_never_overflow_witness :
  exists v, streamed_amount ex_info_withdrawn (env_at 9000) ex_withdrawn = ROk v ex_withdrawn
            /\ v = rate_per_second ex_info_withdrawn * 1000.
Proof.
  destruct (bounded_streams_never_overflow plain_call 1500 ex_withdrawn ex_info_withdrawn
    (env_at 9000)) as (v & Hv & _ & _ & He).
  - apply ex_reach_allowed. split; discriminate.
  - intros c [Hc _]. exact Hc.
  - intros c [_ Hc]. exact Hc.
  - reflexivity.
  - reflexivity.
  - cbn; lia.
  - munfold; cbn; lia.
  - exists v. split; [exact Hv|]. rewrite He; [reflexivity|reflexivity|cbn; lia].
Defined.



(** The example with a cliff at its start, passed long before the pause. *)
Definition ex_cliff : ExWorld := after (exec (SetCliff alice 1000 0)) 1200 ex_stream.
Definition ex_cliff_paused : ExWorld := after (exec (PauseStream alice)) 1300 ex_cliff.
Definition ex_info_cliff : StreamInfo :=
  mkStreamInfo alice bob usdc 10 1000 2000 0 0 FLAG_CLAWBACK_ENABLED 2 0.

Lemma ex_reach_cliff : reachable (fun _ => True) 1200 ex_cliff.
Proof. apply (reach_after _ 900); try apply ex_reachable; done || (munfold; cbn; munfold; lia). Qed.

Lemma paused_time_accrues_after_cliff_witness :
  exists i2, w_store (after (resume alice) 1700 ex_cliff_paused) DataKey.Config = Some i2 /\
    accrued_at (view i2 (after (resume alice) 1700 ex_cliff_paused)) 1700 =
      accrued_at (view ex_info_cliff ex_cliff) 1300 + 10 * 400.
Proof.
  destruct (paused_time_accrues_after_cliff (fun _ => True) 1200 ex_cliff (env_at 1300)
    (env_at 1700) alice alice tt tt ex_cliff_paused (after (resume alice) 1700 ex_cliff_paused)
    ex_info_cliff (mkCliffConfig 1000 0)) as (i2 & Hi2 & Hs).
  - apply ex_reach_cliff.
  - reflexivity.
  - reflexivity.
  - reflexivity.
  - cbn; lia.
  - cbn; lia.
  - cbn; lia.
  - munfold; cbn; lia.
  - munfold; cbn; lia.
  - apply ran. reflexivity.
  - apply ran. reflexivity.
  - exists i2. split; [exact Hi2|]. apply Hs. cbn; lia.
Defined.

(** Observed defect: a cliff can be set on a running stream, and it replaces
    what has already accrued. On the example stream, with 5000 accrued at time
    1500, the sender sets a cliff at the end and cancels: the recipient gets
    nothing and the whole escrow returns to the sender. *)
Theorem late_cliff_erases_accrued_value :
  let w1 := after (exec (SetCliff alice 2000 0)) 1500 ex_stream in
  let w2 := after (exec (Cancel alice)) 1500 w1 in
  answer (exec (SetCliff alice 2000 0)) 1500 ex_stream = Returned tt /\
  answer (exec (Cancel alice)) 1500 w1 = Returned tt /\
  answer withdrawable_view 1500 ex_stream = Returned 5000 /\
  answer withdrawable_view 1500 w1 = Returned 0 /\
  held w2 usdc bob = Some 0 /\ held w2 usdc alice = Some 60000 /\
  held w2 usdc stream_addr = Some 0.
Proof. vm_compute. repeat split. Qed.
