(* ===== verification/StreamSafety.v ===== *)
(** * DripStream: authorisation, re-entrancy, keepers and funding

    Who may make each call, the re-entrancy guard, the isolation of the keeper
    pool from the escrow, the booking of deposits and the TTL arithmetic. *)

From stdpp Require Import base numbers list option strings gmap.
From Stdlib Require Import ZArith Lia.
From S2P Require Import Prelude Host Ttl Pause StreamData StreamState StreamMath StreamOps.
From S2P Require Import StreamAdmin StreamFacts StreamSpec StreamRefine StreamSystem.
From S2P Require Import StreamExample.
Import Error.

#[local] Open Scope Z_scope.
#[local] Open Scope sf_scope.
#[local] Arguments streamed_at : simpl never.

(** Read through the released guard. *)
Ltac leave :=
  rewrite ?unlocked_tokens, ?unlocked_events, ?unlocked_store by congruence; store_simpl.

Section Safety.
Context {T : Type} `{TC : TokenClient T} `{TL : !TokenLaws T}.
Abbreviation SM := (M DataKey.data_key T Event.stream_event stream_error).
Abbreviation SWorld := (World DataKey.data_key T Event.stream_event).
Implicit Types w : SWorld.

(** ** Authorisation *)

Definition sender_or_operator (env : Env) w (i : StreamInfo) (caller : Address) : Prop :=
  authorized env caller = true /\
  (caller = sender i \/ w_store w DataKey.Operator = Some caller).

(** Who must have signed for a call to go through. *)
Definition permitted (env : Env) w (i : StreamInfo) (c : call) : Prop :=
  match c with
  | Initialize _ _ _ _ _ _ _ _ _ _ => False
  | Withdraw _ | ForceCancel | TransferRecipient _ | SetAutoForward _ =>
      authorized env (recipient i) = true
  | Cancel a | PauseStream a | Resume a | ChangeRate a _ | ExtendDuration a _
  | TopUpAndExtend a _ _ | Clawback a | SetCliff a _ _ | SetMinInterval a _
  | SetStreamConfig a _ | ConfigureKeeper a _ _ | FundKeeper a _ | WithdrawKeeper a _ =>
      sender_or_operator env w i a
  | SetSplit a _ _ | RemoveSplit a => sender_or_operator env w i a \/
      (authorized env a = true /\ a = recipient i)
  | SetOperator a _ | RevokeOperator a | SetTitle a _ | SetTag a _ =>
      authorized env a = true /\ a = sender i
  | TopUp a _ | EmergencyPause a | EmergencyUnpause a | KeeperPing a => authorized env a = true
  end.

(** Unfold the entry points down to their bodies. *)
Ltac open_call H :=
  cbn [exec] in H;
  try match type of H with bind _ (fun _ => ret tt) _ _ = _ =>
        let u := fresh "u" in apply bind_ok in H as (? & ? & H & u); injection u as _ <- end;
  unfold withdraw, cancel, force_cancel, pause, resume, change_rate, top_up, extend_duration,
    top_up_and_extend, clawback, transfer_recipient, set_cliff, set_split_recipient,
    remove_split_recipient, set_min_withdrawal_interval, set_stream_config,
    set_auto_forward_address, configure_keeper_reward_pool, fund_keeper_reward_pool,
    withdraw_keeper_reward_pool, keeper_ping in H;
  try (apply with_guard_ok in H as (? & _ & H & ->));
  unfold _withdraw, _cancel, _force_cancel, _pause, _resume, _change_rate, _top_up,
    _extend_duration, _top_up_and_extend, _clawback, _transfer_recipient, _set_cliff,
    _set_split_recipient, _remove_split_recipient, _set_min_withdrawal_interval,
    set_operator, revoke_operator, set_stream_title, set_reference_tag, emergency_pause,
    emergency_unpause, split_authorized in H.

(** Run a call to its end, forgetting amounts. *)
Ltac run_shapes :=
  repeat (progress (run_ok; repeat match goal with
    | H : settle_cancel _ _ _ = ROk _ _ |- _ => apply settle_cancel_shape in H as (? & ? & ->)
    | H : Pause.is_paused _ _ _ = ROk _ _ |- _ => apply is_paused_shape in H as [->|[? ->]]
    | H : ignore_result (set_paused _ _) _ _ = ROk _ _ |- _ =>
        apply set_paused_shape in H as [->|[? ->]]
    | H : is_emergency_paused _ _ = ROk _ _ |- _ => unfold is_emergency_paused in H
    end)).

Lemma permitted_step c env w u w' i :
  w_store w DataKey.Config = Some i -> exec c env w = ROk u w' -> permitted env w i c.
Proof.
  intros Hi H. destruct c; refuse_initialize; open_call H; run_ok;
    unfold permitted, sender_or_operator; try done.
  all: repeat (breflect; match goal with
         | H : _ \/ _ |- _ => destruct H
         | H : addr_eqb _ _ = true |- _ => apply addr_eqb_true in H
         end); subst; intuition auto.
  all: destruct (w_store w DataKey.Operator); [|done].
  all: match goal with H : addr_eqb _ _ = true |- _ => apply addr_eqb_true in H end; subst; auto.
Qed.

(** The identity of the parties is fixed. *)
Lemma astep_parties now k s s' : astep now s k s' ->
  sender (a_info s') = sender (a_info s) /\ token (a_info s') = token (a_info s) /\
  (k <> KRecipient -> recipient (a_info s') = recipient (a_info s)).
Proof. intros []; cbn; done. Qed.

(** C33 Who must have signed a call that goes through. Withdrawals, the forced
    cancellation, the transfer of the recipient and its forwarding address need
    the recipient; the life cycle (cancel, pause, resume, rate, extension,
    clawback, cliff, interval, configuration, keeper pool) the sender or the
    operator; the split either of them or the recipient; delegation and metadata
    the sender alone. Three kinds of call are open to whoever signs as their
    caller: a top-up (as its source comment says, while the README reserves it
    to sender and operator), the emergency switch (which halts nothing) and a
    keeper's ping (which pays its caller). A second initialization never goes
    through. The sender and the token never change,
    and the recipient changes only by its own transfer. *)
Theorem calls_need_authorization allowed t w env c u w' i :
  reachable allowed t w -> t <= timestamp env -> U64 (timestamp env) -> typed c ->
  w_store w DataKey.Config = Some i -> exec c env w = ROk u w' ->
  permitted env w i c /\
  exists i', w_store w' DataKey.Config = Some i' /\ sender i' = sender i /\ token i' = token i /\
    (match c with TransferRecipient _ => True | _ => recipient i' = recipient i end).
Proof.
  intros Hre Hle Hu Hty Hi H. split; [by eapply permitted_step|].
  destruct (reach_good _ _ _ Hre) as (j & HG & _).
  pose proof (good_record _ _ _ HG) as Hj. rewrite Hi in Hj. injection Hj as <-.
  destruct (good_step _ _ _ _ _ _ _ HG Hle Hu Hty H) as (i' & HG' & Hst & _).
  destruct (astep_parties _ _ _ _ Hst) as (H1 & H2 & H3). exists i'.
  split_and!; [apply HG'|done|done|]. destruct c; try done; by apply H3.
Qed.

(** ** Re-entrancy *)

Lemma with_guard_busy {R} (f : SM R) env w :
  1 <= default 0 (w_store w DataKey.Guard) -> with_guard f env w = RErr ReentrancyForbidden w.
Proof.
  intros Hd. unfold with_guard, lock. unfold bind at 1 2, sget. cbv beta iota.
  unfold bind, throw_if. assert (MAX_REENTRANCY_DEPTH <=? default 0 (w_store w DataKey.Guard) = true)
    as -> by (unfold MAX_REENTRANCY_DEPTH; lia). done.
Qed.

(** The entry points that run under the guard. *)
Definition guarded (c : call) : bool :=
  match c with
  | Initialize _ _ _ _ _ _ _ _ _ _ | SetOperator _ _ | RevokeOperator _ | SetTitle _ _ | SetTag _ _ | EmergencyPause _
  | EmergencyUnpause _ => false
  | _ => true
  end.

(** No call can re-enter: while a guarded call is in progress, every entry
    point that moves money or changes the schedule is refused with
    [ReentrancyForbidden] and changes nothing. *)
Theorem guard_excludes_reentry c env w :
  guarded c = true -> 1 <= default 0 (w_store w DataKey.Guard) ->
  exec c env w = RErr ReentrancyForbidden w.
Proof.
  intros Hg Hd. destruct c; try discriminate; cbn [exec];
    first [by apply with_guard_busy
          |erewrite bind_err; [reflexivity|by apply with_guard_busy]].
Qed.

(** ** The keeper pool *)

Definition keeper_call (c : call) : bool :=
  match c with
  | ConfigureKeeper _ _ _ | FundKeeper _ _ | WithdrawKeeper _ _ | KeeperPing _ => true
  | _ => false
  end.

(** Only the keeper calls write the pool. *)
Lemma pool_frame c env w u w' i :
  w_store w DataKey.Config = Some i -> keeper_call c = false ->
  exec c env w = ROk u w' ->
  w_store w' DataKey.KeeperRewardPool = w_store w DataKey.KeeperRewardPool.
Proof.
  intros Hi Hk H. destruct c; refuse_initialize; try discriminate; open_call H; run_shapes.
  all: unfold unlocked; repeat case_match; by store_simpl.
Qed.

Lemma initialize_ok_pool s r tok rate start stop claw threshold reg desc env w0 u w :
  initialize s r tok rate start stop claw threshold reg desc env w0 = ROk u w ->
  w_store w DataKey.KeeperRewardPool = w_store w0 DataKey.KeeperRewardPool.
Proof. intros H. unfold initialize in H. run_ok; by store_simpl. Qed.

(** The reward token of a configured pool is never the stream's token. *)
Definition pool_apart w (i : StreamInfo) : Prop :=
  forall p, w_store w DataKey.KeeperRewardPool = Some p -> kp_token p <> token i.

Lemma pool_apart_step c env w u w' i :
  w_store w DataKey.Config = Some i -> pool_apart w i -> exec c env w = ROk u w' ->
  pool_apart w' i.
Proof.
  intros Hi Hp H. destruct (keeper_call c) eqn:Hk.
  - destruct c; try discriminate; open_call H; run_ok.
    all: intros p; unfold unlocked; repeat case_match; store_simpl; intros [= <-]; cbn.
    all: repeat match goal with
         | H : addr_eqb _ _ = true |- _ => apply addr_eqb_true in H
         | H : _ || _ = false |- _ => apply orb_false_iff in H as [? ?]
         | H : addr_eqb _ _ = false |- _ => apply addr_eqb_false in H
         end; try congruence; by apply Hp.
  - intros p. rewrite (pool_frame c env w u w' i) by done. apply Hp.
Qed.

Lemma reach_pool_apart allowed t w i :
  reachable allowed t w -> w_store w DataKey.Config = Some i -> pool_apart w i.
Proof.
  intros Hre. revert i.
  induction Hre as [env w0 s r tok rate start stop claw threshold reg desc w Hf Ht Hr Hs Hst H
                 |t w env c r w' Hre IH Hle Hu Hty Hal H
                 |t w tok Hre IH]; intros i Hi.
  - intros p Hp. exfalso. destruct Hf as [Hf _]. apply initialize_ok_pool in H.
    rewrite H, Hf in Hp. done.
  - destruct (reach_good _ _ _ Hre) as (j & HG & _). pose proof (good_record _ _ _ HG) as Hj.
    specialize (IH j Hj). unfold invoke in H.
    destruct (exec c env w) as [u w1|e w1|tr] eqn:Hx; injection H as <- <-.
    + destruct (good_step _ _ _ _ _ _ _ HG Hle Hu Hty Hx) as (i' & HG' & Hst & _).
      pose proof (good_record _ _ _ HG') as Hi'. rewrite Hi in Hi'. injection Hi' as <-.
      pose proof (pool_apart_step _ _ _ _ _ _ Hj IH Hx) as Hp.
      destruct (astep_parties _ _ _ _ Hst) as (_ & Htk & _). cbn in Htk.
      unfold pool_apart in *. by rewrite Htk.
    + rewrite Hi in Hj. injection Hj as <-. done.
    + rewrite Hi in Hj. injection Hj as <-. done.
  - by apply IH.
Qed.

(** Keeper rewards never come out of the escrow: in every reachable world,
    configuring, funding, withdrawing from or being paid by the keeper pool
    leaves every balance in the stream's token unchanged. *)
Theorem keeper_calls_never_touch_escrow allowed t w env c u w' i a :
  reachable allowed t w -> w_store w DataKey.Config = Some i -> keeper_call c = true ->
  exec c env w = ROk u w' ->
  tok_balance (w_tokens w') (token i) a = tok_balance (w_tokens w) (token i) a.
Proof.
  intros Hre Hi Hk H. pose proof (reach_pool_apart _ _ _ _ Hre Hi) as Hp.
  destruct c; try discriminate; open_call H; run_ok;
    rewrite unlocked_tokens; store_simpl; try done.
  all: match goal with H : tok_transfer _ _ _ _ _ _ = Some _ |- _ =>
         eapply tok_transfer_other; [exact H|] end.
  all: intros He; eapply Hp; [eassumption|done].
Qed.

Lemma ping_too_soon k env w last r w' :
  w_store w DataKey.LastKeeperPingLedger = Some last ->
  sequence env < sat_u32 (last + MIN_TTL_LEDGERS) -> keeper_ping k env w <> ROk r w'.
Proof.
  intros Hl Hs H. unfold keeper_ping in H. apply with_guard_ok in H as (w1 & _ & H & ->).
  run_ok. rewrite Hl in *. lia.
Qed.

(** A keeper ping pays exactly the configured bounty, out of the pool, to
    the pinging keeper, and at most once per TTL interval: until that many
    ledgers have passed, no keeper's ping goes through. *)
Theorem keeper_ping_pays_once_per_interval k env w r w' i :
  w_store w DataKey.Config = Some i -> keeper_ping k env w = ROk r w' ->
  exists p, w_store w DataKey.KeeperRewardPool = Some p /\ r = kp_reward_per_ping p /\
    r <= kp_balance p /\ authorized env k = true /\ is_cancelled i = false /\
    w_store w' DataKey.KeeperRewardPool =
      Some (mkStreamKeeperRewardPool (kp_token p) r (kp_balance p - r)) /\
    moved (kp_token p) (w_tokens w) (w_tokens w')
      (fun a => at_addr k r a - at_addr (current_contract env) r a) /\
    forall env2 k2 r2 w2, sequence env2 < sat_u32 (sequence env + MIN_TTL_LEDGERS) ->
      keeper_ping k2 env2 w' <> ROk r2 w2.
Proof.
  intros Hi H. unfold keeper_ping in H. apply with_guard_ok in H as (w1 & _ & H & ->).
  run_ok. match goal with H : w_store w DataKey.KeeperRewardPool = Some ?p |- _ =>
            exists p; split; [exact H|] end.
  breflect. split_and!; try done; [by leave|leave; by eapply moved_transfer|].
  intros env2 k2 r2 w2 Hs. eapply ping_too_soon; [leave; reflexivity|done].
Qed.

(** ** Funding *)

(** Who pays what into the escrow in a funding call. *)
Definition deposit_of (c : call) (i : StreamInfo) : option (Address * Z) :=
  match c with
  | TopUp a x | TopUpAndExtend a x _ => Some (a, x)
  | ExtendDuration a x => Some (a, x * rate_per_second i)
  | _ => None
  end.

Definition extension_of (c : call) : Z :=
  match c with TopUpAndExtend _ _ x | ExtendDuration _ x => x | _ => 0 end.

(** Every deposit is booked exactly: a top-up or an extension moves the
    amount from the signing payer into the escrow, adds precisely it to the
    deposit ledger, and an extension costs its duration at the current rate and
    moves the end by exactly that duration. *)
Theorem deposits_are_booked c env w u w' i payer amt :
  w_store w DataKey.Config = Some i -> deposit_of c i = Some (payer, amt) ->
  exec c env w = ROk u w' ->
  let contract := current_contract env in
  exists total n,
    deposited w i contract = Some total /\
    w_store w' DataKey.CumulativeDeposited = Some (total + amt) /\
    moved (token i) (w_tokens w) (w_tokens w')
      (fun a => at_addr contract amt a - at_addr payer amt a) /\
    w_store w' DataKey.Config =
      Some (with_event_sequence n (with_end_time (end_time i + extension_of c) i)) /\
    authorized env payer = true /\ is_cancelled i = false.
Proof.
  intros Hi Hd H. destruct c; try discriminate; injection Hd as <- <-; open_call H; run_ok.
  all: match goal with H : deposited _ _ _ = Some ?v |- _ => exists v, (event_sequence i + 1);
         unfold deposited in H; store_simpl_in H; fold (deposited w i (current_contract env)) in H end.
  all: split_and!; try done; try by leave.
  all: leave; try (by eapply moved_transfer).
  destruct i; cbn. by rewrite Z.add_0_r.
Qed.

(** ** Creation *)

Definition acceptable (sender_ recipient_ : Address) (rate start stop threshold now : Z)
    (desc : option string) : Prop :=
  0 < rate /\ threshold <> 0 /\ is_zero_address recipient_ = false /\ recipient_ <> sender_ /\
  (stop <= 0 \/ start + MIN_STREAM_DURATION <= stop <= start + MAX_STREAM_DURATION) /\
  match desc with
  | Some d => Z.of_nat (String.length d) <= MAX_DESCRIPTION_LEN
  | None => True
  end /\
  (stop <= 0 \/ rate * (stop - start) <= i128_max) /\ now <= start.

Lemma initialize_goes_through s r tok rate start stop claw threshold reg desc env w0 :
  I128 rate -> U64 start -> U64 stop -> U64 (timestamp env) ->
  w_store w0 DataKey.Config = None ->
  acceptable s r rate start stop threshold (timestamp env) desc ->
  (0 < stop \/ is_Some (tok_balance (w_tokens w0) tok (current_contract env))) ->
  exists u w, initialize s r tok rate start stop claw threshold reg desc env w0 = ROk u w.
Proof.
  intros Hr Hs Hst Hn Hc Ha Hb.
  destruct Ha as (Hr0 & Hth & Hz & Hne & Hspan & Hdesc & Hmul & Hnow).
  unfold MIN_STREAM_DURATION, MAX_STREAM_DURATION in Hspan.
  assert (Hi : 0 < stop -> in_i128 (rate * (stop - start)) = true).
  { intros Hp. apply in_range_spec. munfold. split; nia. }
  assert (Hov : (0 <? stop) && negb (in_i128 (rate * (stop - start))) = false).
  { destruct (0 <? stop) eqn:Hp; [|done]. breflect. by rewrite Hi. }
  unfold initialize. unfold bind at 1, shas. rewrite Hc.
  rewrite bind_panic_if by done. rewrite bind_panic_if by lia. rewrite bind_panic_if by lia.
  rewrite bind_panic_if by (by rewrite Hz, (proj2 (addr_eqb_false _ _) Hne)).
  rewrite bind_panic_if by (munfold; lia).
  rewrite bind_panic_if by (unfold MIN_STREAM_DURATION; munfold; lia).
  rewrite bind_panic_if by (unfold MAX_STREAM_DURATION; munfold; lia).
  rewrite bind_panic_if by (destruct desc; lia). rewrite bind_panic_if by exact Hov.
  unfold bind at 1, ledger_timestamp. rewrite bind_panic_if by lia.
  erewrite bind_run by reflexivity.
  set (w1 := add_ttl _ _ _ _). set (setdesc := match desc with Some _ => _ | None => _ end).
  assert (Hd : exists w2, setdesc env w1 = ROk tt w2 /\ w_tokens w2 = w_tokens w0).
  { unfold setdesc. destruct desc; eexists; split; reflexivity || done. }
  destruct Hd as (w2 & Hd & Htk). erewrite bind_run by exact Hd.
  do 3 (erewrite bind_run by reflexivity). erewrite bind_run by reflexivity.
  set (w3 := put _ _ _).
  assert (Hdep : exists v, (if 0 <? stop then i128_op (rate * (stop - start))
      else token_balance tok (current_contract env)) env w3 =
      ROk (X := Event.stream_event) (E := stream_error) v w3).
  { destruct (0 <? stop) eqn:Hp; breflect.
    - unfold i128_op, checked_i128, checked. rewrite Hi by done. eauto.
    - destruct Hb as [?|[v Hv]]; [lia|]. exists v. unfold token_balance.
      change (w_tokens w3) with (w_tokens w2). by rewrite Htk, Hv. }
  destruct Hdep as [v Hdep]. erewrite bind_run by exact Hdep.
  erewrite bind_run by reflexivity. erewrite bind_run by reflexivity.
  unfold ev_created. rewrite non_negative_run by lia.
  erewrite numbered_publish_run; [eauto|by store_simpl|cbn; munfold; lia].
Qed.

(** [initialize] accepts exactly the sound schedules, once: it returns if
    and only if the contract holds no stream yet, every parameter check holds
    (and, for an open-ended stream, the token answers its balance). *)
Theorem initialize_accepts_exactly s r tok rate start stop claw threshold reg desc env w0 :
  I128 rate -> U64 start -> U64 stop -> U64 (timestamp env) ->
  (exists u w, initialize s r tok rate start stop claw threshold reg desc env w0 = ROk u w) <->
  (w_store w0 DataKey.Config = None /\
   acceptable s r rate start stop threshold (timestamp env) desc /\
   (0 < stop \/ is_Some (tok_balance (w_tokens w0) tok (current_contract env)))).
Proof.
  intros Hr Hs Hst Hn. split.
  - intros (u & w & H). unfold initialize in H. run_ok.
    all: breflect; unfold acceptable, MIN_STREAM_DURATION, MAX_STREAM_DURATION in *.
    all: repeat match goal with H : addr_eqb _ _ = false |- _ => apply addr_eqb_false in H end.
    all: split_and!; try done; try (munfold; lia).
    all: try (destruct (w_store w0 DataKey.Config); [discriminate|done]).
    all: eauto.
  - intros (Hc & Ha & Hb). by apply initialize_goes_through.
Qed.

(** ** Storage life time *)

(** The TTL requested for a stream always covers the rest of its schedule:
    it lies between the protocol minimum and the network cap, grows with the
    remaining time, and below the cap it is long enough for every remaining
    second plus the renewal threshold. *)
Theorem ttl_covers_remaining_time r r' :
  0 <= r <= r' -> U64 r' ->
  let ttl := extend_to_for_remaining in
  EXTEND_TTL_LEDGERS <= ttl r <= ttl r' /\ ttl r' <= MAX_TTL_LEDGERS /\
  (ttl r < MAX_TTL_LEDGERS -> r <= (ttl r - MIN_TTL_LEDGERS) * SECONDS_PER_LEDGER).
Proof.
  intros Hr Hu. cbv zeta. unfold extend_to_for_remaining, div_ceil, EXTEND_TTL_LEDGERS,
    MIN_TTL_LEDGERS, MAINNET_EXTEND_TTL_LEDGERS, MAINNET_MIN_TTL_LEDGERS, MAX_TTL_LEDGERS,
    SECONDS_PER_LEDGER.
  pose proof (Z.div_le_mono (r + 5 - 1) (r' + 5 - 1) 5 ltac:(lia) ltac:(lia)).
  pose proof (Z.mul_succ_div_gt (r + 5 - 1) 5 ltac:(lia)).
  assert (0 <= (r + 5 - 1) / 5) by (apply Z.div_pos; lia).
  mlia.
Qed.

End Safety.

(** ** Witnesses *)

Lemma calls_need_authorization_witness :
  permitted (env_at 1600) ex_withdrawn ex_info_withdrawn (PauseStream alice).
Proof.
  refine (proj1 (calls_need_authorization (fun _ => True) 1500 ex_withdrawn (env_at 1600)
            (PauseStream alice) tt ex_paused ex_info_withdrawn _ _ _ _ _ _)).
  - apply ex_reach_withdrawn.
  - cbn; lia.
  - munfold; cbn; lia.
  - exact I.
  - reflexivity.
  - apply ran. reflexivity.
Defined.

(** The example stream in the middle of a guarded call. *)
Lemma guard_excludes_reentry_witness :
  exec (Withdraw 10) (env_at 1500) (locked ex_stream) = RErr ReentrancyForbidden (locked ex_stream).
Proof.
  apply guard_excludes_reentry.
  - reflexivity.
  - apply Z.leb_le. reflexivity.
Defined.

(** The example stream with a keeper pool of 300 in [xlm], rewarding 50. *)
Definition ex_pool : ExWorld :=
  after (exec (FundKeeper alice 300)) 1100
    (after (exec (ConfigureKeeper alice xlm 50)) 1050 ex_stream).
Definition ex_info_pool : StreamInfo :=
  mkStreamInfo alice bob usdc 10 1000 2000 0 0 FLAG_CLAWBACK_ENABLED 3 0.

Lemma ex_reach_pool : reachable (fun _ => True) 1100 ex_pool.
Proof.
  apply (reach_after _ 1050); [apply (reach_after _ 900); try apply ex_reachable|..];
    done || (munfold; cbn; munfold; lia).
Qed.

Lemma keeper_calls_never_touch_escrow_witness :
  held (after (exec (KeeperPing keeper)) 1200 ex_pool) usdc stream_addr =
    held ex_pool usdc stream_addr.
Proof.
  apply (keeper_calls_never_touch_escrow (fun _ => True) 1100 ex_pool (env_at 1200)
           (KeeperPing keeper) tt (after (exec (KeeperPing keeper)) 1200 ex_pool) ex_info_pool).
  - apply ex_reach_pool.
  - reflexivity.
  - reflexivity.
  - apply ran. reflexivity.
Defined.

Lemma keeper_ping_pays_once_per_interval_witness :
  exists p, w_store ex_pool DataKey.KeeperRewardPool = Some p /\ 50 = kp_reward_per_ping p.
Proof.
  destruct (keeper_ping_pays_once_per_interval keeper (env_at 1200) ex_pool 50
    (after (keeper_ping keeper) 1200 ex_pool) ex_info_pool) as (p & Hp & Hr & _).
  - reflexivity.
  - apply ran. reflexivity.
  - exists p. split; [exact Hp|exact Hr].
Defined.

Lemma deposits_are_booked_witness :
  exists total, deposited ex_stream ex_info stream_addr = Some total /\
    w_store (after (exec (ExtendDuration alice 100)) 1500 ex_stream) DataKey.CumulativeDeposited
      = Some (total + 1000).
Proof.
  destruct (deposits_are_booked (ExtendDuration alice 100) (env_at 1500) ex_stream tt
    (after (exec (ExtendDuration alice 100)) 1500 ex_stream) ex_info alice 1000)
    as (total & n & H1 & H2 & _).
  - reflexivity.
  - reflexivity.
  - apply ran. reflexivity.
  - exists total. split; [exact H1|exact H2].
Defined.

Lemma initialize_accepts_exactly_witness :
  exists u w, initialize alice bob usdc 10 1000 2000 true 86400 false None (env_at 900) ex_blank
              = ROk u w.
Proof.
  apply (initialize_accepts_exactly alice bob usdc 10 1000 2000 true 86400 false None (env_at 900)
           ex_blank); [munfold; lia..|munfold; cbn; lia|].
  split; [reflexivity|]. split; [|left; lia].
  unfold acceptable, MIN_STREAM_DURATION, MAX_STREAM_DURATION. cbn. munfold.
  repeat split; try lia; try discriminate; right; lia.
Defined.

Lemma ttl_covers_remaining_time_witness :
  EXTEND_TTL_LEDGERS <= extend_to_for_remaining 600000 <= extend_to_for_remaining 900000.
Proof.
  refine (proj1 (ttl_covers_remaining_time 600000 900000 _ _)); [lia|munfold; lia].
Defined.

(** ** Observed defects

    Evaluated on the example stream. *)

(** The emergency halt can be raised by anyone and halts nothing: after Carol,
    who has no role, raises it, Bob withdraws and Alice cancels. *)
Theorem emergency_pause_halts_nothing :
  let w1 := after (exec (EmergencyPause carol)) 1500 ex_stream in
  answer (exec (EmergencyPause carol)) 1500 ex_stream = Returned tt /\
  answer is_emergency_paused 1500 w1 = Returned true /\
  answer (withdraw 3000) 1500 w1 = Returned 3000 /\
  answer (cancel alice) 1500 w1 = Returned tt.
Proof. vm_compute. repeat split. Qed.

(** The keeper pool can be overdrawn: its balance check is an [i128]
    subtraction, so with reward tokens in the contract that are not the pool's,
    the sender withdraws 400 from a pool of 300 and the pool goes negative. *)
Theorem keeper_pool_can_be_overdrawn :
  answer (withdraw_keeper_reward_pool alice 400) 1200 ex_pool = Returned tt /\
  w_store (after (withdraw_keeper_reward_pool alice 400) 1200 ex_pool) DataKey.KeeperRewardPool
    = Some (mkStreamKeeperRewardPool xlm 50 (-100)).
Proof. vm_compute. repeat split. Qed.

(** [get_summary] multiplies without a check: after a legal rate change near the
    end of a stream it traps. *)
Theorem summary_traps_after_rate_change :
  let big := 1000000000000000000000000000000000000 in
  answer (change_rate alice big) 1900 ex_stream = Returned tt /\
  answer get_summary 1901 (after (change_rate alice big) 1900 ex_stream) =
    Trapped ArithmeticPanic.
Proof. vm_compute. repeat split. Qed.

(** An open-ended stream records its initial deposit at creation, before the
    factory funds it: the deposit of 10000 never enters the deposit ledger. *)
Theorem open_ended_deposit_is_not_booked :
  let w1 := after (initialize alice bob usdc 10 1000 0 true 86400 false None) 900
              (set_tokens (<[(usdc, alice) := 60000]> ∅) ex_blank) in
  let w2 := set_tokens ex_tokens w1 in
  answer cumulative_deposited_view 1000 w2 = Returned 0 /\
  answer cumulative_deposited_view 1000 (after (top_up alice 500) 1000 w2) = Returned 500 /\
  held (after (top_up alice 500) 1000 w2) usdc stream_addr = Some 10500.
Proof. vm_compute. repeat split. Qed.

(** A rate change after a cliff was moved into the future discards what had
    accrued: the new checkpoint restarts from the cliff. *)
Theorem rate_change_under_late_cliff_discards_accrual :
  let w1 := after (change_rate alice 20) 1200 ex_stream in
  let w2 := after (set_cliff alice 2000 0) 1300 w1 in
  let w3 := after (change_rate alice 30) 1400 w2 in
  answer (change_rate alice 30) 1400 w2 = Returned tt /\
  answer streamed_total 1400 w2 = Returned 6000 /\
  answer streamed_total 1400 w3 = Returned 0.
Proof. vm_compute. repeat split. Qed.
