(* ===== verification/Batch.v ===== *)
(** * BatchTransferProcessor ([contracts/batch-processor/src/lib.rs])

    One pull from a funder, fanned out to at most thirty recipients: the
    all-or-nothing, the detailed and the capped variants, the dry run, and the
    admin-gated self-upgrade. *)

From stdpp Require Import base numbers list option.
From Stdlib Require Import ZArith Lia.
From S2P Require Import Prelude Host Ttl.

#[local] Open Scope Z_scope.
#[local] Open Scope sf_scope.

Definition MAX_BATCH_SIZE : Z := 30.
Definition MAX_BATCH_LIMIT : Z := MAX_BATCH_SIZE.
Definition VERSION : Z := 3.

(** ** Data *)

Module BKey.
Inductive data_key := Admin | ReentrancyLock.
End BKey.

#[export] Instance batch_key_eq_dec : EqDecision BKey.data_key.
Proof. solve_decision. Defined.

Definition batch_key_val (k : BKey.data_key) : Type :=
  match k with BKey.Admin => Address | BKey.ReentrancyLock => bool end.

#[export] Instance batch_keys : StorageKeys BKey.data_key := {
  key_eq_dec := batch_key_eq_dec;
  key_val := batch_key_val
}.

Inductive batch_error :=
| LengthMismatch
| BatchTooLarge
| InvalidAmount
| ArithmeticOverflow
| InvalidToken
| NotAuthorized
| InvalidWasmHash
| AlreadyInitialized
| NotInitialized
| ReentrancyForbidden
| InvalidBatchLimit.

Record BatchResult := mkBatchResult {
  item_index : Z;
  success : bool;
  error_code : option Z
}.

Record PartialBatchResult := mkPartialBatchResult {
  results : list BatchResult;
  requested_count : Z;
  processed_count : Z;
  remaining_count : Z;
  transferred_total : Z
}.

(** The published events; the deployer's code replacement is recorded in the
    same log. *)
Inductive batch_event :=
| init (topic_admin data_admin : Address)
| upgraded (caller : Address) (upgraded_at : Z)
| batch_transferred (funder token : Address) (count total : Z)
| WasmReplaced (hash : Z).

Section Batch.
Context {T : Type} `{TC : TokenClient T}.
Abbreviation BM := (M BKey.data_key T batch_event batch_error).

Definition len {A} (l : list A) : Z := Z.of_nat (List.length l).

(** ** Validation *)

Fixpoint sum_amounts (amounts : list Z) (total : Z) : BM Z :=
  match amounts with
  | [] => ret total
  | amount :: rest =>
      do! throw_if (amount <=? 0) InvalidAmount;
      let! total' := ok_or (checked_i128 (total + amount)) ArithmeticOverflow in
      sum_amounts rest total'
  end.

Definition validate_total (recipients : list Address) (amounts : list Z) : BM Z :=
  do! throw_if (negb (len recipients =? len amounts)) LengthMismatch;
  do! throw_if (MAX_BATCH_SIZE <? len amounts) BatchTooLarge;
  sum_amounts amounts 0.

(** A [G...] wallet rather than a contract. *)
Definition is_stellar_account (a : Address) : bool :=
  match a with Account _ => true | Contract _ => false end.

Definition validate_token (token : Address) : BM unit :=
  do! throw_if (is_zero_address token) InvalidToken;
  do! throw_if (is_stellar_account token) InvalidToken;
  let! contract := contract_address in
  let! probe := token_try_balance token contract in
  throw_if (negb (is_some probe)) InvalidToken.

Definition bump : BM unit := bump_instance.

(** ** Operations *)

Definition initialize (admin : Address) : BM unit :=
  let! present := shas BKey.Admin in
  do! throw_if present AlreadyInitialized;
  do! bump;
  do! sset BKey.Admin admin;
  publish (init admin admin).

(** Take the lock, pull the total, and the prologue of every paying call. *)
Definition take_lock : BM unit :=
  let! held := thas BKey.ReentrancyLock in
  do! throw_if held ReentrancyForbidden;
  tset BKey.ReentrancyLock true.

(** [for (idx, (recipient, amount)) in recipients.zip(amounts).enumerate()] *)
Fixpoint fan_out_detailed (token contract : Address) (idx : Z)
    (items : list (Address * Z)) (acc : list BatchResult) : BM (list BatchResult) :=
  match items with
  | [] => ret acc
  | (recipient, amount) :: rest =>
      do! token_transfer token contract recipient amount;
      fan_out_detailed token contract (idx + 1) rest (acc ++ [mkBatchResult idx true None])
  end.

Definition process_batch_detailed (funder token : Address) (recipients : list Address)
    (amounts : list Z) : BM (list BatchResult) :=
  let! total := validate_total recipients amounts in
  do! validate_token token;
  if total =? 0 then ret []
  else
    do! bump;
    do! take_lock;
    do! require_auth funder;
    let! contract := contract_address in
    do! token_transfer token funder contract total;
    let! results := fan_out_detailed token contract 0 (zip recipients amounts) [] in
    do! tremove BKey.ReentrancyLock;
    do! publish (batch_transferred funder token (len recipients) total);
    ret results.

(** [for index in 0..processed_count]: the two loops of the capped variant. *)
Fixpoint sum_prefix (amounts : list Z) (n index : nat) (total : Z) : BM Z :=
  match n with
  | O => ret total
  | S n' =>
      let! amount := ok_or (amounts !! index) LengthMismatch in
      do! throw_if (amount <=? 0) InvalidAmount;
      let! total' := ok_or (checked_i128 (total + amount)) ArithmeticOverflow in
      sum_prefix amounts n' (S index) total'
  end.

Fixpoint fan_out_prefix (token contract : Address) (recipients : list Address)
    (amounts : list Z) (n index : nat) (acc : list BatchResult) : BM (list BatchResult) :=
  match n with
  | O => ret acc
  | S n' =>
      let! recipient := ok_or (recipients !! index) LengthMismatch in
      let! amount := ok_or (amounts !! index) LengthMismatch in
      do! token_transfer token contract recipient amount;
      fan_out_prefix token contract recipients amounts n' (S index)
        (acc ++ [mkBatchResult (Z.of_nat index) true None])
  end.

Definition process_batch_with_limit (funder token : Address) (recipients : list Address)
    (amounts : list Z) (max_items : Z) : BM PartialBatchResult :=
  do! throw_if (negb (len recipients =? len amounts)) LengthMismatch;
  do! throw_if ((max_items =? 0) || (MAX_BATCH_SIZE <? max_items)) InvalidBatchLimit;
  let requested := len recipients in
  let processed := Z.min requested max_items in
  let! remaining := u32_op (requested - processed) in
  let! total := sum_prefix amounts (Z.to_nat processed) 0 0 in
  do! validate_token token;
  if processed =? 0 then ret (mkPartialBatchResult [] requested processed remaining 0)
  else
    do! bump;
    do! take_lock;
    do! require_auth funder;
    let! contract := contract_address in
    do! token_transfer token funder contract total;
    let! rs := fan_out_prefix token contract recipients amounts (Z.to_nat processed) 0 [] in
    do! tremove BKey.ReentrancyLock;
    do! publish (batch_transferred funder token processed total);
    ret (mkPartialBatchResult rs requested processed remaining total).

Definition execute_batch (funder token : Address) (recipients : list Address)
    (amounts : list Z) : BM (list BatchResult) :=
  process_batch_detailed funder token recipients amounts.

Fixpoint fan_out (token contract : Address) (items : list (Address * Z)) : BM unit :=
  match items with
  | [] => ret tt
  | (recipient, amount) :: rest =>
      do! token_transfer token contract recipient amount;
      fan_out token contract rest
  end.

Definition process_batch (funder token : Address) (recipients : list Address)
    (amounts : list Z) : BM Z :=
  let! total := validate_total recipients amounts in
  do! validate_token token;
  if total =? 0 then ret 0
  else
    do! bump;
    do! take_lock;
    do! require_auth funder;
    let! contract := contract_address in
    do! token_transfer token funder contract total;
    do! fan_out token contract (zip recipients amounts);
    do! tremove BKey.ReentrancyLock;
    do! publish (batch_transferred funder token (len recipients) total);
    ret total.

Definition preview_batch (recipients : list Address) (amounts : list Z) : BM Z :=
  validate_total recipients amounts.

Definition max_batch_size : BM Z := ret MAX_BATCH_SIZE.
Definition version : BM Z := ret VERSION.

(** [BytesN<32>] hashes are read as numbers; [update_current_contract_wasm]. *)
Definition update_current_contract_wasm (hash : Z) : BM unit := publish (WasmReplaced hash).

Definition upgrade (caller : Address) (new_wasm_hash : Z) : BM unit :=
  let! stored := sget BKey.Admin in
  let! admin := ok_or stored NotInitialized in
  do! throw_if (negb (addr_eqb caller admin)) NotAuthorized;
  do! require_auth caller;
  do! throw_if (new_wasm_hash =? 0) InvalidWasmHash;
  do! bump;
  do! update_current_contract_wasm new_wasm_hash;
  let! now := ledger_timestamp in
  publish (upgraded caller now).

End Batch.
