(* ===== verification/BatchFacts.v ===== *)
(** * BatchTransferProcessor: theorems

    Exact payouts, agreement of the dry run, of the detailed and of the capped
    variants with the plain batch, and the lock and upgrade rules. *)

From stdpp Require Import base numbers list option gmap.
From Stdlib Require Import ZArith Lia.
From S2P Require Import Prelude Host Ttl Batch.

#[local] Open Scope Z_scope.
#[local] Open Scope sf_scope.

(** ** Pure readings of the validation *)

Fixpoint sum_verdict (amounts : list Z) (total : Z) : batch_error + Z :=
  match amounts with
  | [] => inr total
  | amount :: rest =>
      if amount <=? 0 then inl InvalidAmount
      else if in_i128 (total + amount) then sum_verdict rest (total + amount)
      else inl ArithmeticOverflow
  end.

Definition batch_verdict (recipients : list Address) (amounts : list Z) : batch_error + Z :=
  if negb (len recipients =? len amounts) then inl LengthMismatch
  else if MAX_BATCH_SIZE <? len amounts then inl BatchTooLarge
  else sum_verdict amounts 0.

Lemma sum_verdict_ok amounts t s :
  sum_verdict amounts t = inr s -> s = t + total_of amounts /\ Forall (fun x => 0 < x) amounts.
Proof.
  revert t. induction amounts as [|x rest IH]; intros t; cbn [sum_verdict].
  - intros [= ->]. split; [cbn; lia|done].
  - destruct (x <=? 0) eqn:Hx; [done|]. destruct (in_i128 (t + x)); [|done]. breflect.
    intros [-> Hf]%IH. split; [cbn; unfold total_of; lia|by constructor].
Qed.

Lemma total_of_pos amounts :
  Forall (fun x => 0 < x) amounts -> amounts <> [] -> 0 < total_of amounts.
Proof.
  induction 1 as [|x rest Hx Hf IH]; [done|]. intros _. cbn.
  destruct rest; [cbn; lia|]. pose proof (IH ltac:(done)). unfold total_of in *. lia.
Qed.

Lemma total_of_zero amounts :
  Forall (fun x => 0 < x) amounts -> (total_of amounts =? 0) = (len amounts =? 0).
Proof.
  intros Hf. destruct amounts as [|x rest]; [done|].
  pose proof (total_of_pos _ Hf ltac:(done)). unfold len. cbn [List.length].
  destruct (Z.eqb_spec (total_of (x :: rest)) 0), (Z.eqb_spec (Z.of_nat (S (List.length rest))) 0);
    first [done | lia].
Qed.

Definition results_from (index n : nat) : list BatchResult :=
  map (fun k => mkBatchResult (Z.of_nat k) true None) (seq index n).

Section Facts.
Context {T : Type} `{TC : TokenClient T} `{TL : !TokenLaws T}.
Abbreviation BM := (M BKey.data_key T batch_event batch_error).
Implicit Types w : World BKey.data_key T batch_event.

(** Read a verdict as the outcome of a computation that changes nothing. *)
Definition outcome {A} (v : batch_error + A) w : Outcome BKey.data_key T batch_event batch_error A :=
  match v with inl e => RErr e w | inr a => ROk a w end.

Lemma sum_amounts_run amounts t env w :
  sum_amounts (T := T) amounts t env w = outcome (sum_verdict amounts t) w.
Proof.
  revert t. induction amounts as [|x rest IH]; intros t; [done|]. cbn [sum_amounts sum_verdict].
  rewrite bind_throw_if. destruct (x <=? 0); [done|]. rewrite bind_checked.
  destruct (in_i128 (t + x)); [apply IH|done].
Qed.

Lemma validate_total_run r a env w :
  validate_total (T := T) r a env w = outcome (batch_verdict r a) w.
Proof.
  unfold validate_total, batch_verdict. rewrite bind_throw_if. destruct (negb _); [done|].
  rewrite bind_throw_if. destruct (_ <? _); [done|]. apply sum_amounts_run.
Qed.

Lemma sum_prefix_run amounts n i t env w :
  (i + n <= List.length amounts)%nat ->
  sum_prefix (T := T) amounts n i t env w = sum_amounts (take n (drop i amounts)) t env w.
Proof.
  revert i t w. induction n as [|n IH]; intros i t w Hl; [done|]. cbn [sum_prefix].
  destruct (lookup_lt_is_Some_2 amounts i ltac:(lia)) as [x Hx]. rewrite Hx.
  rewrite (drop_S _ _ _ Hx). cbn [take sum_amounts]. erewrite bind_run by reflexivity.
  unfold bind. destruct (throw_if _ _ env w) as [u w1|e w1|tr]; [|done..].
  destruct (ok_or _ _ env w1) as [s w2|e w2|tr]; [|done..].
  rewrite IH by lia. done.
Qed.

(** The fan-outs do the same transfers. *)
Definition on_ok {A B} (f : A -> B) (out : Outcome BKey.data_key T batch_event batch_error A)
  : Outcome BKey.data_key T batch_event batch_error B :=
  match out with ROk x w => ROk (f x) w | RErr e w => RErr e w | RTrap t => RTrap t end.

(** [m1] does what [m2] does and answers [f] of its result. *)
Definition answers {A B} (f : A -> B) (m1 : BM B) (m2 : BM A) : Prop :=
  forall env w, m1 env w = on_ok f (m2 env w).

Lemma answers_bind {A B C} (f : A -> B) (m : BM C) k1 k2 :
  (forall c, answers f (k1 c) (k2 c)) -> answers f (bind m k1) (bind m k2).
Proof. intros H env w. unfold bind. destruct (m env w); [apply H|done|done]. Qed.

Lemma answers_fan_out {A B C} (f : A -> B) (m1 : BM C) (m2 : BM unit) (res : C) k1 k2 env w :
  m1 env w = on_ok (fun _ => res) (m2 env w) ->
  (forall u, answers f (k1 res) (k2 u)) ->
  bind m1 k1 env w = on_ok f (bind m2 k2 env w).
Proof. intros H Hk. unfold bind. rewrite H. destruct (m2 env w); [apply Hk|done|done]. Qed.

Lemma fan_out_detailed_run tk c n items acc env w :
  fan_out_detailed tk c (Z.of_nat n) items acc env w =
  on_ok (fun _ => acc ++ results_from n (List.length items)) (fan_out tk c items env w).
Proof.
  revert n acc w. induction items as [|[r amt] rest IH]; intros n acc w.
  - cbn. by rewrite app_nil_r.
  - cbn [fan_out_detailed fan_out List.length]. unfold bind.
    destruct (token_transfer tk c r amt env w) as [u w1|e w1|tr]; [|done..].
    replace (Z.of_nat n + 1) with (Z.of_nat (S n)) by lia. rewrite IH.
    unfold results_from. cbn [seq map]. by rewrite <- app_assoc.
Qed.

Lemma fan_out_prefix_run tk c rs amts n i acc env w :
  (i + n <= List.length amts)%nat -> List.length rs = List.length amts ->
  fan_out_prefix tk c rs amts n i acc env w =
  on_ok (fun _ => acc ++ results_from i n)
    (fan_out tk c (zip (take n (drop i rs)) (take n (drop i amts))) env w).
Proof.
  revert i acc w. induction n as [|n IH]; intros i acc w Hl Heq.
  - cbn. by rewrite app_nil_r.
  - cbn [fan_out_prefix].
    destruct (lookup_lt_is_Some_2 amts i ltac:(lia)) as [x Hx].
    destruct (lookup_lt_is_Some_2 rs i ltac:(lia)) as [r Hr]. rewrite Hx, Hr.
    rewrite (drop_S _ _ _ Hx), (drop_S _ _ _ Hr). cbn [take zip zip_with fan_out].
    do 2 (erewrite bind_run by reflexivity). unfold bind.
    destruct (token_transfer tk c r x env w) as [u w1|e w1|tr]; [|done..].
    rewrite IH by lia. unfold results_from. cbn [seq map]. by rewrite <- app_assoc.
Qed.

Lemma fan_out_moved tk items env w u w' :
  fan_out tk (current_contract env) items env w = ROk u w' ->
  exists t', w' = set_tokens t' w /\ moved tk (w_tokens w) t'
    (fun a => received items a - at_addr (current_contract env) (total_of items.*2) a).
Proof.
  revert w. induction items as [|[r amt] rest IH]; intros w H.
  - injection H as <- <-. exists (w_tokens w). split; [by destruct w|].
    eapply moved_ext; [|apply moved_refl]. intros a. cbn. unfold at_addr. by case_match.
  - cbn [fan_out] in H. apply bind_ok in H as (u1 & w1 & H1 & H).
    apply token_transfer_ok in H1 as (t1 & Ht & ->). apply IH in H as (t' & -> & Hm).
    exists t'. split; [done|].
    eapply moved_ext; [|exact (moved_trans _ _ _ _ _ _ (moved_transfer _ _ _ _ _ _ _ Ht) Hm)].
    intros a. cbn. unfold at_addr, total_of. repeat case_match; lia.
Qed.

(** *** The plain batch *)

Lemma validate_token_ok tk env w u w' :
  validate_token (T := T) tk env w = ROk u w' ->
  w' = w /\ is_zero_address tk = false /\ is_stellar_account tk = false.
Proof. unfold validate_token. intros H. inv_ok. done. Qed.

Lemma validate_token_unchanged tk env w :
  match validate_token (T := T) tk env w with
  | ROk _ w' => w' = w
  | RErr e w' => e = InvalidToken /\ w' = w
  | RTrap _ => False
  end.
Proof.
  unfold validate_token. rewrite bind_throw_if. destruct (is_zero_address tk); [done|].
  rewrite bind_throw_if. destruct (is_stellar_account tk); [done|].
  unfold bind, contract_address, token_try_balance, throw_if. destruct (negb _); done.
Qed.

Lemma take_lock_ok env w u w' :
  take_lock (T := T) env w = ROk u w' ->
  w_temp w BKey.ReentrancyLock = None /\ w' = put_temp BKey.ReentrancyLock (Some true) w.
Proof.
  unfold take_lock. intros H. inv_ok.
  destruct (w_temp w BKey.ReentrancyLock); [discriminate|done].
Qed.

Lemma batch_verdict_ok r a s :
  batch_verdict r a = inr s ->
  List.length r = List.length a /\ len a <= MAX_BATCH_SIZE /\ s = total_of a /\
  Forall (fun x => 0 < x) a.
Proof.
  unfold batch_verdict, len. destruct (negb _) eqn:Hl; [done|]. destruct (_ <? _) eqn:Hm; [done|].
  intros H%sum_verdict_ok. breflect. destruct H. split_and!; try done; lia.
Qed.

Lemma zip_amounts (r : list Address) (a : list Z) :
  List.length r = List.length a -> (zip r a).*2 = a.
Proof. intros H. apply snd_zip. lia. Qed.

(** C26 A batch that goes through pays everyone exactly: every listed recipient
    receives each of its amounts, the funder pays exactly their sum, the
    processor keeps nothing, no other balance moves, and the funder signed
    (unless the batch is empty). Batches hold at most thirty positive amounts
    ([MAX_BATCH_SIZE] in the code; the README and the tests of the root package
    say a hundred), and the lock is free afterwards. *)
Theorem batch_pays_everyone_exactly funder tk r a env w total w' :
  process_batch funder tk r a env w = ROk total w' ->
  List.length r = List.length a /\ len a <= MAX_BATCH_SIZE /\ total = total_of a /\
  Forall (fun x => 0 < x) a /\ (a <> [] -> authorized env funder = true) /\
  moved tk (w_tokens w) (w_tokens w')
    (fun x => received (zip r a) x - at_addr funder total x) /\
  (a <> [] -> w_temp w' BKey.ReentrancyLock = None /\
     w_events w' = w_events w ++ [batch_transferred funder tk (len r) total]).
Proof.
  unfold process_batch. intros H. apply bind_ok in H as (t & w1 & Hv & H).
  rewrite validate_total_run in Hv. destruct (batch_verdict r a) as [e|s] eqn:Hb; [done|].
  injection Hv as <- <-. apply batch_verdict_ok in Hb as (Hl & Hm & -> & Hf).
  apply bind_ok in H as (u & w1 & Ht & H). apply validate_token_ok in Ht as (-> & _ & _).
  destruct (total_of a =? 0) eqn:Hz.
  - injection H as <- <-. assert (a = []) as ->.
    { destruct a; [done|]. pose proof (total_of_pos _ Hf ltac:(done)). lia. }
    split_and!; try done. destruct r; [|done]. eapply moved_ext; [|apply moved_refl].
    intros x. unfold at_addr. by case_match.
  - apply bind_ok in H as (u1 & w1 & Hbump & H). injection Hbump as <- <-.
    apply bind_ok in H as (u2 & w2 & Hlk & H). apply take_lock_ok in Hlk as [_ ->].
    apply bind_ok in H as (u3 & w3 & Hau & H). apply require_auth_ok in Hau as [Hau ->].
    apply bind_ok in H as (c & w4 & Hc & H). injection Hc as <- <-.
    apply bind_ok in H as (u4 & w5 & Htr & H). apply token_transfer_ok in Htr as (t1 & Htr & ->).
    apply bind_ok in H as (u5 & w6 & Hfan & H). apply fan_out_moved in Hfan as (t2 & -> & Hm2).
    inv_ok. split_and!; try done.
    cbn in *. eapply moved_ext;
      [|exact (moved_trans _ _ _ _ _ _ (moved_transfer _ _ _ _ _ _ _ Htr) Hm2)].
    intros x. rewrite zip_amounts by done. unfold at_addr. repeat case_match; lia.
Qed.

(** The dry run and the paying call never disagree about the batch: every
    error of [preview_batch] is the error of [process_batch], a preview changes
    nothing, and a batch that pays moved exactly the previewed total. *)
Theorem preview_agrees_with_batch funder tk r a env w :
  match preview_batch r a env w with
  | RErr e w1 => w1 = w /\ process_batch funder tk r a env w = RErr e w
  | ROk total w1 => w1 = w /\ forall paid w', process_batch funder tk r a env w = ROk paid w' ->
                                           paid = total
  | RTrap _ => False
  end.
Proof.
  unfold preview_batch, process_batch. rewrite validate_total_run.
  destruct (batch_verdict r a) as [e|s] eqn:Hb; cbn [outcome]; (split; [done|]).
  - by erewrite bind_err by (rewrite validate_total_run, Hb; reflexivity).
  - intros paid w' H. erewrite bind_run in H by (rewrite validate_total_run, Hb; reflexivity).
    apply bind_ok in H as (u & w1 & Ht & H). destruct (s =? 0) eqn:Hz.
    + injection H as <- <-. breflect. done.
    + repeat (apply bind_ok in H as (? & ? & _ & H)). by injection H as <- _.
Qed.

(** *** The variants *)

Lemma answers_validated {A B} (f : A -> B) r a (k1 : Z -> BM B) (k2 : Z -> BM A) :
  (forall total, batch_verdict r a = inr total -> answers f (k1 total) (k2 total)) ->
  answers f (bind (validate_total r a) k1) (bind (validate_total r a) k2).
Proof.
  intros H env w. unfold bind. rewrite validate_total_run.
  destruct (batch_verdict r a); [done|]. by apply H.
Qed.

(** What follows the token check of a non-empty plain batch. *)
Lemma detailed_tail funder tk r a total :
  List.length r = List.length a ->
  answers (fun _ => results_from 0 (List.length r))
    (do! bump; do! take_lock; do! require_auth funder;
     let! contract := contract_address in
     do! token_transfer tk funder contract total;
     let! rs := fan_out_detailed tk contract 0 (zip r a) [] in
     do! tremove BKey.ReentrancyLock;
     do! publish (batch_transferred funder tk (len r) total);
     ret rs)
    (do! bump; do! take_lock; do! require_auth funder;
     let! contract := contract_address in
     do! token_transfer tk funder contract total;
     do! fan_out tk contract (zip r a);
     do! tremove BKey.ReentrancyLock;
     do! publish (batch_transferred funder tk (len r) total);
     ret total).
Proof.
  intros Hl. do 5 (apply answers_bind; intros ?). intros env w.
  eapply answers_fan_out with (res := results_from 0 (List.length r)).
  - pose proof (fan_out_detailed_run tk c2 0 (zip r a) [] env w) as H.
    rewrite length_zip_with_l_eq in H by done. exact H.
  - intros []. do 2 (apply answers_bind; intros ?). done.
Qed.

(** [process_batch_detailed] and [execute_batch] are the plain batch with one
    success record per item: same transfers, same errors, same final state. *)
Theorem detailed_batch_is_batch funder tk r a env w :
  process_batch_detailed funder tk r a env w =
  on_ok (fun _ => results_from 0 (List.length r)) (process_batch funder tk r a env w).
Proof.
  apply answers_validated. intros total Hb.
  apply batch_verdict_ok in Hb as (Hl & Hm & -> & Hf).
  apply answers_bind. intros u. rewrite (total_of_zero _ Hf).
  destruct (len a =? 0) eqn:Hz; [|by apply detailed_tail].
  destruct a; [by destruct r|]. unfold len in Hz. cbn [List.length] in Hz. breflect. lia.
Qed.

(** *** The capped variant *)

Lemma bind_ext {A B} (m1 m2 : BM A) (k : A -> BM B) env w :
  m1 env w = m2 env w -> bind m1 k env w = bind m2 k env w.
Proof. unfold bind. by intros ->. Qed.

Lemma batch_u32_op_run n env w : 0 <= n <= u32_max -> u32_op (n : Z) env w = ROk n w :> Outcome _ T _ batch_error Z.
Proof.
  intros H. unfold u32_op, checked_u32, checked.
  by rewrite (proj2 (in_range_spec 0 u32_max n) H : in_u32 n = true).
Qed.

Lemma len_take {A} (l : list A) k : 0 <= k <= len l -> len (take (Z.to_nat k) l) = k.
Proof. unfold len. intros. rewrite length_take. lia. Qed.

(** The capped call validates the prefix it is going to pay. *)
Lemma prefix_validated r a k env w :
  len r = len a -> 0 <= k -> k <= len a -> k <= MAX_BATCH_SIZE ->
  sum_prefix (T := T) a (Z.to_nat k) 0 0 env w =
  validate_total (take (Z.to_nat k) r) (take (Z.to_nat k) a) env w.
Proof.
  intros Hl H0 Hk Hm. rewrite sum_prefix_run by (unfold len in *; lia). rewrite drop_0.
  unfold validate_total. rewrite bind_throw_if, !len_take, Z.eqb_refl by lia. cbn [negb].
  by rewrite bind_throw_if, (proj2 (Z.ltb_ge _ _)) by lia.
Qed.

(** The tail of the capped call, at [k] items. *)
Lemma capped_tail funder tk r a k n total :
  len r = len a -> 0 <= k -> k <= len a ->
  answers (mkPartialBatchResult (results_from 0 (Z.to_nat k)) (len r) k n)
    (do! bump; do! take_lock; do! require_auth funder;
     let! contract := contract_address in
     do! token_transfer tk funder contract total;
     let! rs := fan_out_prefix tk contract r a (Z.to_nat k) 0 [] in
     do! tremove BKey.ReentrancyLock;
     do! publish (batch_transferred funder tk k total);
     ret (mkPartialBatchResult rs (len r) k n total))
    (do! bump; do! take_lock; do! require_auth funder;
     let! contract := contract_address in
     do! token_transfer tk funder contract total;
     do! fan_out tk contract (zip (take (Z.to_nat k) r) (take (Z.to_nat k) a));
     do! tremove BKey.ReentrancyLock;
     do! publish (batch_transferred funder tk (len (take (Z.to_nat k) r)) total);
     ret total).
Proof.
  intros Hl H0 Hk. do 5 (apply answers_bind; intros ?). intros env w.
  eapply answers_fan_out.
  - apply fan_out_prefix_run; unfold len in *; lia.
  - intros []. rewrite len_take by lia. do 2 (apply answers_bind; intros ?). done.
Qed.

(** The capped call is the plain batch on the first [min(len, max_items)]
    items: same validation, transfers, errors and final state, with one success
    record per paid item and the count of the items left over. *)
Theorem capped_batch_is_batch_of_prefix funder tk r a n env w :
  len r = len a -> len r <= u32_max -> 1 <= n <= MAX_BATCH_SIZE ->
  let k := Z.min (len r) n in
  process_batch_with_limit funder tk r a n env w =
  on_ok (mkPartialBatchResult (results_from 0 (Z.to_nat k)) (len r) k (len r - k))
    (process_batch funder tk (take (Z.to_nat k) r) (take (Z.to_nat k) a) env w).
Proof.
  intros Hl Hu Hn k. unfold process_batch_with_limit. fold k.
  rewrite bind_throw_if, Hl, Z.eqb_refl. cbn [negb]. rewrite bind_throw_if.
  rewrite (proj2 (Z.eqb_neq n 0)), (proj2 (Z.ltb_ge _ _)) by lia. cbn [orb].
  assert (Hk : 0 <= k <= len a /\ k <= MAX_BATCH_SIZE) by (unfold k, len in *; lia).
  erewrite bind_run by (apply batch_u32_op_run; rewrite Hl in *; lia).
  etransitivity; [apply bind_ext, (prefix_validated r); lia|].
  apply answers_validated. intros total Hb.
  apply batch_verdict_ok in Hb as (Hl' & Hm & -> & Hf).
  apply answers_bind. intros u. rewrite (total_of_zero _ Hf), len_take by lia.
  destruct (k =? 0) eqn:Hz; [|rewrite <- Hl; apply capped_tail; lia].
  breflect. by rewrite Hz.
Qed.

End Facts.

(** ** A concrete batch *)

Definition payer : Address := Account 21.
Definition payee1 : Address := Account 22.
Definition payee2 : Address := Account 23.
Definition processor : Address := Contract 6.
Definition coin : Address := Contract 100.

Abbreviation BatchWorld := (World BKey.data_key Ledger batch_event).

Definition batch_env : Env := mkEnv 1000 5000 processor (fun _ => true).
Definition batch_world : BatchWorld :=
  mkWorld (fun _ => None) (fun _ => None) (fun _ => None) (<[(coin, payer) := 100]> ∅) [] [].

Definition ex_payees : list Address := [payee1; payee2; payee1].
Definition ex_amounts : list Z := [10; 20; 30].

Definition batch_paid : BatchWorld :=
  (invoke (process_batch payer coin ex_payees ex_amounts) batch_env batch_world).2.

Lemma batch_run :
  process_batch payer coin ex_payees ex_amounts batch_env batch_world = ROk 60 batch_paid.
Proof. vm_compute. reflexivity. Qed.

Lemma batch_pays_everyone_exactly_witness :
  moved coin (w_tokens batch_world) (w_tokens batch_paid)
    (fun x => received (zip ex_payees ex_amounts) x - at_addr payer 60 x).
Proof.
  apply (batch_pays_everyone_exactly payer coin ex_payees ex_amounts batch_env batch_world 60
           batch_paid batch_run).
Defined.

Lemma preview_agrees_with_batch_witness :
  process_batch payer coin ex_payees ex_amounts batch_env batch_world = ROk 60 batch_paid /\
  60 = total_of ex_amounts.
Proof.
  split; [exact batch_run|].
  exact (proj2 (preview_agrees_with_batch payer coin ex_payees ex_amounts batch_env batch_world)
           60 batch_paid batch_run).
Defined.

Lemma detailed_batch_is_batch_witness :
  process_batch_detailed payer coin ex_payees ex_amounts batch_env batch_world =
  on_ok (fun _ => results_from 0 3) (ROk 60 batch_paid).
Proof.
  rewrite <- batch_run.
  exact (detailed_batch_is_batch payer coin ex_payees ex_amounts batch_env batch_world).
Defined.

Lemma capped_batch_is_batch_of_prefix_witness :
  process_batch_with_limit payer coin ex_payees ex_amounts 2 batch_env batch_world =
  on_ok (mkPartialBatchResult (results_from 0 2) 3 2 1)
    (process_batch payer coin [payee1; payee2] [10; 20] batch_env batch_world).
Proof.
  apply (capped_batch_is_batch_of_prefix payer coin ex_payees ex_amounts 2 batch_env batch_world).
  - reflexivity.
  - vm_compute. discriminate.
  - split; vm_compute; discriminate.
Defined.
