(* ===== verification/Workspace.v ===== *)
(** * The workspace package: the batch state counter
    ([src/batch_transfer_processor.rs])

    The root package of the workspace keeps one number in instance storage, a
    state version that every batch increments.  [versions] is the abstract
    counter; [process_batches_count] says that any sequence of invocations
    follows it, up to the width of the number and no further. *)

From stdpp Require Import base numbers list option.
From Stdlib Require Import ZArith Lia.
From S2P Require Import Prelude Host.

#[local] Open Scope Z_scope.
#[local] Open Scope sf_scope.

(** ** Data *)

Inductive state_key := STATE_VERSION_KEY.

#[export] Instance state_key_eq_dec : EqDecision state_key.
Proof. solve_decision. Defined.

#[export] Instance state_keys : StorageKeys state_key := {
  key_eq_dec := state_key_eq_dec;
  key_val _ := Z
}.

Section Workspace.
Context {T X : Type}.
Abbreviation WM := (M state_key T X Empty_set).
Implicit Types w : World state_key T X.

(** ** Operations *)

Definition load_state_version : WM Z :=
  let! stored := sget STATE_VERSION_KEY in
  ret (default 0 stored).

Definition bump_state_version (version : Z) : WM unit :=
  let! next := u64_op (version + 1) in
  sset STATE_VERSION_KEY next.

Definition process_batch : WM unit :=
  let! version := load_state_version in
  bump_state_version version.

(** ** The counter *)

(** The version a world holds. *)
Definition version_of w : Z := default 0 (w_store w STATE_VERSION_KEY).

Lemma process_batch_run env w :
  process_batch env w =
    if in_u64 (version_of w + 1)
    then ROk tt (put STATE_VERSION_KEY (Some (version_of w + 1)) w)
    else RTrap ArithmeticPanic.
Proof.
  unfold process_batch, load_state_version, bump_state_version, u64_op, bind, version_of; cbn.
  unfold checked_u64, checked. by destruct (in_u64 _).
Qed.

(** Invocations one after the other, in the environments given. *)
Fixpoint process_batches (envs : list Env) (w : World state_key T X)
  : list (Reply Empty_set unit) * World state_key T X :=
  match envs with
  | [] => ([], w)
  | env :: rest =>
      let '(r, w1) := invoke process_batch env w in
      let '(rs, w2) := process_batches rest w1 in (r :: rs, w2)
  end.

(** What a counter of 64 bits answers: [n] invocations from version [v]. *)
Fixpoint versions (n : nat) (v : Z) : list (Reply Empty_set unit) :=
  match n with
  | O => []
  | S n' => if v <? u64_max then Returned tt :: versions n' (v + 1)
            else Trapped ArithmeticPanic :: versions n' v
  end.

(** Worlds alike but for the version. *)
Definition same_outside w w' : Prop :=
  w_persist w' = w_persist w /\ w_temp w' = w_temp w /\ w_tokens w' = w_tokens w /\
  w_events w' = w_events w /\ w_ttl w' = w_ttl w.

(** Every batch counts once. Any sequence of invocations, from a version of
    64 bits, raises it by their number until the largest number of the width is
    reached; from then on every invocation traps and changes nothing. Nothing
    but the version is ever written. *)
Theorem process_batches_count envs w :
  U64 (version_of w) ->
  let '(replies, w') := process_batches envs w in
  replies = versions (List.length envs) (version_of w) /\
  version_of w' = Z.min (version_of w + Z.of_nat (List.length envs)) u64_max /\
  same_outside w w'.
Proof.
  revert w. induction envs as [|env envs IH]; intros w Hv; cbn [process_batches].
  - split_and!; [done|cbn [List.length]; mlia|done].
  - unfold invoke at 1. rewrite process_batch_run. destruct (in_u64 _) eqn:Hf.
    + unfold in_u64 in Hf. rewrite in_range_spec in Hf.
      set (w1 := put _ _ w). assert (E : version_of w1 = version_of w + 1)
        by (unfold version_of at 1, w1; by rewrite put_store_eq).
      specialize (IH w1). rewrite E in IH. specialize (IH ltac:(mlia)).
      destruct (process_batches envs w1) as [rs w2]. destruct IH as (-> & -> & Ho).
      cbn [List.length versions]. rewrite (proj2 (Z.ltb_lt _ _)) by mlia. split_and!; [done|lia|exact Ho].
    + assert (Hm : ~ version_of w < u64_max).
      { intros Hlt. assert (in_u64 (version_of w + 1) = true) by (apply in_range_spec; mlia). congruence. }
      specialize (IH w Hv). destruct (process_batches envs w) as [rs w2]. destruct IH as (-> & -> & Ho).
      cbn [List.length versions]. rewrite (proj2 (Z.ltb_ge _ _)) by lia. split_and!; [done|lia|exact Ho].
Qed.

End Workspace.

(** ** On concrete worlds *)

Definition fresh_world : World state_key unit unit :=
  mkWorld empty_store empty_store empty_store tt [] [].
Definition any_env : Env := mkEnv 1 1 (Contract 1) (fun _ => false).
Definition last_world : World state_key unit unit :=
  put STATE_VERSION_KEY (Some (u64_max - 1)) fresh_world.

(** Three batches from a fresh storage; at the end of the width the second one
    traps. *)
Lemma process_batches_count_witness :
  version_of (snd (process_batches [any_env; any_env; any_env] fresh_world)) = 3 /\
  fst (process_batches [any_env; any_env] last_world) = [Returned tt; Trapped ArithmeticPanic].
Proof.
  pose proof (process_batches_count [any_env; any_env; any_env] fresh_world ltac:(split; vm_compute; discriminate)) as H1.
  pose proof (process_batches_count [any_env; any_env] last_world ltac:(split; vm_compute; discriminate)) as H2.
  destruct (process_batches [any_env; any_env; any_env] fresh_world) as [r1 w1].
  destruct (process_batches [any_env; any_env] last_world) as [r2 w2].
  split; [exact (proj1 (proj2 H1))|exact (proj1 H2)].
Defined.
