(* ===== verification/Admins.v ===== *)
(** * Rosters of administrators

    The contracts that keep administrators (the governor and the oracle) share
    one discipline: the admin role is granted without expiry and revoked
    through the library's last-admin guard.  What follows from it is proved
    here once, for any layout of the role keys: the roster is never empty,
    counted and indexed exactly, and a handover moves it by one member. *)

From stdpp Require Import base numbers list option gmap.
From Stdlib Require Import ZArith Lia String.
From S2P Require Import Prelude Host Rbac Frame.

#[local] Open Scope Z_scope.
#[local] Open Scope sf_scope.

Section Admins.
Context {K : Type} `{SK : StorageKeys K} {T X : Type} `{RE : Emits RoleRevokedEvent X}.
Context (rk : Address -> K) (ck mk : K) `{RL : !RoleLayout rk ck mk}.
Implicit Types (w : World K T X) (ro : Roster).

Abbreviation admins := (represents rk ck mk true).

Record AdminRoster w ro : Prop := {
  ar_represents : admins w ro;
  ar_permanent : permanent ro;
  ar_nonempty : members ro <> [];
  ar_fits : fits ro
}.

Definition administered w : Prop := exists ro, AdminRoster w ro.

(** A set of keys away from the roster. *)
Definition spares_roster (P : K -> Prop) : Prop := (forall a, ~ P (rk a)) /\ ~ P ck /\ ~ P mk.

Lemma roster_frame P w w' ro :
  spares_roster P -> frame P w w' -> AdminRoster w ro -> AdminRoster w' ro.
Proof.
  intros (Hr & Hc & Hm) Hf [R Hp Hne Hfit]. constructor; try done.
  eapply represents_frame; [..|exact R]; intros; by apply Hf.
Qed.

Lemma admin_frames P : spares_roster P -> frames P administered.
Proof. intros HP w w' Hf (ro & HR). exists ro. by eapply roster_frame. Qed.

Lemma administered_tokens w t : administered w -> administered (set_tokens t w).
Proof. intros (ro & [[] ? ? ?]). by exists ro. Qed.

Lemma permanent_grant ro a : permanent ro -> permanent (roster_grant a None ro).
Proof.
  intros Hp b e. cbn. rewrite lookup_insert. case_decide; [by intros [= <-]|apply Hp].
Qed.

Lemma grant_nonempty ro a e : members ro <> [] -> members (roster_grant a e ro) <> [].
Proof. cbn. destruct (is_some _); [done|]. by destruct (members ro). Qed.

(** Granting the admin role permanently. *)
Lemma admin_grant {E} w ro a env :
  AdminRoster w ro ->
  (exists w', Rbac.grant (E := E) (rk a) ck mk true a env w =
     ROk (negb (holds_role (timestamp env) ro a)) w' /\ AdminRoster w' (roster_grant a None ro)) \/
  Rbac.grant (E := E) (rk a) ck mk true a env w = RTrap ArithmeticPanic.
Proof.
  intros [R Hp Hne Hfit].
  destruct (grant_cases (E := E) rk ck mk true w ro a None env R) as [(w' & H & R' & Hf)|H];
    [left|by right].
  exists w'. split; [exact H|]. constructor; auto using permanent_grant, grant_nonempty.
Qed.

Lemma permanent_revoke ro a : permanent ro -> permanent (roster_revoke a ro).
Proof. intros Hp b e. cbn. rewrite lookup_delete. case_decide; [done|apply Hp]. Qed.

Lemma admin_revoke w ro a env :
  AdminRoster w ro ->
  (exists w', Rbac.revoke (rk a) ck mk true a env w = ROk (is_some (assigned ro !! a)) w' /\
     AdminRoster w' (if is_some (assigned ro !! a) then roster_revoke a ro else ro)) \/
  Rbac.revoke (rk a) ck mk true a env w = RErr LastAdmin w.
Proof.
  intros [R Hp Hne Hfit].
  destruct (revoke_cases rk ck mk true w ro a None ""%string env R Hfit)
    as [(w' & H & R' & Hl)|H]; [left|by right].
  exists w'. split; [exact H|].
  destruct (assigned ro !! a) as [e|] eqn:Ha; cbn in *; [|done].
  constructor; [done|by apply permanent_revoke| |by apply fits_revoke].
  specialize (Hl eq_refl e eq_refl). rewrite (Hp _ _ Ha) in Hl. specialize (Hl eq_refl).
  cbn. assert (Hin : a ∈ members ro) by (apply (rep_members _ _ _ _ _ _ R); by rewrite Ha).
  pose proof (without_length a _ (rep_nodup _ _ _ _ _ _ R) Hin). intros Hnil.
  rewrite Hnil in *. cbn in *. lia.
Qed.

(** Neither operation loses the administrators. *)
#[export] Instance keeps_admin_grant {E} a :
  Keeps (E := E) (stable administered) (Rbac.grant (rk a) ck mk true a).
Proof.
  intros env w. destruct (Rbac.grant _ _ _ _ _ env w) as [b w'|e w'|t] eqn:H; [| |done];
    intros (ro & HR); destruct (admin_grant (E := E) w ro a env HR) as [(w1 & H1 & HR')|H1];
    rewrite H in H1; try discriminate H1. injection H1 as _ <-. by eexists.
Qed.

#[export] Instance keeps_admin_revoke a :
  Keeps (stable administered) (Rbac.revoke (rk a) ck mk true a).
Proof.
  intros env w. destruct (Rbac.revoke _ _ _ _ _ env w) as [b w'|e w'|t] eqn:H; [| |done];
    intros (ro & HR); destruct (admin_revoke w ro a env HR) as [(w1 & H1 & HR')|H1];
    rewrite H in H1; try discriminate H1; injection H1 as _ <-; by eexists.
Qed.

(** ** The first administrator *)

Lemma empty_roster w :
  (forall a, w_store w (rk a) = None) -> w_store w ck = None -> w_store w mk = None ->
  admins w (mkRoster ∅ []).
Proof.
  intros Hr Hc Hm. constructor; cbn.
  - apply NoDup_nil. constructor.
  - intros a. rewrite lookup_empty, elem_of_nil. split; [done|by intros [? ?]].
  - intros a. by rewrite lookup_empty, Hr.
  - by left.
  - intros _. by left.
Qed.

Lemma first_admin {E} w a env b w' :
  (forall x, w_store w (rk x) = None) -> w_store w ck = None -> w_store w mk = None ->
  Rbac.grant (E := E) (rk a) ck mk true a env w = ROk b w' -> administered w'.
Proof.
  intros Hr Hc Hm Hg. pose proof (empty_roster w Hr Hc Hm) as R.
  destruct (grant_cases (E := E) rk ck mk true w _ a None env R) as [(w1 & H1 & R1 & Hfit)|H1];
    unfold Rbac.grant in Hg; rewrite H1 in Hg; [|done].
  injection Hg as _ <-. exists (roster_grant a None (mkRoster ∅ [])).
  constructor; [done| |done|by apply Hfit]. by apply permanent_grant.
Qed.

(** ** What the contract answers *)

Lemma admin_has {E} w ro a env :
  AdminRoster w ro ->
  Rbac.has_role (E := E) (rk a) env w = ROk (is_some (assigned ro !! a)) w.
Proof.
  intros [R Hp _ _]. etransitivity; [by apply (has_role_eval rk ck mk true)|]. f_equal.
  unfold holds_role. destruct (assigned ro !! a) as [e|] eqn:He; [|done]. by rewrite (Hp _ _ He).
Qed.

Lemma roster_answers {E} w :
  administered w ->
  exists admins, admins <> [] /\ NoDup admins /\ forall env,
    Rbac.admin_count (E := E) ck env w = ROk (Z.of_nat (List.length admins)) w /\
    (forall a, Rbac.has_role (E := E) (rk a) env w = ROk (bool_decide (a ∈ admins)) w) /\
    Rbac.role_members (E := E) mk env w = ROk admins w.
Proof.
  intros (ro & HR). pose proof HR as [R Hp Hne Hfit].
  exists (members ro). split_and!; [done|apply R|]. intros env. split_and!.
  - by apply (count_eval rk ck mk true).
  - intros a. rewrite (admin_has w ro) by done. f_equal.
    pose proof (rep_members _ _ _ _ _ _ R a) as Ha.
    destruct (assigned ro !! a) as [e|]; symmetry.
    + apply bool_decide_eq_true. apply Ha. eauto.
    + apply bool_decide_eq_false. intros [? Hs]%Ha. congruence.
  - by apply (members_eval rk ck mk true).
Qed.

(** ** Handover *)

(** Grant to one address, then revoke from another. *)
Lemma handover {E} w ro new old env b w1 b' w2 :
  AdminRoster w ro ->
  Rbac.grant (E := E) (rk new) ck mk true new env w = ROk b w1 ->
  Rbac.revoke (rk old) ck mk true old env w1 = ROk b' w2 ->
  exists ro', AdminRoster w2 ro' /\ forall a,
    is_some (assigned ro' !! a) =
      negb (addr_eqb a old) && (addr_eqb a new || is_some (assigned ro !! a)).
Proof.
  intros HR Hg Hr. destruct (admin_grant (E := E) w ro new env HR) as [(x & H1 & HR1)|H1];
    rewrite H1 in Hg; [injection Hg as _ ->|done].
  destruct (admin_revoke w1 _ old env HR1) as [(x2 & H2 & HR2)|H2];
    rewrite H2 in Hr; [injection Hr as _ ->|done].
  eexists. split; [exact HR2|]. intros a.
  assert (Hgr : is_some (assigned (roster_grant new None ro) !! a) =
                addr_eqb a new || is_some (assigned ro !! a)).
  { cbn. rewrite lookup_insert. unfold addr_eqb.
    repeat (case_decide || case_bool_decide); simplify_eq; done. }
  rewrite <- Hgr. unfold addr_eqb. case_bool_decide as Hao; [subst a|].
  - cbn [negb andb]. destruct (is_some (assigned (roster_grant new None ro) !! old)) eqn:Hs; [|done].
    cbn. by rewrite lookup_delete_eq.
  - cbn [negb andb]. destruct (is_some (assigned (roster_grant new None ro) !! old)); [|done].
    cbn [assigned roster_revoke]. by rewrite lookup_delete_ne.
Qed.

End Admins.
