(* ===== verification/GovernorData.v ===== *)
(** * DripGovernor: data ([contracts/governor/src/{storage,errors,events}.rs])

    Proposals, checkpoints, roles, the storage keys with the type each one
    stores, the error enum and the published events. *)

From stdpp Require Import base numbers list option strings.
From Stdlib Require Import ZArith Lia String.
From S2P Require Import Prelude Host Pause Rbac.

#[local] Open Scope Z_scope.

(** ** Errors *)

Module GovError.

Inductive gov_error : Type :=
| NotAuthorized
| InvalidParam
| AlreadyInitialized
| LastAdmin
| NotInitialized
| ContractPaused
| AlreadyPaused
| NotPaused
| FactoryCallFailed
| NoPendingAuthority
| NotPendingAuthority
| InvalidWasmHash
| ProposalNotFound
| ProposalExpired
| ProposalNotPending
| TimelockNotMet
| QuorumNotMet
| AlreadyVoted
| InsufficientVotingWeight
| AdminTransferAlreadyInProgress
| ProposalStakeNotConfigured.

(** [e as u32] *)
Definition code (e : gov_error) : Z :=
  match e with
  | NotAuthorized => 1
  | InvalidParam => 2
  | AlreadyInitialized => 3
  | LastAdmin => 4
  | NotInitialized => 5
  | ContractPaused => 6
  | AlreadyPaused => 7
  | NotPaused => 8
  | FactoryCallFailed => 9
  | NoPendingAuthority => 10
  | NotPendingAuthority => 11
  | InvalidWasmHash => 12
  | ProposalNotFound => 13
  | ProposalExpired => 14
  | ProposalNotPending => 15
  | TimelockNotMet => 16
  | QuorumNotMet => 17
  | AlreadyVoted => 18
  | InsufficientVotingWeight => 19
  | AdminTransferAlreadyInProgress => 20
  | ProposalStakeNotConfigured => 21
  end.

End GovError.

(** ** Proposals and checkpoints *)

Module ProposalStatus.
Inductive proposal_status : Type := Pending | Executed | Cancelled | Active | Defeated.
End ProposalStatus.

#[export] Instance proposal_status_eq_dec : EqDecision ProposalStatus.proposal_status.
Proof. solve_decision. Defined.

Record BalanceCheckpoint := mkBalanceCheckpoint { cp_ledger : Z; cp_weight : Z }.

Record VoteTallySnapshot := mkVoteTallySnapshot {
  vt_proposal_id : Z;
  vt_snapshot_ledger : Z;
  vt_for_votes : Z;
  vt_against_votes : Z;
  vt_total_supply : Z
}.

Record VoteRecord := mkVoteRecord {
  vr_for_votes : Z;
  vr_against_votes : Z;
  vr_abstain_votes : Z
}.

Record Proposal := mkProposal {
  author : Address;
  created_at : Z;
  snapshot_ledger : Z;
  execution_window_secs : Z;
  status : ProposalStatus.proposal_status;
  for_votes : Z;
  against_votes : Z
}.

(** [proposal.status = s] *)
Definition with_status (s : ProposalStatus.proposal_status) (p : Proposal) : Proposal :=
  mkProposal (author p) (created_at p) (snapshot_ledger p) (execution_window_secs p) s
    (for_votes p) (against_votes p).

(** ** Roles *)

Module RoleName.
Inductive role_name : Type := Admin | FeeManager | RateManager | Pauser | Executor.
End RoleName.

#[export] Instance role_name_eq_dec : EqDecision RoleName.role_name.
Proof. solve_decision. Defined.

(** What a role key may hold: an assignment, or a legacy boolean. *)
Inductive RoleCell :=
| RoleBool (b : bool)
| RoleGrant (a : RoleAssignment).

(** ** Storage keys *)

Module GovKey.

Inductive data_key : Type :=
| FeeBps
| FeeRecipient
| MinDurationSeconds
| MaxRatePerSecond
| MaxDurationSeconds
| FactoryAddress
| ForceCancelPauseSecs
| Role (role : RoleName.role_name) (account : Address)   (** [Role(RoleKey { role, account })] *)
| AdminCount
| Paused
| RoleMembers (role : RoleName.role_name)
| PendingAuthority
| PendingAuthorityProposer
| Proposal (id : Z)
| ProposalCounter
| MinQuorumBps
| ProposalStakeToken
| MinProposalStake
| ProposalStake (id : Z)
| ProposalStakeTokenByProposal (id : Z)
| GovernanceSupply
| VoteCheckpoints (account : Address)
| CheckpointingEnabled
| ProposalSnapshotLedger (id : Z)
| ProposalVoteSnapshot (id : Z)
| VoterReceipt (id : Z) (voter : Address)
| VotingPeriodLedgers
| ProposalExecutionBytecodeHash (id : Z)
| ProposalsByStatus (status : ProposalStatus.proposal_status)
| VoteRecord (id : Z)
| ProposalAbstainVotes (id : Z).

End GovKey.

#[export] Instance gov_key_eq_dec : EqDecision GovKey.data_key.
Proof. solve_decision. Defined.

(** The type of the value each key stores. *)
Definition gov_key_val (k : GovKey.data_key) : Type :=
  match k with
  | GovKey.FeeRecipient | GovKey.FactoryAddress | GovKey.PendingAuthority
  | GovKey.PendingAuthorityProposer | GovKey.ProposalStakeToken
  | GovKey.ProposalStakeTokenByProposal _ => Address
  | GovKey.Role _ _ => RoleCell
  | GovKey.Paused => PauseCell
  | GovKey.RoleMembers _ => list Address
  | GovKey.Proposal _ => Proposal
  | GovKey.VoteCheckpoints _ => list BalanceCheckpoint
  | GovKey.CheckpointingEnabled => bool
  | GovKey.ProposalVoteSnapshot _ => VoteTallySnapshot
  | GovKey.ProposalsByStatus _ => list Z
  | GovKey.VoteRecord _ => VoteRecord
  | GovKey.FeeBps | GovKey.MinDurationSeconds | GovKey.MaxRatePerSecond
  | GovKey.MaxDurationSeconds | GovKey.ForceCancelPauseSecs | GovKey.AdminCount
  | GovKey.ProposalCounter | GovKey.MinQuorumBps | GovKey.MinProposalStake
  | GovKey.ProposalStake _ | GovKey.GovernanceSupply | GovKey.ProposalSnapshotLedger _
  | GovKey.VoterReceipt _ _ | GovKey.VotingPeriodLedgers
  | GovKey.ProposalExecutionBytecodeHash _ | GovKey.ProposalAbstainVotes _ => Z
  end.

#[export] Instance gov_keys : StorageKeys GovKey.data_key := {
  key_eq_dec := gov_key_eq_dec;
  key_val := gov_key_val
}.

#[export] Instance gov_paused_bool : Stored bool GovKey.Paused.
Proof.
  refine {| into_val := (fun b => PauseBool b : key_val GovKey.Paused);
            try_from_val := (fun c : key_val GovKey.Paused =>
              match c with PauseBool b => Some b | PauseRecord _ => None end) |}.
  done.
Defined.

#[export] Instance gov_paused_state : Stored PauseState GovKey.Paused.
Proof.
  refine {| into_val := (fun s => PauseRecord s : key_val GovKey.Paused);
            try_from_val := (fun c : key_val GovKey.Paused =>
              match c with PauseBool _ => None | PauseRecord s => Some s end) |}.
  done.
Defined.

#[export] Instance gov_paused_key : PauseKey GovKey.Paused.
Proof. by refine {| pause_bool := _; pause_state := _ |}. Defined.

#[export] Instance gov_role_assignment r a : Stored RoleAssignment (GovKey.Role r a).
Proof.
  refine {| into_val := (fun x => RoleGrant x : key_val (GovKey.Role r a));
            try_from_val := (fun c : key_val (GovKey.Role r a) =>
              match c with RoleGrant x => Some x | RoleBool _ => None end) |}.
  done.
Defined.

#[export] Instance gov_role_bool r a : Stored bool (GovKey.Role r a).
Proof.
  refine {| into_val := (fun b => RoleBool b : key_val (GovKey.Role r a));
            try_from_val := (fun c : key_val (GovKey.Role r a) =>
              match c with RoleBool b => Some b | RoleGrant _ => None end) |}.
  done.
Defined.

#[export] Instance gov_role_key r a : RoleKey (GovKey.Role r a).
Proof. by refine {| role_assignment := _; role_bool := _ |}. Defined.

#[export] Instance gov_admin_count : Stored Z GovKey.AdminCount.
Proof.
  refine {| into_val := (fun z => z : key_val GovKey.AdminCount);
            try_from_val := (fun z : key_val GovKey.AdminCount => Some z) |}.
  done.
Defined.

#[export] Instance gov_role_members r : Stored (list Address) (GovKey.RoleMembers r).
Proof.
  refine {| into_val := (fun l => l : key_val (GovKey.RoleMembers r));
            try_from_val := (fun l : key_val (GovKey.RoleMembers r) => Some l) |}.
  done.
Defined.

(** The keys of each role are laid out as the role library expects. *)
#[export] Instance gov_role_layout r :
  RoleLayout (GovKey.Role r) GovKey.AdminCount (GovKey.RoleMembers r).
Proof. constructor; try apply _; congruence. Defined.

(** ** Events *)

Module GovEvent.

Inductive gov_event : Type :=
| init (authority fee_recipient factory_address : Address)
| grant (caller : Address) (role : RoleName.role_name) (account : Address)
| revoke (caller : Address) (role : RoleName.role_name) (account : Address)
| transfer (caller new_authority : Address)
| propose (caller new_authority : Address)
| authority_proposal_revoked (caller pending_authority : Address)
| accept (caller old_authority : Address)
| fee_bps (caller : Address) (old_fee_bps new_fee_bps : Z)
| fee_rec (caller old_recipient new_recipient : Address)
| min_dur (caller : Address) (old_seconds new_seconds : Z)
| max_rate (caller : Address) (old_max_rate new_max_rate : Z)
| max_dur (caller : Address) (old_seconds new_seconds : Z)
| fc_pause (caller : Address) (seconds : Z)
| paused (caller : Address) (paused_at : Z)
| unpaused (caller : Address) (resumed_at : Z)
| fpaused (caller : Address) (paused_at : Z)
| funpaused (caller : Address) (resumed_at : Z)
| upgraded (caller : Address) (upgraded_at : Z)
| ProposalCancelledByAdmin (proposal_id : Z) (caller : Address) (reason_hash : Z)
| quorum (caller : Address) (old_min_quorum_bps new_min_quorum_bps : Z)
| proposal_stake (caller token : Address) (min_stake : Z)
| role_revoked (e : RoleRevokedEvent)
| WasmReplaced (hash : Z).

End GovEvent.

#[export] Instance gov_emits : Emits RoleRevokedEvent GovEvent.gov_event :=
  {| inject := GovEvent.role_revoked |}.
