(* ===== verification/GovernorStore.v ===== *)
(** * DripGovernor: storage and configuration helpers
      ([contracts/governor/src/{storage,config,role}.rs])

    The proposal index and its status transitions, the vote archive, the
    voting-weight checkpoints, the configuration record and the role wrappers
    around the shared access-control library. *)

From stdpp Require Import base numbers list option strings.
From Stdlib Require Import ZArith Lia String.
From S2P Require Import Prelude Host Ttl Pause Rbac GovernorData.
Import GovError.

#[local] Open Scope Z_scope.
#[local] Open Scope sf_scope.

(** ** config.rs *)

Definition MIN_VOTING_PERIOD_LEDGERS : Z := 17280.

Record GovernorConfig := mkGovernorConfig {
  gc_fee_bps : Z;
  gc_fee_recipient : Address;
  gc_min_duration_seconds : Z;
  gc_max_duration_seconds : Z;
  gc_max_rate_per_second : Z;
  gc_factory_address : Address;
  gc_force_cancel_pause_secs : Z;
  gc_min_quorum_bps : Z;
  gc_voting_period_ledgers : Z;
  gc_proposal_stake_token : option Address;
  gc_min_proposal_stake : Z
}.

Record RoleMembersPage := mkRoleMembersPage { page_members : list Address; page_total : Z }.

Definition MAX_ROLE_MEMBERS_PAGE_SIZE : Z := 100.

Section GovernorStore.
Context {T : Type}.
Abbreviation GM := (M GovKey.data_key T GovEvent.gov_event).

Definition load : GM gov_error GovernorConfig :=
  let! r := sget GovKey.FeeRecipient in
  let! fee_recipient := ok_or r NotInitialized in
  let! f := sget GovKey.FactoryAddress in
  let! factory_address := ok_or f NotInitialized in
  let! fee := sget GovKey.FeeBps in
  let! min_d := sget GovKey.MinDurationSeconds in
  let! max_d := sget GovKey.MaxDurationSeconds in
  let! max_r := sget GovKey.MaxRatePerSecond in
  let! fc := sget GovKey.ForceCancelPauseSecs in
  let! q := sget GovKey.MinQuorumBps in
  let! vp := sget GovKey.VotingPeriodLedgers in
  let! st := sget GovKey.ProposalStakeToken in
  let! ms := sget GovKey.MinProposalStake in
  ret (mkGovernorConfig (default 30 fee) fee_recipient (default 3600 min_d)
         (default 315360000 max_d) (default 1000000000000000 max_r) factory_address
         (default 2592000 fc) (default 0 q) (default MIN_VOTING_PERIOD_LEDGERS vp)
         st (default 0 ms)).

Definition set_voting_period (voting_period_ledgers : Z) : GM gov_error unit :=
  do! throw_if (voting_period_ledgers <? MIN_VOTING_PERIOD_LEDGERS) InvalidParam;
  sset GovKey.VotingPeriodLedgers voting_period_ledgers.

Definition get_voting_period {E} : GM E Z :=
  let! v := sget GovKey.VotingPeriodLedgers in ret (default MIN_VOTING_PERIOD_LEDGERS v).

Definition config_set_proposal_stake_config (token : Address) (min_stake : Z)
  : GM gov_error unit :=
  do! throw_if ((min_stake <=? 0) || is_zero_address token) InvalidParam;
  do! sset GovKey.ProposalStakeToken token;
  sset GovKey.MinProposalStake min_stake.

(** ** storage.rs: the proposal index *)

(** [for id in ids.iter() { if id == proposal_id { return; } }] *)
Definition listed (proposal_id : Z) (ids : list Z) : bool :=
  existsb (fun id => id =? proposal_id) ids.

Definition add_proposal_to_status_index {E} (proposal_id : Z)
    (st : ProposalStatus.proposal_status) : GM E unit :=
  let! stored := sget (GovKey.ProposalsByStatus st) in
  let ids := default [] stored in
  if listed proposal_id ids then ret tt
  else sset (GovKey.ProposalsByStatus st) (ids ++ [proposal_id]).

Definition remove_proposal_from_status_index {E} (proposal_id : Z)
    (st : ProposalStatus.proposal_status) : GM E unit :=
  let! stored := sget (GovKey.ProposalsByStatus st) in
  let ids := default [] stored in
  sset (GovKey.ProposalsByStatus st)
    (List.filter (fun id => negb (id =? proposal_id)) ids).

Definition proposals_by_status {E} (st : ProposalStatus.proposal_status) : GM E (list Z) :=
  let! stored := sget (GovKey.ProposalsByStatus st) in ret (default [] stored).

Definition set_proposal_status {E} (proposal_id : Z)
    (new_status : ProposalStatus.proposal_status) : GM E bool :=
  let! stored := sget (GovKey.Proposal proposal_id) in
  match stored with
  | None => ret false
  | Some proposal =>
      if bool_decide (status proposal <> new_status) then
        do! remove_proposal_from_status_index proposal_id (status proposal);
        do! sset (GovKey.Proposal proposal_id) (with_status new_status proposal);
        do! add_proposal_to_status_index proposal_id new_status;
        ret true
      else ret true
  end.

(** ** storage.rs: vote archive *)

Definition get_abstain_votes {E} (proposal_id : Z) : GM E Z :=
  let! v := sget (GovKey.ProposalAbstainVotes proposal_id) in ret (default 0 v).

Definition add_abstain_votes {E} (proposal_id weight : Z) : GM E Z :=
  let! v := sget (GovKey.ProposalAbstainVotes proposal_id) in
  let total := sat_u64 (default 0 v + weight) in
  do! sset (GovKey.ProposalAbstainVotes proposal_id) total;
  ret total.

Definition archive_vote_record {E} (proposal_id : Z) (proposal : Proposal) : GM E unit :=
  let! present := phas (GovKey.VoteRecord proposal_id) in
  if present then ret tt
  else
    let! abstain := get_abstain_votes proposal_id in
    do! pset (GovKey.VoteRecord proposal_id)
          (mkVoteRecord (for_votes proposal) (against_votes proposal) abstain);
    bump_persistent (GovKey.VoteRecord proposal_id).

Definition storage_get_vote_record {E} (proposal_id : Z) : GM E (option VoteRecord) :=
  let! record := pget (GovKey.VoteRecord proposal_id) in
  do! (if is_some record then bump_persistent (GovKey.VoteRecord proposal_id) else ret tt);
  ret record.

(** ** storage.rs: voting-weight checkpoints *)

(** [checkpoints.get(len - 1)]; [checkpoints.set(len - 1, cp)] when the last
    checkpoint is not older than [ledger], [push_back] otherwise. *)
Definition push_checkpoint (ledger weight : Z) (checkpoints : list BalanceCheckpoint)
  : list BalanceCheckpoint :=
  match last checkpoints with
  | Some l => if ledger <=? cp_ledger l
              then <[(List.length checkpoints - 1)%nat := mkBalanceCheckpoint ledger weight]> checkpoints
              else checkpoints ++ [mkBalanceCheckpoint ledger weight]
  | None => checkpoints ++ [mkBalanceCheckpoint ledger weight]
  end.

Definition record_checkpoint_at {E} (acct : Address) (ledger weight : Z) : GM E unit :=
  do! sset GovKey.CheckpointingEnabled true;
  let! stored := pget (GovKey.VoteCheckpoints acct) in
  do! pset (GovKey.VoteCheckpoints acct) (push_checkpoint ledger weight (default [] stored));
  bump_persistent (GovKey.VoteCheckpoints acct).

Definition record_checkpoint {E} (acct : Address) (weight : Z) : GM E unit :=
  let! ledger := ledger_sequence in record_checkpoint_at acct ledger weight.

(** [for cp in cps.iter() { if cp.ledger <= snapshot { matched = cp.weight } else { break } }] *)
Fixpoint matched_weight (cps : list BalanceCheckpoint) (snapshot matched : Z) : Z :=
  match cps with
  | [] => matched
  | cp :: rest => if cp_ledger cp <=? snapshot then matched_weight rest snapshot (cp_weight cp)
                  else matched
  end.

Definition get_checkpoint_weight {E} (acct : Address) (snapshot : Z) : GM E (option Z) :=
  let! stored := pget (GovKey.VoteCheckpoints acct) in
  match stored with
  | Some cps => ret (Some (matched_weight cps snapshot 0))
  | None =>
      let! enabled := sget GovKey.CheckpointingEnabled in
      ret (if default false enabled then Some 0 else None)
  end.

Definition set_proposal_snapshot_ledger {E} (proposal_id ledger : Z) : GM E unit :=
  sset (GovKey.ProposalSnapshotLedger proposal_id) ledger.
Definition get_proposal_snapshot_ledger {E} (proposal_id : Z) : GM E (option Z) :=
  sget (GovKey.ProposalSnapshotLedger proposal_id).
Definition save_vote_tally_snapshot {E} (s : VoteTallySnapshot) : GM E unit :=
  sset (GovKey.ProposalVoteSnapshot (vt_proposal_id s)) s.
Definition get_vote_tally_snapshot {E} (proposal_id : Z) : GM E (option VoteTallySnapshot) :=
  sget (GovKey.ProposalVoteSnapshot proposal_id).
Definition has_voted {E} (proposal_id : Z) (voter : Address) : GM E bool :=
  shas (GovKey.VoterReceipt proposal_id voter).
Definition record_voter_receipt {E} (proposal_id : Z) (voter : Address) (weight : Z)
  : GM E unit :=
  sset (GovKey.VoterReceipt proposal_id voter) weight.

End GovernorStore.

(** ** role.rs *)

Module Role.
Section Role.
Context {T : Type}.
Abbreviation GM := (M GovKey.data_key T GovEvent.gov_event).
Implicit Types (role : RoleName.role_name) (account : Address).

(** [role == Role::Admin] *)
Definition is_admin role : bool := bool_decide (role = RoleName.Admin).

Definition has_role {E} role account : GM E bool := Rbac.has_role (GovKey.Role role account).

Definition admin_count {E} : GM E Z := Rbac.admin_count GovKey.AdminCount.

Definition grant_with_expiration {E} role account (expiry : option Z) : GM E bool :=
  Rbac.grant_with_expiration (GovKey.Role role account) GovKey.AdminCount
    (GovKey.RoleMembers role) (is_admin role) account expiry.

Definition grant {E} role account : GM E bool :=
  Rbac.grant (GovKey.Role role account) GovKey.AdminCount (GovKey.RoleMembers role)
    (is_admin role) account.

Definition rbac_error (e : RbacError) : gov_error :=
  match e with
  | Rbac.LastAdmin => LastAdmin
  | Rbac.NotAuthorized => NotAuthorized
  end.

Definition revoke role account : GM gov_error bool :=
  map_err rbac_error
    (Rbac.revoke (GovKey.Role role account) GovKey.AdminCount (GovKey.RoleMembers role)
       (is_admin role) account).

Definition require_role (caller : Address) role : GM gov_error unit :=
  map_err (fun _ => NotAuthorized)
    (Rbac.require_role caller (GovKey.Role role caller) (Some bump_instance)).

Definition require_executor (caller : Address) : GM gov_error unit :=
  require_role caller RoleName.Executor.

(** The loop that keeps the members whose assignment has not expired. *)
Fixpoint active_members {E} role (all_members acc : list Address) : GM E (list Address) :=
  match all_members with
  | [] => ret acc
  | account :: rest =>
      let! active := has_role role account in
      active_members role rest (if active then acc ++ [account] else acc)
  end.

(** [for index in start..end { members.push_back(active.get(index).unwrap()) }] *)
Fixpoint page_loop {E} (active : list Address) (n start : nat) (acc : list Address)
  : GM E (list Address) :=
  match n with
  | O => ret acc
  | S n' =>
      match active !! start with
      | Some a => page_loop active n' (S start) (acc ++ [a])
      | None => trap HostFailure
      end
  end.

Definition role_members {E} role (offset limit : Z) : GM E RoleMembersPage :=
  let! all_members := Rbac.role_members (GovKey.RoleMembers role) in
  let! active := active_members role all_members [] in
  let total := Z.of_nat (List.length active) in
  let start := Z.min offset total in
  let end_ := Z.min (sat_u32 (start + Z.min limit MAX_ROLE_MEMBERS_PAGE_SIZE)) total in
  let! members := page_loop active (Z.to_nat (end_ - start)) (Z.to_nat start) [] in
  ret (mkRoleMembersPage members total).

Definition require_role_or_admin (caller : Address) role : GM gov_error unit :=
  map_err (fun _ => NotAuthorized)
    (Rbac.require_role_or_admin caller (GovKey.Role role caller)
       (GovKey.Role RoleName.Admin caller) (Some bump_instance)).

Definition require_emergency_responder (caller : Address) : GM gov_error unit :=
  require_role_or_admin caller RoleName.Pauser.

Definition propose_admin (proposer new_admin : Address) : GM gov_error unit :=
  do! require_role proposer RoleName.Admin;
  let! pending := shas GovKey.PendingAuthority in
  do! throw_if pending AdminTransferAlreadyInProgress;
  let! holds := has_role RoleName.Admin new_admin in
  do! throw_if holds InvalidParam;
  do! sset GovKey.PendingAuthority new_admin;
  do! sset GovKey.PendingAuthorityProposer proposer;
  publish (GovEvent.propose proposer new_admin).

Definition claim_admin (claimer : Address) : GM gov_error unit :=
  let! stored := sget GovKey.PendingAuthority in
  let! pending := ok_or stored NoPendingAuthority in
  do! throw_if (negb (addr_eqb claimer pending)) NotPendingAuthority;
  do! require_auth claimer;
  do! bump_instance;
  let! stored_proposer := sget GovKey.PendingAuthorityProposer in
  let! proposer := ok_or stored_proposer NoPendingAuthority in
  do! grant RoleName.Admin claimer;
  do! revoke RoleName.Admin proposer;
  do! sremove GovKey.PendingAuthority;
  do! sremove GovKey.PendingAuthorityProposer;
  publish (GovEvent.accept claimer proposer).

Definition pending_admin {E} : GM E (option Address) := sget GovKey.PendingAuthority.

Definition revoke_propose_admin (caller : Address) : GM gov_error unit :=
  do! require_role caller RoleName.Admin;
  let! stored := sget GovKey.PendingAuthority in
  let! pending := ok_or stored NoPendingAuthority in
  do! sremove GovKey.PendingAuthority;
  do! sremove GovKey.PendingAuthorityProposer;
  publish (GovEvent.authority_proposal_revoked caller pending).

End Role.
End Role.
