(* ===== verification/GovernorOps.v ===== *)
(** * DripGovernor: entry points ([contracts/governor/src/lib.rs])

    Deployment, reads, the emergency pause and its factory passthrough, role
    administration, authority transfer, parameter writes, proposals and the
    upgrade.  The bodies of [cast_vote] and of [cast_vote_with_rationale] call
    a function [cast_ballot] the source does not define, so voting is not
    modelled. *)

From stdpp Require Import base numbers list option strings.
From Stdlib Require Import ZArith Lia String.
From S2P Require Import Prelude Host Ttl Pause Rbac GovernorData GovernorStore.
Import GovError.

#[local] Open Scope Z_scope.
#[local] Open Scope sf_scope.

(** The factory this governor controls is called by name: [factory_call t
    factory invoker "pause"] is the state after the call, [None] when it failed
    or was rejected. *)
Class FactoryClient (T : Type) := {
  factory_call : T -> Address -> Address -> string -> option T
}.

Definition MIN_EXECUTION_DELAY : Z := 604800.

Module Governor.
Section Governor.
Context {T : Type} `{TC : TokenClient T} `{FC : FactoryClient T}.
Abbreviation GM := (M GovKey.data_key T GovEvent.gov_event gov_error).
Implicit Types (caller account : Address) (role : RoleName.role_name).

(** ** Pause helpers *)

Definition is_paused : GM bool := Pause.is_paused GovKey.Paused.

Definition set_paused (paused : bool) : GM unit :=
  ignore_result (Pause.set_paused GovKey.Paused paused).

Definition assert_not_paused : GM unit :=
  map_err (fun _ => ContractPaused) (Pause.require_not_paused GovKey.Paused).

Definition refund_proposal_stake (proposal_id : Z) (author : Address) : GM unit :=
  let! stored := sget (GovKey.ProposalStake proposal_id) in
  match stored with
  | None => ret tt
  | Some amount =>
      let! stored_token := sget (GovKey.ProposalStakeTokenByProposal proposal_id) in
      let! token := ok_or stored_token ProposalStakeNotConfigured in
      let! contract := contract_address in
      do! token_transfer token contract author amount;
      do! sremove (GovKey.ProposalStake proposal_id);
      sremove (GovKey.ProposalStakeTokenByProposal proposal_id)
  end.

(** ** Deployment and reads *)

Definition initialize (authority fee_recipient factory_address : Address) : GM unit :=
  let! present := shas GovKey.FactoryAddress in
  do! panic_if present (code AlreadyInitialized);
  do! bump_instance;
  do! sset GovKey.FeeBps 30;
  do! sset GovKey.FeeRecipient fee_recipient;
  do! sset GovKey.MinDurationSeconds 3600;
  do! sset GovKey.MaxDurationSeconds 315360000;
  do! sset GovKey.MaxRatePerSecond 1000000000000000;
  do! sset GovKey.FactoryAddress factory_address;
  do! sset GovKey.ForceCancelPauseSecs 2592000;
  do! sset GovKey.MinQuorumBps 0;
  do! sset GovKey.MinProposalStake 0;
  do! Role.grant RoleName.Admin authority;
  do! Role.grant RoleName.FeeManager authority;
  do! Role.grant RoleName.RateManager authority;
  do! Role.grant RoleName.Pauser authority;
  publish (GovEvent.init authority fee_recipient factory_address).

Definition config : GM GovernorConfig := load.
Definition fee_recipient : GM Address := let! c := load in ret (gc_fee_recipient c).
Definition fee_bps : GM Z := let! c := load in ret (gc_fee_bps c).
Definition min_duration : GM Z := let! c := load in ret (gc_min_duration_seconds c).
Definition has_role role account : GM bool := Role.has_role role account.
Definition role_members role (offset limit : Z) : GM RoleMembersPage :=
  Role.role_members role offset limit.
Definition max_duration : GM Z := let! c := load in ret (gc_max_duration_seconds c).
Definition max_rate : GM Z := let! c := load in ret (gc_max_rate_per_second c).
Definition governor_is_paused : GM bool := is_paused.

(** ** Emergency pause *)

Definition governor_pause caller : GM unit :=
  do! Role.require_role_or_admin caller RoleName.Pauser;
  let! p := is_paused in
  do! throw_if p AlreadyPaused;
  do! set_paused true;
  let! now := ledger_timestamp in
  publish (GovEvent.paused caller now).

Definition governor_unpause caller : GM unit :=
  do! Role.require_role_or_admin caller RoleName.Pauser;
  let! p := is_paused in
  do! throw_if (negb p) NotPaused;
  do! set_paused false;
  let! now := ledger_timestamp in
  publish (GovEvent.unpaused caller now).

(** [env.try_invoke_contract(&factory, name, [])] *)
Definition try_factory (factory : Address) (name : string) : GM bool :=
  fun env w => match factory_call (w_tokens w) factory (current_contract env) name with
               | Some t' => ROk true (set_tokens t' w)
               | None => ROk false w
               end.

Definition pause_factory caller : GM unit :=
  do! Role.require_role_or_admin caller RoleName.Pauser;
  let! stored := sget GovKey.FactoryAddress in
  let! factory := ok_or stored NotInitialized in
  let! result := try_factory factory "pause" in
  if result then
    let! now := ledger_timestamp in publish (GovEvent.fpaused caller now)
  else throw FactoryCallFailed.

Definition unpause_factory caller : GM unit :=
  do! Role.require_role_or_admin caller RoleName.Pauser;
  let! stored := sget GovKey.FactoryAddress in
  let! factory := ok_or stored NotInitialized in
  let! result := try_factory factory "unpause" in
  if result then
    let! now := ledger_timestamp in publish (GovEvent.funpaused caller now)
  else throw FactoryCallFailed.

(** ** Role administration *)

Definition grant_role_with_expiration caller role account (expires_at : option Z) : GM unit :=
  do! Role.require_role caller RoleName.Admin;
  let! now := ledger_timestamp in
  do! throw_if ((Role.is_admin role && is_some expires_at) ||
                match expires_at with Some timestamp => timestamp <=? now | None => false end)
        InvalidParam;
  let! granted := Role.grant_with_expiration role account expires_at in
  if granted then publish (GovEvent.grant caller role account) else ret tt.

Definition grant_role caller role account : GM unit :=
  do! Role.require_role caller RoleName.Admin;
  let! granted := Role.grant role account in
  if granted then publish (GovEvent.grant caller role account) else ret tt.

Definition revoke_role caller role account : GM unit :=
  do! Role.require_role caller RoleName.Admin;
  let! revoked := Role.revoke role account in
  if revoked then publish (GovEvent.revoke caller role account) else ret tt.

Fixpoint grant_each caller role (accounts : list Address) : GM unit :=
  match accounts with
  | [] => ret tt
  | account :: rest =>
      let! granted := Role.grant role account in
      do! (if granted then publish (GovEvent.grant caller role account) else ret tt);
      grant_each caller role rest
  end.

Definition grant_role_batch caller role (accounts : list Address) : GM unit :=
  do! Role.require_role caller RoleName.Admin;
  grant_each caller role accounts.

Fixpoint revoke_each caller role (accounts : list Address) : GM unit :=
  match accounts with
  | [] => ret tt
  | account :: rest =>
      let! revoked := Role.revoke role account in
      do! (if revoked then publish (GovEvent.revoke caller role account) else ret tt);
      revoke_each caller role rest
  end.

Definition revoke_role_batch caller role (accounts : list Address) : GM unit :=
  do! Role.require_role caller RoleName.Admin;
  revoke_each caller role accounts.

(** ** Authority transfer *)

Definition transfer_authority caller (new_authority : Address) : GM unit :=
  let! holds := (if addr_eqb new_authority caller || is_zero_address new_authority
                 then ret true else Role.has_role RoleName.Admin new_authority) in
  do! throw_if holds InvalidParam;
  do! Role.require_role caller RoleName.Admin;
  do! Role.grant RoleName.Admin new_authority;
  do! Role.revoke RoleName.Admin caller;
  publish (GovEvent.transfer caller new_authority).

Definition propose_authority caller (new_authority : Address) : GM unit :=
  let! holds := (if is_zero_address new_authority
                 then ret true else Role.has_role RoleName.Admin new_authority) in
  do! throw_if holds InvalidParam;
  do! Role.require_role caller RoleName.Admin;
  let! pending := shas GovKey.PendingAuthority in
  do! throw_if pending AdminTransferAlreadyInProgress;
  do! sset GovKey.PendingAuthority new_authority;
  do! sset GovKey.PendingAuthorityProposer caller;
  publish (GovEvent.propose caller new_authority).

Definition revoke_propose_authority caller : GM unit :=
  do! Role.require_role caller RoleName.Admin;
  let! stored := sget GovKey.PendingAuthority in
  let! pending := ok_or stored NoPendingAuthority in
  do! sremove GovKey.PendingAuthority;
  do! sremove GovKey.PendingAuthorityProposer;
  publish (GovEvent.authority_proposal_revoked caller pending).

Definition accept_authority caller : GM unit :=
  let! stored := sget GovKey.PendingAuthority in
  let! pending := ok_or stored NoPendingAuthority in
  do! throw_if (negb (addr_eqb caller pending)) NotPendingAuthority;
  do! require_auth caller;
  do! bump_instance;
  let! stored_proposer := sget GovKey.PendingAuthorityProposer in
  let! proposer := ok_or stored_proposer NoPendingAuthority in
  do! Role.grant RoleName.Admin caller;
  do! Role.revoke RoleName.Admin proposer;
  do! sremove GovKey.PendingAuthority;
  do! sremove GovKey.PendingAuthorityProposer;
  publish (GovEvent.accept caller proposer).

Definition propose_admin caller (new_admin : Address) : GM unit :=
  Role.propose_admin caller new_admin.
Definition claim_admin caller : GM unit := Role.claim_admin caller.
Definition pending_admin : GM (option Address) := Role.pending_admin.
Definition revoke_propose_admin caller : GM unit := Role.revoke_propose_admin caller.
Definition admin_count : GM Z := Role.admin_count.

(** ** Upgrade *)

(** [env.deployer().update_current_contract_wasm(hash)]; hashes are numbers. *)
Definition update_current_contract_wasm (hash : Z) : GM unit :=
  publish (GovEvent.WasmReplaced hash).

Definition upgrade caller (new_wasm_hash : Z) : GM unit :=
  do! Role.require_role caller RoleName.Admin;
  do! assert_not_paused;
  do! throw_if (new_wasm_hash =? 0) InvalidWasmHash;
  do! bump_instance;
  do! update_current_contract_wasm new_wasm_hash;
  let! now := ledger_timestamp in
  publish (GovEvent.upgraded caller now).

(** ** Parameter writes *)

Definition set_fee_bps caller (fee_bps : Z) : GM unit :=
  do! throw_if (10000 <? fee_bps) InvalidParam;
  do! assert_not_paused;
  do! Role.require_role_or_admin caller RoleName.FeeManager;
  let! old := sget GovKey.FeeBps in
  do! sset GovKey.FeeBps fee_bps;
  publish (GovEvent.fee_bps caller (default 30 old) fee_bps).

Definition set_fee_recipient caller (recipient : Address) : GM unit :=
  do! throw_if (is_zero_address recipient) InvalidParam;
  do! assert_not_paused;
  do! Role.require_role_or_admin caller RoleName.FeeManager;
  let! stored := sget GovKey.FeeRecipient in
  let! old_recipient := ok_or stored NotInitialized in
  do! sset GovKey.FeeRecipient recipient;
  publish (GovEvent.fee_rec caller old_recipient recipient).

Definition set_min_duration caller (seconds : Z) : GM unit :=
  do! throw_if (seconds =? 0) InvalidParam;
  do! assert_not_paused;
  do! Role.require_role_or_admin caller RoleName.RateManager;
  let! old := sget GovKey.MinDurationSeconds in
  let! max_d := sget GovKey.MaxDurationSeconds in
  do! throw_if (default 315360000 max_d <? seconds) InvalidParam;
  let! max_r := sget GovKey.MaxRatePerSecond in
  do! ok_or (checked_i128 (default 1000000000000000 max_r * seconds)) InvalidParam;
  do! sset GovKey.MinDurationSeconds seconds;
  publish (GovEvent.min_dur caller (default 3600 old) seconds).

Definition set_max_rate caller (max_rate : Z) : GM unit :=
  do! throw_if (max_rate <=? 0) InvalidParam;
  do! assert_not_paused;
  do! Role.require_role_or_admin caller RoleName.RateManager;
  let! old := sget GovKey.MaxRatePerSecond in
  let! min_d := sget GovKey.MinDurationSeconds in
  do! ok_or (checked_i128 (max_rate * default 3600 min_d)) InvalidParam;
  do! sset GovKey.MaxRatePerSecond max_rate;
  publish (GovEvent.max_rate caller (default 1000000000000000 old) max_rate).

Definition set_max_duration caller (seconds : Z) : GM unit :=
  do! throw_if (seconds =? 0) InvalidParam;
  do! assert_not_paused;
  do! Role.require_role_or_admin caller RoleName.RateManager;
  let! old := sget GovKey.MaxDurationSeconds in
  let! min_d := sget GovKey.MinDurationSeconds in
  do! throw_if (seconds <? default 3600 min_d) InvalidParam;
  do! sset GovKey.MaxDurationSeconds seconds;
  publish (GovEvent.max_dur caller (default 315360000 old) seconds).

Definition set_force_cancel_pause_threshold caller (seconds : Z) : GM unit :=
  do! throw_if (seconds =? 0) InvalidParam;
  do! assert_not_paused;
  do! Role.require_role_or_admin caller RoleName.RateManager;
  do! sset GovKey.ForceCancelPauseSecs seconds;
  publish (GovEvent.fc_pause caller seconds).

Definition set_min_quorum_bps caller (min_quorum_bps : Z) : GM unit :=
  do! throw_if (10000 <? min_quorum_bps) InvalidParam;
  do! assert_not_paused;
  do! Role.require_role_or_admin caller RoleName.Admin;
  let! old := sget GovKey.MinQuorumBps in
  do! sset GovKey.MinQuorumBps min_quorum_bps;
  publish (GovEvent.quorum caller (default 0 old) min_quorum_bps).

Definition min_quorum_bps : GM Z := let! c := load in ret (gc_min_quorum_bps c).

Definition set_governance_supply caller (supply : Z) : GM unit :=
  do! throw_if (supply =? 0) InvalidParam;
  do! assert_not_paused;
  do! Role.require_role_or_admin caller RoleName.Admin;
  sset GovKey.GovernanceSupply supply.

Definition governance_supply : GM Z :=
  let! stored := sget GovKey.GovernanceSupply in
  match stored with
  | Some s => ret s
  | None => let! n := sget_as Z GovKey.AdminCount in ret (default 1 n)
  end.

Definition set_proposal_stake_config caller (token : Address) (min_stake : Z) : GM unit :=
  do! assert_not_paused;
  do! Role.require_role caller RoleName.Admin;
  do! config_set_proposal_stake_config token min_stake;
  publish (GovEvent.proposal_stake caller token min_stake).

(** ** Proposals *)

Definition checkpoint_balance caller (voter : Address) (weight : Z) : GM unit :=
  do! Role.require_role_or_admin caller RoleName.Admin;
  do! bump_instance;
  record_checkpoint voter weight.

Definition get_prior_votes account (ledger_sequence : Z) : GM Z :=
  let! w := get_checkpoint_weight account ledger_sequence in ret (default 0 w).

Definition proposal_snapshot_ledger (proposal_id : Z) : GM Z :=
  let! o := get_proposal_snapshot_ledger proposal_id in ok_or o ProposalNotFound.

Definition get_proposal_snapshot (proposal_id : Z) : GM VoteTallySnapshot :=
  let! o := get_vote_tally_snapshot proposal_id in ok_or o ProposalNotFound.

Definition get_vote_record (proposal_id : Z) : GM VoteRecord :=
  let! o := storage_get_vote_record proposal_id in ok_or o ProposalNotFound.

Definition propose caller (execution_window_secs : Z) : GM Z :=
  do! Role.require_role caller RoleName.Admin;
  do! throw_if (execution_window_secs =? 0) InvalidParam;
  let! stake_config := load in
  let! token := ok_or (if 0 <? gc_min_proposal_stake stake_config
                       then gc_proposal_stake_token stake_config else None)
                  ProposalStakeNotConfigured in
  let! contract := contract_address in
  do! token_transfer token caller contract (gc_min_proposal_stake stake_config);
  do! bump_instance;
  let! counter := sget GovKey.ProposalCounter in
  let! proposal_id := u64_op (default 0 counter + 1) in
  let! snapshot_ledger := ledger_sequence in
  let! total_supply := governance_supply in
  let! now := ledger_timestamp in
  do! sset (GovKey.Proposal proposal_id)
        (mkProposal caller now snapshot_ledger execution_window_secs
           ProposalStatus.Pending 0 0);
  do! sset (GovKey.ProposalAbstainVotes proposal_id) 0;
  do! sset GovKey.ProposalCounter proposal_id;
  do! sset (GovKey.ProposalStake proposal_id) (gc_min_proposal_stake stake_config);
  do! sset (GovKey.ProposalStakeTokenByProposal proposal_id) token;
  do! add_proposal_to_status_index proposal_id ProposalStatus.Pending;
  do! set_proposal_snapshot_ledger proposal_id snapshot_ledger;
  do! save_vote_tally_snapshot
        (mkVoteTallySnapshot proposal_id snapshot_ledger 0 0 total_supply);
  ret proposal_id.

Definition list_proposals_by_status (st : ProposalStatus.proposal_status) : GM (list Z) :=
  proposals_by_status st.

Definition min_execution_delay : GM Z := ret MIN_EXECUTION_DELAY.

Definition get_proposal (proposal_id : Z) : GM Proposal :=
  let! o := sget (GovKey.Proposal proposal_id) in ok_or o ProposalNotFound.

(** [proposal.status != Pending && proposal.status != Active] *)
Definition not_open (p : Proposal) : bool :=
  bool_decide (status p <> ProposalStatus.Pending) &&
  bool_decide (status p <> ProposalStatus.Active).

(** [(total_supply as u128 * bps as u128 / 10_000) as u64] *)
Definition quorum_threshold (total_supply bps : Z) : GM Z :=
  match checked_u128 (total_supply * bps) with
  | Some prod => ret ((prod / 10000) mod (u64_max + 1))
  | None => trap ArithmeticPanic
  end.

Definition execute_proposal (executor : Address) (proposal_id : Z) : GM unit :=
  do! Role.require_executor executor;
  do! bump_instance;
  let! stored := sget (GovKey.Proposal proposal_id) in
  let! proposal := ok_or stored ProposalNotFound in
  do! throw_if (not_open proposal) ProposalNotPending;
  let! now := ledger_timestamp in
  let elapsed := sat_u64 (now - created_at proposal) in
  do! throw_if (elapsed <? MIN_EXECUTION_DELAY) TimelockNotMet;
  do! throw_if (sat_u64 (execution_window_secs proposal + MIN_EXECUTION_DELAY) <? elapsed)
        ProposalExpired;
  let! c := load in
  do! (if 0 <? gc_min_quorum_bps c then
         let! snapshot := get_vote_tally_snapshot proposal_id in
         let! total_supply := match snapshot with
                              | Some s => ret (vt_total_supply s)
                              | None => governance_supply
                              end in
         let! threshold := quorum_threshold total_supply (gc_min_quorum_bps c) in
         let! abstain := get_abstain_votes proposal_id in
         let total_votes :=
           sat_u64 (sat_u64 (for_votes proposal + against_votes proposal) + abstain) in
         throw_if (total_votes <? threshold) QuorumNotMet
       else ret tt);
  do! refund_proposal_stake proposal_id (author proposal);
  do! set_proposal_status proposal_id ProposalStatus.Executed;
  ret tt.

Definition cancel_proposal caller (proposal_id : Z) : GM unit :=
  do! bump_instance;
  let! stored := sget (GovKey.Proposal proposal_id) in
  let! proposal := ok_or stored ProposalNotFound in
  do! throw_if (negb (addr_eqb caller (author proposal))) NotAuthorized;
  do! throw_if (not_open proposal) ProposalNotPending;
  do! archive_vote_record proposal_id proposal;
  do! set_proposal_status proposal_id ProposalStatus.Cancelled;
  ret tt.

Definition cancel_proposal_by_admin caller (proposal_id reason_hash : Z) : GM unit :=
  do! Role.require_role caller RoleName.Admin;
  do! bump_instance;
  let! stored := sget (GovKey.Proposal proposal_id) in
  let! proposal := ok_or stored ProposalNotFound in
  do! throw_if (not_open proposal) ProposalNotPending;
  do! archive_vote_record proposal_id proposal;
  do! set_proposal_status proposal_id ProposalStatus.Cancelled;
  publish (GovEvent.ProposalCancelledByAdmin proposal_id caller reason_hash).

End Governor.
End Governor.
