(* ===== verification/GovernorSystem.v ===== *)
(** * DripGovernor: calls, frames and reachable worlds

    The parts of the governor's storage, the entry points as a type of calls,
    the parts each call may write, the worlds a deployed governor can be in, and
    what a call does to the state outside it. *)

From stdpp Require Import base numbers list option strings gmap.
From Stdlib Require Import ZArith Lia String.
From S2P Require Import Prelude Host Ttl Pause Rbac Frame Safe GovernorData GovernorStore.
From S2P Require Import GovernorOps.
Import GovError.

#[local] Open Scope Z_scope.
#[local] Open Scope sf_scope.

(** What the governor relies on when it calls the factory by name: the call
    takes nothing from the governor. *)
Class FactoryLaws (T : Type) `{TokenClient T} `{FactoryClient T} : Prop := {
  factory_call_balance t f self name t' tk b' :
    factory_call t f self name = Some t' -> tok_balance t' tk self = Some b' ->
    exists b, tok_balance t tk self = Some b /\ b <= b'
}.

(** ** Parts of the storage *)

Inductive part := PRoles (r : RoleName.role_name) | PCount | PPause | PAuthority | PParams
                | PProposals | PVotes.

Definition part_of (k : GovKey.data_key) : part :=
  match k with
  | GovKey.Role r _ | GovKey.RoleMembers r => PRoles r
  | GovKey.AdminCount => PCount
  | GovKey.Paused => PPause
  | GovKey.PendingAuthority | GovKey.PendingAuthorityProposer => PAuthority
  | GovKey.FeeBps | GovKey.FeeRecipient | GovKey.MinDurationSeconds | GovKey.MaxRatePerSecond
  | GovKey.MaxDurationSeconds | GovKey.FactoryAddress | GovKey.ForceCancelPauseSecs
  | GovKey.MinQuorumBps | GovKey.ProposalStakeToken | GovKey.MinProposalStake
  | GovKey.GovernanceSupply | GovKey.VotingPeriodLedgers => PParams
  | GovKey.Proposal _ | GovKey.ProposalCounter | GovKey.ProposalStake _
  | GovKey.ProposalStakeTokenByProposal _ | GovKey.ProposalsByStatus _ => PProposals
  | GovKey.VoteCheckpoints _ | GovKey.CheckpointingEnabled | GovKey.ProposalSnapshotLedger _
  | GovKey.ProposalVoteSnapshot _ | GovKey.VoterReceipt _ _
  | GovKey.ProposalExecutionBytecodeHash _ | GovKey.VoteRecord _
  | GovKey.ProposalAbstainVotes _ => PVotes
  end.

(** Every key but those of one part. *)
Definition off (p : part) (k : GovKey.data_key) : Prop := part_of k <> p.

#[export] Hint Extern 1 (InFrame (off _) _) =>
  (red; unfold off; cbn; congruence) : typeclass_instances.

(** The keys outside the roster of administrators. *)
Definition admin_keys (k : GovKey.data_key) : Prop :=
  part_of k <> PRoles RoleName.Admin /\ part_of k <> PCount.

#[export] Hint Extern 1 (InFrame admin_keys _) =>
  (red; unfold admin_keys; cbn;
   first [ split; congruence
         | exfalso; match goal with H : Role.is_admin _ = true |- _ =>
             apply bool_decide_eq_true in H; congruence end ]) : typeclass_instances.

(** ** Calls *)

Inductive call :=
| GInitialize (authority fee_recipient factory_address : Address)
| GovernorPause (caller : Address)
| GovernorUnpause (caller : Address)
| GovernorIsPaused
| PauseFactory (caller : Address)
| UnpauseFactory (caller : Address)
| GrantRoleWithExpiration (caller : Address) (role : RoleName.role_name) (account : Address)
    (expires_at : option Z)
| GrantRole (caller : Address) (role : RoleName.role_name) (account : Address)
| RevokeRole (caller : Address) (role : RoleName.role_name) (account : Address)
| GrantRoleBatch (caller : Address) (role : RoleName.role_name) (accounts : list Address)
| RevokeRoleBatch (caller : Address) (role : RoleName.role_name) (accounts : list Address)
| TransferAuthority (caller new_authority : Address)
| ProposeAuthority (caller new_authority : Address)
| RevokeProposeAuthority (caller : Address)
| AcceptAuthority (caller : Address)
| ProposeAdmin (caller new_admin : Address)
| ClaimAdmin (caller : Address)
| RevokeProposeAdmin (caller : Address)
| Upgrade (caller : Address) (new_wasm_hash : Z)
| SetFeeBps (caller : Address) (fee_bps : Z)
| SetFeeRecipient (caller recipient : Address)
| SetMinDuration (caller : Address) (seconds : Z)
| SetMaxRate (caller : Address) (max_rate : Z)
| SetMaxDuration (caller : Address) (seconds : Z)
| SetForceCancelPauseThreshold (caller : Address) (seconds : Z)
| SetMinQuorumBps (caller : Address) (min_quorum_bps : Z)
| SetGovernanceSupply (caller : Address) (supply : Z)
| SetProposalStakeConfig (caller token : Address) (min_stake : Z)
| CheckpointBalance (caller voter : Address) (weight : Z)
| Propose (caller : Address) (execution_window_secs : Z)
| ExecuteProposal (executor : Address) (proposal_id : Z)
| CancelProposal (caller : Address) (proposal_id : Z)
| CancelProposalByAdmin (caller : Address) (proposal_id reason_hash : Z)
| GetVoteRecord (proposal_id : Z).

(** Arguments have their machine width. *)
Definition typed (c : call) : Prop :=
  match c with
  | SetFeeBps _ n | SetMinQuorumBps _ n => U32 n
  | SetMinDuration _ n | SetMaxDuration _ n | SetForceCancelPauseThreshold _ n
  | SetGovernanceSupply _ n | CheckpointBalance _ _ n | Propose _ n => U64 n
  | SetMaxRate _ n | SetProposalStakeConfig _ _ n => I128 n
  | _ => True
  end.

Section System.
Context {T : Type} `{TC : TokenClient T} `{FC : FactoryClient T}.
Abbreviation GM := (M GovKey.data_key T GovEvent.gov_event gov_error).
Abbreviation GWorld := (World GovKey.data_key T GovEvent.gov_event).
Implicit Types (w : GWorld) (c : call) (p : part).

Definition exec c : GM unit :=
  match c with
  | GInitialize a r f => Governor.initialize a r f
  | GovernorPause a => Governor.governor_pause a
  | GovernorUnpause a => Governor.governor_unpause a
  | GovernorIsPaused => do! Governor.governor_is_paused; ret tt
  | PauseFactory a => Governor.pause_factory a
  | UnpauseFactory a => Governor.unpause_factory a
  | GrantRoleWithExpiration a r x e => Governor.grant_role_with_expiration a r x e
  | GrantRole a r x => Governor.grant_role a r x
  | RevokeRole a r x => Governor.revoke_role a r x
  | GrantRoleBatch a r l => Governor.grant_role_batch a r l
  | RevokeRoleBatch a r l => Governor.revoke_role_batch a r l
  | TransferAuthority a n => Governor.transfer_authority a n
  | ProposeAuthority a n => Governor.propose_authority a n
  | RevokeProposeAuthority a => Governor.revoke_propose_authority a
  | AcceptAuthority a => Governor.accept_authority a
  | ProposeAdmin a n => Governor.propose_admin a n
  | ClaimAdmin a => Governor.claim_admin a
  | RevokeProposeAdmin a => Governor.revoke_propose_admin a
  | Upgrade a h => Governor.upgrade a h
  | SetFeeBps a n => Governor.set_fee_bps a n
  | SetFeeRecipient a r => Governor.set_fee_recipient a r
  | SetMinDuration a n => Governor.set_min_duration a n
  | SetMaxRate a n => Governor.set_max_rate a n
  | SetMaxDuration a n => Governor.set_max_duration a n
  | SetForceCancelPauseThreshold a n => Governor.set_force_cancel_pause_threshold a n
  | SetMinQuorumBps a n => Governor.set_min_quorum_bps a n
  | SetGovernanceSupply a n => Governor.set_governance_supply a n
  | SetProposalStakeConfig a t n => Governor.set_proposal_stake_config a t n
  | CheckpointBalance a v n => Governor.checkpoint_balance a v n
  | Propose a n => do! Governor.propose a n; ret tt
  | ExecuteProposal a i => Governor.execute_proposal a i
  | CancelProposal a i => Governor.cancel_proposal a i
  | CancelProposalByAdmin a i h => Governor.cancel_proposal_by_admin a i h
  | GetVoteRecord i => do! Governor.get_vote_record i; ret tt
  end.

(** The parts of the storage a call may write. *)
Definition writes c p : bool :=
  match c, p with
  | GInitialize _ _ _, (PRoles _ | PCount | PParams) => true
  | (GrantRoleWithExpiration _ r _ _ | GrantRole _ r _ | RevokeRole _ r _
    | GrantRoleBatch _ r _ | RevokeRoleBatch _ r _), PRoles r' => bool_decide (r = r')
  | (GrantRoleWithExpiration _ r _ _ | GrantRole _ r _ | RevokeRole _ r _
    | GrantRoleBatch _ r _ | RevokeRoleBatch _ r _), PCount => Role.is_admin r
  | (TransferAuthority _ _ | AcceptAuthority _ | ClaimAdmin _),
    (PRoles RoleName.Admin | PCount) => true
  | (ProposeAuthority _ _ | RevokeProposeAuthority _ | AcceptAuthority _ | ProposeAdmin _ _
    | ClaimAdmin _ | RevokeProposeAdmin _), PAuthority => true
  | (GovernorPause _ | GovernorUnpause _ | GovernorIsPaused | Upgrade _ _ | SetFeeBps _ _
    | SetFeeRecipient _ _ | SetMinDuration _ _ | SetMaxRate _ _ | SetMaxDuration _ _
    | SetForceCancelPauseThreshold _ _ | SetMinQuorumBps _ _ | SetGovernanceSupply _ _
    | SetProposalStakeConfig _ _ _), PPause => true
  | (SetFeeBps _ _ | SetFeeRecipient _ _ | SetMinDuration _ _ | SetMaxRate _ _
    | SetMaxDuration _ _ | SetForceCancelPauseThreshold _ _ | SetMinQuorumBps _ _
    | SetGovernanceSupply _ _ | SetProposalStakeConfig _ _ _), PParams => true
  | (Propose _ _ | ExecuteProposal _ _ | CancelProposal _ _ | CancelProposalByAdmin _ _ _),
    PProposals => true
  | (CheckpointBalance _ _ _ | Propose _ _), PVotes => true
  | _, _ => false
  end.

(** *** Frames of the helpers *)

Section Helpers.
Context (R : GWorld -> GWorld -> Prop) `{!PreOrder R} `{!forall x, Allows R (add_event x)}
  `{!forall o a b, Allows R (add_ttl o a b)} {E : Type}.

#[export] Instance keeps_role_has r a : Keeps (E := E) R (Role.has_role r a).
Proof. unfold Role.has_role. apply _. Qed.
#[export] Instance keeps_role_require a r : Keeps R (Role.require_role a r).
Proof. unfold Role.require_role. apply _. Qed.
#[export] Instance keeps_role_require_or a r : Keeps R (Role.require_role_or_admin a r).
Proof. unfold Role.require_role_or_admin. apply _. Qed.
#[export] Instance keeps_load : Keeps R load.
Proof. unfold load. apply _. Qed.
#[export] Instance keeps_supply : Keeps R Governor.governance_supply.
Proof. unfold Governor.governance_supply. solve_keeps. Qed.

#[export] Instance keeps_snapshot id : Keeps (E := E) R (get_vote_tally_snapshot id).
Proof. exact (keeps_sget R (GovKey.ProposalVoteSnapshot id)). Qed.
#[export] Instance keeps_threshold s b : Keeps R (Governor.quorum_threshold s b).
Proof. unfold Governor.quorum_threshold. apply _. Qed.

Context `{!forall v, Allows R (put GovKey.Paused v)}.

#[export] Instance keeps_gov_is_paused : Keeps R Governor.is_paused.
Proof. unfold Governor.is_paused. apply _. Qed.
#[export] Instance keeps_gov_set_paused b : Keeps R (Governor.set_paused b).
Proof. unfold Governor.set_paused. apply _. Qed.
#[export] Instance keeps_assert_not_paused : Keeps R Governor.assert_not_paused.
Proof. unfold Governor.assert_not_paused. apply _. Qed.

End Helpers.

#[export] Instance keeps_role_grant_exp (R : GWorld -> GWorld -> Prop) `{!PreOrder R} {E} r a e :
  (forall v, Allows R (put (GovKey.Role r a) v)) ->
  (forall v, Allows R (put (GovKey.RoleMembers r) v)) ->
  (Role.is_admin r = true -> forall v, Allows R (put GovKey.AdminCount v)) ->
  Keeps (E := E) R (Role.grant_with_expiration r a e).
Proof. intros. unfold Role.grant_with_expiration. by apply keeps_grant. Qed.

#[export] Instance keeps_role_grant (R : GWorld -> GWorld -> Prop) `{!PreOrder R} {E} r a :
  (forall v, Allows R (put (GovKey.Role r a) v)) ->
  (forall v, Allows R (put (GovKey.RoleMembers r) v)) ->
  (Role.is_admin r = true -> forall v, Allows R (put GovKey.AdminCount v)) ->
  Keeps (E := E) R (Role.grant r a).
Proof. intros. unfold Role.grant, Rbac.grant. by apply keeps_grant. Qed.

#[export] Instance keeps_role_revoke (R : GWorld -> GWorld -> Prop) `{!PreOrder R} r a :
  (forall x, Allows R (add_event x)) ->
  (forall v, Allows R (put (GovKey.Role r a) v)) ->
  (forall v, Allows R (put (GovKey.RoleMembers r) v)) ->
  (Role.is_admin r = true -> forall v, Allows R (put GovKey.AdminCount v)) ->
  Keeps R (Role.revoke r a).
Proof. intros. unfold Role.revoke, Rbac.revoke. by apply keeps_map_err, keeps_revoke. Qed.

(** *** The frame of a call *)

#[export] Instance keeps_try_factory (R : GWorld -> GWorld -> Prop) `{!PreOrder R} f n :
  (forall t, Allows R (set_tokens t)) -> Keeps R (Governor.try_factory f n).
Proof.
  intros Ht env w. unfold Governor.try_factory.
  destruct (factory_call _ _ _ _); [apply Ht|reflexivity].
Qed.

Lemma grant_each_keeps (R : GWorld -> GWorld -> Prop) `{!PreOrder R} a r l :
  (forall x, Allows R (add_event x)) -> (forall x, Keeps (E := gov_error) R (Role.grant r x)) ->
  Keeps R (Governor.grant_each a r l).
Proof. intros. induction l; cbn [Governor.grant_each]; solve_keeps. Qed.

Lemma revoke_each_keeps (R : GWorld -> GWorld -> Prop) `{!PreOrder R} a r l :
  (forall x, Allows R (add_event x)) -> (forall x, Keeps R (Role.revoke r x)) ->
  Keeps R (Governor.revoke_each a r l).
Proof. intros. induction l; cbn [Governor.revoke_each]; solve_keeps. Qed.

End System.

Ltac unfold_call :=
  cbn [exec];
  unfold Governor.initialize, Governor.governor_pause, Governor.governor_unpause, Governor.governor_is_paused,
    Governor.pause_factory, Governor.unpause_factory, Governor.grant_role_with_expiration,
    Governor.grant_role, Governor.revoke_role, Governor.grant_role_batch,
    Governor.revoke_role_batch, Governor.transfer_authority, Governor.propose_authority,
    Governor.revoke_propose_authority, Governor.accept_authority, Governor.propose_admin,
    Governor.claim_admin, Governor.revoke_propose_admin, Role.propose_admin, Role.claim_admin,
    Role.revoke_propose_admin, Governor.upgrade, Governor.update_current_contract_wasm,
    Governor.set_fee_bps, Governor.set_fee_recipient, Governor.set_min_duration,
    Governor.set_max_rate, Governor.set_max_duration, Governor.set_force_cancel_pause_threshold,
    Governor.set_min_quorum_bps, Governor.set_governance_supply,
    Governor.set_proposal_stake_config, config_set_proposal_stake_config,
    Governor.checkpoint_balance, record_checkpoint, record_checkpoint_at,
    Governor.propose, Governor.execute_proposal, Role.require_executor,
    Governor.cancel_proposal, Governor.cancel_proposal_by_admin, Governor.get_vote_record,
    storage_get_vote_record, Governor.refund_proposal_stake, get_abstain_votes, set_proposal_status, archive_vote_record,
    remove_proposal_from_status_index, add_proposal_to_status_index,
    set_proposal_snapshot_ledger, save_vote_tally_snapshot.

Ltac solve_frame :=
  unfold_call;
  first [ solve [solve_keeps]
        | apply keeps_bind; [apply _ | apply _ | intros ?];
          first [apply grant_each_keeps | apply revoke_each_keeps]; solve_keeps ].

Section Frames.
Context {T : Type} `{TC : TokenClient T} `{FC : FactoryClient T}.
Implicit Types (c : call).

Lemma exec_frame_params c : writes c PParams = false -> Keeps (frame (T := T) (off PParams)) (exec c).
Proof. destruct c; intros Hw; try discriminate Hw; clear Hw; solve_frame. Qed.

Lemma exec_frame_proposals c :
  writes c PProposals = false -> Keeps (frame (off PProposals)) (exec c).
Proof. destruct c; intros Hw; try discriminate Hw; clear Hw; solve_frame. Qed.

Lemma exec_frame_admin c :
  writes c (PRoles RoleName.Admin) = false -> Keeps (frame admin_keys) (exec c).
Proof.
  destruct c; intros Hw; try discriminate Hw; cbn in Hw; try apply bool_decide_eq_false in Hw;
    solve_frame.
Qed.

(** ** Reachable worlds

    A governor at address [self], indexed by the ledger sequence of its last
    invocation.  Nobody signs for the contract itself, and transfers made by
    others in between cannot take from it. *)

Definition fresh (w : World GovKey.data_key T GovEvent.gov_event) : Prop :=
  (forall k, w_store w k = None) /\ (forall k, w_persist w k = None).

Record GovEnv (self : Address) (env : Env) : Prop := {
  env_self : current_contract env = self;
  env_unsigned : authorized env self = false;
  env_time : U64 (timestamp env)
}.

Inductive reachable (self : Address) : Z -> World GovKey.data_key T GovEvent.gov_event -> Prop :=
| reach_init env w0 authority fee_recipient factory_address w :
    fresh w0 -> GovEnv self env ->
    Governor.initialize authority fee_recipient factory_address env w0 = ROk tt w ->
    reachable self (sequence env) w
| reach_call n w env c r w' :
    reachable self n w -> n <= sequence env -> GovEnv self env -> typed c ->
    invoke (exec c) env w = (r, w') -> reachable self (sequence env) w'
| reach_tokens n w tokens :
    reachable self n w ->
    (forall tk b', tok_balance tokens tk self = Some b' ->
       exists b, tok_balance (w_tokens w) tk self = Some b /\ b <= b') ->
    reachable self n (set_tokens tokens w).

(** An invariant of the store that deployment establishes and every call keeps
    holds in every reachable world. *)
Lemma reachable_invariant self (I : World GovKey.data_key T GovEvent.gov_event -> Prop) :
  (forall env w0 a f x w, fresh w0 -> GovEnv self env ->
     Governor.initialize a f x env w0 = ROk tt w -> I w) ->
  (forall w env c w', I w -> GovEnv self env -> typed c ->
     exec c env w = ROk tt w' -> I w') ->
  (forall w tokens, I w ->
     (forall tk b', tok_balance tokens tk self = Some b' ->
        exists b, tok_balance (w_tokens w) tk self = Some b /\ b <= b') ->
     I (set_tokens tokens w)) ->
  forall n w, reachable self n w -> I w.
Proof.
  intros Hinit Hcall Htok n w H.
  induction H as [|n w env c r w' Hr IH Hle He Ht Hi|]; eauto.
  unfold invoke in Hi. destruct (exec c env w) as [[] w1|e w1|tr] eqn:Hx;
    injection Hi as _ <-; eauto.
Qed.

End Frames.

(** ** What a call does to the rest of the chain

    Every entry point of the governor keeps what its own token transfers and
    its calls of the factory keep. *)

Section Outside.
Context {T : Type} `{TC : TokenClient T} `{FC : FactoryClient T}.
Abbreviation GM := (M GovKey.data_key T GovEvent.gov_event GovError.gov_error).
Context (env : Env) (P : T -> Prop) `{HC : !TransferClosed env P}.

(** What the calls of the factory keep. *)
Context (HF : forall t f name t',
  factory_call t f (current_contract env) name = Some t' -> P t -> P t').

#[local] Instance sf_try_factory f n : Safe env P (Governor.try_factory f n : GM _) | 1.
Proof.
  intros w HP. unfold Governor.try_factory. destruct (factory_call _ _ _ _) eqn:H; [|exact HP].
  exact (HF _ _ _ _ H HP).
Qed.

(** A call of a governor keeps what its transfers and factory calls keep. *)
Lemma governor_exec_safe c : Safe env P (exec c : GM unit).
Proof.
  destruct c; unfold_call;
    first [ solve [solve_safe]
          | apply safe_bind; [solve_safe|intros ?]; apply safe_keeps;
            first [apply grant_each_keeps | apply revoke_each_keeps]; solve_keeps ].
Qed.

End Outside.
