(* ===== verification/GovernorRoles.v ===== *)
(** * DripGovernor: the administrators

    The roster of administrators of a reachable governor: never empty, never
    expiring, counted and indexed exactly; and the transfers of authority. *)

From stdpp Require Import base numbers list option strings gmap.
From Stdlib Require Import ZArith Lia String.
From S2P Require Import Prelude Host Ttl Pause Rbac Frame Admins GovernorData GovernorStore.
From S2P Require Import GovernorOps GovernorSystem.
Import GovError.

#[local] Open Scope Z_scope.
#[local] Open Scope sf_scope.

Section Roles.
Context {T : Type} `{TC : TokenClient T} `{FC : FactoryClient T}.
Abbreviation GWorld := (World GovKey.data_key T GovEvent.gov_event).
Implicit Types (w : GWorld) (c : call) (ro : Roster).

Abbreviation admin_role := (GovKey.Role RoleName.Admin).
Abbreviation AdminRoster :=
  (AdminRoster admin_role GovKey.AdminCount (GovKey.RoleMembers RoleName.Admin)).
Abbreviation administered :=
  (administered (T := T) (X := GovEvent.gov_event) admin_role GovKey.AdminCount
     (GovKey.RoleMembers RoleName.Admin)).

Lemma admin_keys_spare :
  spares_roster admin_role GovKey.AdminCount (GovKey.RoleMembers RoleName.Admin) admin_keys.
Proof. unfold spares_roster, admin_keys. cbn. intuition congruence. Qed.

Lemma gov_admin_frames : frames admin_keys administered.
Proof. apply admin_frames, admin_keys_spare. Qed.

#[local] Instance keeps_role_grant {E} r a : Keeps (E := E) (stable administered) (Role.grant r a).
Proof.
  destruct (decide (r = RoleName.Admin)) as [->|Hr].
  - exact (keeps_admin_grant (E := E) admin_role _ _ a).
  - apply (stable_keeps admin_keys), _. apply gov_admin_frames.
Qed.

#[local] Instance keeps_role_revoke r a : Keeps (stable administered) (Role.revoke r a).
Proof.
  destruct (decide (r = RoleName.Admin)) as [->|Hr].
  - apply keeps_map_err. exact (keeps_admin_revoke admin_role _ _ a).
  - apply (stable_keeps admin_keys), _. apply gov_admin_frames.
Qed.

#[local] Hint Extern 1 (Allows (stable administered) _) =>
  (apply (stable_allows admin_keys); [apply gov_admin_frames | apply _]) : typeclass_instances.

(** No call of the governor loses the administrators. *)
Lemma exec_administered c : Keeps (stable administered) (exec c).
Proof.
  destruct (writes c (PRoles RoleName.Admin)) eqn:Hw.
  - destruct c; try discriminate Hw; clear Hw; try solve_frame.
    cbn [exec]. unfold Governor.grant_role_with_expiration.
    apply keeps_bind; [apply _..|intros _]. apply keeps_bind; [apply _..|intros now].
    apply keeps_guard; [apply _|]. intros Hg. apply keeps_bind; [apply _| |solve_keeps].
    destruct (decide (role = RoleName.Admin)) as [->|Hr].
    + destruct expires_at; [discriminate Hg|]. apply (keeps_role_grant RoleName.Admin).
    + apply (stable_keeps admin_keys), _. apply gov_admin_frames.
  - apply (stable_keeps admin_keys); [apply gov_admin_frames|by apply exec_frame_admin].
Qed.

(** ** Reachable governors *)

Lemma init_administered env w0 a f x w :
  fresh w0 -> Governor.initialize a f x env w0 = ROk tt w -> administered w.
Proof.
  intros [Hf _] H. unfold Governor.initialize in H.
  apply bind_ok in H as (present & w1 & Hp & H). injection Hp as <- <-.
  apply bind_ok in H as (u & w1 & Hp & H). apply panic_if_ok in Hp as [_ ->].
  do 10 (apply bind_ok in H as (? & ? & Hp & H); injection Hp as <- <-).
  apply bind_ok in H as (b & w2 & Hg & H).
  match type of Hg with _ _ ?w1 = _ => set (w' := w1) in * end.
  assert (Hfr : frame admin_keys w0 w').
  { unfold w'. repeat (etransitivity; [|apply (allows (R := frame admin_keys))]).
    reflexivity. }
  assert (Ha : administered w2).
  { refine (first_admin admin_role _ _ w' a env b w2 _ _ _ Hg); intros;
      rewrite Hfr, ?Hf; try done; unfold admin_keys; cbn; tauto. }
  revert H Ha. by apply (keeps_ok (stable administered)), _.
Qed.

Lemma reachable_administered self n w : reachable self n w -> administered w.
Proof.
  apply reachable_invariant; clear w.
  - intros * Hf _. by apply init_administered.
  - intros w env c w' HI _ _ H. revert HI.
    exact (keeps_ok (Keeps0 := exec_administered c) _ _ _ _ _ _ H).
  - intros w tokens HI _. by apply administered_tokens.
Qed.

(** C19 Governance can never be frozen. In every world a governor can reach there
    is a list of administrators, without repetition and never empty, which is
    exactly what the contract answers: [admin_count] is its length, [has_role]
    its membership at any ledger time, and the roles index lists it. *)
Theorem governance_never_frozen self n w :
  reachable self n w ->
  exists admins, admins <> [] /\ NoDup admins /\ forall env,
    Governor.admin_count env w = ROk (Z.of_nat (List.length admins)) w /\
    (forall a, Governor.has_role RoleName.Admin a env w = ROk (bool_decide (a ∈ admins)) w) /\
    Rbac.role_members (E := gov_error) (GovKey.RoleMembers RoleName.Admin) env w = ROk admins w.
Proof. intros H. exact (roster_answers _ _ _ w (reachable_administered _ _ _ H)). Qed.

(** Accepting an authority proposal hands the admin role over exactly: it is
    signed by the address the proposal names, which becomes an administrator;
    the proposer stops being one; no other membership changes; and the proposal
    is consumed. *)
Theorem authority_handover_is_exact self n w caller env w' :
  reachable self n w -> Governor.accept_authority caller env w = ROk tt w' ->
  authorized env caller = true /\ w_store w GovKey.PendingAuthority = Some caller /\
  (forall env', Governor.pending_admin env' w' = ROk None w') /\
  exists proposer, w_store w GovKey.PendingAuthorityProposer = Some proposer /\
    forall a env', exists was,
      Governor.has_role RoleName.Admin a env' w = ROk was w /\
      Governor.has_role RoleName.Admin a env' w' =
        ROk (negb (addr_eqb a proposer) && (addr_eqb a caller || was)) w'.
Proof.
  intros Hr H. destruct (reachable_administered _ _ _ Hr) as (ro & HR).
  unfold Governor.accept_authority in H.
  apply bind_ok in H as (o & w1 & Hp & H). injection Hp as <- <-.
  apply bind_ok in H as (pending & w1 & Hp & H). apply ok_or_ok in Hp as [Hpend ->].
  apply bind_ok in H as (u & w1 & Hp & H). apply throw_if_ok in Hp as [Heq ->].
  apply negb_false_iff, addr_eqb_true in Heq as <-.
  apply bind_ok in H as (u1 & w1 & Hp & H). apply require_auth_ok in Hp as [Ha ->].
  apply bind_ok in H as (u2 & w1 & Hb & H). injection Hb as _ <-.
  apply bind_ok in H as (o & w1 & Hp & H). injection Hp as <- <-.
  apply bind_ok in H as (proposer & w1 & Hp & H). apply ok_or_ok in Hp as [Hprop ->].
  apply bind_ok in H as (b & w2 & Hg & H). apply bind_ok in H as (b' & w3 & Hv & H).
  assert (HR1 : AdminRoster (add_ttl None MIN_TTL_LEDGERS EXTEND_TTL_LEDGERS w) ro).
  { eapply roster_frame; [exact admin_keys_spare|apply (allows (R := frame admin_keys) w)|done]. }
  unfold Role.revoke in Hv. apply map_err_ok in Hv.
  destruct (handover _ _ _ _ ro _ _ _ _ _ _ _ HR1 Hg Hv) as (ro' & HR3 & Hall).
  apply bind_ok in H as (u3 & w4 & Hs & H). injection Hs as _ <-.
  apply bind_ok in H as (u4 & w4 & Hs & H). injection Hs as _ <-. injection H as <-.
  split_and!; [done|done| |].
  - intros env'. unfold Governor.pending_admin, Role.pending_admin, sget. by store_simpl.
  - exists proposer. split; [done|]. intros a env'. eexists. split; [exact (admin_has admin_role _ _ w ro a env' HR)|].
    etransitivity; [refine (admin_has admin_role _ _ _ ro' a env' _)|by rewrite Hall].
    eapply roster_frame; [exact admin_keys_spare| |exact HR3].
    repeat (etransitivity; [|apply (allows (R := frame admin_keys))]). reflexivity.
Qed.

End Roles.
