(* ===== verification/GovernorConfig.v ===== *)
(** * DripGovernor: the parameters

    In every reachable world the configuration is answered and lies within the
    bounds the stream factory enforces with it. *)

From stdpp Require Import base numbers list option strings.
From Stdlib Require Import ZArith Lia String.
From S2P Require Import Prelude Host Ttl Pause Rbac Frame GovernorData GovernorStore.
From S2P Require Import GovernorOps GovernorSystem.
Import GovError.

#[local] Open Scope Z_scope.
#[local] Open Scope sf_scope.

Section Config.
Context {T : Type} `{TC : TokenClient T} `{FC : FactoryClient T}.
Abbreviation GWorld := (World GovKey.data_key T GovEvent.gov_event).
Implicit Types (w : GWorld).

(** The bounds of a configuration. *)
Record ValidConfig (c : GovernorConfig) : Prop := {
  vc_fee : 0 <= gc_fee_bps c <= 10000;
  vc_min : 0 < gc_min_duration_seconds c;
  vc_max : gc_min_duration_seconds c <= gc_max_duration_seconds c <= u64_max;
  vc_rate : 0 < gc_max_rate_per_second c <= i128_max;
  vc_product : gc_max_rate_per_second c * gc_min_duration_seconds c <= i128_max;
  vc_force : 0 < gc_force_cancel_pause_secs c <= u64_max;
  vc_quorum : 0 <= gc_min_quorum_bps c <= 10000;
  vc_voting : MIN_VOTING_PERIOD_LEDGERS <= gc_voting_period_ledgers c;
  vc_stake : 0 <= gc_min_proposal_stake c <= i128_max;
  vc_token : 0 < gc_min_proposal_stake c -> is_some (gc_proposal_stake_token c) = true
}.

(** The configuration a store holds. *)
Definition config_of w : option GovernorConfig :=
  let g k := w_store w k in
  match g GovKey.FeeRecipient, g GovKey.FactoryAddress with
  | Some r, Some f =>
      Some (mkGovernorConfig (default 30 (g GovKey.FeeBps)) r
        (default 3600 (g GovKey.MinDurationSeconds))
        (default 315360000 (g GovKey.MaxDurationSeconds))
        (default 1000000000000000 (g GovKey.MaxRatePerSecond)) f
        (default 2592000 (g GovKey.ForceCancelPauseSecs)) (default 0 (g GovKey.MinQuorumBps))
        (default MIN_VOTING_PERIOD_LEDGERS (g GovKey.VotingPeriodLedgers))
        (g GovKey.ProposalStakeToken) (default 0 (g GovKey.MinProposalStake)))
  | _, _ => None
  end.

Lemma load_eval env w :
  load env w = match config_of w with Some c => ROk c w | None => RErr NotInitialized w end.
Proof.
  unfold load, config_of, bind, sget. cbn.
  destruct (w_store w GovKey.FeeRecipient); [cbn|done].
  destruct (w_store w GovKey.FactoryAddress); [cbn|done]. done.
Qed.

Definition configured w : Prop := exists c, config_of w = Some c /\ ValidConfig c.

Lemma config_frames : frames (off PParams) configured.
Proof.
  intros w w' Hf (c & Hc & HV). exists c. split; [|done]. rewrite <- Hc. unfold config_of.
  by rewrite !Hf by (unfold off; cbn; tauto).
Qed.

(** The common prologue of the parameter writes. *)
Lemma setter_ok g (e : gov_error) caller r (k : M GovKey.data_key T GovEvent.gov_event gov_error unit)
    env w u w' :
  (do! throw_if g e; do! Governor.assert_not_paused;
   do! Role.require_role_or_admin caller r; k) env w = ROk u w' ->
  configured w -> g = false /\ exists w1, configured w1 /\ k env w1 = ROk u w'.
Proof.
  intros H HC. apply bind_ok in H as (u1 & w1 & Hg & H). apply throw_if_ok in Hg as [-> ->].
  apply bind_ok in H as (u2 & w2 & Hp & H). apply bind_ok in H as (u3 & w3 & Hq & H).
  split; [done|]. exists w3. split; [|done].
  eapply config_frames; [exact (keeps_ok (frame (off PParams)) _ _ _ _ _ Hq)|].
  eapply config_frames; [exact (keeps_ok (frame (off PParams)) _ _ _ _ _ Hp)|done].
Qed.

(** Close a parameter write: [w'] is the write on a configured world. *)
Ltac settle_config :=
  match goal with HC : configured _ |- _ =>
    destruct HC as (c & Hc & []); unfold configured, config_of in *; store_simpl;
    destruct (w_store _ GovKey.FeeRecipient) eqn:?; [|discriminate Hc];
    destruct (w_store _ GovKey.FactoryAddress) eqn:?; [|discriminate Hc];
    injection Hc as <-; cbn in *; eexists; split; [reflexivity|]; constructor; cbn in *;
    breflect; checked_inv; try done; mlia
  end.

(** A governor that has its configuration cannot be initialized again. *)
Lemma governor_initialize_refused a f x env w u w' :
  configured w -> Governor.initialize a f x env w <> ROk u w'.
Proof.
  intros (c & Hc & _) H. unfold Governor.initialize in H.
  apply bind_ok in H as (b & w1 & Hb & H). injection Hb as <- <-.
  apply bind_ok in H as (u1 & w1 & Hp & _). apply panic_if_ok in Hp as [Hb _].
  unfold config_of in Hc. destruct (w_store w GovKey.FactoryAddress); [done|].
  by destruct (w_store w GovKey.FeeRecipient).
Qed.

(** Every parameter write keeps the configuration within its bounds. *)
Lemma write_configured c env w u w' :
  typed c -> writes c PParams = true -> exec c env w = ROk u w' -> configured w -> configured w'.
Proof.
  intros Ht Hw H HC. destruct c; try discriminate Hw; clear Hw; cbn [exec typed] in *.
  1: by apply governor_initialize_refused in H.
  all: try (eapply setter_ok in H as (Hg & w1 & HC1 & H); [|done]; clear HC; inv_ok).
  all: try settle_config.
  apply bind_ok in H as (u2 & w2 & Hp & H). apply bind_ok in H as (u3 & w3 & Hq & H).
  assert (HC3 : configured w3).
  { eapply config_frames; [exact (keeps_ok (frame (off PParams)) _ _ _ _ _ Hq)|].
    eapply config_frames; [exact (keeps_ok (frame (off PParams)) _ _ _ _ _ Hp)|done]. }
  clear HC Hp Hq. unfold config_set_proposal_stake_config in H. inv_ok. settle_config.
Qed.

Lemma exec_configured c env w u w' :
  typed c -> exec c env w = ROk u w' -> configured w -> configured w'.
Proof.
  intros Ht H. destruct (writes c PParams) eqn:Hw; [by eapply write_configured|].
  apply config_frames. exact (keeps_ok (Keeps0 := exec_frame_params c Hw) _ _ _ _ _ _ H).
Qed.

Lemma init_configured env w0 a f x w :
  fresh w0 -> Governor.initialize a f x env w0 = ROk tt w -> configured w.
Proof.
  intros [Hf _] H. unfold Governor.initialize in H.
  apply bind_ok in H as (present & w1 & Hp & H). injection Hp as <- <-.
  apply bind_ok in H as (u & w1 & Hp & H). apply panic_if_ok in Hp as [_ ->].
  do 10 (apply bind_ok in H as (? & ? & Hp & H); injection Hp as <- <-).
  revert H. match goal with |- _ _ ?w1 = _ -> _ => set (w' := w1); intros H end.
  assert (HC : configured w').
  { unfold w', configured, config_of. store_simpl. rewrite !Hf. eexists. split; [reflexivity|].
    constructor; cbn; try done; mlia. }
  revert HC. apply config_frames. revert H. apply keeps_ok. apply _.
Qed.

Lemma reachable_configured self n w : reachable self n w -> configured w.
Proof.
  apply reachable_invariant; clear w.
  - intros * Hf _. by apply init_configured.
  - intros w env c w' HC _ Ht H. by eapply exec_configured.
  - intros w tokens (c & Hc & HV) _. by exists c.
Qed.

(** The protocol parameters can always be read and are always sane. In every
    world a governor can reach [config] answers, and whatever the parameter
    holders wrote and in whatever order: the fee and the quorum are at most
    100%, the duration bounds are ordered and positive, the maximum rate is
    positive, maximum rate times minimum duration fits an [i128], and a
    positive proposal stake names its token. *)
Theorem configuration_always_valid self n w env :
  reachable self n w ->
  exists c, Governor.config env w = ROk c w /\ ValidConfig c.
Proof.
  intros H. destruct (reachable_configured _ _ _ H) as (c & Hc & HV). exists c.
  split; [|done]. unfold Governor.config. by rewrite load_eval, Hc.
Qed.

End Config.
