(* ===== verification/GovernorProposals.v ===== *)
(** * DripGovernor: proposals

    The proposal table and its status index, the life cycle of a proposal, and
    the escrow of proposal stakes. *)

From stdpp Require Import base numbers list option strings.
From Stdlib Require Import ZArith Lia String.
From S2P Require Import Prelude Host Ttl Pause Rbac Frame GovernorData GovernorStore.
From S2P Require Import GovernorOps GovernorSystem GovernorConfig.
Import GovError ProposalStatus.

#[local] Open Scope Z_scope.
#[local] Open Scope sf_scope.

Section Proposals.
Context {T : Type} `{TC : TokenClient T} `{FC : FactoryClient T}.
Abbreviation GWorld := (World GovKey.data_key T GovEvent.gov_event).
Implicit Types (w : GWorld) (c : call) (st : proposal_status).

(** ** Reading the tables *)

Definition prop_at w (id : Z) : option Proposal := w_store w (GovKey.Proposal id).
Definition index w st : list Z := default [] (w_store w (GovKey.ProposalsByStatus st)).
Definition counter w : Z := default 0 (w_store w GovKey.ProposalCounter).
Definition stake_at w (id : Z) : option Z := w_store w (GovKey.ProposalStake id).
Definition stake_token w (id : Z) : option Address :=
  w_store w (GovKey.ProposalStakeTokenByProposal id).

Definition open_status st : bool := bool_decide (st = Pending) || bool_decide (st = Active).

Record Indexed w : Prop := {
  ix_counter : 0 <= counter w <= u64_max;
  ix_known id : is_Some (prop_at w id) <-> 1 <= id <= counter w;
  ix_nodup st : NoDup (index w st);
  ix_index st id : id ∈ index w st <-> exists p, prop_at w id = Some p /\ status p = st
}.

Record Staked w : Prop := {
  st_held id : is_Some (stake_at w id) <->
    exists p, prop_at w id = Some p /\ status p <> Executed;
  st_amount id a : stake_at w id = Some a -> 0 < a /\ is_Some (stake_token w id)
}.

Definition proposals_ok w : Prop := Indexed w /\ Staked w.

Lemma proposals_frames : frames (off PProposals) proposals_ok.
Proof.
  intros w w' Hf.
  assert (Hk : forall k, part_of k = PProposals -> w_store w' k = w_store w k).
  { intros k Hk. apply Hf. unfold off. tauto. }
  assert (Hp : forall id, prop_at w' id = prop_at w id).
  { intros id. by apply (Hk (GovKey.Proposal id)). }
  assert (Hs : forall id, stake_at w' id = stake_at w id).
  { intros id. by apply (Hk (GovKey.ProposalStake id)). }
  assert (Ht : forall id, stake_token w' id = stake_token w id).
  { intros id. by apply (Hk (GovKey.ProposalStakeTokenByProposal id)). }
  assert (Hi : forall st, index w' st = index w st) by (intros; unfold index; by rewrite (Hk (GovKey.ProposalsByStatus st))).
  assert (Hc : counter w' = counter w) by (unfold counter; by rewrite (Hk GovKey.ProposalCounter)).
  intros [[] []]. split; constructor; intros; rewrite ?Hc, ?Hi, ?Hp, ?Hs, ?Ht in *; eauto.
Qed.

(** ** Status changes *)

Definition others (id : Z) (k : GovKey.data_key) : Prop :=
  match k with GovKey.Proposal j => j = id | GovKey.ProposalsByStatus _ => True | _ => False end.

Lemma filter_ids_spec (id j : Z) l :
  j ∈ List.filter (fun i => negb (i =? id)) l <-> j ∈ l /\ j <> id.
Proof. rewrite !list_elem_of_In, filter_In, negb_true_iff, Z.eqb_neq. tauto. Qed.

Lemma listed_spec id l : listed id l = true <-> id ∈ l.
Proof.
  unfold listed. rewrite existsb_exists, list_elem_of_In. split.
  - intros (x & Hx & Heq%Z.eqb_eq). by subst x.
  - intros H. exists id. by rewrite Z.eqb_refl.
Qed.

Lemma set_status_run {E} id new env w p :
  Indexed w -> prop_at w id = Some p -> status p <> new ->
  exists w', set_proposal_status (E := E) id new env w = ROk true w' /\
    prop_at w' id = Some (with_status new p) /\
    index w' (status p) = List.filter (fun i => negb (i =? id)) (index w (status p)) /\
    index w' new = index w new ++ [id] /\
    (forall st, st <> status p -> st <> new -> index w' st = index w st) /\
    frame (others id) w w' /\ w_tokens w' = w_tokens w.
Proof.
  intros HI Hp Hne. unfold set_proposal_status. erewrite bind_run by reflexivity.
  unfold prop_at in Hp. rewrite Hp, bool_decide_true by done.
  assert (Hl : listed id (index w new) = false).
  { apply not_true_iff_false. rewrite listed_spec, (ix_index _ HI). unfold prop_at.
    intros (p' & Hp' & Hs). congruence. }
  unfold remove_proposal_from_status_index, add_proposal_to_status_index.
  unfold bind, sget, sset, ret. store_simpl. fold (index w new). rewrite Hl.
  eexists. split; [reflexivity|]. unfold prop_at, index. store_simpl. split_and!; try done.
  - intros st H1 H2. by store_simpl.
  - intros k Hk. destruct k; cbn in Hk; try done; try (by store_simpl); tauto.
Qed.

Lemma set_status_indexed w w' id p new :
  Indexed w -> prop_at w id = Some p -> status p <> new ->
  prop_at w' id = Some (with_status new p) ->
  index w' (status p) = List.filter (fun i => negb (i =? id)) (index w (status p)) ->
  index w' new = index w new ++ [id] ->
  (forall st, st <> status p -> st <> new -> index w' st = index w st) ->
  frame (others id) w w' -> Indexed w'.
Proof.
  intros [Hc Hk Hn Hi] Hp Hne Hp' Hold Hnew Hoth Hf.
  assert (Hcnt : counter w' = counter w) by (unfold counter; by rewrite (Hf GovKey.ProposalCounter ltac:(cbn; tauto))).
  assert (Hpj : forall j, j <> id -> prop_at w' j = prop_at w j).
  { intros j Hj. apply (Hf (GovKey.Proposal j)). cbn. done. }
  assert (Hids : forall st j, j ∈ index w' st <->
            (j = id /\ st = new) \/ (j <> id /\ j ∈ index w st)).
  { intros st j. destruct (decide (st = status p)) as [->|H1].
    - rewrite Hold, filter_ids_spec. naive_solver.
    - destruct (decide (st = new)) as [->|H2].
      + rewrite Hnew, elem_of_app, list_elem_of_singleton. rewrite Hi.
        destruct (decide (j = id)) as [->|]; naive_solver.
      + rewrite Hoth by done. rewrite Hi. destruct (decide (j = id)) as [->|]; naive_solver. }
  constructor.
  - by rewrite Hcnt.
  - intros j. rewrite Hcnt, <- Hk. destruct (decide (j = id)) as [->|]; [|by rewrite Hpj].
    rewrite Hp, Hp'. split; by eexists.
  - intros st. destruct (decide (st = status p)) as [->|H1].
    + rewrite Hold. apply NoDup_ListNoDup, List.NoDup_filter, NoDup_ListNoDup, Hn.
    + destruct (decide (st = new)) as [->|H2]; [|by rewrite Hoth].
      rewrite Hnew. apply NoDup_app. split_and!; [apply Hn| |apply NoDup_singleton].
      intros x Hx ->%list_elem_of_singleton. apply Hi in Hx as (p' & ? & ?). congruence.
  - intros st j. rewrite Hids. destruct (decide (j = id)) as [->|Hj].
    + rewrite Hp'. split; [intros [[_ ->]|[? _]]; [by eexists|done]|].
      intros (p' & [= <-] & <-). by left.
    + rewrite Hpj, Hi by done. naive_solver.
Qed.

Lemma status_effect {E} id new env w p b w' :
  Indexed w -> prop_at w id = Some p -> status p <> new ->
  set_proposal_status (E := E) id new env w = ROk b w' ->
  Indexed w' /\ prop_at w' id = Some (with_status new p) /\ frame (others id) w w' /\
  w_tokens w' = w_tokens w.
Proof.
  intros HI Hp Hne H.
  destruct (set_status_run (E := E) id new env w p HI Hp Hne)
    as (w1 & H1 & Hp' & Ho & Hn & Hr & Hf & Ht).
  rewrite H1 in H. injection H as _ <-. split_and!; try done. by eapply set_status_indexed.
Qed.

(** ** Prologues that write no key *)

Definition none (k : GovKey.data_key) : Prop := False.

Definition silent w w' : Prop := frame none w w' /\ w_tokens w' = w_tokens w.

Lemma silent_keeps {E A} (m : M GovKey.data_key T GovEvent.gov_event E A) env w a w'
    `{!Keeps (frame none) m} `{!Keeps same_tokens m} :
  m env w = ROk a w' -> silent w w'.
Proof. intros H. split; [exact (keeps_ok (frame none) m _ _ _ _ H)|exact (keeps_ok same_tokens m _ _ _ _ H)]. Qed.

Lemma silent_trans w1 w2 w3 : silent w1 w2 -> silent w2 w3 -> silent w1 w3.
Proof. intros [F1 T1] [F2 T2]. split; [by etransitivity|congruence]. Qed.

Lemma silent_frame P w w' : silent w w' -> frame P w w'.
Proof. intros [Hf _]. eapply frame_weaken; [|exact Hf]. by intros ? []. Qed.

Lemma silent_ok w w' : silent w w' -> proposals_ok w -> proposals_ok w'.
Proof. intros Hs. by apply proposals_frames, silent_frame. Qed.

Lemma silent_store w w' k : silent w w' -> w_store w' k = w_store w k.
Proof. intros [Hf _]. apply Hf. by intros []. Qed.

(** The archive writes persistent storage only. *)
Lemma archive_silent {E} id p env w u w' :
  archive_vote_record (E := E) id p env w = ROk u w' -> silent w w'.
Proof. unfold archive_vote_record, get_abstain_votes. intros H. eapply silent_keeps; [..|exact H]; solve_keeps. Qed.

Lemma archive_total {E} id p env w :
  exists w1, archive_vote_record (E := E) id p env w = ROk tt w1 /\ silent w w1.
Proof.
  assert (H : exists w1, archive_vote_record (E := E) id p env w = ROk tt w1).
  { unfold archive_vote_record, get_abstain_votes, bump_persistent, extend_ttl_persistent,
      bind, phas, sget, ret, pset.
    destruct (is_some (w_persist w (GovKey.VoteRecord id))); [by eexists|].
    unfold put_persist. cbn [w_persist set_persist]. rewrite put_eq. by eexists. }
  destruct H as [w1 H]. exists w1. split; [done|]. by eapply archive_silent.
Qed.

(** ** Cancelling *)

Lemma cancelled_staked w w' id p :
  Staked w -> prop_at w id = Some p -> status p <> Executed ->
  prop_at w' id = Some (with_status Cancelled p) -> frame (others id) w w' -> Staked w'.
Proof.
  intros [Hh Ha] Hp Hne Hp' Hf.
  assert (Hs : forall j, stake_at w' j = stake_at w j).
  { intros j. apply (Hf (GovKey.ProposalStake j)). cbn. tauto. }
  assert (Ht : forall j, stake_token w' j = stake_token w j).
  { intros j. apply (Hf (GovKey.ProposalStakeTokenByProposal j)). cbn. tauto. }
  constructor; intros j; rewrite ?Hs, ?Ht; [|apply Ha].
  rewrite Hh. destruct (decide (j = id)) as [->|Hj].
  - rewrite Hp, Hp'. split; intros _; by eexists.
  - assert (prop_at w' j = prop_at w j) as ->; [|done].
    apply (Hf (GovKey.Proposal j)). cbn. done.
Qed.

Definition is_open (p : Proposal) : Prop := status p = Pending \/ status p = Active.

Lemma not_open_false p : Governor.not_open p = false -> is_open p.
Proof.
  unfold Governor.not_open, is_open. intros H. breflect.
  destruct H as [H|H]; apply bool_decide_eq_false, dec_stable in H; auto.
Qed.

(** What a status change to [new] does to the proposal [id]. *)
Record Transition (id : Z) (p : Proposal) (new : proposal_status) w w' : Prop := {
  tr_before : prop_at w id = Some p;
  tr_open : is_open p;
  tr_after : prop_at w' id = Some (with_status new p);
  tr_others j : j <> id -> prop_at w' j = prop_at w j
}.

Lemma cancel_tail {A} id p env w (k : M GovKey.data_key T GovEvent.gov_event gov_error A) r w' :
  (do! archive_vote_record id p; do! set_proposal_status id Cancelled; k) env w = ROk r w' ->
  proposals_ok w -> prop_at w id = Some p -> is_open p ->
  exists w2, k env w2 = ROk r w' /\ proposals_ok w2 /\ Transition id p Cancelled w w2 /\
    w_tokens w2 = w_tokens w /\ frame (others id) w w2.
Proof.
  intros H HP Hp Ho. apply bind_ok in H as (u1 & w1 & Ha & H). apply archive_silent in Ha as Hs.
  apply bind_ok in H as (b & w2 & Hst & H). exists w2. split; [done|].
  assert (Hp1 : prop_at w1 id = Some p) 
    by (rewrite <- Hp; by apply (silent_store _ _ (GovKey.Proposal id))).
  destruct (silent_ok _ _ Hs HP) as [HI1 HS1]. pose proof (proj2 Hs) as Ht1.
  destruct (status_effect (E := gov_error) id Cancelled env w1 p b w2) as (HI2 & Hp2 & Hf2 & Ht2);
    try done; [by destruct Ho as [-> | ->]|].
  assert (HS2 : Staked w2).
  { eapply cancelled_staked; eauto. by destruct Ho as [-> | ->]. }
  assert (Hf : frame (others id) w w2).
  { etransitivity; [|exact Hf2]. by apply silent_frame. }
  refine (conj (conj HI2 HS2) (conj _ (conj _ Hf))); [|congruence]. constructor; try done.
  intros j Hj. apply (Hf (GovKey.Proposal j)). cbn. done.
Qed.

Lemma cancel_ok caller id env w u w' :
  proposals_ok w -> Governor.cancel_proposal caller id env w = ROk u w' ->
  proposals_ok w' /\ w_tokens w' = w_tokens w /\ frame (others id) w w' /\
  exists p, author p = caller /\ Transition id p Cancelled w w'.
Proof.
  intros HP H. unfold Governor.cancel_proposal in H.
  apply bind_ok in H as (u0 & w0 & Hb & H). injection Hb as _ <-.
  apply bind_ok in H as (o & w1 & Hg & H). injection Hg as <- <-.
  apply bind_ok in H as (p & w1 & Hg & H). apply ok_or_ok in Hg as [Hp ->].
  apply bind_ok in H as (u1 & w1 & Hg & H). apply throw_if_ok in Hg as [Ha ->].
  apply bind_ok in H as (u2 & w1 & Hg & H). apply throw_if_ok in Hg as [Ho%not_open_false ->].
  apply negb_false_iff, addr_eqb_true in Ha.
  eapply cancel_tail in H as (w2 & H & HP2 & Htr & Ht & Hf);
    [|eapply silent_ok; [|exact HP]; done|exact Hp|done].
  injection H as _ <-. refine (conj HP2 (conj Ht (conj Hf _))). exists p. split; [done|].
  destruct Htr. by constructor.
Qed.

Lemma cancel_by_admin_ok caller id h env w u w' :
  proposals_ok w -> Governor.cancel_proposal_by_admin caller id h env w = ROk u w' ->
  proposals_ok w' /\ w_tokens w' = w_tokens w /\ frame (others id) w w' /\
  exists p, Transition id p Cancelled w w'.
Proof.
  intros HP H. unfold Governor.cancel_proposal_by_admin in H.
  apply bind_ok in H as (u0 & w0 & Hr & H). apply silent_keeps in Hr as Hs; [|apply _..].
  apply bind_ok in H as (u1 & w1 & Hb & H). injection Hb as _ <-.
  apply bind_ok in H as (o & w1 & Hg & H). injection Hg as <- <-.
  apply bind_ok in H as (p & w1 & Hg & H). apply ok_or_ok in Hg as [Hp ->].
  apply bind_ok in H as (u2 & w1 & Hg & H). apply throw_if_ok in Hg as [Ho%not_open_false ->].
  eapply cancel_tail in H as (w2 & H & HP2 & Htr & Ht & Hf);
    [|eapply silent_ok; [|by eapply silent_ok]; done|exact Hp|done].
  injection H as H. subst w'. pose proof (proj2 Hs) as Ht0.
  assert (Hfr : frame (others id) w w2).
  { etransitivity; [|exact Hf]. by apply silent_frame. }
  refine (conj _ (conj _ (conj Hfr _))); [by apply (silent_ok w2)|by etransitivity|].
  exists p. destruct Htr. constructor; try done.
  - etransitivity; [symmetry; exact (silent_store w w0 (GovKey.Proposal id) Hs)|exact Hp].
  - intros j Hj. apply (Hfr (GovKey.Proposal j)). cbn. done.
Qed.

(** ** Executing *)

(** What the refund of an open proposal's stake does. *)
Lemma refund_ok id auth env w u w' p :
  proposals_ok w -> prop_at w id = Some p -> is_open p ->
  Governor.refund_proposal_stake id auth env w = ROk u w' ->
  exists a tk t', stake_at w id = Some a /\ stake_token w id = Some tk /\
    tok_transfer (w_tokens w) (call_auth env) tk (current_contract env) auth a = Some t' /\
    w' = put (GovKey.ProposalStakeTokenByProposal id) None
           (put (GovKey.ProposalStake id) None (set_tokens t' w)).
Proof.
  intros [HI HS] Hp Ho H. unfold Governor.refund_proposal_stake in H.
  apply bind_ok in H as (o & w1 & Hg & H). injection Hg as <- <-.
  assert (Hst : is_Some (stake_at w id)).
  { apply (st_held _ HS). exists p. split; [done|]. by destruct Ho as [-> | ->]. }
  destruct Hst as [a Ha]. unfold stake_at in Ha. rewrite Ha in H.
  destruct (st_amount _ HS id a Ha) as [_ [tk Htk]].
  inv_ok. exists a. unfold stake_at, stake_token in *.
  rewrite Htk in *. simplify_eq. eauto 10.
Qed.

(** The supply and the tally the quorum is computed from. *)
Definition supply_of w : Z :=
  match w_store w GovKey.GovernanceSupply with
  | Some s => s
  | None => default 1 (w_store w GovKey.AdminCount : option Z)
  end.

Definition supply_at w (id : Z) : Z :=
  match w_store w (GovKey.ProposalVoteSnapshot id) : option VoteTallySnapshot with
  | Some s => vt_total_supply s
  | None => supply_of w
  end.

Definition votes_cast w (id : Z) (p : Proposal) : Z :=
  sat_u64 (sat_u64 (for_votes p + against_votes p) +
           default 0 (w_store w (GovKey.ProposalAbstainVotes id) : option Z)).

Lemma supply_ok env w s w' : Governor.governance_supply env w = ROk s w' -> s = supply_of w /\ w' = w.
Proof.
  unfold Governor.governance_supply, supply_of. intros H.
  apply bind_ok in H as (o & w1 & Hg & H). injection Hg as <- <-.
  destruct (w_store w GovKey.GovernanceSupply); [by injection H as <- <-|].
  inv_ok. subst. split; [|done]. destruct (w_store w GovKey.AdminCount); done.
Qed.

Lemma threshold_ok s b env w t w' :
  Governor.quorum_threshold (T := T) s b env w = ROk t w' ->
  t = (s * b / 10000) mod (u64_max + 1) /\ w' = w.
Proof.
  unfold Governor.quorum_threshold, checked_u128.
  destruct (checked in_u128 (s * b)) eqn:Hc; [|discriminate].
  apply checked_Some in Hc as [_ ->]. by intros [= <- <-].
Qed.

Lemma has_role_pure k `{!RoleKey k} env w b w' :
  Rbac.has_role (X := GovEvent.gov_event) (T := T) (E := RbacError) k env w = ROk b w' -> w' = w.
Proof. unfold Rbac.has_role. intros H. inv_ok; done. Qed.

Lemma require_role_ok caller r env w u w' :
  Role.require_role caller r env w = ROk u w' ->
  authorized env caller = true /\
  Rbac.has_role (E := RbacError) (GovKey.Role r caller) env w = ROk true w /\
  w' = add_ttl None MIN_TTL_LEDGERS EXTEND_TTL_LEDGERS w.
Proof.
  unfold Role.require_role, map_err. intros H.
  destruct (Rbac.require_role _ _ _ env w) as [u1 w1|e1 w1|tr] eqn:Hr; [|done..].
  injection H as -> ->. unfold Rbac.require_role in Hr.
  apply bind_ok in Hr as (u1 & w1 & Ha & Hr). apply require_auth_ok in Ha as [Ha ->].
  apply bind_ok in Hr as (b & w1 & Hb & Hr). apply has_role_pure in Hb as Heq. subst w1.
  destruct b; [|done]. injection Hr as _ <-. done.
Qed.

(** What executing a proposal requires. *)
Record ExecutionAllowed (executor : Address) (id : Z) (p : Proposal) (g : GovernorConfig) env w
  : Prop := {
  ea_auth : authorized env executor = true;
  ea_role : Rbac.has_role (E := RbacError) (GovKey.Role RoleName.Executor executor) env w =
            ROk true w;
  ea_proposal : prop_at w id = Some p;
  ea_open : is_open p;
  ea_config : config_of w = Some g;
  ea_delay : MIN_EXECUTION_DELAY <= timestamp env - created_at p;
  ea_window : sat_u64 (timestamp env - created_at p) <=
              sat_u64 (execution_window_secs p + MIN_EXECUTION_DELAY);
  ea_quorum : 0 < gc_min_quorum_bps g ->
    (supply_at w id * gc_min_quorum_bps g / 10000) mod (u64_max + 1) <= votes_cast w id p
}.

Lemma indexed_frame w w' :
  (forall id, prop_at w' id = prop_at w id) -> (forall st, index w' st = index w st) ->
  counter w' = counter w -> Indexed w -> Indexed w'.
Proof.
  intros Hp Hi Hc []. constructor; intros; rewrite ?Hc, ?Hi, ?Hp in *; eauto.
Qed.

(** Refund, then mark executed. *)
Lemma execute_tail id env w p u1 w1 b w2 :
  proposals_ok w -> prop_at w id = Some p -> is_open p ->
  Governor.refund_proposal_stake id (author p) env w = ROk u1 w1 ->
  set_proposal_status (E := gov_error) id Executed env w1 = ROk b w2 ->
  proposals_ok w2 /\ Transition id p Executed w w2 /\ counter w2 = counter w /\
  (exists a tk, stake_at w id = Some a /\ stake_token w id = Some tk /\
    tok_transfer (w_tokens w) (call_auth env) tk (current_contract env) (author p) a =
      Some (w_tokens w2)) /\
  stake_at w2 id = None /\
  (forall j, j <> id -> stake_at w2 j = stake_at w j /\ stake_token w2 j = stake_token w j).
Proof.
  intros [HI HS] Hp Ho Hr Hs.
  destruct (refund_ok _ _ _ _ _ _ p (conj HI HS) Hp Ho Hr) as (a & tk & t' & Ha & Htk & Ht & ->).
  set (w1 := put _ None _) in *.
  assert (Hp1 : prop_at w1 id = Some p) by (unfold prop_at, w1; by store_simpl).
  destruct (status_effect (E := gov_error) id Executed env w1 p b w2)
    as (HI2 & Hp2 & Hf2 & Ht2); try done.
  { apply (indexed_frame w); try done; intros; unfold prop_at, index, counter, w1; by store_simpl. }
  { by destruct Ho as [-> | ->]. }
  assert (Hst : forall j, stake_at w2 j = if decide (j = id) then None else stake_at w j).
  { intros j. unfold stake_at. rewrite (Hf2 (GovKey.ProposalStake j)) by (cbn; tauto).
    unfold w1. case_decide; [subst j|]; by store_simpl. }
  assert (Htok : forall j, stake_token w2 j = if decide (j = id) then None else stake_token w j).
  { intros j. unfold stake_token. rewrite (Hf2 (GovKey.ProposalStakeTokenByProposal j)) by (cbn; tauto).
    unfold w1. case_decide; [subst j|]; by store_simpl. }
  assert (Hoth : forall j, j <> id -> prop_at w2 j = prop_at w j).
  { intros j Hj. unfold prop_at. rewrite (Hf2 (GovKey.Proposal j)) by done.
    unfold w1. by store_simpl. }
  split_and!; try done.
  - split; [done|]. constructor.
    + intros j. rewrite Hst. case_decide as Hj; [subst j|rewrite Hoth by done; apply HS].
      rewrite Hp2. split; [by intros [? ?]|by intros (? & [= <-] & [])].
    + intros j x. rewrite Hst, Htok. case_decide; [done|apply HS].
  - unfold counter. rewrite (Hf2 GovKey.ProposalCounter) by (cbn; tauto). unfold w1. by store_simpl.
  - exists a, tk. rewrite Ht2. done.
  - rewrite Hst. by rewrite decide_True.
  - intros j Hj. rewrite Hst, Htok. by rewrite !decide_False.
Qed.

Lemma gov_load_ok env w g w' : load env w = ROk g w' -> config_of w = Some g /\ w' = w.
Proof. rewrite load_eval. destruct (config_of w); [|done]. by intros [= -> ->]. Qed.

(** The guards of [execute_proposal]. *)
Lemma execute_ok executor id env w u w' :
  Governor.execute_proposal executor id env w = ROk u w' ->
  exists p g u1 w1 b, ExecutionAllowed executor id p g env w /\
    Governor.refund_proposal_stake id (author p) env
      (add_ttl None MIN_TTL_LEDGERS EXTEND_TTL_LEDGERS
         (add_ttl None MIN_TTL_LEDGERS EXTEND_TTL_LEDGERS w)) = ROk u1 w1 /\
    set_proposal_status (E := gov_error) id Executed env w1 = ROk b w'.
Proof.
  intros H. unfold Governor.execute_proposal in H.
  apply bind_ok in H as (u0 & w0 & Hr & H). apply require_role_ok in Hr as (Ha & Hrole & ->).
  apply bind_ok in H as (u1 & w1 & Hb & H). injection Hb as _ <-.
  set (w1 := add_ttl None _ _ _) in *.
  apply bind_ok in H as (o & w2 & Hg & H). injection Hg as <- <-.
  apply bind_ok in H as (p & w2 & Hg & H). apply ok_or_ok in Hg as [Hp ->].
  apply bind_ok in H as (u2 & w2 & Hg & H). apply throw_if_ok in Hg as [Ho%not_open_false ->].
  apply bind_ok in H as (now & w2 & Hg & H). injection Hg as <- <-.
  apply bind_ok in H as (u3 & w2 & Hg & H). apply throw_if_ok in Hg as [Hd ->].
  apply bind_ok in H as (u4 & w2 & Hg & H). apply throw_if_ok in Hg as [Hw ->].
  apply bind_ok in H as (g & w2 & Hg & H). apply gov_load_ok in Hg as [Hcfg ->].
  apply bind_ok in H as (u5 & w2 & Hq & H).
  apply bind_ok in H as (u6 & w3 & Hrf & H). apply bind_ok in H as (b & w4 & Hst & H).
  injection H as _ <-.
  assert (Hquorum : w2 = w1 /\ (0 < gc_min_quorum_bps g ->
    (supply_at w id * gc_min_quorum_bps g / 10000) mod (u64_max + 1) <= votes_cast w id p)).
  { destruct (0 <? gc_min_quorum_bps g) eqn:Hpos; [|injection Hq as _ <-; breflect; split; [done|lia]].
    apply bind_ok in Hq as (snap & w5 & Hg & Hq). injection Hg as <- <-.
    apply bind_ok in Hq as (s & w5 & Hg & Hq).
    assert (s = supply_at w id /\ w5 = w1) as [-> ->].
    { unfold supply_at. cbn in Hg. destruct (w_store w (GovKey.ProposalVoteSnapshot id)).
      - by injection Hg as <- <-.
      - by apply supply_ok in Hg as [-> ->]. }
    clear Hg. apply bind_ok in Hq as (th & w5 & Hg & Hq). apply threshold_ok in Hg as [-> ->].
    apply bind_ok in Hq as (ab & w5 & Hg & Hq). injection Hg as <- <-.
    apply throw_if_ok in Hq as [Hv ->]. breflect. split; [done|]. intros _. exact Hv. }
  destruct Hquorum as [-> Hquorum].
  exists p, g, u6, w3, b. split; [|done]. breflect. constructor; try done.
  unfold MIN_EXECUTION_DELAY in *. mlia.
Qed.

(** ** Proposing *)

Record Proposed (caller : Address) (window : Z) (id amt : Z) (tk : Address) env w w' : Prop := {
  pr_auth : authorized env caller = true;
  pr_amt : 0 < amt;
  pr_id : id = counter w + 1 /\ id <= u64_max;
  pr_paid : tok_transfer (w_tokens w) (call_auth env) tk caller (current_contract env) amt =
            Some (w_tokens w');
  pr_prop j : prop_at w' j =
    if decide (j = id)
    then Some (mkProposal caller (timestamp env) (sequence env) window Pending 0 0)
    else prop_at w j;
  pr_index st : index w' st = if decide (st = Pending) then index w Pending ++ [id]
                              else index w st;
  pr_counter : counter w' = id;
  pr_stake j : stake_at w' j = if decide (j = id) then Some amt else stake_at w j;
  pr_token j : stake_token w' j = if decide (j = id) then Some tk else stake_token w j
}.

Lemma u64_op_val (z : Z) env w r w' :
  u64_op (K := GovKey.data_key) (T := T) (X := GovEvent.gov_event) (E := gov_error) z env w = ROk r w' ->
  z <= u64_max /\ r = z /\ w' = w.
Proof. intros H%u64_op_ok. destruct H as (H & -> & ->). split; [mlia|done]. Qed.

Lemma propose_ok caller window env w id w' :
  Indexed w -> Governor.propose caller window env w = ROk id w' ->
  exists amt tk, Proposed caller window id amt tk env w w'.
Proof.
  intros HI H. unfold Governor.propose in H.
  apply bind_ok in H as (u0 & w0 & Hr & H). apply require_role_ok in Hr as (Ha & _ & ->).
  apply bind_ok in H as (u1 & w1 & Hg & H). apply throw_if_ok in Hg as [_ ->].
  apply bind_ok in H as (g & w1 & Hg & H). apply gov_load_ok in Hg as [_ ->].
  apply bind_ok in H as (tk & w1 & Hg & H). apply ok_or_ok in Hg as [Htk ->].
  destruct (0 <? gc_min_proposal_stake g) eqn:Hpos; [|done]. breflect.
  apply bind_ok in H as (self & w1 & Hg & H). injection Hg as <- <-.
  apply bind_ok in H as (u2 & w1 & Hg & H). apply token_transfer_ok in Hg as (t1 & Ht & ->).
  apply bind_ok in H as (u3 & w1 & Hg & H). injection Hg as _ <-.
  apply bind_ok in H as (o & w1 & Hg & H). injection Hg as <- <-.
  apply bind_ok in H as (i & w1 & Hg & H). apply u64_op_val in Hg as (Hi & -> & ->).
  apply bind_ok in H as (seq & w1 & Hg & H). injection Hg as <- <-.
  apply bind_ok in H as (sup & w1 & Hg & H). apply supply_ok in Hg as [_ ->].
  apply bind_ok in H as (now & w1 & Hg & H). injection Hg as <- <-.
  cbn [w_store set_tokens add_ttl] in H, Hi. fold (counter w) in H, Hi.
  set (id0 := counter w + 1) in *.
  assert (Hl : listed id0 (index w Pending) = false).
  { apply not_true_iff_false. rewrite listed_spec, (ix_index _ HI).
    intros (p & Hp & _). assert (1 <= id0 <= counter w) by (apply (ix_known _ HI); by eexists). lia. }
  unfold add_proposal_to_status_index, set_proposal_snapshot_ledger, save_vote_tally_snapshot in H.
  do 5 (apply bind_ok in H as (? & ? & Hg & H); injection Hg as _ <-).
  apply bind_ok in H as (u5 & w5 & Hadd & H).
  apply bind_ok in Hadd as (o & w6 & Hg & Hadd). injection Hg as <- <-.
  store_simpl_in Hadd. fold (index w Pending) in Hadd. rewrite Hl in Hadd. injection Hadd as _ <-.
  do 2 (apply bind_ok in H as (? & ? & Hg & H); injection Hg as _ <-). injection H as <- <-.
  exists (gc_min_proposal_stake g), tk. constructor; try done.
  - intros j. unfold prop_at. case_decide; [subst j|]; by store_simpl.
  - intros st. unfold index. case_decide; [subst st|]; by store_simpl.
  - intros j. unfold stake_at. case_decide; [subst j|]; by store_simpl.
  - intros j. unfold stake_token. case_decide; [subst j|]; by store_simpl.
Qed.

Lemma proposed_ok caller window id amt tk env w w' :
  proposals_ok w -> Proposed caller window id amt tk env w w' -> proposals_ok w'.
Proof.
  intros [[Hc Hk Hn Hi] [Hh Ha]] [_ Hamt [Hid Hmax] _ Hp Hix Hcnt Hs Ht].
  assert (Hnew : prop_at w id = None).
  { destruct (prop_at w id) eqn:He; [|done].
    assert (1 <= id <= counter w) by (apply Hk; by eexists). lia. }
  split; constructor.
  - rewrite Hcnt. lia.
  - intros j. rewrite Hcnt, Hp. case_decide as Hj; [subst j; split; [lia|by eexists]|].
    rewrite Hk. lia.
  - intros st. rewrite Hix. case_decide; [|apply Hn]. apply NoDup_app.
    split_and!; [apply Hn| |apply NoDup_singleton].
    intros x Hx ->%list_elem_of_singleton. apply Hi in Hx as (p & ? & _). congruence.
  - intros st j. rewrite Hix, Hp. case_decide as Hst; [subst st|].
    + rewrite elem_of_app, list_elem_of_singleton, Hi. case_decide as Hj; [subst j|naive_solver].
      split; [intros _; by eexists|by right].
    + rewrite Hi. case_decide as Hj; [subst j|done]. rewrite Hnew. naive_solver.
  - intros j. rewrite Hs, Hp. case_decide as Hj; [|apply Hh]. split; [intros _|by eexists].
    eexists. split; [done|]. done.
  - intros j x. rewrite Hs, Ht. case_decide as Hj; [|apply Ha]. intros [= <-]. by split; [|eexists].
Qed.

(** ** The escrow *)

(** What proposal [id] has at stake in token [tk], and the total. *)
Definition stake_in w (tk : Address) (id : Z) : Z :=
  match stake_at w id, stake_token w id with
  | Some a, Some t => if addr_eqb t tk then a else 0
  | _, _ => 0
  end.

Definition staked w (tk : Address) : Z := zsum (stake_in w tk) (seqZ 1 (counter w)).

Definition covered self w : Prop := forall tk b,
  tok_balance (w_tokens w) tk self = Some b -> staked w tk <= b.

Lemma staked_frame w w' tk : frame (off PProposals) w w' -> staked w' tk = staked w tk.
Proof.
  intros Hf. unfold staked, counter. rewrite (Hf GovKey.ProposalCounter) by (unfold off; cbn; tauto).
  apply zsum_ext. intros i _. unfold stake_in, stake_at, stake_token.
  rewrite (Hf (GovKey.ProposalStake i)), (Hf (GovKey.ProposalStakeTokenByProposal i))
    by (unfold off; cbn; tauto). done.
Qed.

Lemma staked_others w w' id tk : frame (others id) w w' -> staked w' tk = staked w tk.
Proof.
  intros Hf. unfold staked, counter. rewrite (Hf GovKey.ProposalCounter) by (cbn; tauto).
  apply zsum_ext. intros i _. unfold stake_in, stake_at, stake_token.
  rewrite (Hf (GovKey.ProposalStake i)), (Hf (GovKey.ProposalStakeTokenByProposal i))
    by (cbn; tauto). done.
Qed.

Lemma staked_proposed caller window id amt tk env w w' tk' :
  0 <= counter w -> Proposed caller window id amt tk env w w' ->
  staked w' tk' = staked w tk' + (if addr_eqb tk tk' then amt else 0).
Proof.
  intros Hc [_ _ [Hid _] _ _ _ Hcnt Hs Ht]. unfold staked. rewrite Hcnt, Hid.
  rewrite seqZ_app, zsum_app by lia. f_equal.
  - apply zsum_ext. intros i Hi%elem_of_seqZ. unfold stake_in. rewrite Hs, Ht.
    by rewrite !decide_False by lia.
  - assert (seqZ (1 + counter w) 1 = [id]) as ->.
    { rewrite seqZ_cons, seqZ_nil by lia. f_equal. lia. }
    assert (H0 : stake_in w' tk' id = if addr_eqb tk tk' then amt else 0).
    { unfold stake_in. by rewrite Hs, Ht, !decide_True by done. }
    cbn. rewrite H0. lia.
Qed.

Lemma staked_executed w w' id a tk tk' :
  1 <= id <= counter w -> counter w' = counter w ->
  stake_at w id = Some a -> stake_token w id = Some tk -> stake_at w' id = None ->
  (forall j, j <> id -> stake_at w' j = stake_at w j /\ stake_token w' j = stake_token w j) ->
  staked w' tk' = staked w tk' - (if addr_eqb tk tk' then a else 0).
Proof.
  intros Hid Hcnt Ha Htk Hn Ho. unfold staked. rewrite Hcnt.
  assert (H0 : stake_in w' tk' id = 0) by (unfold stake_in; by rewrite Hn).
  assert (H1 : stake_in w tk' id = if addr_eqb tk tk' then a else 0)
    by (unfold stake_in; by rewrite Ha, Htk).
  rewrite (zsum_update (stake_in w' tk') (stake_in w tk') _ id).
  - rewrite H0, H1. lia.
  - apply NoDup_seqZ.
  - apply elem_of_seqZ. lia.
  - intros j Hj. unfold stake_in. by destruct (Ho j Hj) as [-> ->].
Qed.

Definition moves_tokens c : bool :=
  match c with
  | PauseFactory _ | UnpauseFactory _ | Propose _ _ | ExecuteProposal _ _ => true
  | _ => false
  end.

Lemma exec_tokens c : moves_tokens c = false -> Keeps (same_tokens (T := T)) (exec c).
Proof. destruct c; intros Hm; try discriminate Hm; clear Hm; solve_frame. Qed.

Section Escrow.
Context `{TL : !TokenLaws T} `{FL : !FactoryLaws T}.

Definition escrow_ok self w : Prop := proposals_ok w /\ covered self w.

Lemma factory_covered self env w name factory r w' :
  GovEnv self env -> Governor.try_factory factory name env w = ROk r w' ->
  escrow_ok self w -> escrow_ok self w'.
Proof.
  intros He H [HP HC]. unfold Governor.try_factory in H. rewrite (env_self _ _ He) in H.
  destruct (factory_call _ _ _ _) as [t'|] eqn:Hf; injection H as _ <-; [|done].
  split.
  - by apply (proposals_frames w).
  - intros tk b' Hb. destruct (factory_call_balance _ _ _ _ _ _ _ Hf Hb) as (b & Hb0 & Hle).
    specialize (HC tk b Hb0). rewrite (staked_frame w) by done. lia.
Qed.

Lemma silent_escrow self w w' : silent w w' -> escrow_ok self w -> escrow_ok self w'.
Proof.
  intros Hs [HP HC]. split; [by eapply silent_ok|]. intros tk b.
  rewrite (proj2 Hs), (staked_frame w) by by apply silent_frame. apply HC.
Qed.

Lemma factory_escrow self env w caller name ev u w' :
  GovEnv self env ->
  (do! Role.require_role_or_admin caller RoleName.Pauser;
   let! stored := sget GovKey.FactoryAddress in
   let! factory := ok_or stored NotInitialized in
   let! result := Governor.try_factory factory name in
   if result then let! now := ledger_timestamp in publish (ev caller now)
   else throw FactoryCallFailed) env w = ROk u w' ->
  escrow_ok self w -> escrow_ok self w'.
Proof.
  intros He H HE. apply bind_ok in H as (u0 & w0 & Hr & H).
  apply (silent_escrow _ _ _ (silent_keeps _ _ _ _ _ Hr)) in HE.
  apply bind_ok in H as (o & w1 & Hg & H). injection Hg as <- <-.
  apply bind_ok in H as (f & w1 & Hg & H). apply ok_or_ok in Hg as [_ ->].
  apply bind_ok in H as (r & w1 & Hf & H). apply (factory_covered self) in Hf; [|done..].
  destruct r; [|done]. injection H as _ <-. by apply (silent_escrow self w1).
Qed.

Lemma propose_escrow self env caller window w id w' :
  GovEnv self env -> Governor.propose caller window env w = ROk id w' ->
  escrow_ok self w -> escrow_ok self w'.
Proof.
  intros He H [HP HC]. destruct (propose_ok _ _ _ _ _ _ (proj1 HP) H) as (amt & tk & Hpr).
  split; [by eapply proposed_ok|]. intros tk' b' Hb.
  rewrite (staked_proposed _ _ _ _ _ _ _ _ _ (proj1 (ix_counter _ (proj1 HP))) Hpr).
  destruct Hpr as [Ha _ _ Ht _ _ _ _ _]. rewrite (env_self _ _ He) in Ht.
  assert (Hne : self <> caller) by (intros <-; rewrite (env_unsigned _ _ He) in Ha; done).
  destruct (addr_eqb tk tk') eqn:Htk.
  - apply addr_eqb_true in Htk as <-. destruct (tok_transfer_defined _ _ _ _ _ _ _ _ _ Ht Hb) as [b Hb0].
    pose proof (tok_transfer_balance _ _ _ _ _ _ _ _ _ Ht Hb0) as Hb1. rewrite Hb in Hb1.
    injection Hb1 as ->. specialize (HC tk b Hb0).
    rewrite addr_eqb_refl, (proj2 (addr_eqb_false self caller)) by done. lia.
  - apply addr_eqb_false in Htk. rewrite (tok_transfer_other _ _ _ _ _ _ _ _ _ Ht) in Hb by done.
    specialize (HC tk' b' Hb). lia.
Qed.

Lemma execute_escrow self env executor id w u w' :
  GovEnv self env -> Governor.execute_proposal executor id env w = ROk u w' ->
  escrow_ok self w -> escrow_ok self w'.
Proof.
  intros He H HE. destruct (execute_ok _ _ _ _ _ _ H) as (p & g & u1 & w1 & b1 & [] & Hr & Hs).
  set (w0 := add_ttl None _ _ (add_ttl None _ _ w)) in *.
  apply (silent_escrow self w w0) in HE; [|done]. destruct HE as [HP HC].
  destruct (execute_tail id env w0 p u1 w1 b1 w' HP) as (HP' & Htr & Hcnt & Hx & Hn & Ho);
    [done..|]. destruct Hx as (a & tk & Ha & Htk & Ht).
  split; [done|]. intros tk' b' Hb.
  assert (Hid : 1 <= id <= counter w0) by (apply (ix_known _ (proj1 HP)); by eexists).
  rewrite (staked_executed w0 w' id a tk tk' Hid Hcnt Ha Htk Hn Ho).
  rewrite (env_self _ _ He) in Ht. pose proof (tok_transfer_amount _ _ _ _ _ _ _ Ht).
  destruct (addr_eqb tk tk') eqn:Hk.
  - apply addr_eqb_true in Hk as <-. destruct (tok_transfer_defined _ _ _ _ _ _ _ _ _ Ht Hb) as [b Hb0].
    pose proof (tok_transfer_balance _ _ _ _ _ _ _ _ _ Ht Hb0) as Hb1. rewrite Hb in Hb1.
    injection Hb1 as ->. specialize (HC tk b Hb0). rewrite addr_eqb_refl.
    destruct (addr_eqb self (author p)); lia.
  - apply addr_eqb_false in Hk. rewrite (tok_transfer_other _ _ _ _ _ _ _ _ _ Ht) in Hb by done.
    specialize (HC tk' b' Hb). lia.
Qed.

Lemma exec_escrow self env c w u w' :
  GovEnv self env -> exec c env w = ROk u w' -> escrow_ok self w -> escrow_ok self w'.
Proof.
  intros He H HE. destruct (moves_tokens c) eqn:Hm.
  - destruct c; try discriminate Hm; cbn [exec] in H.
    + exact (factory_escrow _ _ _ _ _ _ _ _ He H HE).
    + exact (factory_escrow _ _ _ _ _ _ _ _ He H HE).
    + apply bind_ok in H as (id & w1 & H & Hr). injection Hr as _ <-. by eapply propose_escrow.
    + by eapply execute_escrow.
  - pose proof (keeps_ok (Keeps0 := exec_tokens c Hm) _ _ _ _ _ _ H) as Ht.
    destruct HE as [HP HC]. destruct (writes c PProposals) eqn:Hw.
    + assert (Hx : proposals_ok w' /\ exists id, frame (others id) w w').
      { destruct c; try discriminate Hm; try discriminate Hw; cbn [exec] in H.
        - destruct (cancel_ok _ _ _ _ _ _ HP H) as (? & _ & ? & _). eauto.
        - destruct (cancel_by_admin_ok _ _ _ _ _ _ _ HP H) as (? & _ & ? & _). eauto. }
      destruct Hx as (HP' & id & Hf). split; [done|]. intros tk b.
      rewrite Ht, (staked_others w w' id) by done. apply HC.
    + pose proof (keeps_ok (Keeps0 := exec_frame_proposals c Hw) _ _ _ _ _ _ H) as Hf.
      split; [by eapply proposals_frames|]. intros tk b. rewrite Ht, (staked_frame w) by done. apply HC.
Qed.

Lemma init_escrow self env w0 a f x w :
  fresh w0 -> Governor.initialize a f x env w0 = ROk tt w -> escrow_ok self w.
Proof.
  intros [Hf _] H. unfold Governor.initialize in H.
  assert (Hfr : frame (off PProposals) w0 w) by (revert H; apply keeps_ok; solve_keeps).
  assert (HP : proposals_ok w0).
  { assert (Hc : counter w0 = 0) by (unfold counter; by rewrite Hf).
    assert (Hp : forall id, prop_at w0 id = None) by (intros; unfold prop_at; by rewrite Hf).
    assert (Hs : forall id, stake_at w0 id = None) by (intros; unfold stake_at; by rewrite Hf).
    assert (Hi : forall st, index w0 st = []) by (intros; unfold index; by rewrite Hf).
    split; constructor; intros *; rewrite ?Hc, ?Hp, ?Hs, ?Hi.
    - mlia.
    - split; [by intros [? ?]|lia].
    - apply NoDup_nil. constructor.
    - rewrite elem_of_nil. split; [done|]. by intros (p & [=] & _).
    - split; [by intros [? ?]|]. by intros (p & [=] & _).
    - done. }
  split; [by eapply proposals_frames|]. intros tk b Hb.
  rewrite (staked_frame w0) by done. unfold staked, counter. rewrite Hf. cbn.
  apply (tok_balance_range _ _ _ _ Hb).
Qed.

Lemma reachable_escrow self n w : reachable self n w -> escrow_ok self w.
Proof.
  apply reachable_invariant; clear w.
  - intros * Hf _. by apply init_escrow.
  - intros w env c w' HE He _ H. by eapply exec_escrow.
  - intros w tokens [HP HC] Ht. split; [by apply (proposals_frames w)|].
    intros tk b' Hb. destruct (Ht _ _ Hb) as (b & Hb0 & Hle). rewrite (staked_frame w) by done.
    specialize (HC tk b Hb0). lia.
Qed.

(** The stakes of the proposals are always covered. In every world a governor
    can reach, and for every token, the governor's balance is at least the sum
    of the stakes it has recorded in that token, so the refund of an executed
    proposal can always be paid and never out of another proposal's stake. *)
Theorem stakes_always_covered self n w tk b :
  reachable self n w -> tok_balance (w_tokens w) tk self = Some b -> staked w tk <= b.
Proof. intros H. apply (reachable_escrow _ _ _ H). Qed.

(** The status index never drifts from the proposals. In every world a
    governor can reach, [proposals_by_status] lists without repetition exactly
    the proposals whose record has that status, and the proposals are the
    numbers from one to the counter. *)
Theorem proposal_index_exact self n w env st :
  reachable self n w ->
  exists ids, Governor.list_proposals_by_status st env w = ROk ids w /\ NoDup ids /\
    forall id,
      (id ∈ ids <-> exists p, Governor.get_proposal id env w = ROk p w /\ status p = st) /\
      (1 <= id <= counter w <-> exists p, Governor.get_proposal id env w = ROk p w).
Proof.
  intros H. destruct (reachable_escrow _ _ _ H) as [[[] _] _].
  assert (Hget : forall id p, Governor.get_proposal id env w = ROk p w <-> prop_at w id = Some p).
  { intros id p. unfold Governor.get_proposal, prop_at, bind, sget.
    destruct (w_store w (GovKey.Proposal id)); cbn; split; intros [=]; by subst. }
  exists (index w st). split_and!; [done|done|]. intros id. setoid_rewrite Hget.
  split; [done|]. rewrite <- ix_known0. done.
Qed.

(** *** Votes

    The source leaves the recording of a ballot undefined ([cast_ballot]), so
    no modelled call writes a vote. What the execution promises is stated for
    whatever votes may have been recorded: [tallied w0 w] says [w] is [w0]
    with any number of for, against and abstain votes on each proposal. *)






(** The life of a proposal is one way. Whatever call succeeds, an existing
    proposal is either left as it is or, if it was still open, closed once by
    the execution or by one of the two cancellations, which change its status
    and nothing else; executed and cancelled proposals never change again. *)
Theorem proposals_are_final self n w c env w' id p :
  reachable self n w -> exec c env w = ROk tt w' -> prop_at w id = Some p ->
  prop_at w' id = Some p \/
  (is_open p /\
   match c with
   | ExecuteProposal _ i => i = id /\ prop_at w' id = Some (with_status Executed p)
   | CancelProposal a i =>
       i = id /\ a = author p /\ prop_at w' id = Some (with_status Cancelled p)
   | CancelProposalByAdmin _ i _ => i = id /\ prop_at w' id = Some (with_status Cancelled p)
   | _ => False
   end).
Proof.
  intros Hre H Hp. destruct (reachable_escrow _ _ _ Hre) as [HP _].
  destruct (writes c PProposals) eqn:Hw.
  2: { left. pose proof (keeps_ok (Keeps0 := exec_frame_proposals c Hw) _ _ _ _ _ _ H) as Hf.
       rewrite <- Hp. apply (Hf (GovKey.Proposal id)). unfold off. cbn. tauto. }
  destruct c; try discriminate Hw; cbn [exec] in H.
  - apply bind_ok in H as (i & w1 & H & Hr). injection Hr as <-. left.
    destruct (propose_ok _ _ _ _ _ _ (proj1 HP) H) as (amt & tk & []).
    rewrite pr_prop0, decide_False; [done|]. intros ->.
    assert (1 <= i <= counter w) by (apply (ix_known _ (proj1 HP)); by eexists). lia.
  - destruct (execute_ok _ _ _ _ _ _ H) as (q & g & u1 & w1 & b1 & HA & Hr & Hs).
    set (w0 := add_ttl None _ _ (add_ttl None _ _ w)) in *.
    apply (silent_ok w w0) in HP; [|done].
    destruct (execute_tail proposal_id env w0 q u1 w1 b1 w' HP) as (_ & [Hq Hop Hq' Ho] & _);
      [apply HA|apply HA|done|done|].
    destruct (decide (id = proposal_id)) as [->|Hne]; [right|left; by rewrite Ho].
    assert (q = p) as -> by (cut (Some q = Some p); [congruence|]; by rewrite <- Hq, <- Hp). done.
  - destruct (cancel_ok _ _ _ _ _ _ HP H) as (_ & _ & _ & q & Ha & [Hq Hop Hq' Ho]).
    destruct (decide (id = proposal_id)) as [->|Hne]; [right|left; by rewrite Ho].
    assert (q = p) as -> by congruence. done.
  - destruct (cancel_by_admin_ok _ _ _ _ _ _ _ HP H) as (_ & _ & _ & q & [Hq Hop Hq' Ho]).
    destruct (decide (id = proposal_id)) as [->|Hne]; [right|left; by rewrite Ho].
    assert (q = p) as -> by congruence. done.
Qed.

(** Cancelling as the author takes no signature: anyone can name the author. *)
Theorem cancel_needs_no_signature self n w id p env :
  reachable self n w -> prop_at w id = Some p -> is_open p ->
  exists w', Governor.cancel_proposal (author p) id env w = ROk tt w'.
Proof.
  intros Hre Hp Ho. destruct (reachable_escrow _ _ _ Hre) as [HP _].
  unfold Governor.cancel_proposal. erewrite bind_run by reflexivity.
  erewrite bind_run by reflexivity. unfold prop_at in Hp. cbn [w_store add_ttl]. rewrite Hp.
  erewrite bind_run by reflexivity. rewrite bind_throw_if, addr_eqb_refl. cbn [negb].
  rewrite bind_throw_if.
  assert (Governor.not_open p = false) as ->.
  { unfold Governor.not_open. by destruct Ho as [-> | ->]. }
  set (w0 := add_ttl None _ _ w). destruct (archive_total (E := gov_error) id p env w0) as (w1 & H1 & Hs).
  erewrite bind_run by exact H1.
  assert (HP1 : proposals_ok w1) by (eapply silent_ok; [exact Hs|]; by apply (silent_ok w)).
  assert (Hp1 : prop_at w1 id = Some p).
  { rewrite <- Hp. exact (silent_store w0 w1 (GovKey.Proposal id) Hs). }
  destruct (set_status_run (E := gov_error) id Cancelled env w1 p (proj1 HP1) Hp1)
    as (w2 & H2 & _); [by destruct Ho as [-> | ->]|].
  erewrite bind_run by exact H2. by eexists.
Qed.

(** The stake of a cancelled proposal stays recorded and no execution returns it. *)
Theorem cancelled_stake_is_locked self n w id p :
  reachable self n w -> prop_at w id = Some p -> status p = Cancelled ->
  is_Some (stake_at w id) /\
  forall executor env w', Governor.execute_proposal executor id env w <> ROk tt w'.
Proof.
  intros Hre Hp Hst. destruct (reachable_escrow _ _ _ Hre) as [[_ HS] _]. split.
  - apply (st_held _ HS). exists p. by rewrite Hst.
  - intros executor env w' H. destruct (execute_ok _ _ _ _ _ _ H) as (q & g & u1 & w1 & b1 & [] & _).
    assert (q = p) as -> by congruence. unfold is_open in *. rewrite Hst in *. by destruct ea_open0.
Qed.

End Escrow.

End Proposals.
