(* ===== verification/GovernorVotes.v ===== *)
(** * DripGovernor: voting-weight checkpoints

    The weight read for a past ledger, and the guarantee that recording a
    checkpoint never rewrites it. *)

From stdpp Require Import base numbers list option strings.
From Stdlib Require Import ZArith Lia String.
From S2P Require Import Prelude Host Ttl Pause Rbac Frame GovernorData GovernorStore.
From S2P Require Import GovernorOps GovernorSystem.

#[local] Open Scope Z_scope.
#[local] Open Scope sf_scope.

(** The keys other than the checkpoints. *)
Definition not_checkpoints (k : GovKey.data_key) : Prop :=
  match k with GovKey.VoteCheckpoints _ => False | _ => True end.

#[export] Hint Extern 1 (InFrame not_checkpoints _) => exact I : typeclass_instances.

(** ** The scan *)

Lemma matched_snoc l cp snapshot m :
  snapshot < cp_ledger cp -> matched_weight (l ++ [cp]) snapshot m = matched_weight l snapshot m.
Proof.
  intros H. revert m. induction l as [|x l IH]; intros m; cbn.
  - destruct (cp_ledger cp <=? snapshot) eqn:Hc; [breflect; lia|done].
  - by destruct (cp_ledger x <=? snapshot).
Qed.

Lemma matched_all l cp snapshot m :
  Forall (fun x => cp_ledger x <= snapshot) l -> cp_ledger cp <= snapshot ->
  matched_weight (l ++ [cp]) snapshot m = cp_weight cp.
Proof.
  intros Hl Hc. revert m. induction Hl as [|x l Hx Hl IH]; intros m; cbn.
  - by rewrite (proj2 (Z.leb_le _ _) Hc).
  - rewrite (proj2 (Z.leb_le _ _) Hx). apply IH.
Qed.

Lemma push_shape ledger weight l :
  exists l0, push_checkpoint ledger weight l = l0 ++ [mkBalanceCheckpoint ledger weight] /\
    (l = l0 \/ exists x, l = l0 ++ [x] /\ ledger <= cp_ledger x).
Proof.
  unfold push_checkpoint. destruct (last l) as [x|] eqn:Hl; [|exists l; auto].
  destruct (ledger <=? cp_ledger x) eqn:Hc; [|exists l; auto]. breflect.
  apply last_Some in Hl as [l0 ->]. exists l0. split; [|right; by exists x].
  rewrite length_app. cbn. replace (List.length l0 + 1 - 1)%nat with (List.length l0 + 0)%nat by lia.
  by rewrite insert_app_r.
Qed.

(** Recording at [ledger] changes the reads at [ledger] and later only. *)
Lemma push_matched ledger weight l snapshot n :
  Forall (fun x => cp_ledger x <= n) l -> n <= ledger ->
  matched_weight (push_checkpoint ledger weight l) snapshot 0 =
  if ledger <=? snapshot then weight else matched_weight l snapshot 0.
Proof.
  intros Hl Hn. destruct (push_shape ledger weight l) as (l0 & -> & Hsh).
  destruct (ledger <=? snapshot) eqn:Hc; breflect.
  - rewrite matched_all; [done| |done].
    assert (Hl0 : Forall (fun x => cp_ledger x <= n) l0).
    { destruct Hsh as [<-|(x & -> & _)]; [done|]. by apply Forall_app in Hl as [? _]. }
    eapply Forall_impl; [exact Hl0|]. cbn. lia.
  - rewrite matched_snoc by done. destruct Hsh as [<-|(x & -> & Hx)]; [done|].
    by rewrite matched_snoc by lia.
Qed.

Lemma push_bound ledger weight l n :
  Forall (fun x => cp_ledger x <= n) l -> n <= ledger ->
  Forall (fun x => cp_ledger x <= ledger) (push_checkpoint ledger weight l).
Proof.
  intros Hl Hn. destruct (push_shape ledger weight l) as (l0 & -> & Hsh).
  apply Forall_app. split; [|by constructor].
  assert (Hl0 : Forall (fun x => cp_ledger x <= n) l0).
  { destruct Hsh as [<-|(x & -> & _)]; [done|]. by apply Forall_app in Hl as [? _]. }
  eapply Forall_impl; [exact Hl0|]. cbn. lia.
Qed.

Section Votes.
Context {T : Type} `{TC : TokenClient T} `{FC : FactoryClient T}.
Abbreviation GWorld := (World GovKey.data_key T GovEvent.gov_event).
Implicit Types (w : GWorld) (c : call).

Definition checkpoints w (a : Address) : list BalanceCheckpoint :=
  default [] (w_persist w (GovKey.VoteCheckpoints a)).

Lemma prior_votes_eval a L env w :
  Governor.get_prior_votes a L env w = ROk (matched_weight (checkpoints w a) L 0) w.
Proof.
  unfold Governor.get_prior_votes, get_checkpoint_weight, checkpoints, bind, pget, sget, ret.
  destruct (w_persist w (GovKey.VoteCheckpoints a)) as [cps|]; [done|]. cbn.
  by destruct (default false _).
Qed.

Lemma exec_pframe c :
  match c with CheckpointBalance _ _ _ => False | _ => True end ->
  Keeps (pframe (T := T) not_checkpoints) (exec c).
Proof. destruct c; intros Hc; try done; clear Hc; solve_frame. Qed.

Lemma checkpoint_effect caller voter v env w u w' :
  Governor.checkpoint_balance caller voter v env w = ROk u w' ->
  forall a, checkpoints w' a =
    if decide (a = voter) then push_checkpoint (sequence env) v (checkpoints w voter)
    else checkpoints w a.
Proof.
  intros H. unfold Governor.checkpoint_balance, record_checkpoint, record_checkpoint_at in H.
  apply bind_ok in H as (u1 & w1 & Hr & H).
  assert (Hf : pframe not_checkpoints w w1) by (revert Hr; apply keeps_ok; apply _).
  assert (H0 : forall a, checkpoints w1 a = checkpoints w a) by
    (intros a; unfold checkpoints; by rewrite (Hf (GovKey.VoteCheckpoints a)) by (cbn; tauto)).
  apply bind_ok in H as (u2 & w2 & Hb & H). injection Hb as _ <-.
  apply bind_ok in H as (seq & w2 & Hb & H). injection Hb as <- <-.
  apply bind_ok in H as (u3 & w2 & Hb & H). injection Hb as _ <-.
  apply bind_ok in H as (o & w2 & Hb & H). injection Hb as <- <-.
  apply bind_ok in H as (u4 & w2 & Hb & H). injection Hb as _ <-.
  unfold bump_persistent, extend_ttl_persistent in H.
  destruct (is_some _); [|done]. injection H as _ <-.
  intros a. rewrite <- !H0. unfold checkpoints. unfold put_persist. cbn [w_persist set_persist add_ttl].
  case_decide as Ha; [subst a; by rewrite put_eq|]. rewrite put_ne by congruence. done.
Qed.

Definition dated (n : Z) w : Prop := forall a, Forall (fun x => cp_ledger x <= n) (checkpoints w a).

Lemma dated_frame n n' w w' :
  pframe not_checkpoints w w' -> n <= n' -> dated n w -> dated n' w'.
Proof.
  intros Hf Hn Hd a. unfold checkpoints.
  rewrite (Hf (GovKey.VoteCheckpoints a)) by (cbn; tauto).
  eapply Forall_impl; [apply Hd|]. cbn. lia.
Qed.

Lemma exec_dated n c env w u w' :
  exec c env w = ROk u w' -> n <= sequence env -> dated n w -> dated (sequence env) w'.
Proof.
  intros H Hn Hd.
  assert (Hc : (exists a v b, c = CheckpointBalance a v b) \/
               match c with CheckpointBalance _ _ _ => False | _ => True end)
    by (destruct c; eauto).
  destruct Hc as [(caller & voter & v & ->)|Hc].
  - intros a. rewrite (checkpoint_effect _ _ _ _ _ _ _ H). case_decide; [by eapply push_bound|].
    eapply Forall_impl; [apply Hd|]. cbn. lia.
  - eapply dated_frame; [exact (keeps_ok (Keeps0 := exec_pframe c Hc) _ _ _ _ _ _ H)|done|done].
Qed.

Lemma reachable_dated self n w : reachable self n w -> dated n w.
Proof.
  induction 1 as [env w0 a f x w [Hf Hp] He H|n w env c r w' Hr IH Hle He Ht Hi|]; [| |done].
  - assert (Hfr : pframe not_checkpoints w0 w).
    { revert H. unfold Governor.initialize. apply keeps_ok; solve_keeps. }
    eapply (dated_frame (sequence env)); [exact Hfr|lia|]. intros b. unfold checkpoints.
    by rewrite Hp.
  - unfold invoke in Hi. destruct (exec c env w) as [u w1|e w1|tr] eqn:Hx; injection Hi as _ <-.
    + by eapply exec_dated.
    + by eapply dated_frame.
    + by eapply dated_frame.
Qed.

(** Voting weights cannot be rewritten after the fact. Whatever call succeeds
    in a reachable governor, the weight read for any account at any ledger is
    what it was before, except that recording a checkpoint sets the weight of
    that one account from the current ledger on: the weight at a proposal's
    earlier snapshot ledger is frozen. *)
Theorem past_votes_are_frozen self n w c env w' :
  reachable self n w -> n <= sequence env -> exec c env w = ROk tt w' ->
  forall a L env', exists old,
    Governor.get_prior_votes a L env' w = ROk old w /\
    Governor.get_prior_votes a L env' w' =
      ROk (match c with
           | CheckpointBalance _ voter v =>
               if addr_eqb a voter && (sequence env <=? L) then v else old
           | _ => old
           end) w'.
Proof.
  intros Hr Hn H a L env'. apply reachable_dated in Hr as Hd.
  eexists. split; [apply prior_votes_eval|]. rewrite prior_votes_eval. f_equal.
  assert (Hc : (exists a v b, c = CheckpointBalance a v b) \/
               match c with CheckpointBalance _ _ _ => False | _ => True end)
    by (destruct c; eauto).
  destruct Hc as [(caller & voter & v & ->)|Hc].
  - rewrite (checkpoint_effect _ _ _ _ _ _ _ H). unfold addr_eqb.
    case_decide as Ha; [subst a|by rewrite bool_decide_eq_false_2 by done].
    rewrite bool_decide_eq_true_2 by done. by rewrite (push_matched _ _ _ _ n).
  - assert (Hf : pframe not_checkpoints w w')
      by exact (keeps_ok (Keeps0 := exec_pframe c Hc) _ _ _ _ _ _ H).
    unfold checkpoints. rewrite (Hf (GovKey.VoteCheckpoints a)) by (cbn; tauto).
    destruct c; done.
Qed.

End Votes.
