(* ===== verification/GovernorExample.v ===== *)
(** * DripGovernor: a concrete governor

    A deployed governor on the reference ledger, walked through a staked and
    executed proposal, a cancelled one, a checkpoint and a handover, on which
    the governor's theorems, and those of the role and pause libraries, are
    exercised. *)

From stdpp Require Import base numbers list option strings gmap.
From Stdlib Require Import ZArith Lia String.
From S2P Require Import Prelude Host Ttl Pause Rbac Frame Admins GovernorData GovernorStore.
From S2P Require Import GovernorOps GovernorSystem GovernorRoles GovernorConfig.
From S2P Require Import GovernorProposals GovernorVotes.
Import GovError.

#[local] Open Scope Z_scope.

Definition admin : Address := Account 11.
Definition deputy : Address := Account 12.
Definition executor : Address := Account 13.
Definition stranger : Address := Account 14.
Definition gov : Address := Contract 8.
Definition factory : Address := Contract 9.
Definition vote_token : Address := Contract 100.

(** The factory accepts both calls and moves no tokens. *)
#[export] Instance ex_factory : FactoryClient Ledger := {|
  factory_call l f _ _ := if addr_eqb f factory then Some l else None
|}.

#[export] Instance ex_factory_laws : FactoryLaws Ledger.
Proof.
  constructor. intros t f self name t' tk b' Hc Hb. cbn in Hc.
  destruct (addr_eqb f factory); [|done].
  injection Hc as <-. exists b'. split; [done|lia].
Qed.

Abbreviation GovWorld := (World GovKey.data_key Ledger GovEvent.gov_event).

(** At time [t] and ledger [t], signed by everyone but the governor itself. *)
Definition gov_env (t : Z) : Env := mkEnv t t gov (fun a => negb (addr_eqb a gov)).

Definition gov_tokens : Ledger := <[(vote_token, admin) := 1000]> ∅.

Definition gov_blank : GovWorld :=
  mkWorld (fun _ => None) (fun _ => None) (fun _ => None) gov_tokens [] [].

Definition gov_after {A} (m : M GovKey.data_key Ledger GovEvent.gov_event gov_error A)
    (t : Z) (w : GovWorld) : GovWorld := (invoke m (gov_env t) w).2.

Definition gov_answer {A} (m : M GovKey.data_key Ledger GovEvent.gov_event gov_error A)
    (t : Z) (w : GovWorld) : Reply gov_error A := (invoke m (gov_env t) w).1.

Lemma gov_ran {A} (m : M GovKey.data_key Ledger GovEvent.gov_event gov_error A) t w (r : A) :
  gov_answer m t w = Returned r -> m (gov_env t) w = ROk r (gov_after m t w).
Proof. unfold gov_answer, gov_after, invoke. destruct (m (gov_env t) w); cbn; congruence. Qed.

Lemma gov_env_ok t : U64 t -> GovEnv gov (gov_env t).
Proof. constructor; [done|done|cbn; done]. Qed.

(** ** The scenario *)

Definition gov_deployed : GovWorld := gov_after (Governor.initialize admin deputy factory) 100 gov_blank.
Definition gov_staked : GovWorld :=
  gov_after (exec (SetProposalStakeConfig admin vote_token 150)) 110 gov_deployed.
Definition gov_staffed : GovWorld :=
  gov_after (exec (GrantRole admin RoleName.Executor executor)) 120 gov_staked.
Definition gov_proposed : GovWorld := gov_after (exec (Propose admin 86400)) 200 gov_staffed.
Definition gov_executed : GovWorld :=
  gov_after (exec (ExecuteProposal executor 1)) 605100 gov_proposed.
Definition gov_offered : GovWorld :=
  gov_after (exec (ProposeAuthority admin deputy)) 130 gov_staffed.
Definition gov_handed : GovWorld := gov_after (Governor.accept_authority deputy) 140 gov_offered.

Lemma gov_reach_deployed : reachable gov 100 gov_deployed.
Proof.
  apply (reach_init gov (gov_env 100) gov_blank admin deputy factory).
  - by split.
  - apply gov_env_ok. mlia.
  - refine (gov_ran (Governor.initialize admin deputy factory) 100 gov_blank tt _). reflexivity.
Qed.

Lemma gov_reach_after t t' c w :
  reachable gov t w -> t <= t' -> U64 t' -> typed c -> reachable gov t' (gov_after (exec c) t' w).
Proof.
  intros Hr Hle Hu Ht.
  apply (reach_call gov t w (gov_env t') c (invoke (exec c) (gov_env t') w).1); try done.
  unfold gov_after. by destruct (invoke _ _ _).
Qed.

Ltac gov_step t := apply (gov_reach_after t); [|lia|mlia|cbn; first [exact I|mlia]].

Lemma gov_reach_staffed : reachable gov 120 gov_staffed.
Proof. gov_step 110. gov_step 100. apply gov_reach_deployed. Qed.

Lemma gov_reach_proposed : reachable gov 200 gov_proposed.
Proof. gov_step 120. apply gov_reach_staffed. Qed.

Lemma gov_reach_offered : reachable gov 130 gov_offered.
Proof. gov_step 120. apply gov_reach_staffed. Qed.

Lemma gov_run_execute :
  Governor.execute_proposal executor 1 (gov_env 605100) gov_proposed = ROk tt gov_executed.
Proof.
  refine (gov_ran (Governor.execute_proposal executor 1) 605100 gov_proposed tt _).
  vm_compute. reflexivity.
Qed.

Lemma gov_run_accept :
  Governor.accept_authority deputy (gov_env 140) gov_offered = ROk tt gov_handed.
Proof.
  refine (gov_ran (Governor.accept_authority deputy) 140 gov_offered tt _).
  vm_compute. reflexivity.
Qed.

Definition ex_checkpoint : call := CheckpointBalance admin stranger 70.

Lemma gov_run_checkpoint :
  exec ex_checkpoint (gov_env 250) gov_proposed =
  ROk tt (gov_after (exec ex_checkpoint) 250 gov_proposed).
Proof.
  refine (gov_ran (exec ex_checkpoint) 250 gov_proposed tt _). vm_compute. reflexivity.
Qed.

(** ** The theorems at these worlds *)

Lemma governance_never_frozen_witness :
  exists admins : list Address, admins <> [] /\ Governor.admin_count (gov_env 500) gov_proposed =
                   ROk (Z.of_nat (List.length admins)) gov_proposed.
Proof.
  destruct (governance_never_frozen gov 200 gov_proposed gov_reach_proposed)
    as (admins & Hne & _ & H).
  exists admins. split; [exact Hne|apply (H (gov_env 500))].
Defined.

Lemma authority_handover_is_exact_witness :
  w_store gov_offered GovKey.PendingAuthority = Some deputy /\
  exists proposer, w_store gov_offered GovKey.PendingAuthorityProposer = Some proposer /\
    exists was, Governor.has_role RoleName.Admin admin (gov_env 150) gov_handed =
      ROk (negb (addr_eqb admin proposer) && (addr_eqb admin deputy || was)) gov_handed.
Proof.
  destruct (authority_handover_is_exact gov 130 gov_offered deputy (gov_env 140) gov_handed
    gov_reach_offered gov_run_accept)
    as (_ & Hp & _ & proposer & Hq & H).
  split; [exact Hp|]. exists proposer. split; [exact Hq|].
  destruct (H admin (gov_env 150)) as (was & _ & Hw). exists was. exact Hw.
Defined.

Lemma configuration_always_valid_witness :
  exists c, Governor.config (gov_env 500) gov_proposed = ROk c gov_proposed /\ ValidConfig c.
Proof. apply (configuration_always_valid gov 200 gov_proposed (gov_env 500) gov_reach_proposed). Defined.

Lemma stakes_always_covered_witness :
  staked gov_proposed vote_token = 150 /\ staked gov_proposed vote_token <= 150.
Proof.
  split; [vm_compute; reflexivity|].
  apply (stakes_always_covered gov 200 gov_proposed vote_token 150 gov_reach_proposed).
  vm_compute. reflexivity.
Defined.

Lemma proposal_index_exact_witness :
  exists ids, Governor.list_proposals_by_status ProposalStatus.Pending (gov_env 500) gov_proposed =
    ROk ids gov_proposed /\ NoDup ids.
Proof.
  destruct (proposal_index_exact gov 200 gov_proposed (gov_env 500) ProposalStatus.Pending
    gov_reach_proposed) as (ids & H & Hn & _).
  exists ids. split; [exact H|exact Hn].
Defined.








Definition ex_proposal : Proposal :=
  mkProposal admin 200 200 86400 ProposalStatus.Pending 0 0.

Lemma proposals_are_final_witness :
  prop_at gov_executed 1 = Some ex_proposal \/
  (is_open ex_proposal /\
   1 = 1 /\ prop_at gov_executed 1 = Some (with_status ProposalStatus.Executed ex_proposal)).
Proof.
  apply (proposals_are_final gov 200 gov_proposed (ExecuteProposal executor 1) (gov_env 605100)
    gov_executed 1 ex_proposal gov_reach_proposed).
  - exact gov_run_execute.
  - vm_compute. reflexivity.
Defined.

Lemma past_votes_are_frozen_witness :
  exists old, Governor.get_prior_votes stranger 199 (gov_env 300) gov_proposed = ROk old gov_proposed /\
    Governor.get_prior_votes stranger 199 (gov_env 300)
      (gov_after (exec ex_checkpoint) 250 gov_proposed) =
      ROk (if addr_eqb stranger stranger && (250 <=? 199) then 70 else old)
        (gov_after (exec ex_checkpoint) 250 gov_proposed).
Proof.
  apply (past_votes_are_frozen gov 200 gov_proposed ex_checkpoint (gov_env 250)
    (gov_after (exec ex_checkpoint) 250 gov_proposed) gov_reach_proposed).
  - cbn. lia.
  - exact gov_run_checkpoint.
Defined.

(** ** The pause and role libraries at the governor's keys *)

Definition gov_paused_world : GovWorld :=
  (invoke (set_paused_with_cooldown GovKey.Paused true (Some 3600) None) (gov_env 300) gov_staffed).2.

Lemma pause_window_witness :
  exists w2, Pause.is_paused (E := gov_error) GovKey.Paused (gov_env 1000) gov_paused_world =
    ROk (1000 <? sat_u64 (300 + Z.min (default DEFAULT_MAX_PAUSE_DURATION (Some 3600))
                                      DEFAULT_MAX_PAUSE_DURATION)) w2.
Proof.
  apply (pause_window (E := gov_error) GovKey.Paused (Some 3600) None (gov_env 300) gov_staffed tt
           gov_paused_world (gov_env 1000)).
  reflexivity.
Defined.

Definition gov_unpaused_cell : PauseState := mkPauseState false 0 None (Some 300) None.
Definition gov_unpaused_world : GovWorld :=
  put GovKey.Paused (Some (PauseRecord gov_unpaused_cell)) gov_staffed.

Lemma pause_cooldown_exact_witness :
  set_paused_with_cooldown GovKey.Paused true None (Some 600) (gov_env 500) gov_unpaused_world =
    RErr Pause.ContractPaused gov_unpaused_world.
Proof.
  exact (pause_cooldown_exact GovKey.Paused gov_unpaused_cell None (Some 600) (gov_env 500)
           gov_unpaused_world eq_refl).
Defined.

Lemma gov_blank_roster : represents (GovKey.Role RoleName.Admin) GovKey.AdminCount
  (GovKey.RoleMembers RoleName.Admin) true gov_blank (mkRoster ∅ []).
Proof. by apply empty_roster. Qed.

Definition ex_role_ops : list (Env * role_op) :=
  [(gov_env 1, OpGrant admin None); (gov_env 2, OpGrant deputy (Some 50));
   (gov_env 60, OpRevoke deputy None ""%string)].

Lemma role_ops_refine_roster_witness :
  represents (GovKey.Role RoleName.Admin) GovKey.AdminCount (GovKey.RoleMembers RoleName.Admin) true
    (run_ops (GovKey.Role RoleName.Admin) GovKey.AdminCount (GovKey.RoleMembers RoleName.Admin) true
       ex_role_ops gov_blank)
    (spec_ops true ex_role_ops (mkRoster ∅ [])).
Proof.
  apply role_ops_refine_roster; [exact gov_blank_roster|]. reflexivity.
Defined.

Definition gov_one_admin : GovWorld :=
  (invoke (grant_with_expiration (E := RbacError) (GovKey.Role RoleName.Admin admin)
     GovKey.AdminCount (GovKey.RoleMembers RoleName.Admin) true admin None) (gov_env 1) gov_blank).2.

Lemma gov_one_admin_roster : represents (GovKey.Role RoleName.Admin) GovKey.AdminCount
  (GovKey.RoleMembers RoleName.Admin) true gov_one_admin (roster_grant admin None (mkRoster ∅ [])).
Proof.
  destruct (grant_run (E := RbacError) _ _ _ true gov_blank (mkRoster ∅ []) admin None (gov_env 1)
    gov_blank_roster) as (w' & H & R & _); [done|].
  assert (Hw : gov_one_admin = w'); [|by rewrite Hw].
  exact (f_equal (fun o => match o with ROk _ w | RErr _ w => w | RTrap _ => gov_blank end) H).
Qed.

Definition ex_revocations : list (Env * role_op) :=
  [(gov_env 5, OpRevoke admin None ""%string); (gov_env 6, OpGrant deputy None);
   (gov_env 7, OpRevoke admin None ""%string); (gov_env 8, OpRevoke deputy None ""%string)].

Lemma last_admin_survives_witness :
  exists a, has_role (E := RbacError) (GovKey.Role RoleName.Admin a) (gov_env 9)
    (run_ops (GovKey.Role RoleName.Admin) GovKey.AdminCount (GovKey.RoleMembers RoleName.Admin) true
       ex_revocations gov_one_admin) =
    ROk true (run_ops (GovKey.Role RoleName.Admin) GovKey.AdminCount
                (GovKey.RoleMembers RoleName.Admin) true ex_revocations gov_one_admin).
Proof.
  refine (last_admin_survives (GovKey.Role RoleName.Admin) GovKey.AdminCount
    (GovKey.RoleMembers RoleName.Admin) true ex_revocations gov_one_admin
    (roster_grant admin None (mkRoster ∅ [])) (gov_env 9) _ _ _ _ _ _).
  - reflexivity.
  - exact gov_one_admin_roster.
  - intros a e. cbn. rewrite lookup_insert. case_decide; [by intros [= <-]|done].
  - done.
  - by repeat constructor.
  - reflexivity.
Defined.
