(* ===== verification/VaultData.v ===== *)
(** * TokenVault: data ([contracts/token-vault/src/{storage,errors,events}.rs])

    The storage keys with the type each one stores, the balance snapshot and
    the pending migration, the error enum and the published events. *)

From stdpp Require Import base numbers list option strings.
From Stdlib Require Import ZArith Lia String.
From S2P Require Import Prelude Host Pause.

#[local] Open Scope Z_scope.

(** ** Errors

    [TokenNotApproved] and [VaultBalanceChanged] are returned by the entry
    points but missing from the enum of errors.rs: they have no code. *)

Module VaultError.

Inductive vault_error : Type :=
| InvalidAmount
| ArithmeticOverflow
| LimitExceeded
| NotAuthorized
| ContractPaused
| AlreadyPaused
| NotPaused
| NotInitialized
| AlreadyInitialized
| InvalidParam
| NoPendingOwner
| NotPendingOwner
| DepositTransferFailed
| WithdrawTransferFailed
| InvalidWasmHash
| PendingOwnerExpired
| InvalidToken
| TimelockNotExpired
| NoMigrationProposed
| ReentrancyDetected
| DepositExceedsMax
| InvalidStreamBatch
| StreamCallFailed
| TokenNotApproved
| VaultBalanceChanged.

(** [e as u32] *)
Definition code (e : vault_error) : option Z :=
  match e with
  | InvalidAmount => Some 1
  | ArithmeticOverflow => Some 2
  | LimitExceeded => Some 3
  | NotAuthorized => Some 4
  | ContractPaused => Some 5
  | AlreadyPaused => Some 6
  | NotPaused => Some 7
  | NotInitialized => Some 8
  | AlreadyInitialized => Some 9
  | InvalidParam => Some 10
  | NoPendingOwner => Some 11
  | NotPendingOwner => Some 12
  | DepositTransferFailed => Some 13
  | WithdrawTransferFailed => Some 14
  | InvalidWasmHash => Some 15
  | PendingOwnerExpired => Some 16
  | InvalidToken => Some 17
  | TimelockNotExpired => Some 18
  | NoMigrationProposed => Some 19
  | ReentrancyDetected => Some 20
  | DepositExceedsMax => Some 21
  | InvalidStreamBatch => Some 22
  | StreamCallFailed => Some 23
  | TokenNotApproved | VaultBalanceChanged => None
  end.

End VaultError.

(** ** Stored records *)

Record DepositSpec := mkDepositSpec { ds_from : Address; ds_amount : Z }.

Record VaultBalanceSnapshot := mkVaultBalanceSnapshot {
  vs_ledger : Z;
  vs_expected_balance : Z
}.

Record EmergencyMigration := mkEmergencyMigration {
  em_destination : Address;
  em_proposed_at : Z;
  em_executable_at : Z
}.

(** ** Storage keys *)

Module VaultKey.

Inductive data_key : Type :=
| Owner
| Token
| MaxLimit
| Balance
| Operator
| OperatorWithdrawLimit
| Paused
| PendingOwner
| PendingOwnerProposer
| PendingOwnerProposedAt
| OwnerProposalTtl
| TokenAccountBalance (token account : Address)
| TokenMaxLimit (token : Address)
| EmergencyMigration
| ReentrancyLock
| ApprovedToken (token : Address)
| BalanceSnapshot (token : Address)
| TrackedVaultKeys.

End VaultKey.

#[export] Instance vault_key_eq_dec : EqDecision VaultKey.data_key.
Proof. solve_decision. Defined.

(** The type of the value each key stores. *)
Definition vault_key_val (k : VaultKey.data_key) : Type :=
  match k with
  | VaultKey.Owner | VaultKey.Token | VaultKey.Operator | VaultKey.PendingOwner
  | VaultKey.PendingOwnerProposer => Address
  | VaultKey.Paused => PauseCell
  | VaultKey.EmergencyMigration => EmergencyMigration
  | VaultKey.ReentrancyLock | VaultKey.ApprovedToken _ => bool
  | VaultKey.BalanceSnapshot _ => VaultBalanceSnapshot
  | VaultKey.TrackedVaultKeys => list VaultKey.data_key
  | VaultKey.MaxLimit | VaultKey.Balance | VaultKey.OperatorWithdrawLimit
  | VaultKey.PendingOwnerProposedAt | VaultKey.OwnerProposalTtl
  | VaultKey.TokenAccountBalance _ _ | VaultKey.TokenMaxLimit _ => Z
  end.

#[export] Instance vault_keys : StorageKeys VaultKey.data_key := {
  key_eq_dec := vault_key_eq_dec;
  key_val := vault_key_val
}.

#[export] Instance vault_paused_bool : Stored bool VaultKey.Paused.
Proof.
  refine {| into_val := (fun b => PauseBool b : key_val VaultKey.Paused);
            try_from_val := (fun c : key_val VaultKey.Paused =>
              match c with PauseBool b => Some b | PauseRecord _ => None end) |}.
  done.
Defined.

#[export] Instance vault_paused_state : Stored PauseState VaultKey.Paused.
Proof.
  refine {| into_val := (fun s => PauseRecord s : key_val VaultKey.Paused);
            try_from_val := (fun c : key_val VaultKey.Paused =>
              match c with PauseBool _ => None | PauseRecord s => Some s end) |}.
  done.
Defined.

#[export] Instance vault_paused_key : PauseKey VaultKey.Paused.
Proof. by refine {| pause_bool := _; pause_state := _ |}. Defined.

(** ** Events *)

Module VaultEvent.

Inductive vault_event : Type :=
| init (owner token : Address) (max_limit : Z)
| deposited (from : Address) (amount new_balance : Z)
| TokenDeposited (from : Address) (gross_amount fee_amount net_amount : Z)
| withdrawn (caller to : Address) (amount new_balance : Z) (by_operator : bool)
| limit_set (caller : Address) (old_limit new_limit : Z)
| op_limit (caller : Address) (old_limit new_limit : Z)
| set_op (caller operator : Address)
| rm_op (caller : Address)
| paused (caller : Address) (paused_at : Z)
| unpaused (caller : Address) (resumed_at : Z)
| upgraded (caller : Address) (upgraded_at : Z)
| propose (caller new_owner : Address)
| accept (caller old_owner : Address)
| owner_ttl (caller : Address) (old_ttl new_ttl : Z)
| em_init (caller destination : Address) (executable_at : Z)
| em_exec (caller destination : Address) (amount : Z)
| em_cancel (caller : Address)
| kept_alive (new_ttl : Z)
| VaultDepositFailed (from token : Address) (amount reason_code : Z)
| tok_allow (token : Address) (approved : bool)
| keys_ttl (count : Z)
| WasmReplaced (hash : Z).

End VaultEvent.
