(* ===== verification/VaultOps.v ===== *)
(** * TokenVault: storage accessors and entry points
    ([contracts/token-vault/src/{storage,ttl,lib}.rs]) *)

From stdpp Require Import base numbers list option strings.
From Stdlib Require Import ZArith Lia String.
From S2P Require Import Prelude Host Ttl Pause VaultData.
Import VaultError.

#[local] Open Scope Z_scope.
#[local] Open Scope sf_scope.

(** The stream contracts the vault calls ([DripStreamClient]): the recipient
    and the withdrawable amount a stream answers, and the state after a
    withdrawal called by an invoker; [None] when the call failed. *)
Class StreamClient (T : Type) := {
  stream_recipient : T -> Address -> option Address;
  stream_withdrawable : T -> Address -> option Z;
  stream_withdraw : T -> (Address -> bool) -> Address -> Address -> Z -> option T
}.

Definition OWNER_PROPOSAL_TTL_SECONDS : Z := 7 * 24 * 60 * 60.
Definition EMERGENCY_MIGRATION_TIMELOCK_SECONDS : Z := 48 * 60 * 60.
Definition MAX_VAULT_DEPOSIT : Z := 1000000000000000000000000000000.
Definition MAX_STREAM_BATCH_WITHDRAWALS : Z := 10.

Section Vault.
Context {T : Type} `{TC : TokenClient T} `{SC : StreamClient T}.
Abbreviation VM := (M VaultKey.data_key T VaultEvent.vault_event vault_error).
Implicit Types (caller owner token account : Address) (amount : Z).

(** ** Storage accessors *)

Definition get_token_account_balance token account : VM Z :=
  let! stored := pget (VaultKey.TokenAccountBalance token account) in
  ret (default 0 stored).

(** Record a persistent key in the index of the keys to renew. *)
Definition track_vault_key (key : VaultKey.data_key) : VM unit :=
  let! stored := sget VaultKey.TrackedVaultKeys in
  let keys : list VaultKey.data_key := default [] stored in
  if bool_decide (key ∈ keys) then ret tt
  else sset VaultKey.TrackedVaultKeys (keys ++ [key]).

Definition set_token_account_balance token account (balance : Z) : VM unit :=
  let key := VaultKey.TokenAccountBalance token account in
  do! pset key balance;
  do! bump_persistent key;
  track_vault_key key.

Definition get_token_max_limit token : VM (option Z) := pget (VaultKey.TokenMaxLimit token).

Definition store_token_max_limit token (limit : Z) : VM unit :=
  let key := VaultKey.TokenMaxLimit token in
  do! pset key limit;
  do! bump_persistent key;
  track_vault_key key.

Definition is_token_approved token : VM bool :=
  let! stored := sget (VaultKey.ApprovedToken token) in
  ret (default false stored).

(** [false] when the balance is not the one verified last in this ledger. *)
Definition check_vault_balance token (balance : Z) : VM bool :=
  let! stored := sget (VaultKey.BalanceSnapshot token) in
  let! seq := ledger_sequence in
  ret match stored with
      | Some s => if vs_ledger s =? seq then vs_expected_balance s =? balance else true
      | None => true
      end.

Definition record_vault_balance token (balance : Z) : VM unit :=
  let! seq := ledger_sequence in
  sset (VaultKey.BalanceSnapshot token) (mkVaultBalanceSnapshot seq balance).

Definition tracked_vault_keys : VM (list VaultKey.data_key) :=
  let! stored := sget VaultKey.TrackedVaultKeys in
  ret (default [] stored).

(** The loop of [bump_all_vault_keys]: renew the keys that are still there. *)
Fixpoint refresh_keys (keys : list VaultKey.data_key) (refreshed : Z) : VM Z :=
  match keys with
  | [] => ret refreshed
  | key :: rest =>
      let! present := phas key in
      if present then
        do! bump_persistent key;
        let! n := u32_op (refreshed + 1) in
        refresh_keys rest n
      else refresh_keys rest refreshed
  end.

Definition ttl_bump_all_vault_keys : VM Z :=
  let! keys := tracked_vault_keys in
  refresh_keys keys 0.

(** ** Helpers of the entry points *)

(** [non_reentrant!]: the lock is released whether the body returns or fails. *)
Definition non_reentrant {A} (body : VM A) : VM A :=
  let! held := tget VaultKey.ReentrancyLock in
  do! throw_if (default false held) ReentrancyDetected;
  do! tset VaultKey.ReentrancyLock true;
  fun env w => match body env w with
               | ROk a w' => ROk a (put_temp VaultKey.ReentrancyLock None w')
               | RErr e w' => RErr e (put_temp VaultKey.ReentrancyLock None w')
               | RTrap t => RTrap t
               end.

Definition validate_sep41_token token : VM unit :=
  do! throw_if (is_zero_address token) InvalidToken;
  let! contract := contract_address in
  do! token_balance token contract;
  ret tt.

Definition get_owner : VM Address :=
  let! stored := sget VaultKey.Owner in
  ok_or stored NotInitialized.

Definition get_token : VM Address :=
  let! stored := sget VaultKey.Token in
  ok_or stored NotInitialized.

Definition vault_balance : VM Z :=
  let! token := get_token in
  let! contract := contract_address in
  token_balance token contract.

Definition withdraw_cap caller owner : VM Z :=
  if addr_eqb caller owner then ret i128_max
  else
    let! operator := sget VaultKey.Operator in
    do! throw_if (negb (bool_decide (operator = Some caller))) NotAuthorized;
    let! limit := sget VaultKey.OperatorWithdrawLimit in
    ok_or limit LimitExceeded.

Definition require_owner_or_operator caller owner : VM unit :=
  let! operator := sget VaultKey.Operator in
  let is_owner := addr_eqb caller owner in
  let is_op := match operator with Some op => addr_eqb caller op | None => false end in
  if is_owner || is_op then require_auth caller else throw NotAuthorized.

Definition is_paused : VM bool := Pause.is_paused VaultKey.Paused.

Definition set_paused (paused : bool) : VM unit :=
  ignore_result (Pause.set_paused VaultKey.Paused paused).

Definition assert_not_paused : VM unit :=
  map_err (fun _ => ContractPaused) (Pause.require_not_paused VaultKey.Paused).

(** The owner check that opens most of the administrative entry points. *)
Definition require_owner caller : VM unit :=
  let! owner := get_owner in
  do! throw_if (negb (addr_eqb caller owner)) NotAuthorized;
  require_auth caller.

(** ** Payouts *)

(** The validation loop: every amount positive, their sum in range. *)
Fixpoint sum_payouts (payouts : list (Address * Z)) (total : Z) : VM Z :=
  match payouts with
  | [] => ret total
  | (_, amount) :: rest =>
      do! throw_if (amount <=? 0) InvalidAmount;
      let! total' := ok_or (checked_i128 (total + amount)) ArithmeticOverflow in
      sum_payouts rest total'
  end.

(** The paying loop: each transfer is checked against the expected balance. *)
Fixpoint pay_each caller token (tk : Address) (by_operator : bool) (payouts : list (Address * Z))
    (expected_balance : Z) : VM unit :=
  match payouts with
  | [] => ret tt
  | (to, amount) :: rest =>
      let! expected := ok_or (checked_i128 (expected_balance - amount)) ArithmeticOverflow in
      let! contract := contract_address in
      do! token_transfer tk contract to amount;
      let! new_balance := vault_balance in
      do! throw_if (negb (new_balance =? expected)) WithdrawTransferFailed;
      do! record_vault_balance token new_balance;
      do! publish (VaultEvent.withdrawn caller to amount new_balance by_operator);
      pay_each caller token tk by_operator rest expected
  end.

Definition withdraw_payouts caller (payouts : list (Address * Z)) : VM unit :=
  non_reentrant (
    do! assert_not_paused;
    let! owner := get_owner in
    do! require_owner_or_operator caller owner;
    do! throw_if (bool_decide (payouts = [])) InvalidAmount;
    let! token := get_token in
    do! validate_sep41_token token;
    let! total := sum_payouts payouts 0 in
    let! cap := withdraw_cap caller owner in
    do! throw_if (cap <? total) LimitExceeded;
    let! balance := vault_balance in
    do! throw_if (balance <? total) LimitExceeded;
    let! tk := get_token in
    do! pay_each caller token tk (negb (addr_eqb caller owner)) payouts balance;
    bump_instance).

(** ** Deployment and deposits *)

Definition initialize owner token (max_limit : Z) : VM unit :=
  do! require_auth owner;
  do! throw_if (max_limit <=? 0) InvalidAmount;
  do! validate_sep41_token token;
  let! present := shas VaultKey.Owner in
  do! throw_if present AlreadyInitialized;
  do! bump_instance;
  do! sset VaultKey.Owner owner;
  do! sset VaultKey.Token token;
  do! sset (VaultKey.ApprovedToken token) true;
  do! sset VaultKey.MaxLimit max_limit;
  do! sset VaultKey.OwnerProposalTtl OWNER_PROPOSAL_TTL_SECONDS;
  publish (VaultEvent.init owner token max_limit).

Definition get_max_limit : VM Z :=
  let! stored := sget VaultKey.MaxLimit in
  ok_or stored NotInitialized.

Definition deposit (from : Address) amount : VM unit :=
  non_reentrant (
    do! assert_not_paused;
    let! owner := get_owner in
    do! require_owner_or_operator from owner;
    do! throw_if (amount <=? 0) InvalidAmount;
    do! throw_if (MAX_VAULT_DEPOSIT <? amount) DepositExceedsMax;
    let! _owner := get_owner in
    let! balance := vault_balance in
    let! default_token := get_token in
    let! approved := is_token_approved default_token in
    do! throw_if (negb approved) TokenNotApproved;
    let! max := get_max_limit in
    let! expected_balance := ok_or (checked_i128 (balance + amount)) ArithmeticOverflow in
    do! throw_if (max <? expected_balance) LimitExceeded;
    let! unchanged := check_vault_balance default_token balance in
    do! throw_if (negb unchanged) VaultBalanceChanged;
    let! tk := get_token in
    let! contract := contract_address in
    do! token_transfer tk from contract amount;
    let! new_balance := token_balance tk contract in
    do! throw_if (max <? new_balance) LimitExceeded;
    do! throw_if (negb (new_balance =? expected_balance)) DepositTransferFailed;
    let! default_token := get_token in
    let! cur_acc_bal := get_token_account_balance default_token from in
    do! match checked_i128 (cur_acc_bal + amount) with
        | Some new_acc_bal => set_token_account_balance default_token from new_acc_bal
        | None => ret tt
        end;
    do! record_vault_balance default_token new_balance;
    do! bump_instance;
    publish (VaultEvent.deposited from amount new_balance)).

Definition deposit_with_fee (from : Address) (gross_amount fee_amount : Z) : VM unit :=
  do! throw_if ((fee_amount <? 0) || (gross_amount <=? 0) || (gross_amount <=? fee_amount))
        InvalidAmount;
  do! throw_if (MAX_VAULT_DEPOSIT <? gross_amount) DepositExceedsMax;
  let! net_amount := ok_or (checked_i128 (gross_amount - fee_amount)) ArithmeticOverflow in
  do! deposit from net_amount;
  publish (VaultEvent.TokenDeposited from gross_amount fee_amount net_amount).

(** The validation loop of [batch_deposit]. *)
Fixpoint sum_deposits (deposits : list DepositSpec) (total : Z) : VM Z :=
  match deposits with
  | [] => ret total
  | d :: rest =>
      do! throw_if (ds_amount d <=? 0) InvalidAmount;
      do! throw_if (MAX_VAULT_DEPOSIT <? ds_amount d) DepositExceedsMax;
      do! require_auth (ds_from d);
      let! total' := ok_or (checked_i128 (total + ds_amount d)) ArithmeticOverflow in
      sum_deposits rest total'
  end.

Fixpoint pull_each token contract (deposits : list DepositSpec) : VM unit :=
  match deposits with
  | [] => ret tt
  | d :: rest =>
      do! token_transfer token (ds_from d) contract (ds_amount d);
      let! current_balance := token_balance token contract in
      do! publish (VaultEvent.deposited (ds_from d) (ds_amount d) current_balance);
      pull_each token contract rest
  end.

Definition batch_deposit (deposits : list DepositSpec) : VM unit :=
  non_reentrant (
    do! assert_not_paused;
    do! throw_if (bool_decide (List.length deposits = 0%nat)) InvalidAmount;
    let! _owner := get_owner in
    let! max := get_max_limit in
    let! total_deposit := sum_deposits deposits 0 in
    let! balance := vault_balance in
    let! default_token := get_token in
    let! approved := is_token_approved default_token in
    do! throw_if (negb approved) TokenNotApproved;
    let! expected_balance := ok_or (checked_i128 (balance + total_deposit)) ArithmeticOverflow in
    do! throw_if (max <? expected_balance) LimitExceeded;
    let! unchanged := check_vault_balance default_token balance in
    do! throw_if (negb unchanged) VaultBalanceChanged;
    let! tk := get_token in
    let! contract := contract_address in
    do! pull_each tk contract deposits;
    let! final_balance := token_balance tk contract in
    do! throw_if (max <? final_balance) LimitExceeded;
    do! throw_if (negb (final_balance =? expected_balance)) DepositTransferFailed;
    do! record_vault_balance default_token final_balance;
    bump_instance).

Definition withdraw caller (to : Address) amount : VM unit := withdraw_payouts caller [(to, amount)].

Definition withdraw_batch caller (payouts : list (Address * Z)) : VM unit :=
  withdraw_payouts caller payouts.

(** ** Withdrawing from streams *)

Definition try_stream {A} (answer : T -> option A) : VM A :=
  fun _ w => match answer (w_tokens w) with
             | Some a => ROk a w
             | None => RErr StreamCallFailed w
             end.

Definition try_stream_withdraw (stream : Address) amount : VM unit :=
  fun env w => match stream_withdraw (w_tokens w) (call_auth env) (current_contract env)
                       stream amount with
               | Some t' => ROk tt (set_tokens t' w)
               | None => RErr StreamCallFailed w
               end.

(** The query loop: [seen] are the streams at smaller indices. *)
Fixpoint collect_payouts (seen stream_ids : list Address) (recipient : Address)
    (payouts : list (Address * Z)) (total : Z) : VM (list (Address * Z) * Z) :=
  match stream_ids with
  | [] => ret (payouts, total)
  | stream :: rest =>
      do! throw_if (bool_decide (stream ∈ seen)) InvalidStreamBatch;
      let! stream_recipient := try_stream (fun t => stream_recipient t stream) in
      do! throw_if (negb (addr_eqb stream_recipient recipient)) NotAuthorized;
      let! amount := try_stream (fun t => stream_withdrawable t stream) in
      do! throw_if (amount <? 0) InvalidAmount;
      if 0 <? amount then
        let! total' := ok_or (checked_i128 (total + amount)) ArithmeticOverflow in
        collect_payouts (seen ++ [stream]) rest recipient (payouts ++ [(stream, amount)]) total'
      else collect_payouts (seen ++ [stream]) rest recipient payouts total
  end.

Fixpoint withdraw_each (payouts : list (Address * Z)) : VM unit :=
  match payouts with
  | [] => ret tt
  | (stream, amount) :: rest => do! try_stream_withdraw stream amount; withdraw_each rest
  end.

Definition vault_batch_withdraw (stream_ids : list Address) (recipient : Address) : VM Z :=
  let n := Z.of_nat (List.length stream_ids) in
  do! throw_if ((n =? 0) || (MAX_STREAM_BATCH_WITHDRAWALS <? n)) InvalidStreamBatch;
  do! assert_not_paused;
  non_reentrant (
    let! collected := collect_payouts [] stream_ids recipient [] 0 in
    do! withdraw_each collected.1;
    ret collected.2).

(** ** Limits *)

Definition set_operator_withdraw_limit caller (new_limit : Z) : VM unit :=
  do! assert_not_paused;
  do! require_owner caller;
  do! throw_if (new_limit <=? 0) InvalidAmount;
  let! stored := sget VaultKey.OperatorWithdrawLimit in
  do! bump_instance;
  do! sset VaultKey.OperatorWithdrawLimit new_limit;
  publish (VaultEvent.op_limit caller (default 0 stored) new_limit).

Definition set_limit caller (new_limit : Z) : VM unit :=
  do! assert_not_paused;
  let! owner := get_owner in
  do! throw_if (new_limit <=? 0) InvalidAmount;
  let! balance := vault_balance in
  do! throw_if (new_limit <? balance) LimitExceeded;
  let! stored := sget VaultKey.MaxLimit in
  let! old_limit := ok_or stored ArithmeticOverflow in
  do! (if old_limit <? new_limit
       then do! throw_if (negb (addr_eqb caller owner)) NotAuthorized; require_auth caller
       else require_owner_or_operator caller owner);
  do! bump_instance;
  do! sset VaultKey.MaxLimit new_limit;
  publish (VaultEvent.limit_set caller old_limit new_limit).

(** ** Operator and ownership *)

Definition set_operator caller (operator : Address) : VM unit :=
  do! require_owner caller;
  do! bump_instance;
  do! sset VaultKey.Operator operator;
  publish (VaultEvent.set_op caller operator).

Definition revoke_operator caller : VM unit :=
  do! require_owner caller;
  do! bump_instance;
  do! sremove VaultKey.Operator;
  publish (VaultEvent.rm_op caller).

Definition propose_owner caller (new_owner : Address) : VM unit :=
  do! require_owner caller;
  do! throw_if (is_zero_address new_owner) InvalidParam;
  do! bump_instance;
  do! sset VaultKey.PendingOwner new_owner;
  do! sset VaultKey.PendingOwnerProposer caller;
  let! now := ledger_timestamp in
  do! sset VaultKey.PendingOwnerProposedAt now;
  publish (VaultEvent.propose caller new_owner).

Definition accept_owner caller : VM unit :=
  let! stored := sget VaultKey.PendingOwner in
  let! pending := ok_or stored NoPendingOwner in
  do! throw_if (negb (addr_eqb caller pending)) NotPendingOwner;
  do! require_auth caller;
  let! stored_at := sget VaultKey.PendingOwnerProposedAt in
  let! proposed_at := ok_or stored_at PendingOwnerExpired in
  let! stored_ttl := sget VaultKey.OwnerProposalTtl in
  let proposal_ttl := default OWNER_PROPOSAL_TTL_SECONDS stored_ttl in
  let! expires_at := ok_or (checked_u64 (proposed_at + proposal_ttl)) ArithmeticOverflow in
  let! now := ledger_timestamp in
  do! throw_if (expires_at <=? now) PendingOwnerExpired;
  let! stored_proposer := sget VaultKey.PendingOwnerProposer in
  let! proposer := ok_or stored_proposer NoPendingOwner in
  do! bump_instance;
  do! sset VaultKey.Owner caller;
  do! sremove VaultKey.PendingOwner;
  do! sremove VaultKey.PendingOwnerProposer;
  do! sremove VaultKey.PendingOwnerProposedAt;
  publish (VaultEvent.accept caller proposer).

Definition set_owner_proposal_ttl caller (ttl_seconds : Z) : VM unit :=
  do! require_owner caller;
  do! throw_if (ttl_seconds =? 0) InvalidAmount;
  let! stored := sget VaultKey.OwnerProposalTtl in
  do! bump_instance;
  do! sset VaultKey.OwnerProposalTtl ttl_seconds;
  publish (VaultEvent.owner_ttl caller (default OWNER_PROPOSAL_TTL_SECONDS stored) ttl_seconds).

(** ** Reads *)

Definition operator_view : VM (option Address) := sget VaultKey.Operator.
Definition operator_withdraw_limit : VM (option Z) := sget VaultKey.OperatorWithdrawLimit.
Definition owner_view : VM (option Address) := sget VaultKey.Owner.
Definition max_limit_view : VM (option Z) := sget VaultKey.MaxLimit.
Definition pending_owner : VM (option Address) := sget VaultKey.PendingOwner.
Definition pending_owner_proposer : VM (option Address) := sget VaultKey.PendingOwnerProposer.
Definition owner_proposal_ttl : VM (option Z) := sget VaultKey.OwnerProposalTtl.
Definition is_paused_view : VM bool := is_paused.
Definition is_token_approved_view token : VM bool := is_token_approved token.
Definition balance_by_token token account : VM Z := get_token_account_balance token account.
Definition token_max_limit token : VM (option Z) := get_token_max_limit token.
Definition emergency_migration : VM (option EmergencyMigration) :=
  sget VaultKey.EmergencyMigration.
Definition emergency_timelock_seconds : VM Z := ret EMERGENCY_MIGRATION_TIMELOCK_SECONDS.

(** [r.ok()] *)
Definition balance_view : VM (option Z) :=
  fun env w => match vault_balance env w with
               | ROk b w' => ROk (Some b) w'
               | RErr _ w' => ROk None w'
               | RTrap t => RTrap t
               end.

(** [r.is_ok()] *)
Definition is_token_compliant token : VM bool :=
  fun env w => match validate_sep41_token token env w with
               | ROk _ w' => ROk true w'
               | RErr _ w' => ROk false w'
               | RTrap t => RTrap t
               end.

Definition effective_withdraw_limit caller : VM Z :=
  do! assert_not_paused;
  let! owner := get_owner in
  let! cap := withdraw_cap caller owner in
  let! balance := vault_balance in
  ret (Z.min balance cap).

(** ** Emergency pause, keep-alive and upgrade *)

Definition pause caller : VM unit :=
  do! require_owner caller;
  let! paused := is_paused in
  do! throw_if paused AlreadyPaused;
  do! bump_instance;
  do! set_paused true;
  let! now := ledger_timestamp in
  publish (VaultEvent.paused caller now).

Definition unpause caller : VM unit :=
  do! require_owner caller;
  let! paused := is_paused in
  do! throw_if (negb paused) NotPaused;
  do! bump_instance;
  do! set_paused false;
  let! now := ledger_timestamp in
  publish (VaultEvent.unpaused caller now).

Definition keep_alive : VM unit :=
  do! bump_instance;
  do! ttl_bump_all_vault_keys;
  publish (VaultEvent.kept_alive EXTEND_TTL_LEDGERS).

Definition bump_all_vault_keys : VM Z :=
  let! _owner := get_owner in
  do! bump_instance;
  let! count := ttl_bump_all_vault_keys in
  do! publish (VaultEvent.keys_ttl count);
  ret count.

Definition upgrade caller (new_wasm_hash : Z) : VM unit :=
  do! require_owner caller;
  do! assert_not_paused;
  do! throw_if (new_wasm_hash =? 0) InvalidWasmHash;
  do! bump_instance;
  do! publish (VaultEvent.WasmReplaced new_wasm_hash);
  let! now := ledger_timestamp in
  publish (VaultEvent.upgraded caller now).

(** ** Other tokens *)

Definition deposit_token (from token : Address) amount : VM unit :=
  non_reentrant (
    do! assert_not_paused;
    let! owner := get_owner in
    do! require_owner_or_operator from owner;
    do! throw_if (amount <=? 0) InvalidAmount;
    do! throw_if (MAX_VAULT_DEPOSIT <? amount) DepositExceedsMax;
    let! approved := is_token_approved token in
    do! throw_if (negb approved) TokenNotApproved;
    let! contract := contract_address in
    let! before := token_balance token contract in
    let! unchanged := check_vault_balance token before in
    do! throw_if (negb unchanged) VaultBalanceChanged;
    let! limit := get_token_max_limit token in
    do! match limit with
        | Some max =>
            let! current_vault_balance := token_balance token contract in
            let! expected_balance :=
              ok_or (checked_i128 (current_vault_balance + amount)) ArithmeticOverflow in
            throw_if (max <? expected_balance) LimitExceeded
        | None => ret tt
        end;
    do! token_transfer token from contract amount;
    let! after := token_balance token contract in
    let! expected := ok_or (checked_i128 (before + amount)) ArithmeticOverflow in
    do! throw_if (negb (after =? expected)) DepositTransferFailed;
    do! record_vault_balance token after;
    let! current_acc_balance := get_token_account_balance token from in
    let! new_acc_balance :=
      ok_or (checked_i128 (current_acc_balance + amount)) ArithmeticOverflow in
    do! set_token_account_balance token from new_acc_balance;
    do! bump_instance;
    let! final := token_balance token contract in
    publish (VaultEvent.deposited from amount final)).

Definition withdraw_token caller token (to : Address) amount : VM unit :=
  non_reentrant (
    do! assert_not_paused;
    let! owner := get_owner in
    do! require_owner_or_operator caller owner;
    do! throw_if (amount <=? 0) InvalidAmount;
    let! cap := withdraw_cap caller owner in
    do! throw_if (cap <? amount) LimitExceeded;
    let! contract := contract_address in
    let! vault_bal := token_balance token contract in
    do! throw_if (vault_bal <? amount) LimitExceeded;
    let! current_acc_balance := get_token_account_balance token caller in
    do! throw_if (negb (addr_eqb caller owner) && (current_acc_balance <? amount)) LimitExceeded;
    do! token_transfer token contract to amount;
    do! (if amount <=? current_acc_balance
         then let! rest := i128_op (current_acc_balance - amount) in
              set_token_account_balance token caller rest
         else ret tt);
    let! new_vault_bal := token_balance token contract in
    let! expected := ok_or (checked_i128 (vault_bal - amount)) ArithmeticOverflow in
    do! throw_if (negb (new_vault_bal =? expected)) WithdrawTransferFailed;
    do! record_vault_balance token new_vault_bal;
    do! publish (VaultEvent.withdrawn caller to amount new_vault_bal (negb (addr_eqb caller owner)));
    bump_instance).

Definition set_token_max_limit caller token (limit : Z) : VM unit :=
  do! assert_not_paused;
  let! owner := get_owner in
  do! require_owner_or_operator caller owner;
  do! throw_if (limit <=? 0) InvalidAmount;
  do! store_token_max_limit token limit;
  bump_instance.

Definition approve_token caller token (approved : bool) : VM unit :=
  do! require_owner caller;
  do! (if approved then validate_sep41_token token else ret tt);
  do! sset (VaultKey.ApprovedToken token) approved;
  do! bump_instance;
  publish (VaultEvent.tok_allow token approved).

Definition deposit_with_failure_report (from : Address) amount : VM bool :=
  non_reentrant (
    do! assert_not_paused;
    let! owner := get_owner in
    do! require_owner_or_operator from owner;
    do! throw_if (amount <=? 0) InvalidAmount;
    do! throw_if (MAX_VAULT_DEPOSIT <? amount) DepositExceedsMax;
    let! token := get_token in
    let! approved := is_token_approved token in
    do! throw_if (negb approved) TokenNotApproved;
    let! contract := contract_address in
    let! before := token_balance token contract in
    let! max := get_max_limit in
    let! expected := ok_or (checked_i128 (before + amount)) ArithmeticOverflow in
    do! throw_if (max <? expected) LimitExceeded;
    let! unchanged := check_vault_balance token before in
    do! throw_if (negb unchanged) VaultBalanceChanged;
    let! moved := token_try_transfer token from contract amount in
    if negb moved then
      do! publish (VaultEvent.VaultDepositFailed from token amount 1);
      ret false
    else
      let! after := token_balance token contract in
      do! throw_if (negb (after =? expected)) DepositTransferFailed;
      let! previous := get_token_account_balance token from in
      let! credited := ok_or (checked_i128 (previous + amount)) ArithmeticOverflow in
      do! set_token_account_balance token from credited;
      do! record_vault_balance token after;
      do! bump_instance;
      do! publish (VaultEvent.deposited from amount after);
      ret true).

(** ** Emergency migration *)

Definition initiate_emergency_migration caller (destination : Address) : VM unit :=
  do! require_owner caller;
  do! throw_if (is_zero_address destination) InvalidParam;
  let! now := ledger_timestamp in
  let! executable_at :=
    ok_or (checked_u64 (now + EMERGENCY_MIGRATION_TIMELOCK_SECONDS)) ArithmeticOverflow in
  do! bump_instance;
  do! sset VaultKey.EmergencyMigration (mkEmergencyMigration destination now executable_at);
  publish (VaultEvent.em_init caller destination executable_at).

Definition execute_emergency_migration caller : VM Z :=
  non_reentrant (
    do! require_owner caller;
    let! stored := sget VaultKey.EmergencyMigration in
    let! migration := ok_or stored NoMigrationProposed in
    let! now := ledger_timestamp in
    do! throw_if (now <? em_executable_at migration) TimelockNotExpired;
    let! tk := get_token in
    let! contract := contract_address in
    let! balance := token_balance tk contract in
    do! (if 0 <? balance then token_transfer tk contract (em_destination migration) balance
         else ret tt);
    do! sremove VaultKey.EmergencyMigration;
    do! bump_instance;
    do! publish (VaultEvent.em_exec caller (em_destination migration) balance);
    ret balance).

Definition cancel_emergency_migration caller : VM unit :=
  do! require_owner caller;
  let! stored := sget VaultKey.EmergencyMigration in
  do! ok_or stored NoMigrationProposed;
  do! sremove VaultKey.EmergencyMigration;
  do! bump_instance;
  publish (VaultEvent.em_cancel caller).

End Vault.
