(* ===== verification/VaultSystem.v ===== *)
(** * TokenVault: calls, frames and reachable worlds

    The entry points as a type of calls, the parts of the storage each call may
    write, the worlds a deployed vault can be in, and what a call does to the
    state outside it. *)

From stdpp Require Import base numbers list option strings gmap.
From Stdlib Require Import ZArith Lia String.
From S2P Require Import Prelude Host Ttl Pause Rbac Frame Safe VaultData VaultOps.
Import VaultError.

#[local] Open Scope Z_scope.
#[local] Open Scope sf_scope.

(** What the vault relies on when it calls a stream: the call takes nothing
    from the vault, which signs for no transfer in it. *)
Class StreamLaws (T : Type) `{TokenClient T} `{StreamClient T} : Prop := {
  stream_withdraw_balance t auth self s amt t' tk b' :
    stream_withdraw t auth self s amt = Some t' -> tok_balance t' tk self = Some b' ->
    exists b, tok_balance t tk self = Some b /\ b <= b'
}.

Inductive vault_call :=
| VInitialize (owner token : Address) (max_limit : Z)
| Deposit (from : Address) (amount : Z)
| DepositWithFee (from : Address) (gross_amount fee_amount : Z)
| BatchDeposit (deposits : list DepositSpec)
| DepositToken (from token : Address) (amount : Z)
| DepositWithFailureReport (from : Address) (amount : Z)
| Withdraw (caller to : Address) (amount : Z)
| WithdrawBatch (caller : Address) (payouts : list (Address * Z))
| WithdrawToken (caller token to : Address) (amount : Z)
| VaultBatchWithdraw (stream_ids : list Address) (recipient : Address)
| SetOperatorWithdrawLimit (caller : Address) (new_limit : Z)
| SetLimit (caller : Address) (new_limit : Z)
| SetTokenMaxLimit (caller token : Address) (limit : Z)
| ApproveToken (caller token : Address) (approved : bool)
| SetOperator (caller operator : Address)
| RevokeOperator (caller : Address)
| ProposeOwner (caller new_owner : Address)
| AcceptOwner (caller : Address)
| SetOwnerProposalTtl (caller : Address) (ttl_seconds : Z)
| VPause (caller : Address)
| VUnpause (caller : Address)
| VIsPaused
| EffectiveWithdrawLimit (caller : Address)
| KeepAlive
| BumpAllVaultKeys
| VUpgrade (caller : Address) (new_wasm_hash : Z)
| InitiateEmergencyMigration (caller destination : Address)
| ExecuteEmergencyMigration (caller : Address)
| CancelEmergencyMigration (caller : Address).

(** Arguments have their machine width. *)
Definition vault_typed (c : vault_call) : Prop :=
  match c with
  | SetOwnerProposalTtl _ n => U64 n
  | _ => True
  end.

Section System.
Context {T : Type} `{TC : TokenClient T} `{SC : StreamClient T}.
Abbreviation VM := (M VaultKey.data_key T VaultEvent.vault_event vault_error).
Abbreviation VWorld := (World VaultKey.data_key T VaultEvent.vault_event).
Implicit Types (w : VWorld) (c : vault_call).

Definition vault_exec c : VM unit :=
  match c with
  | VInitialize o t m => initialize o t m
  | Deposit f a => deposit f a
  | DepositWithFee f g e => deposit_with_fee f g e
  | BatchDeposit l => batch_deposit l
  | DepositToken f t a => deposit_token f t a
  | DepositWithFailureReport f a => do! deposit_with_failure_report f a; ret tt
  | Withdraw c t a => withdraw c t a
  | WithdrawBatch c l => withdraw_batch c l
  | WithdrawToken c k t a => withdraw_token c k t a
  | VaultBatchWithdraw l r => do! vault_batch_withdraw l r; ret tt
  | SetOperatorWithdrawLimit c n => set_operator_withdraw_limit c n
  | SetLimit c n => set_limit c n
  | SetTokenMaxLimit c t n => set_token_max_limit c t n
  | ApproveToken c t b => approve_token c t b
  | SetOperator c o => set_operator c o
  | RevokeOperator c => revoke_operator c
  | ProposeOwner c o => propose_owner c o
  | AcceptOwner c => accept_owner c
  | SetOwnerProposalTtl c n => set_owner_proposal_ttl c n
  | VPause c => pause c
  | VUnpause c => unpause c
  | VIsPaused => do! is_paused; ret tt
  | EffectiveWithdrawLimit c => do! effective_withdraw_limit c; ret tt
  | KeepAlive => keep_alive
  | BumpAllVaultKeys => do! bump_all_vault_keys; ret tt
  | VUpgrade c h => upgrade c h
  | InitiateEmergencyMigration c d => initiate_emergency_migration c d
  | ExecuteEmergencyMigration c => do! execute_emergency_migration c; ret tt
  | CancelEmergencyMigration c => cancel_emergency_migration c
  end.

(** *** Frames of the helpers *)

#[export] Instance keeps_non_reentrant (R : VWorld -> VWorld -> Prop) `{!PreOrder R}
    `{!forall v, Allows R (put_temp VaultKey.ReentrancyLock v)} {A} (m : VM A) :
  Keeps R m -> Keeps R (non_reentrant m).
Proof.
  intros Hm. unfold non_reentrant. do 3 (apply keeps_bind; [apply _|apply _|intros ?]).
  intros env w. pose proof (Hm env w) as Hmw. destruct (m env w) as [| |]; [| |exact I];
    (etransitivity; [exact Hmw|]; apply allows).
Qed.

#[export] Instance keeps_try_stream (R : VWorld -> VWorld -> Prop) `{!PreOrder R} {A}
    (answer : T -> option A) : Keeps R (try_stream answer).
Proof. intros env w. unfold try_stream. destruct (answer _); reflexivity. Qed.

Section Helpers.
Context (R : VWorld -> VWorld -> Prop) `{!PreOrder R}.

#[export] Instance keeps_get_owner : Keeps R get_owner.
Proof. unfold get_owner. solve_keeps. Qed.
#[export] Instance keeps_get_token : Keeps R get_token.
Proof. unfold get_token. solve_keeps. Qed.
#[export] Instance keeps_get_max_limit : Keeps R get_max_limit.
Proof. unfold get_max_limit. solve_keeps. Qed.
#[export] Instance keeps_vault_balance : Keeps R vault_balance.
Proof. unfold vault_balance. solve_keeps. Qed.
#[export] Instance keeps_validate t : Keeps R (validate_sep41_token t).
Proof. unfold validate_sep41_token. solve_keeps. Qed.
#[export] Instance keeps_withdraw_cap a b : Keeps R (withdraw_cap a b).
Proof. unfold withdraw_cap. solve_keeps. Qed.
#[export] Instance keeps_require_oo a b : Keeps R (require_owner_or_operator a b).
Proof. unfold require_owner_or_operator. solve_keeps. Qed.
#[export] Instance keeps_require_owner a : Keeps R (require_owner a).
Proof. unfold require_owner. solve_keeps. Qed.
#[export] Instance keeps_account a b : Keeps R (get_token_account_balance a b).
Proof. unfold get_token_account_balance. solve_keeps. Qed.
#[export] Instance keeps_token_limit a : Keeps R (get_token_max_limit a).
Proof. exact (keeps_pget R (VaultKey.TokenMaxLimit a)). Qed.
#[export] Instance keeps_approved a : Keeps R (is_token_approved a).
Proof. unfold is_token_approved. solve_keeps. Qed.
#[export] Instance keeps_check a b : Keeps R (check_vault_balance a b).
Proof. unfold check_vault_balance. solve_keeps. Qed.
#[export] Instance keeps_record a b `{!forall v, Allows R (put (VaultKey.BalanceSnapshot a) v)} :
  Keeps R (record_vault_balance a b).
Proof. unfold record_vault_balance. solve_keeps. Qed.
#[export] Instance keeps_sum_payouts l n : Keeps R (sum_payouts l n).
Proof. revert n. induction l as [|[? ?] l IH]; intros; cbn [sum_payouts]; solve_keeps. Qed.
#[export] Instance keeps_sum_deposits l n : Keeps R (sum_deposits l n).
Proof. revert n. induction l as [|? l IH]; intros; cbn [sum_deposits]; solve_keeps. Qed.
#[export] Instance keeps_collect s l r p n : Keeps R (collect_payouts s l r p n).
Proof.
  revert s p n. induction l as [|? l IH]; intros; cbn [collect_payouts]; solve_keeps.
Qed.

#[export] Instance keeps_track k `{!forall v, Allows R (put VaultKey.TrackedVaultKeys v)} :
  Keeps R (track_vault_key k).
Proof. unfold track_vault_key. solve_keeps. Qed.

Context `{!forall v, Allows R (put VaultKey.Paused v)}.

#[export] Instance keeps_vault_is_paused : Keeps R is_paused.
Proof. unfold is_paused. apply _. Qed.
#[export] Instance keeps_vault_set_paused b : Keeps R (set_paused b).
Proof. unfold set_paused. apply _. Qed.
#[export] Instance keeps_vault_not_paused : Keeps R assert_not_paused.
Proof. unfold assert_not_paused. apply _. Qed.

End Helpers.

(** *** Frames of the loops *)

Section Loops.
Context (R : VWorld -> VWorld -> Prop) `{!PreOrder R} `{!forall o a b, Allows R (add_ttl o a b)}.

#[export] Instance keeps_refresh l n : Keeps R (refresh_keys l n).
Proof. revert n. induction l as [|? l IH]; intros; cbn [refresh_keys]; solve_keeps. Qed.
#[export] Instance keeps_ttl_bump : Keeps R ttl_bump_all_vault_keys.
Proof. unfold ttl_bump_all_vault_keys, tracked_vault_keys. solve_keeps. Qed.

Context `{!forall t, Allows R (set_tokens t)} `{!forall x, Allows R (add_event x)}.

#[export] Instance keeps_pull_each t a l : Keeps R (pull_each t a l).
Proof. induction l as [|? l IH]; intros; cbn [pull_each]; solve_keeps. Qed.
#[export] Instance keeps_stream_withdraw s n : Keeps R (try_stream_withdraw s n).
Proof.
  intros env w. unfold try_stream_withdraw. destruct (stream_withdraw _ _ _ _ _); [apply allows|reflexivity].
Qed.
#[export] Instance keeps_withdraw_each l : Keeps R (withdraw_each l).
Proof. induction l as [|[? ?] l IH]; intros; cbn [withdraw_each]; solve_keeps. Qed.
#[export] Instance keeps_pay_each a t k b l n
  `{!forall v, Allows R (put (VaultKey.BalanceSnapshot t) v)} : Keeps R (pay_each a t k b l n).
Proof. revert n. induction l as [|[? ?] l IH]; intros; cbn [pay_each]; solve_keeps. Qed.

End Loops.

End System.

Ltac unfold_vault :=
  cbn [vault_exec];
  unfold initialize, deposit, deposit_with_fee, batch_deposit, deposit_token, deposit_with_failure_report,
    withdraw, withdraw_batch, withdraw_payouts, withdraw_token, vault_batch_withdraw,
    set_operator_withdraw_limit, set_limit, set_token_max_limit, store_token_max_limit,
    set_token_account_balance,
    approve_token, set_operator, revoke_operator, propose_owner, accept_owner,
    set_owner_proposal_ttl, pause, unpause, effective_withdraw_limit, keep_alive,
    bump_all_vault_keys, upgrade, initiate_emergency_migration, execute_emergency_migration,
    cancel_emergency_migration.
Ltac solve_vault := unfold_vault; solve_keeps.

(** ** What a call does to the rest of the chain

    Every entry point of the vault keeps what its own token transfers and its
    withdrawals from streams keep. *)

Section Outside.
Context {T : Type} `{TC : TokenClient T} `{SC : StreamClient T}.
Abbreviation VM := (M VaultKey.data_key T VaultEvent.vault_event VaultError.vault_error).
Context (env : Env) (P : T -> Prop) `{HC : !TransferClosed env P}.

(** What the withdrawals from streams keep. *)
Context (HW : forall t s amt t',
  stream_withdraw t (call_auth env) (current_contract env) s amt = Some t' -> P t -> P t').

#[local] Instance sf_non_reentrant {A} (m : VM A) : Safe env P m -> Safe env P (non_reentrant m) | 1.
Proof.
  intros Hm. unfold non_reentrant. do 3 (apply safe_bind; [solve_safe|intros ?]).
  intros w HP. specialize (Hm w HP). by destruct (m env w).
Qed.

#[local] Instance sf_stream_withdraw s n : Safe env P (try_stream_withdraw s n : VM _) | 1.
Proof.
  intros w HP. unfold try_stream_withdraw. destruct (stream_withdraw _ _ _ _ _) eqn:H; [|exact HP].
  exact (HW _ _ _ _ H HP).
Qed.

#[local] Instance sf_withdraw_each l : Safe env P (withdraw_each l : VM _) | 1.
Proof. induction l as [|[? ?] l IH]; cbn [withdraw_each]; solve_safe. Qed.
#[local] Instance sf_pull_each t a l : Safe env P (pull_each t a l : VM _) | 1.
Proof. induction l as [|? l IH]; cbn [pull_each]; solve_safe. Qed.
#[local] Instance sf_pay_each a t k b l n : Safe env P (pay_each a t k b l n : VM _) | 1.
Proof. revert n. induction l as [|[? ?] l IH]; intros; cbn [pay_each]; solve_safe. Qed.

(** A call of a vault keeps what its transfers and stream withdrawals keep. *)
Lemma vault_exec_safe c : Safe env P (vault_exec c : VM unit).
Proof. destruct c; unfold_vault; solve_safe. Qed.

End Outside.
