(* ===== verification/VaultFunds.v ===== *)
(** * TokenVault: where the funds go

    The effect of every entry point on the vault's balances: deposits, payouts
    and the migration move exactly what they say, and what leaves the vault was
    authorised by its owner or, within the limit, by its operator. *)

From stdpp Require Import base numbers list option strings gmap.
From Stdlib Require Import ZArith Lia String.
From S2P Require Import Prelude Host Ttl Pause Rbac Frame VaultData VaultOps VaultSystem.
Import VaultError.

#[local] Open Scope Z_scope.
#[local] Open Scope sf_scope.

Section Funds.
Context {T : Type} `{TC : TokenClient T} `{SC : StreamClient T}.
Abbreviation VM := (M VaultKey.data_key T VaultEvent.vault_event vault_error).
Abbreviation VWorld := (World VaultKey.data_key T VaultEvent.vault_event).
Implicit Types (w : VWorld) (c : vault_call).

(** ** Quiet steps: at most the pause cell, events and TTL requests change *)

Record quiet w w' : Prop := {
  q_store k : k <> VaultKey.Paused -> w_store w' k = w_store w k;
  q_persist : w_persist w' = w_persist w;
  q_tokens : w_tokens w' = w_tokens w
}.

#[export] Instance quiet_preorder : PreOrder quiet.
Proof.
  split; [done|]. intros w1 w2 w3 [S1 P1 T1] [S2 P2 T2].
  split; [|congruence..]. intros k Hk. by rewrite S2, S1.
Qed.

#[export] Instance quiet_paused v : Allows quiet (put VaultKey.Paused v).
Proof. intros w. split; [|done..]. intros k Hk. by rewrite put_store_ne. Qed.
#[export] Instance quiet_temp k v : Allows quiet (put_temp k v).
Proof. done. Qed.
#[export] Instance quiet_event x : Allows quiet (add_event x).
Proof. done. Qed.
#[export] Instance quiet_ttl o a b : Allows quiet (add_ttl o a b).
Proof. done. Qed.

(** A quiet computation that succeeded. *)
Lemma quiet_ok {E A} (m : M VaultKey.data_key T VaultEvent.vault_event E A) env w a w' :
  Keeps quiet m -> m env w = ROk a w' -> quiet w w'.
Proof. intros Hm H. exact (keeps_ok quiet m env w a w' H). Qed.

Lemma non_reentrant_ok {A} (m : VM A) env w a w' :
  non_reentrant m env w = ROk a w' ->
  exists w0 w1, quiet w w0 /\ m env w0 = ROk a w1 /\ quiet w1 w' /\
    w_temp w' VaultKey.ReentrancyLock = None.
Proof.
  intros H. unfold non_reentrant in H.
  apply bind_ok in H as (h & w1 & Hg & H). injection Hg as <- <-.
  apply bind_ok in H as (u & w1 & Hg & H). apply throw_if_ok in Hg as [Hl ->].
  apply bind_ok in H as (u1 & w1 & Hg & H). injection Hg as _ <-.
  destruct (m env _) as [a1 w1|e w1|t] eqn:Hm; [|done|done]. injection H as <- <-.
  eexists _, w1. split; [|split; [exact Hm|split]].
  - apply quiet_temp.
  - apply quiet_temp.
  - apply put_temp_eq.
Qed.

Lemma require_oo_ok caller owner env w u w' :
  require_owner_or_operator caller owner env w = ROk u w' ->
  w' = w /\ authorized env caller = true /\
  (caller = owner \/ w_store w VaultKey.Operator = Some caller).
Proof.
  unfold require_owner_or_operator. intros H. inv_ok.
  split; [done|]. split; [done|]. apply orb_true_iff in Heqb as [Hb|Hb].
  - left. by apply addr_eqb_true.
  - right. destruct (w_store w VaultKey.Operator); [|done]. apply addr_eqb_true in Hb as ->. done.
Qed.

Lemma require_owner_ok caller env w u w' :
  require_owner caller env w = ROk u w' ->
  w' = w /\ authorized env caller = true /\ w_store w VaultKey.Owner = Some caller.
Proof.
  unfold require_owner, get_owner. intros H. inv_ok. breflect.
  match goal with H : addr_eqb _ _ = true |- _ => apply addr_eqb_true in H as -> end. done.
Qed.

Lemma withdraw_cap_ok caller owner env w cap w' :
  withdraw_cap caller owner env w = ROk cap w' ->
  w' = w /\
  ((caller = owner /\ cap = i128_max) \/
   (caller <> owner /\ w_store w VaultKey.Operator = Some caller /\
    w_store w VaultKey.OperatorWithdrawLimit = Some cap)).
Proof.
  unfold withdraw_cap. destruct (addr_eqb caller owner) eqn:Hc; intros H; inv_ok.
  - apply addr_eqb_true in Hc. auto.
  - apply addr_eqb_false in Hc. breflect. auto.
Qed.

Lemma record_ok token b env w u w' :
  record_vault_balance token b env w = ROk u w' ->
  w' = put (VaultKey.BalanceSnapshot token)
         (Some (mkVaultBalanceSnapshot (sequence env) b : key_val (VaultKey.BalanceSnapshot token))) w.
Proof. unfold record_vault_balance. intros H. inv_ok. done. Qed.

(** *** Writing a persistent entry and its index *)

Definition tracked w : list VaultKey.data_key := default [] (w_store w VaultKey.TrackedVaultKeys).

Definition track (key : VaultKey.data_key) (keys : list VaultKey.data_key) :=
  if bool_decide (key ∈ keys) then keys else keys ++ [key].

(** [w'] is [w] with a persistent write under [key], indexed. *)
Record indexed_write (key : VaultKey.data_key) (v : key_val key) w w' : Prop := {
  iw_persist : w_persist w' = store_put key (Some v) (w_persist w);
  iw_tracked : tracked w' = track key (tracked w);
  iw_store k : k <> VaultKey.TrackedVaultKeys -> w_store w' k = w_store w k;
  iw_tokens : w_tokens w' = w_tokens w
}.

Lemma indexed_write_ok key (v : key_val key) env w u w' :
  (do! pset key v; do! bump_persistent key; track_vault_key key) env w = ROk u w' ->
  indexed_write key v w w'.
Proof.
  intros H. apply bind_ok in H as (u1 & w1 & Hg & H). injection Hg as _ <-.
  apply bind_ok in H as (u2 & w1 & Hg & H).
  unfold bump_persistent, extend_ttl_persistent in Hg.
  destruct (is_some _); [|done]. injection Hg as _ <-.
  unfold track_vault_key in H. apply bind_ok in H as (l & w1 & Hg & H). injection Hg as <- <-.
  unfold tracked, track. destruct (bool_decide _) eqn:Hk; injection H as _ <-.
  - split; [done| |done|done]. unfold tracked, track. cbn. by rewrite Hk.
  - split; [done| | |done].
    + unfold tracked, track. store_simpl. cbn. by rewrite Hk.
    + intros k Hne. by store_simpl.
Qed.

Lemma set_account_ok token a b env w u w' :
  set_token_account_balance token a b env w = ROk u w' ->
  indexed_write (VaultKey.TokenAccountBalance token a) b w w'.
Proof. apply indexed_write_ok. Qed.

(** ** Payouts *)

Lemma sum_payouts_ok l t env w s w' :
  sum_payouts l t env w = ROk s w' ->
  w' = w /\ s = t + total_of l.*2 /\ Forall (fun p => 0 < p.2) l.
Proof.
  revert t w. induction l as [|[a n] l IH]; intros t w H; cbn [sum_payouts] in H.
  - injection H as <- <-. cbn. split_and!; [done|lia|done].
  - apply bind_ok in H as (u & w1 & Hg & H). apply throw_if_ok in Hg as [Hp ->].
    apply bind_ok in H as (u1 & w1 & Hg & H). apply ok_or_ok in Hg as [Hg ->]. checked_inv.
    apply IH in H as (-> & -> & Hf). cbn. breflect. unfold total_of. split_and!; [done|lia|].
    by constructor.
Qed.

Context `{TL : !TokenLaws T}.

Lemma pay_each_ok caller token tk op l e env w u w' :
  pay_each caller token tk op l e env w = ROk u w' ->
  moved tk (w_tokens w) (w_tokens w')
    (fun a => received l a - at_addr (current_contract env) (total_of l.*2) a).
Proof.
  revert e w. induction l as [|[a n] l IH]; intros e w H; cbn [pay_each] in H.
  - injection H as _ <-. eapply moved_ext; [|apply moved_refl]. intros x. cbn. unfold at_addr.
    destruct (addr_eqb _ _); lia.
  - apply bind_ok in H as (u1 & w1 & Hg & H). apply ok_or_ok in Hg as [_ ->].
    apply bind_ok in H as (c & w1 & Hg & H). injection Hg as <- <-.
    apply bind_ok in H as (u2 & w1 & Ht & H). apply token_transfer_ok in Ht as (t' & Ht & ->).
    apply bind_ok in H as (nb & w1 & Hg & H).
    apply (keeps_ok same_tokens) in Hg; [|apply _].
    apply bind_ok in H as (u3 & w2 & Hr & H). apply throw_if_ok in Hr as [_ ->].
    apply bind_ok in H as (u4 & w2 & Hr & H). apply record_ok in Hr as ->.
    apply bind_ok in H as (u5 & w2 & Hr & H). injection Hr as _ <-.
    apply IH in H. revert H. cbn [w_tokens add_event]. rewrite put_tokens, Hg. cbn [w_tokens set_tokens].
    intros H. eapply moved_ext; [|eapply moved_trans; [eapply moved_transfer; exact Ht|exact H]].
    intros x. cbn. unfold at_addr, total_of. repeat case_match; lia.
Qed.

(** Who may take [amt] out: the owner, or the operator up to its limit. *)
Definition may_withdraw env w caller amt : Prop :=
  authorized env caller = true /\
  (w_store w VaultKey.Owner = Some caller \/
   w_store w VaultKey.Operator = Some caller /\
   exists limit, w_store w VaultKey.OperatorWithdrawLimit = Some limit /\ amt <= limit).

Lemma may_withdraw_quiet env w w0 caller amt :
  quiet w w0 -> may_withdraw env w0 caller amt -> may_withdraw env w caller amt.
Proof.
  intros [Hs _ _] [Ha H]. split; [done|]. by rewrite !Hs in H by congruence.
Qed.

Lemma may_withdraw_intro env w w1 caller owner cap amt u r w2 :
  require_owner_or_operator caller owner env w = ROk u w1 ->
  w_store w VaultKey.Owner = Some owner ->
  withdraw_cap caller owner env w = ROk r w2 -> r = cap -> amt <= cap ->
  may_withdraw env w caller amt.
Proof.
  intros (_ & Ha & _)%require_oo_ok Ho (_ & Hc)%withdraw_cap_ok -> Hle. split; [done|].
  destruct Hc as [[-> _]|(_ & Hop & Hl)]; eauto.
Qed.

Lemma get_owner_ok env w o w' :
  get_owner env w = ROk o w' -> w' = w /\ w_store w VaultKey.Owner = Some o.
Proof. unfold get_owner. intros H. by inv_ok. Qed.

Lemma get_token_ok env w o w' :
  get_token env w = ROk o w' -> w' = w /\ w_store w VaultKey.Token = Some o.
Proof. unfold get_token. intros H. by inv_ok. Qed.

Lemma vault_balance_ok env w b w' :
  vault_balance env w = ROk b w' ->
  w' = w /\ exists tk, w_store w VaultKey.Token = Some tk /\
    tok_balance (w_tokens w) tk (current_contract env) = Some b.
Proof.
  unfold vault_balance. intros H. apply bind_ok in H as (tk & w1 & Ht & H).
  apply get_token_ok in Ht as [-> Ht]. inv_ok. eauto.
Qed.

Lemma validate_ok token env w u w' :
  validate_sep41_token token env w = ROk u w' -> w' = w /\ is_zero_address token = false.
Proof. unfold validate_sep41_token. intros H. by inv_ok. Qed.

Lemma withdraw_payouts_ok caller l env w u w' :
  withdraw_payouts caller l env w = ROk u w' ->
  exists tk b, w_store w VaultKey.Token = Some tk /\
    tok_balance (w_tokens w) tk (current_contract env) = Some b /\ total_of l.*2 <= b /\
    l <> [] /\ Forall (fun p => 0 < p.2) l /\ may_withdraw env w caller (total_of l.*2) /\
    moved tk (w_tokens w) (w_tokens w')
      (fun a => received l a - at_addr (current_contract env) (total_of l.*2) a).
Proof.
  intros H. apply non_reentrant_ok in H as (w0 & w9 & Q0 & H & Q9 & _).
  apply bind_ok in H as (u1 & w1 & Hp & H). apply quiet_ok in Hp; [|apply _].
  assert (Q : quiet w w1) by by transitivity w0. clear Q0 Hp.
  apply bind_ok in H as (owner & w2 & Ho & H). apply get_owner_ok in Ho as [-> Ho].
  apply bind_ok in H as (u2 & w2 & Hr & H). pose proof (require_oo_ok _ _ _ _ _ _ Hr) as [-> _].
  apply bind_ok in H as (u3 & w2 & Hg & H). apply throw_if_ok in Hg as [Hne ->].
  apply bind_ok in H as (tk & w2 & Ht & H). apply get_token_ok in Ht as [-> Ht].
  apply bind_ok in H as (u4 & w2 & Hg & H). apply validate_ok in Hg as [-> _].
  apply bind_ok in H as (s & w2 & Hs & H). apply sum_payouts_ok in Hs as (-> & -> & Hf).
  apply bind_ok in H as (cap & w2 & Hc & H). pose proof (withdraw_cap_ok _ _ _ _ _ _ Hc) as [-> _].
  apply bind_ok in H as (u5 & w2 & Hg & H). apply throw_if_ok in Hg as [Hle ->].
  apply bind_ok in H as (b & w2 & Hb & H).
  apply vault_balance_ok in Hb as (-> & tk' & Ht' & Hb). rewrite Ht in Ht'. injection Ht' as <-.
  apply bind_ok in H as (u6 & w2 & Hg & H). apply throw_if_ok in Hg as [Hlb ->].
  apply bind_ok in H as (tk2 & w2 & Ht2 & H). apply get_token_ok in Ht2 as [-> Ht2].
  rewrite Ht in Ht2. injection Ht2 as <-.
  apply bind_ok in H as (u7 & w2 & Hpay & H). injection H as _ <-. apply pay_each_ok in Hpay.
  breflect. cbn [Z.add] in *. exists tk, b. rewrite <- (q_store _ _ Q) by done.
  rewrite <- (q_tokens _ _ Q), (q_tokens _ _ Q9). cbn [w_tokens add_ttl].
  split_and!; try done.
  eapply may_withdraw_quiet; [exact Q|]. by eapply may_withdraw_intro.
Qed.

(** ** Computations that take nothing from the vault

    [Spares m]: in an invocation the vault itself signs nothing in, [m] leaves
    the vault at least what it held, in every token.  Found by instance
    resolution: a transfer in must come from an address that signed. *)

Context `{SL : !StreamLaws T}.
Context (env : Env) (Hself : authorized env (current_contract env) = false).

Class Spares {A} (m : VM A) : Prop :=
  spares w r w' : m env w = ROk r w' -> no_loss (current_contract env) (w_tokens w) (w_tokens w').

Class Signed (a : Address) : Prop := signed : authorized env a = true.

Lemma signed_not_self a `{!Signed a} : a <> current_contract env.
Proof. intros ->. unfold Signed in *. congruence. Qed.

#[export] Instance spares_same {A} (m : VM A) : Keeps same_tokens m -> Spares m | 10.
Proof. intros Hm w r w' H. apply (keeps_ok same_tokens) in H; [|done]. by rewrite H. Qed.

#[export] Instance spares_bind {A B} (m : VM A) (f : A -> VM B) :
  Spares m -> (forall a, Spares (f a)) -> Spares (bind m f) | 5.
Proof. intros Hm Hf w r w' (a & w1 & H1 & H2)%bind_ok. etransitivity; [by eapply Hm|by eapply Hf]. Qed.

#[export] Instance spares_non_reentrant {A} (m : VM A) : Spares m -> Spares (non_reentrant m).
Proof.
  intros Hm w r w' (w0 & w1 & [_ _ T0] & H & [_ _ T1] & _)%non_reentrant_ok.
  rewrite T1, <- T0. by eapply Hm.
Qed.

#[export] Instance spares_require {B} a o (f : unit -> VM B) :
  (Signed a -> forall u, Spares (f u)) -> Spares (bind (require_owner_or_operator a o) f) | 1.
Proof.
  intros Hf w r w' (u & w1 & H1 & H2)%bind_ok. apply require_oo_ok in H1 as (-> & Ha & _).
  exact (Hf Ha u w r w' H2).
Qed.

#[export] Instance spares_transfer tk from to amt :
  Signed from -> Spares (token_transfer tk from to amt).
Proof.
  intros Hs w r w' (t' & Ht & ->)%token_transfer_ok.
  eapply no_loss_transfer; [exact Ht|]. by apply signed_not_self.
Qed.

#[export] Instance spares_try_transfer tk from to amt :
  Signed from -> Spares (token_try_transfer tk from to amt).
Proof.
  intros Hs w r w' H%token_try_transfer_ok.
  destruct (tok_transfer _ _ _ _ _ _) as [t'|] eqn:Ht; destruct H as [_ ->]; [|reflexivity].
  eapply no_loss_transfer; [exact Ht|]. by apply signed_not_self.
Qed.

Lemma sum_deposits_ok l t w s w' :
  sum_deposits l t env w = ROk s w' -> w' = w /\ Forall (fun d => Signed (ds_from d)) l.
Proof.
  revert t w. induction l as [|d l IH]; intros t w H; cbn [sum_deposits] in H.
  - by injection H as _ <-.
  - inv_ok. match goal with H : sum_deposits _ _ _ _ = _ |- _ => apply IH in H as [-> Hf] end.
    split; [done|]. by constructor.
Qed.

#[export] Instance spares_sum_deposits {B} l t (f : Z -> VM B) :
  (Forall (fun d => Signed (ds_from d)) l -> forall s, Spares (f s)) ->
  Spares (bind (sum_deposits l t) f) | 1.
Proof.
  intros Hf w r w' (u & w1 & H1 & H2)%bind_ok. apply sum_deposits_ok in H1 as (-> & Hl).
  exact (Hf Hl u w r w' H2).
Qed.

#[export] Instance spares_pull_each tk a l :
  Forall (fun d => Signed (ds_from d)) l -> Spares (pull_each tk a l).
Proof. induction 1; cbn [pull_each]; solve_keeps. Qed.

#[export] Instance spares_stream_withdraw s amt : Spares (try_stream_withdraw s amt).
Proof.
  intros w r w' H. unfold try_stream_withdraw in H.
  destruct (stream_withdraw _ _ _ _ _) as [t'|] eqn:Ht; [|done]. injection H as _ <-.
  intros tk b'. eapply stream_withdraw_balance. exact Ht.
Qed.

#[export] Instance spares_withdraw_each l : Spares (withdraw_each l).
Proof. induction l as [|[s n] l IH]; cbn [withdraw_each]; apply _. Qed.

End Funds.

#[export] Hint Extern 1 (Signed _ _) => assumption : typeclass_instances.
#[export] Hint Extern 1 (authorized _ _ = false) => assumption : typeclass_instances.
#[export] Hint Extern 1 (Forall _ _) => assumption : typeclass_instances.
#[export] Hint Extern 2 (Spares _ (match ?x with _ => _ end)) => destruct x : typeclass_instances.

Section Outflow.
Context {T : Type} `{TC : TokenClient T} `{SC : StreamClient T}.
Context `{TL : !TokenLaws T} `{SL : !StreamLaws T}.
Abbreviation VWorld := (World VaultKey.data_key T VaultEvent.vault_event).
Implicit Types (w : VWorld) (c : vault_call).

(** The calls that take funds out of the vault. *)
Definition pays_out c : bool :=
  match c with
  | Withdraw _ _ _ | WithdrawBatch _ _ | WithdrawToken _ _ _ _ | ExecuteEmergencyMigration _ => true
  | _ => false
  end.

Lemma exec_spares env c :
  authorized env (current_contract env) = false -> pays_out c = false -> Spares env (vault_exec c).
Proof. intros Hs Hc. destruct c; try discriminate Hc; clear Hc; solve_vault. Qed.


Lemma withdraw_token_ok caller token to amt env w u w' :
  withdraw_token caller token to amt env w = ROk u w' ->
  0 < amt /\ may_withdraw env w caller amt /\
  moved token (w_tokens w) (w_tokens w')
    (fun a => at_addr to amt a - at_addr (current_contract env) amt a).
Proof.
  intros H. apply non_reentrant_ok in H as (w0 & w9 & Q0 & H & Q9 & _).
  apply bind_ok in H as (u1 & w1 & Hp & H). apply quiet_ok in Hp; [|apply _].
  assert (Q : quiet w w1) by by transitivity w0. clear Q0 Hp.
  apply bind_ok in H as (owner & w2 & Ho & H). apply get_owner_ok in Ho as [-> Ho].
  apply bind_ok in H as (u2 & w2 & Hr & H). pose proof (require_oo_ok _ _ _ _ _ _ Hr) as [-> _].
  apply bind_ok in H as (u3 & w2 & Hg & H). apply throw_if_ok in Hg as [Hpos ->].
  apply bind_ok in H as (cap & w2 & Hc & H). pose proof (withdraw_cap_ok _ _ _ _ _ _ Hc) as [-> _].
  apply bind_ok in H as (u4 & w2 & Hg & H). apply throw_if_ok in Hg as [Hle ->].
  apply bind_ok in H as (self & w2 & Hg & H). injection Hg as <- <-.
  apply bind_ok in H as (b & w2 & Hb & H). apply token_balance_ok in Hb as [Hb ->].
  apply bind_ok in H as (u5 & w2 & Hg & H). apply throw_if_ok in Hg as [Hlb ->].
  apply bind_ok in H as (acc & w2 & Ha & H). apply (keeps_ok same_tokens) in Ha; [|apply _].
  apply bind_ok in H as (u6 & w3 & Hg & H). apply throw_if_ok in Hg as [_ ->].
  apply bind_ok in H as (u7 & w3 & Hg & H). apply token_transfer_ok in Hg as (t' & Ht & ->).
  apply (keeps_ok same_tokens) in H; [|unfold set_token_account_balance; solve_keeps].
  rewrite (q_tokens _ _ Q9), H. cbn [w_tokens set_tokens]. rewrite Ha in Ht.
  rewrite <- (q_tokens _ _ Q). breflect. split_and!; [lia| |by eapply moved_transfer].
  eapply may_withdraw_quiet; [exact Q|]. by eapply may_withdraw_intro.
Qed.

(** The migration that is due, and the balance it moves. *)
Lemma execute_migration_ok caller env w r w' :
  execute_emergency_migration caller env w = ROk r w' ->
  exists m tk, authorized env caller = true /\ w_store w VaultKey.Owner = Some caller /\
    w_store w VaultKey.EmergencyMigration = Some m /\ em_executable_at m <= timestamp env /\
    w_store w VaultKey.Token = Some tk /\
    tok_balance (w_tokens w) tk (current_contract env) = Some r /\
    moved tk (w_tokens w) (w_tokens w')
      (fun a => at_addr (em_destination m) r a - at_addr (current_contract env) r a) /\
    w_store w' VaultKey.EmergencyMigration = None /\
    (forall k, k <> VaultKey.EmergencyMigration -> k <> VaultKey.Paused ->
       w_store w' k = w_store w k).
Proof.
  intros H. apply non_reentrant_ok in H as (w0 & w9 & Q0 & H & Q9 & _).
  apply bind_ok in H as (u1 & w1 & Hp & H). apply require_owner_ok in Hp as (-> & Ha & Ho).
  apply bind_ok in H as (o & w1 & Hg & H). injection Hg as <- <-.
  apply bind_ok in H as (m & w1 & Hg & H). apply ok_or_ok in Hg as [Hm ->].
  apply bind_ok in H as (now & w1 & Hg & H). injection Hg as <- <-.
  apply bind_ok in H as (u2 & w1 & Hg & H). apply throw_if_ok in Hg as [Hnow ->].
  apply bind_ok in H as (tk & w1 & Ht & H). apply get_token_ok in Ht as [-> Ht].
  apply bind_ok in H as (self & w1 & Hg & H). injection Hg as <- <-.
  apply bind_ok in H as (b & w1 & Hb & H). apply token_balance_ok in Hb as [Hb ->].
  apply bind_ok in H as (u3 & w1 & Hx & H).
  assert (Hmv : moved tk (w_tokens w0) (w_tokens w1)
            (fun a => at_addr (em_destination m) b a - at_addr (current_contract env) b a) /\
          w_store w1 = w_store w0).
  { destruct (0 <? b) eqn:Hz.
    - apply token_transfer_ok in Hx as (t' & Hx & ->). split; [by eapply moved_transfer|done].
    - injection Hx as _ <-. split; [|done]. eapply moved_ext; [|apply moved_refl].
      intros a. pose proof (tok_balance_range _ _ _ _ Hb). breflect. assert (b = 0) as -> by lia.
      unfold at_addr. repeat case_match; lia. }
  destruct Hmv as [Hmv Hs].
  apply bind_ok in H as (u4 & w2 & Hg & H). injection Hg as _ <-.
  apply bind_ok in H as (u5 & w2 & Hg & H). injection Hg as _ <-.
  apply bind_ok in H as (u6 & w2 & Hg & H). injection Hg as _ <-. injection H as <- <-.
  exists m, tk. rewrite <- (q_tokens _ _ Q0), <- !(q_store _ _ Q0) by done. breflect.
  split_and!; try done.
  - rewrite (q_tokens _ _ Q9). exact Hmv.
  - rewrite (q_store _ _ Q9) by done. cbn [w_store add_event add_ttl]. by store_simpl.
  - intros k Hk Hk'. rewrite (q_store _ _ Q9) by done. cbn [w_store add_event add_ttl].
    store_simpl. by rewrite Hs, (q_store _ _ Q0).
Qed.

Lemma received_nonneg l a : Forall (fun p => 0 < p.2) l -> 0 <= received l a.
Proof.
  induction 1 as [|[r n] l Hn Hl IH]; cbn in *; [lia|].
  unfold at_addr. destruct (addr_eqb _ _); lia.
Qed.

(** The authority behind an outflow of [amt]. *)
Definition outflow_allowed env w c amt : Prop :=
  match c with
  | Withdraw caller _ _ | WithdrawBatch caller _ | WithdrawToken caller _ _ _ =>
      may_withdraw env w caller amt
  | ExecuteEmergencyMigration caller =>
      authorized env caller = true /\ w_store w VaultKey.Owner = Some caller /\
      exists m, w_store w VaultKey.EmergencyMigration = Some m /\
                em_executable_at m <= timestamp env
  | _ => False
  end.

Lemma may_withdraw_le env w caller amt amt' :
  amt' <= amt -> may_withdraw env w caller amt -> may_withdraw env w caller amt'.
Proof.
  intros Hle [Ha H]. split; [done|]. destruct H as [H|(H & l & Hl & ?)]; [by left|right].
  split; [done|]. exists l. split; [done|lia].
Qed.

Lemma moved_loss tk t t' d tk' a b b' :
  moved tk t t' d -> tok_balance t tk' a = Some b -> tok_balance t' tk' a = Some b' -> b' < b ->
  tk' = tk /\ b' = b + d a.
Proof.
  intros Hm Hb Hb' Hlt. destruct (decide (tk' = tk)) as [->|Hne].
  - rewrite (moved_at _ _ _ _ _ _ Hm Hb) in Hb'. by injection Hb' as <-.
  - rewrite (moved_other _ _ _ _ Hm) in Hb' by done. rewrite Hb in Hb'. injection Hb' as <-. lia.
Qed.

Lemma payouts_outflow caller l env w u w' tk b b' :
  withdraw_payouts caller l env w = ROk u w' ->
  tok_balance (w_tokens w) tk (current_contract env) = Some b ->
  tok_balance (w_tokens w') tk (current_contract env) = Some b' -> b' < b ->
  may_withdraw env w caller (b - b').
Proof.
  intros H Hb Hb' Hlt. apply withdraw_payouts_ok in H as (tk0 & b0 & _ & _ & _ & _ & Hf & Hw & Hm).
  destruct (moved_loss _ _ _ _ _ _ _ _ Hm Hb Hb' Hlt) as [-> ->].
  eapply may_withdraw_le; [|exact Hw]. rewrite at_addr_eq.
  pose proof (received_nonneg l (current_contract env) Hf). lia.
Qed.

Lemma outflow_needs_authority c env w u w' tk b b' :
  authorized env (current_contract env) = false -> vault_exec c env w = ROk u w' ->
  tok_balance (w_tokens w) tk (current_contract env) = Some b ->
  tok_balance (w_tokens w') tk (current_contract env) = Some b' -> b' < b ->
  outflow_allowed env w c (b - b').
Proof.
  intros Hself H Hb Hb' Hlt. destruct (pays_out c) eqn:Hc.
  - destruct c; try discriminate Hc; cbn [vault_exec outflow_allowed] in *.
    + by eapply payouts_outflow.
    + by eapply payouts_outflow.
    + apply withdraw_token_ok in H as (Hpos & Hw & Hm).
      destruct (moved_loss _ _ _ _ _ _ _ _ Hm Hb Hb' Hlt) as [-> ->].
      eapply may_withdraw_le; [|exact Hw]. rewrite at_addr_eq. unfold at_addr.
      destruct (addr_eqb _ _); lia.
    + apply bind_ok in H as (r & w1 & H & Hr). injection Hr as _ <-.
      apply execute_migration_ok in H as (m & tk0 & Ha & Ho & Hmig & Hnow & _). eauto 10.
  - exfalso. destruct (exec_spares env c Hself Hc _ _ _ H _ _ Hb') as (b0 & Hb0 & Hle).
    rewrite Hb in Hb0. injection Hb0 as <-. lia.
Qed.

(** C11 Funds leave the vault only under its owner's authority. Whatever call
    succeeds, and for every token, if the vault's balance went down then the
    call was a withdrawal signed by the owner, or by the operator for no more
    than the limit the owner granted, or a migration signed by the owner whose
    time lock had run out; every other call leaves the vault at least what it
    held. *)
Theorem vault_outflow_is_authorized c env w u w' tk b b' :
  authorized env (current_contract env) = false -> vault_exec c env w = ROk u w' ->
  tok_balance (w_tokens w) tk (current_contract env) = Some b ->
  tok_balance (w_tokens w') tk (current_contract env) = Some b' -> b' < b ->
  outflow_allowed env w c (b - b').
Proof. exact (outflow_needs_authority c env w u w' tk b b'). Qed.

End Outflow.
