(* ===== verification/VaultProps.v ===== *)
(** * TokenVault: invariants of the reachable worlds

    Ownership, the emergency migration, the renewal index of the persistent
    entries and the pause, over every sequence of calls of a deployed vault. *)

From stdpp Require Import base numbers list option strings gmap.
From Stdlib Require Import ZArith Lia String.
From S2P Require Import Prelude Host Ttl Pause Rbac Frame VaultData VaultOps VaultSystem.
From S2P Require Import VaultFunds.
Import VaultError.

#[local] Open Scope Z_scope.
#[local] Open Scope sf_scope.

(** ** Parts of the storage *)

Inductive vault_part := VAuthority | VMigration | VIndex | VFunds.

Definition vault_part_of (k : VaultKey.data_key) : vault_part :=
  match k with
  | VaultKey.Owner | VaultKey.PendingOwner | VaultKey.PendingOwnerProposer
  | VaultKey.PendingOwnerProposedAt => VAuthority
  | VaultKey.EmergencyMigration => VMigration
  | VaultKey.TrackedVaultKeys => VIndex
  | _ => VFunds
  end.

(** Every key but those of one part. *)
Definition vault_off (p : vault_part) (k : VaultKey.data_key) : Prop := vault_part_of k <> p.

#[export] Hint Extern 1 (InFrame (vault_off _) _) =>
  (red; unfold vault_off; cbn; congruence) : typeclass_instances.

(** The parts a call may write, authority and migration. *)
Definition vault_writes (c : vault_call) (p : vault_part) : bool :=
  match c, p with
  | (VInitialize _ _ _ | ProposeOwner _ _ | AcceptOwner _), VAuthority => true
  | (InitiateEmergencyMigration _ _ | ExecuteEmergencyMigration _ | CancelEmergencyMigration _),
    VMigration => true
  | _, _ => false
  end.

Section Props.
Context {T : Type} `{TC : TokenClient T} `{SC : StreamClient T}.
Abbreviation VM := (M VaultKey.data_key T VaultEvent.vault_event vault_error).
Abbreviation VWorld := (World VaultKey.data_key T VaultEvent.vault_event).
Implicit Types (w : VWorld) (c : vault_call).

Lemma exec_frame_authority c :
  vault_writes c VAuthority = false -> Keeps (frame (T := T) (vault_off VAuthority)) (vault_exec c).
Proof. destruct c; intros Hw; try discriminate Hw; clear Hw; solve_vault. Qed.

Lemma exec_frame_migration c :
  vault_writes c VMigration = false -> Keeps (frame (T := T) (vault_off VMigration)) (vault_exec c).
Proof. destruct c; intros Hw; try discriminate Hw; clear Hw; solve_vault. Qed.

(** ** The renewal index *)

(** The index lists every persistent entry, once. *)
Definition indexed w : Prop :=
  NoDup (tracked w) /\ forall k, k ∈ tracked w <-> is_Some (w_persist w k).

Class NotIndex (k : VaultKey.data_key) : Prop := not_index : k <> VaultKey.TrackedVaultKeys.

#[export] Instance indexed_put k v `{!NotIndex k} : Allows (stable indexed) (put k v).
Proof.
  intros w [Hd Hi]. unfold indexed, tracked. by rewrite put_store_ne.
Qed.
#[export] Instance indexed_temp k v : Allows (stable indexed) (put_temp k v).
Proof. by intros w [Hd Hi]. Qed.
#[export] Instance indexed_tokens t : Allows (stable indexed) (set_tokens t).
Proof. by intros w [Hd Hi]. Qed.
#[export] Instance indexed_event x : Allows (stable indexed) (add_event x).
Proof. by intros w [Hd Hi]. Qed.
#[export] Instance indexed_ttl o a b : Allows (stable indexed) (add_ttl o a b).
Proof. by intros w [Hd Hi]. Qed.

Lemma indexed_write_indexed key v w w' : indexed_write key v w w' -> indexed w -> indexed w'.
Proof.
  intros [Hp Ht _ _] [Hd Hi]. unfold indexed. rewrite Ht, Hp. unfold track.
  case_bool_decide as Hk.
  - split; [done|]. intros k. rewrite Hi. destruct (decide (k = key)) as [->|Hne].
    + rewrite put_eq. rewrite <- Hi. split; [by eexists|done].
    + by rewrite put_ne.
  - split.
    + apply NoDup_app. split; [done|]. split; [set_solver|]. apply NoDup_singleton.
    + intros k. rewrite elem_of_app, list_elem_of_singleton, Hi.
      destruct (decide (k = key)) as [->|Hne].
      * rewrite put_eq. split; [by eexists|by right].
      * rewrite put_ne by done. naive_solver.
Qed.

(** An indexed write always returns. *)
Lemma indexed_write_run key (v : key_val key) env w :
  exists w', (do! pset key v; do! bump_persistent key; track_vault_key (T := T) key) env w = ROk tt w'.
Proof.
  erewrite bind_run by reflexivity. unfold bump_persistent.
  unfold bind at 1, extend_ttl_persistent.
  change (w_persist (put_persist key (Some v) w)) with (store_put key (Some v) (w_persist w)).
  rewrite put_eq. cbn [is_some]. unfold track_vault_key. erewrite bind_run by reflexivity.
  destruct (bool_decide _); by eexists.
Qed.

#[export] Instance keeps_set_account t a b : Keeps (stable indexed) (set_token_account_balance t a b).
Proof.
  intros env w. destruct (indexed_write_run (VaultKey.TokenAccountBalance t a) b env w) as [w' H].
  unfold set_token_account_balance. rewrite H.
  exact (indexed_write_indexed _ _ _ _ (indexed_write_ok _ _ _ _ _ _ H)).
Qed.

#[export] Instance keeps_store_limit t n : Keeps (stable indexed) (store_token_max_limit t n).
Proof.
  intros env w. destruct (indexed_write_run (VaultKey.TokenMaxLimit t) n env w) as [w' H].
  unfold store_token_max_limit. rewrite H.
  exact (indexed_write_indexed _ _ _ _ (indexed_write_ok _ _ _ _ _ _ H)).
Qed.

End Props.

#[export] Hint Extern 1 (NotIndex _) => (red; congruence) : typeclass_instances.

Section Index.
Context {T : Type} `{TC : TokenClient T} `{SC : StreamClient T}.

Ltac solve_index :=
  cbn [vault_exec];
  unfold initialize, deposit, deposit_with_fee, batch_deposit, deposit_token, deposit_with_failure_report,
    withdraw, withdraw_batch, withdraw_payouts, withdraw_token, vault_batch_withdraw,
    set_operator_withdraw_limit, set_limit, set_token_max_limit,
    approve_token, set_operator, revoke_operator, propose_owner, accept_owner,
    set_owner_proposal_ttl, pause, unpause, effective_withdraw_limit, keep_alive,
    bump_all_vault_keys, upgrade, initiate_emergency_migration, execute_emergency_migration,
    cancel_emergency_migration;
  solve_keeps.

Lemma exec_indexed c : Keeps (stable indexed) (vault_exec (T := T) c).
Proof. destruct c; solve_index. Qed.

End Index.

(** ** Reachable worlds

    A vault at address [self], indexed by the time of its last invocation.
    Nobody signs for the contract itself, and what others do in between cannot
    take from it. *)

Section Reach.
Context {T : Type} `{TC : TokenClient T} `{SC : StreamClient T}.
Abbreviation VM := (M VaultKey.data_key T VaultEvent.vault_event vault_error).
Abbreviation VWorld := (World VaultKey.data_key T VaultEvent.vault_event).
Implicit Types (w : VWorld) (c : vault_call).

Definition vault_fresh w : Prop :=
  (forall k, w_store w k = None) /\ (forall k, w_persist w k = None).

Record VaultEnv (self : Address) (env : Env) : Prop := {
  venv_self : current_contract env = self;
  venv_unsigned : authorized env self = false;
  venv_time : U64 (timestamp env)
}.

Inductive vault_reachable (self : Address) : Z -> VWorld -> Prop :=
| vr_init env w0 owner token max_limit w :
    vault_fresh w0 -> VaultEnv self env ->
    initialize owner token max_limit env w0 = ROk tt w -> vault_reachable self (timestamp env) w
| vr_call n w env c r w' :
    vault_reachable self n w -> n <= timestamp env -> VaultEnv self env -> vault_typed c ->
    invoke (vault_exec c) env w = (r, w') -> vault_reachable self (timestamp env) w'
| vr_tokens n w tokens :
    vault_reachable self n w -> vault_reachable self n (set_tokens tokens w).

(** An invariant of the storage that deployment establishes and every call
    keeps, at later and later times, holds in every reachable world. *)
Lemma vault_invariant self (I : Z -> VWorld -> Prop) :
  (forall env w0 o t m w, vault_fresh w0 -> VaultEnv self env ->
     initialize o t m env w0 = ROk tt w -> I (timestamp env) w) ->
  (forall n w env c w', I n w -> n <= timestamp env -> VaultEnv self env -> vault_typed c ->
     vault_exec c env w = ROk tt w' -> I (timestamp env) w') ->
  (forall n n' w, I n w -> n <= n' -> I n' w) ->
  (forall n w t, I n w -> I n (set_tokens t w)) ->
  forall n w, vault_reachable self n w -> I n w.
Proof.
  intros Hinit Hcall Hmono Htok n w H.
  induction H as [|n w env c r w' Hr IH Hle He Ht Hi|]; eauto.
  unfold invoke in Hi. destruct (vault_exec c env w) as [[] w1|e w1|tr] eqn:Hx;
    injection Hi as _ <-; eauto.
Qed.

(** ** Ownership and migration *)

(** There is an owner, and a pending handover was proposed by it. *)
Definition owned (n : Z) w : Prop :=
  exists o, w_store w VaultKey.Owner = Some o /\
  match w_store w VaultKey.PendingOwner with
  | Some p => w_store w VaultKey.PendingOwnerProposer = Some o /\
              exists at_, w_store w VaultKey.PendingOwnerProposedAt = Some at_ /\ at_ <= n
  | None => True
  end.

(** A pending migration waits forty-eight hours from its proposal. *)
Definition time_locked (n : Z) w : Prop :=
  match w_store w VaultKey.EmergencyMigration with
  | Some m => em_proposed_at m <= n /\
              em_executable_at m = em_proposed_at m + EMERGENCY_MIGRATION_TIMELOCK_SECONDS
  | None => True
  end.

Lemma accept_owner_ok caller env w u w' :
  accept_owner caller env w = ROk u w' ->
  exists at_ p, w_store w VaultKey.PendingOwner = Some caller /\ authorized env caller = true /\
    w_store w VaultKey.PendingOwnerProposer = Some p /\
    w_store w VaultKey.PendingOwnerProposedAt = Some at_ /\
    timestamp env < at_ + default OWNER_PROPOSAL_TTL_SECONDS (w_store w VaultKey.OwnerProposalTtl) /\
    w_store w' VaultKey.Owner = Some caller /\ w_store w' VaultKey.PendingOwner = None.
Proof.
  unfold accept_owner, bump_instance. intros H. inv_ok. breflect. checked_inv.
  match goal with H : addr_eqb _ _ = true |- _ => apply addr_eqb_true in H as <- end.
  do 2 eexists. split_and!; try eassumption; cbn [w_store add_event]; by store_simpl.
Qed.

Lemma propose_owner_ok caller p env w u w' :
  propose_owner caller p env w = ROk u w' ->
  authorized env caller = true /\ w_store w VaultKey.Owner = Some caller /\
  w_store w' VaultKey.Owner = Some caller /\ w_store w' VaultKey.PendingOwner = Some p /\
  w_store w' VaultKey.PendingOwnerProposer = Some caller /\
  w_store w' VaultKey.PendingOwnerProposedAt = Some (timestamp env) /\
  is_zero_address p = false.
Proof.
  unfold propose_owner, bump_instance. intros H. apply bind_ok in H as (u1 & w1 & Hr & H).
  apply require_owner_ok in Hr as (-> & Ha & Ho). inv_ok.
  split_and!; try done; cbn [w_store add_event]; by store_simpl.
Qed.

(** A vault that has an owner cannot be initialized again. *)
Lemma vault_initialize_refused o tk m env w u w' :
  is_Some (w_store w VaultKey.Owner) -> initialize o tk m env w <> ROk u w'.
Proof.
  intros [o' Ho] H. unfold initialize in H.
  apply bind_ok in H as (u1 & w1 & Hg & H). apply require_auth_ok in Hg as [_ ->].
  apply bind_ok in H as (u2 & w1 & Hg & H). apply throw_if_ok in Hg as [_ ->].
  apply bind_ok in H as (u3 & w1 & Hg & H). apply validate_ok in Hg as [-> _].
  apply bind_ok in H as (b & w1 & Hg & H). injection Hg as <- <-.
  apply bind_ok in H as (u4 & w1 & Hg & _). apply throw_if_ok in Hg as [Hb _].
  by rewrite Ho in Hb.
Qed.

Lemma owned_mono n n' w : owned n w -> n <= n' -> owned n' w.
Proof.
  intros (o & Ho & H) Hle. exists o. split; [done|].
  destruct (w_store w VaultKey.PendingOwner); [|done]. destruct H as (? & a & ? & ?).
  split; [done|]. exists a. split; [done|lia].
Qed.

Lemma owned_frame n w w' : frame (vault_off VAuthority) w w' -> owned n w -> owned n w'.
Proof.
  intros Hf (o & Ho & H). exists o.
  rewrite !Hf by (unfold vault_off; cbn; tauto). done.
Qed.

Lemma exec_owned n w env c w' :
  owned n w -> n <= timestamp env -> vault_exec c env w = ROk tt w' -> owned (timestamp env) w'.
Proof.
  intros HO Hle H. destruct (vault_writes c VAuthority) eqn:Hw.
  - destruct c; try discriminate Hw; cbn [vault_exec] in H.
    + destruct HO as (o & Ho & _). exfalso. eapply vault_initialize_refused; [by eexists|exact H].
    + apply propose_owner_ok in H as (_ & _ & H1 & H2 & H3 & H4 & _). eexists. split; [exact H1|].
      rewrite H2. split; [done|]. eexists. split; [exact H4|lia].
    + apply accept_owner_ok in H as (? & ? & _ & _ & _ & _ & _ & H1 & H2). eexists.
      split; [exact H1|]. by rewrite H2.
  - apply (keeps_ok (Keeps0 := exec_frame_authority c Hw) _ _ _ _ _ _) in H. eapply owned_frame; [exact H|].
    by eapply owned_mono.
Qed.

Lemma initiate_ok caller d env w u w' :
  initiate_emergency_migration caller d env w = ROk u w' ->
  authorized env caller = true /\ w_store w VaultKey.Owner = Some caller /\
  w_store w' VaultKey.EmergencyMigration =
    Some (mkEmergencyMigration d (timestamp env)
            (timestamp env + EMERGENCY_MIGRATION_TIMELOCK_SECONDS)).
Proof.
  unfold initiate_emergency_migration, bump_instance. intros H.
  apply bind_ok in H as (u1 & w1 & Hr & H). apply require_owner_ok in Hr as (-> & Ha & Ho).
  inv_ok. checked_inv. split_and!; try done; cbn [w_store add_event]; by store_simpl.
Qed.

Lemma cancel_migration_ok caller env w u w' :
  cancel_emergency_migration caller env w = ROk u w' ->
  authorized env caller = true /\ w_store w VaultKey.Owner = Some caller /\
  w_store w' VaultKey.EmergencyMigration = None.
Proof.
  unfold cancel_emergency_migration, bump_instance. intros H.
  apply bind_ok in H as (u1 & w1 & Hr & H). apply require_owner_ok in Hr as (-> & Ha & Ho).
  inv_ok. split_and!; try done; cbn [w_store add_event]; by store_simpl.
Qed.

Context `{TL : !TokenLaws T}.

Lemma exec_time_locked n w env c w' :
  time_locked n w -> n <= timestamp env -> vault_exec c env w = ROk tt w' ->
  time_locked (timestamp env) w'.
Proof.
  intros HL Hle H. unfold time_locked. destruct (vault_writes c VMigration) eqn:Hw.
  - destruct c; try discriminate Hw; cbn [vault_exec] in H.
    + apply initiate_ok in H as (_ & _ & ->). cbn. split; [lia|done].
    + apply bind_ok in H as (r & w1 & H & Hr). injection Hr as <-.
      by apply execute_migration_ok in H as (? & ? & _ & _ & _ & _ & _ & _ & _ & -> & _).
    + by apply cancel_migration_ok in H as (_ & _ & ->).
  - apply (keeps_ok (Keeps0 := exec_frame_migration c Hw) _ _ _ _ _ _) in H.
    rewrite H by (unfold vault_off; cbn; tauto). unfold time_locked in HL.
    destruct (w_store w VaultKey.EmergencyMigration); [|done]. destruct HL. split; [lia|done].
Qed.

(** What deployment writes. *)
Lemma initialize_frame o t m env w0 w :
  vault_fresh w0 -> initialize o t m env w0 = ROk tt w ->
  w_store w VaultKey.Owner = Some o /\ w_store w VaultKey.PendingOwner = None /\
  w_store w VaultKey.EmergencyMigration = None /\ indexed w.
Proof.
  intros [Hs Hp] H. unfold initialize, bump_instance in H.
  apply bind_ok in H as (u1 & w1 & Hg & H). apply require_auth_ok in Hg as [_ ->].
  apply bind_ok in H as (u2 & w1 & Hg & H). apply throw_if_ok in Hg as [_ ->].
  apply bind_ok in H as (u3 & w1 & Hg & H). apply validate_ok in Hg as [-> _]. inv_ok.
  match goal with Hg : publish _ _ _ = _ |- _ => injection Hg as <- end.
  cbn [w_store w_persist add_event]. split_and!; [by store_simpl; rewrite ?Hs..|].
  unfold indexed, tracked. cbn [w_store w_persist add_event]. store_simpl. rewrite Hs. cbn.
  split; [constructor|]. intros k. rewrite elem_of_nil.
  split; [done|]. intros [v Hv]. change (w_persist w0 k = Some v) in Hv. by rewrite Hp in Hv.
Qed.

Lemma reachable_owned self n w :
  vault_reachable self n w -> owned n w /\ time_locked n w /\ indexed w.
Proof.
  apply (vault_invariant self (fun n w => owned n w /\ time_locked n w /\ indexed w)).
  - intros env w0 o t m w1 Hf _ H.
    destruct (initialize_frame o t m env w0 w1 Hf H) as (H1 & H2 & H3 & H4).
    split_and!; [|unfold time_locked; by rewrite H3|done]. exists o. split; [done|]. by rewrite H2.
  - intros n0 w1 env c w2 (HO & HL & HI) Hle _ _ H. split_and!.
    + by eapply exec_owned.
    + by eapply exec_time_locked.
    + exact (keeps_ok (Keeps0 := exec_indexed c) _ _ _ _ _ _ H HI).
  - intros n1 n2 w1 (HO & HL & HI) Hle. split_and!; [by eapply owned_mono| |done].
    unfold time_locked in *. destruct (w_store w1 VaultKey.EmergencyMigration); [|done].
    destruct HL. split; [lia|done].
  - by intros n0 w1 t (HO & HL & HI).
Qed.


(** C31 Ownership changes hands only by a handover both sides signed. In every
    reachable vault there is an owner; only the owner proposes a successor, and
    the owner changes only when the proposed address itself accepts, before the
    proposal's time to live runs out, a proposal of the owner it replaces. A
    second initialization never goes through, and no other call touches the
    owner or the proposal. *)
Theorem ownership_changes_by_acceptance self n w env c w' :
  vault_reachable self n w -> n <= timestamp env -> vault_exec c env w = ROk tt w' ->
  exists o, w_store w VaultKey.Owner = Some o /\
  match c with
  | VInitialize _ _ _ => False
  | ProposeOwner a p =>
      a = o /\ authorized env o = true /\ is_zero_address p = false /\
      w_store w' VaultKey.Owner = Some o /\ w_store w' VaultKey.PendingOwner = Some p
  | AcceptOwner a =>
      authorized env a = true /\ w_store w VaultKey.PendingOwner = Some a /\
      w_store w VaultKey.PendingOwnerProposer = Some o /\
      (exists at_, w_store w VaultKey.PendingOwnerProposedAt = Some at_ /\ at_ <= timestamp env /\
         timestamp env <
           at_ + default OWNER_PROPOSAL_TTL_SECONDS (w_store w VaultKey.OwnerProposalTtl)) /\
      w_store w' VaultKey.Owner = Some a /\ w_store w' VaultKey.PendingOwner = None
  | _ =>
      w_store w' VaultKey.Owner = Some o /\
      w_store w' VaultKey.PendingOwner = w_store w VaultKey.PendingOwner
  end.
Proof.
  intros HR Hle H. destruct (reachable_owned _ _ _ HR) as ((o & Ho & HP) & _ & _).
  exists o. split; [done|]. destruct (vault_writes c VAuthority) eqn:Hw.
  - destruct c; try discriminate Hw; cbn [vault_exec] in H.
    + eapply vault_initialize_refused; [by eexists|exact H].
    + apply propose_owner_ok in H as (Ha & Ho' & H1 & H2 & _ & _ & Hz).
      rewrite Ho in Ho'. injection Ho' as <-. done.
    + apply accept_owner_ok in H as (a & p & Hpend & Ha & Hp & Hat & Hlt & H1 & H2).
      rewrite Hpend in HP. destruct HP as (Hp' & a' & Hat' & Hle').
      rewrite Hat in Hat'. injection Hat' as <-.
      split_and!; try done. exists a. split_and!; [done|lia|done].
  - apply (keeps_ok (Keeps0 := exec_frame_authority c Hw) _ _ _ _ _ _) in H.
    destruct c; try discriminate Hw; by rewrite !H by (unfold vault_off; cbn; tauto).
Qed.

(** C32 The emergency migration waits out its time lock and is all or nothing.
    It is announced, cancelled and executed by the owner's signature only;
    executing one moves the whole balance to the announced destination, no
    sooner than forty-eight hours after the announcement, and consumes it; no
    other call touches an announced migration. *)
Theorem migration_is_time_locked self n w env c w' :
  vault_reachable self n w -> n <= timestamp env -> vault_exec c env w = ROk tt w' ->
  let now := timestamp env in
  match c with
  | InitiateEmergencyMigration a d =>
      authorized env a = true /\ w_store w VaultKey.Owner = Some a /\
      w_store w' VaultKey.EmergencyMigration =
        Some (mkEmergencyMigration d now (now + EMERGENCY_MIGRATION_TIMELOCK_SECONDS))
  | ExecuteEmergencyMigration a =>
      authorized env a = true /\ w_store w VaultKey.Owner = Some a /\
      w_store w' VaultKey.EmergencyMigration = None /\
      exists m tk b, w_store w VaultKey.EmergencyMigration = Some m /\
        em_proposed_at m + EMERGENCY_MIGRATION_TIMELOCK_SECONDS <= now /\
        w_store w VaultKey.Token = Some tk /\
        tok_balance (w_tokens w) tk (current_contract env) = Some b /\
        moved tk (w_tokens w) (w_tokens w')
          (fun x => at_addr (em_destination m) b x - at_addr (current_contract env) b x)
  | CancelEmergencyMigration a =>
      authorized env a = true /\ w_store w VaultKey.Owner = Some a /\
      w_store w' VaultKey.EmergencyMigration = None
  | _ => w_store w' VaultKey.EmergencyMigration = w_store w VaultKey.EmergencyMigration
  end.
Proof.
  intros HR Hle H. destruct (reachable_owned _ _ _ HR) as (_ & HL & _).
  cbv zeta. destruct (vault_writes c VMigration) eqn:Hw.
  - destruct c; try discriminate Hw; cbn [vault_exec] in H.
    + by apply initiate_ok in H.
    + apply bind_ok in H as (r & w1 & H & Hr). injection Hr as <-.
      apply execute_migration_ok in H as (m & tk & Ha & Ho & Hm & Hnow & Ht & Hb & Hmv & Hn & _).
      unfold time_locked in HL. rewrite Hm in HL. destruct HL as [_ HL].
      split_and!; try done. exists m, tk, r. split_and!; try done. lia.
    + by apply cancel_migration_ok in H.
  - apply (keeps_ok (Keeps0 := exec_frame_migration c Hw) _ _ _ _ _ _) in H.
    destruct c; try discriminate Hw; by rewrite H by (unfold vault_off; cbn; tauto).
Qed.

Lemma refresh_keys_run l n env w :
  Forall (fun k => is_Some (w_persist w k)) l -> 0 <= n -> n + Z.of_nat (List.length l) <= u32_max ->
  exists w', refresh_keys l n env w = ROk (n + Z.of_nat (List.length l)) w' /\
    w_store w' = w_store w /\ w_persist w' = w_persist w /\ w_tokens w' = w_tokens w /\
    w_ttl w' = w_ttl w ++ map (fun k => (Some k, MIN_TTL_LEDGERS, EXTEND_TTL_LEDGERS)) l.
Proof.
  revert n w. induction l as [|k l IH]; intros n w Hl Hn Hm.
  - cbn [refresh_keys List.length map]. exists w. rewrite app_nil_r, Z.add_0_r. done.
  - apply Forall_cons in Hl as [[v Hk] Hl]. cbn [refresh_keys].
    erewrite bind_run by reflexivity. rewrite Hk. cbn [is_some].
    erewrite bind_run by (unfold bump_persistent, extend_ttl_persistent; rewrite Hk; reflexivity).
    cbn [List.length] in Hm. unfold u32_op.
    assert (Hc : checked_u32 (n + 1) = Some (n + 1)).
    { unfold checked_u32, checked, in_u32, in_range.
      rewrite (proj2 (Z.leb_le 0 _)), (proj2 (Z.leb_le _ u32_max)) by lia. done. }
    rewrite Hc. erewrite bind_run by reflexivity.
    destruct (IH (n + 1) (add_ttl (Some k) MIN_TTL_LEDGERS EXTEND_TTL_LEDGERS w))
      as (w' & Hr & H1 & H2 & H3 & H4); [done|lia|lia|].
    exists w'. rewrite Hr, H1, H2, H3, H4. cbn [w_ttl add_ttl map List.length].
    rewrite <- app_assoc. split_and!; try done. f_equal. lia.
Qed.

(** C38 No recorded balance can be forgotten by the renewal. In every reachable
    vault the permissionless [bump_all_vault_keys] returns, and requests the
    extension of every persistent entry the vault holds, each exactly once,
    and answers how many it renewed. *)
Theorem renewal_covers_every_entry self n w env :
  vault_reachable self n w -> Z.of_nat (List.length (tracked w)) <= u32_max ->
  exists keys w', NoDup keys /\ (forall k, k ∈ keys <-> is_Some (w_persist w k)) /\
    bump_all_vault_keys env w = ROk (Z.of_nat (List.length keys)) w' /\
    w_ttl w' = w_ttl w ++ (None, MIN_TTL_LEDGERS, EXTEND_TTL_LEDGERS) ::
                 map (fun k => (Some k, MIN_TTL_LEDGERS, EXTEND_TTL_LEDGERS)) keys /\
    w_persist w' = w_persist w /\ w_tokens w' = w_tokens w.
Proof.
  intros HR Hlen. destruct (reachable_owned _ _ _ HR) as ((o & Ho & _) & _ & Hd & Hi).
  exists (tracked w). unfold bump_all_vault_keys, get_owner, bump_instance.
  set (w1 := add_ttl None MIN_TTL_LEDGERS EXTEND_TTL_LEDGERS w).
  destruct (refresh_keys_run (tracked w) 0 env w1) as (w2 & Hr & H1 & H2 & H3 & H4).
  { apply Forall_forall. intros k Hk. by apply Hi. }
  { lia. } { lia. }
  eexists. split; [done|]. split; [done|]. split.
  - erewrite bind_run; [|erewrite bind_run by reflexivity; by rewrite Ho].
    erewrite bind_run by reflexivity. fold w1.
    erewrite bind_run; [|unfold ttl_bump_all_vault_keys, tracked_vault_keys;
      erewrite bind_run by (erewrite bind_run by reflexivity; reflexivity); exact Hr].
    erewrite bind_run by reflexivity. reflexivity.
  - cbn [w_ttl w_persist w_tokens add_event]. rewrite H2, H3, H4. subst w1.
    cbn [w_ttl w_persist w_tokens add_ttl]. rewrite <- app_assoc. done.
Qed.

End Reach.
