(* ===== verification/VaultSafety.v ===== *)
(** * TokenVault: the halt, the reporting deposit and the stream batch

    What a paused vault refuses, the agreement of the two deposit entry points,
    and the all-or-nothing withdrawal from several streams. *)

From stdpp Require Import base numbers list option strings gmap.
From Stdlib Require Import ZArith Lia String.
From S2P Require Import Prelude Host Ttl Pause Rbac Frame VaultData VaultOps VaultSystem.
From S2P Require Import VaultFunds.
Import VaultError.

#[local] Open Scope Z_scope.
#[local] Open Scope sf_scope.

Section Safety.
Context {T : Type} `{TC : TokenClient T} `{SC : StreamClient T}.
Abbreviation VM := (M VaultKey.data_key T VaultEvent.vault_event vault_error).
Abbreviation VWorld := (World VaultKey.data_key T VaultEvent.vault_event).
Abbreviation VOut := (Outcome VaultKey.data_key T VaultEvent.vault_event vault_error).
Implicit Types (w : VWorld) (c : vault_call).

(** ** The emergency pause *)

Definition halted env w : bool :=
  pause_active (w_store w VaultKey.Paused : option PauseCell) (timestamp env).

Lemma vault_holds w : holds VaultKey.Paused w (w_store w VaultKey.Paused : option PauseCell).
Proof. unfold holds. destruct (w_store w VaultKey.Paused) as [[]|]; done. Qed.

Lemma is_paused_halted env w b w' :
  is_paused env w = ROk b w' -> b = halted env w.
Proof. intros H. by apply (is_paused_ok VaultKey.Paused _ _ _ _ _ (vault_holds w)) in H as [-> _]. Qed.

Lemma not_paused_ok env w u w' : assert_not_paused env w = ROk u w' -> halted env w = false.
Proof.
  intros H. unfold assert_not_paused, map_err in H.
  destruct (Pause.require_not_paused _ _ _) as [u1 w1|e w1|t] eqn:Hr; try discriminate H.
  unfold require_not_paused, require_not_paused_flag in Hr.
  apply bind_ok in Hr as (b & w2 & Hb & Hr). destruct b; [done|].
  by apply (is_paused_ok VaultKey.Paused _ _ _ _ _ (vault_holds w)) in Hb as [Hb _].
Qed.

(** What a halted vault still does: the owner's keys and lists, the way out of
    the pause, the renewal of its storage and the emergency migration.  (The
    pause is not what refuses a second initialization.) *)
Definition allowed_while_paused c : bool :=
  match c with
  | VInitialize _ _ _ | ApproveToken _ _ _ | SetOperator _ _ | RevokeOperator _ | ProposeOwner _ _ | AcceptOwner _
  | SetOwnerProposalTtl _ _ | VUnpause _ | VIsPaused | KeepAlive | BumpAllVaultKeys
  | InitiateEmergencyMigration _ _ | ExecuteEmergencyMigration _
  | CancelEmergencyMigration _ => true
  | _ => false
  end.

Lemma guarded_body {A} (k : unit -> VM A) env w r w' :
  non_reentrant (bind assert_not_paused k) env w = ROk r w' -> halted env w = false.
Proof.
  intros H. unfold non_reentrant in H.
  apply bind_ok in H as (h & w1 & Hg & H). injection Hg as <- <-.
  apply bind_ok in H as (u & w1 & Hg & H). apply throw_if_ok in Hg as [_ ->].
  apply bind_ok in H as (u1 & w1 & Hg & H). injection Hg as _ <-.
  destruct (bind assert_not_paused k env _) as [a1 w1|e w1|t] eqn:Hm; [|done|done].
  apply bind_ok in Hm as (u2 & w2 & Hp & _). by apply not_paused_ok in Hp.
Qed.

Lemma guarded_call {A} (k : unit -> VM A) env w r w' :
  bind assert_not_paused k env w = ROk r w' -> halted env w = false.
Proof. intros (u2 & w2 & Hp & _)%bind_ok. by apply not_paused_ok in Hp. Qed.

Lemma forbidden_while_paused c env w u w' :
  vault_exec c env w = ROk u w' -> allowed_while_paused c = false -> halted env w = false.
Proof.
  intros H Hc. destruct c; try discriminate Hc; clear Hc; cbn [vault_exec] in H;
    try (unfold deposit, batch_deposit, deposit_token, withdraw, withdraw_batch, withdraw_payouts,
           withdraw_token in H; by apply guarded_body in H);
    try (by apply guarded_call in H).
  - unfold deposit_with_fee in H. apply bind_ok in H as (u1 & w1 & Hg & H).
    apply throw_if_ok in Hg as [_ ->]. apply bind_ok in H as (u2 & w1 & Hg & H).
    apply throw_if_ok in Hg as [_ ->]. apply bind_ok in H as (u3 & w1 & Hg & H).
    apply ok_or_ok in Hg as [_ ->]. apply bind_ok in H as (u4 & w1 & H & _).
    unfold deposit in H. by apply guarded_body in H.
  - apply bind_ok in H as (r & w1 & H & _). unfold deposit_with_failure_report in H.
    by apply guarded_body in H.
  - apply bind_ok in H as (r & w1 & H & _). unfold vault_batch_withdraw in H.
    apply bind_ok in H as (u1 & w2 & Hg & H). apply throw_if_ok in Hg as [_ ->].
    by apply guarded_call in H.
  - unfold pause in H. apply bind_ok in H as (u1 & w1 & Hg & H).
    apply require_owner_ok in Hg as [-> _]. apply bind_ok in H as (b & w1 & Hb & H).
    apply bind_ok in H as (u2 & w2 & Hg & H). apply throw_if_ok in Hg as [-> ->].
    symmetry. by apply is_paused_halted in Hb.
  - apply bind_ok in H as (r & w1 & H & _). unfold effective_withdraw_limit in H.
    by apply guarded_call in H.
  - unfold upgrade in H. apply bind_ok in H as (u1 & w1 & Hg & H).
    apply require_owner_ok in Hg as [-> _]. by apply guarded_call in H.
Qed.

Lemma allowed_tokens c :
  allowed_while_paused c = true -> (forall a, c <> ExecuteEmergencyMigration a) ->
  Keeps (same_tokens (T := T)) (vault_exec c).
Proof.
  intros Hc Hx. destruct c; try discriminate Hc; clear Hc; try solve_vault.
  by destruct (Hx caller).
Qed.

(** A paused vault is frozen. While the pause is in force every deposit,
    withdrawal, stream withdrawal, limit change and upgrade is refused; what
    still goes through leaves every token balance as it is, the owner's
    emergency migration apart. *)
Theorem paused_vault_is_frozen c env w u w' :
  halted env w = true -> vault_exec c env w = ROk u w' ->
  allowed_while_paused c = true /\
  (w_tokens w' = w_tokens w \/ exists a, c = ExecuteEmergencyMigration a).
Proof.
  intros Hh H. destruct (allowed_while_paused c) eqn:Hc.
  - split; [done|].
    destruct (match c with ExecuteEmergencyMigration _ => true | _ => false end) eqn:Hx.
    + right. destruct c; try discriminate Hx. eauto.
    + left. refine (keeps_ok (Keeps0 := allowed_tokens c Hc _) _ _ _ _ _ _ H). intros a ->. done.
  - rewrite (forbidden_while_paused _ _ _ _ _ H Hc) in Hh. done.
Qed.


(** ** The reporting deposit

    [agrees w r d]: started in [w], the reporting deposit ended in [r] and the
    plain one in [d]. *)

Definition agrees w (r : VOut bool) (d : VOut unit) : Prop :=
  match r, d with
  | ROk true w1, ROk _ w2 => w1 = w2
  | ROk false w1, RTrap HostFailure =>
      quiet w w1 /\ exists f tk a, w_events w1 = w_events w ++ [VaultEvent.VaultDepositFailed f tk a 1]
  | RErr ArithmeticOverflow _, ROk _ _ => True
  | (RErr _ _ | RTrap _), (RErr _ _ | RTrap _) => True
  | _, _ => False
  end.

Lemma agrees_bind {A} (m : VM A) k1 k2 w0 env w :
  (forall a w1, m env w = ROk a w1 -> agrees w0 (k1 a env w1) (k2 a env w1)) ->
  agrees w0 (bind m k1 env w) (bind m k2 env w).
Proof. intros H. unfold bind. destruct (m env w) as [a w1|e w1|t]; [by apply H|by destruct e|done]. Qed.

Lemma agrees_non_reentrant (m1 : VM bool) (m2 : VM unit) env w :
  (forall w1, quiet w w1 -> w_events w1 = w_events w -> agrees w (m1 env w1) (m2 env w1)) ->
  agrees w (non_reentrant m1 env w) (non_reentrant m2 env w).
Proof.
  intros H. unfold non_reentrant. apply agrees_bind. intros a w1 [= <- <-].
  apply agrees_bind. intros u w1 Hg. apply throw_if_ok in Hg as [_ ->].
  apply agrees_bind. intros u1 w1 [= _ <-].
  specialize (H (put_temp VaultKey.ReentrancyLock (Some true) w) (quiet_temp _ _ w) eq_refl).
  destruct (m1 env _) as [[] w1|e w1|t1], (m2 env _) as [u2 w2|e2 w2|t2]; cbn in *; try done.
  - by rewrite H.
  - destruct t2; try done. destruct H as [HQ HE]. split; [|exact HE].
    by transitivity w1; [|apply quiet_temp].
Qed.

Definition same_events w w' : Prop := w_events w' = w_events w.
#[export] Instance same_events_preorder : PreOrder same_events.
Proof. split; [done|]. unfold same_events. congruence. Qed.
#[export] Instance same_events_put k v : Allows same_events (put k v).
Proof. done. Qed.

(** The reporting deposit and the plain one never disagree. When the report
    says [true] the plain deposit would have ended in exactly the same world;
    when it says [false] nothing moved, the failure was logged, and the plain
    deposit would have been aborted by the token; and whenever the plain
    deposit goes through, so does the reporting one, except that it refuses to
    overflow the depositor's recorded balance, which the plain one skips. *)
Theorem failure_report_agrees from amount env w :
  agrees w (deposit_with_failure_report from amount env w) (deposit from amount env w).
Proof.
  apply agrees_non_reentrant. intros w1 HQ HE.
  apply agrees_bind. intros u w2 Hp.
  assert (HE2 : w_events w2 = w_events w).
  { rewrite <- HE. apply (keeps_ok same_events _ _ _ _ _ Hp). }
  apply quiet_ok in Hp; [|apply _]. assert (HQ2 : quiet w w2) by by transitivity w1.
  clear HQ HE Hp w1.
  apply agrees_bind. intros owner w3 Ho. pose proof (get_owner_ok _ _ _ _ Ho) as [-> Ho'].
  apply agrees_bind. intros u1 w3 Hr. apply require_oo_ok in Hr as [-> _].
  apply agrees_bind. intros u2 w3 Hg. apply throw_if_ok in Hg as [_ ->].
  apply agrees_bind. intros u3 w3 Hg. apply throw_if_ok in Hg as [_ ->].
  rewrite (bind_run _ _ _ _ _ _ Ho).
  unfold vault_balance, get_token, get_max_limit, is_token_approved, check_vault_balance.
  mrun. unfold token_balance.
  destruct (w_store w2 VaultKey.Token) as [tk|] eqn:Ht; cbn; [|done].
  destruct (default false (w_store w2 (VaultKey.ApprovedToken tk))) eqn:Hap; cbn;
    destruct (tok_balance (w_tokens w2) tk (current_contract env)) as [b|] eqn:Hb; cbn;
    rewrite ?Ht; cbn; rewrite ?Hap; cbn; try done.
  destruct (w_store w2 VaultKey.MaxLimit) as [max|]; cbn; [|done].
  destruct (checked_i128 (b + amount)) as [expected|]; cbn; [|done].
  destruct (max <? expected) eqn:Hmax; cbn; [done|].
  destruct (negb _); cbn; [done|]. rewrite ?Ht. cbn.
  unfold token_try_transfer, token_transfer.
  destruct (tok_transfer _ _ _ _ _ _) as [t'|] eqn:Hx; cbn.
  2:{ split; [|do 3 eexists; by rewrite HE2]. etransitivity; [exact HQ2|apply quiet_event]. }
  destruct (tok_balance t' tk (current_contract env)) as [b'|]; cbn; [|done].
  destruct (b' =? expected) eqn:Heq; cbn.
  2:{ by destruct (max <? b'). }
  apply Z.eqb_eq in Heq as ->. rewrite Hmax. cbn. rewrite Ht. cbn.
  destruct (get_token_account_balance tk from env (set_tokens t' w2)) as [acc w3|e w3|tr];
    [|by destruct e|done].
  destruct (checked_i128 (acc + amount)) as [n|]; cbn.
  - destruct (set_token_account_balance _ _ _ _ _) as [u4 w4|e w4|tr]; [|by destruct e|done].
    destruct (record_vault_balance _ _ _ _) as [u5 w5|e w5|tr]; [done|by destruct e|done].
  - by destruct (record_vault_balance _ _ _ _).
Qed.

(** ** Withdrawing from several streams *)

(** The withdrawals a batch performs, in order. *)
Fixpoint run_withdrawals (auth : Address -> bool) (self : Address) (l : list (Address * Z)) (t : T)
  : option T :=
  match l with
  | [] => Some t
  | (s, a) :: rest => stream_withdraw t auth self s a ≫= run_withdrawals auth self rest
  end.

(** The streams that have something to withdraw. *)
Fixpoint positive (l : list (Address * Z)) : list (Address * Z) :=
  match l with
  | [] => []
  | (s, a) :: rest => if 0 <? a then (s, a) :: positive rest else positive rest
  end.

Lemma withdraw_each_ok l env w u w' :
  withdraw_each l env w = ROk u w' ->
  run_withdrawals (call_auth env) (current_contract env) l (w_tokens w) = Some (w_tokens w').
Proof.
  revert w. induction l as [|[s a] l IH]; intros w H; cbn [withdraw_each run_withdrawals] in *.
  - by injection H as _ <-.
  - apply bind_ok in H as (u1 & w1 & Hs & H). unfold try_stream_withdraw in Hs.
    destruct (stream_withdraw _ _ _ _ _) as [t'|]; [|done]. injection Hs as _ <-.
    exact (IH _ H).
Qed.

(** What a stream of [recipient] answers. *)
Definition offers (t : T) (recipient s : Address) (a : Z) : Prop :=
  stream_recipient t s = Some recipient /\ stream_withdrawable t s = Some a /\ 0 <= a.

Lemma collect_payouts_ok seen ids r p total env w res w' :
  collect_payouts seen ids r p total env w = ROk res w' ->
  w' = w /\ (NoDup seen -> NoDup (seen ++ ids)) /\
  exists amounts, Forall2 (offers (w_tokens w) r) ids amounts /\
    res = (p ++ positive (zip ids amounts), total + total_of amounts).
Proof.
  revert seen p total w. induction ids as [|s ids IH]; intros seen p total w H;
    cbn [collect_payouts] in H.
  - injection H as <- <-. rewrite app_nil_r. split_and!; [done|done|]. exists [].
    split; [constructor|]. cbn. by rewrite app_nil_r, Z.add_0_r.
  - apply bind_ok in H as (u1 & w1 & Hg & H). apply throw_if_ok in Hg as [Hs ->].
    apply bind_ok in H as (rc & w1 & Hg & H). unfold try_stream in Hg.
    destruct (stream_recipient _ s) as [rc'|] eqn:Hrc; [|done]. injection Hg as -> <-.
    apply bind_ok in H as (u2 & w1 & Hg & H). apply throw_if_ok in Hg as [Hr ->].
    apply bind_ok in H as (a & w1 & Hg & H). unfold try_stream in Hg.
    destruct (stream_withdrawable _ s) as [a'|] eqn:Ha; [|done]. injection Hg as -> <-.
    apply bind_ok in H as (u3 & w1 & Hg & H). apply throw_if_ok in Hg as [Hn ->]. breflect.
    apply addr_eqb_true in Hr as ->.
    assert (Hx : exists p', exists t', collect_payouts (seen ++ [s]) ids r p' t' env w = ROk res w' /\
              p' = p ++ positive [(s, a)] /\ t' = total + a).
    { cbn [positive]. destruct (0 <? a) eqn:Hpos.
      - apply bind_ok in H as (t' & w1 & Hg & H). apply ok_or_ok in Hg as [Hg ->]. checked_inv. eauto.
      - breflect. assert (a = 0) as -> by lia. rewrite app_nil_r, Z.add_0_r. eauto. }
    destruct Hx as (p' & t' & Hx & -> & ->). apply IH in Hx as (-> & Hnd & amounts & Hf & ->).
    split_and!; [done| |].
    + intros Hd. rewrite <- app_assoc in Hnd. apply Hnd.
      apply NoDup_app. split; [done|]. split; [set_solver|apply NoDup_singleton].
    + exists (a :: amounts). split; [by constructor|]. cbn [zip zip_with positive].
      rewrite <- app_assoc. f_equal; [f_equal|unfold total_of; cbn; lia].
      by destruct (0 <? a).
Qed.

(** A stream batch is all or nothing and loses nothing. When it returns, it
    named between one and ten distinct streams of the recipient, withdrew from
    each of them, in order and in the same transaction, exactly what it offered
    to withdraw (skipping those that offered nothing), and answered the sum. *)
Theorem stream_batch_withdraws_every_offer ids recipient env w total w' :
  vault_batch_withdraw ids recipient env w = ROk total w' ->
  NoDup ids /\ 1 <= Z.of_nat (List.length ids) <= MAX_STREAM_BATCH_WITHDRAWALS /\
  exists amounts, Forall2 (offers (w_tokens w) recipient) ids amounts /\
    total = total_of amounts /\
    run_withdrawals (call_auth env) (current_contract env) (positive (zip ids amounts))
      (w_tokens w) = Some (w_tokens w').
Proof.
  intros H. unfold vault_batch_withdraw in H.
  apply bind_ok in H as (u1 & w1 & Hg & H). apply throw_if_ok in Hg as [Hn ->].
  apply bind_ok in H as (u2 & w1 & Hg & H). apply quiet_ok in Hg; [|apply _].
  apply non_reentrant_ok in H as (w2 & w3 & Q2 & H & Q3 & _).
  assert (Q : quiet w w2) by by transitivity w1.
  apply bind_ok in H as (res & w4 & Hc & H). apply collect_payouts_ok in Hc as (-> & Hd & am & Hf & ->).
  apply bind_ok in H as (u3 & w4 & Hw & H). injection H as <- <-. apply withdraw_each_ok in Hw.
  rewrite (q_tokens _ _ Q3), <- (q_tokens _ _ Q). breflect.
  split; [apply Hd; constructor|]. split; [lia|]. exists am. split_and!; [done| |exact Hw].
  cbn. lia.
Qed.

End Safety.
