(* ===== verification/VaultExample.v ===== *)
(** * TokenVault: a concrete vault

    A vault on the reference ledger with two streams, walked through a deposit,
    a delegated withdrawal, a handover of ownership, a migration and a pause,
    on which the vault's theorems are exercised. *)

From stdpp Require Import base numbers list option strings gmap.
From Stdlib Require Import ZArith Lia String.
From S2P Require Import Prelude Host Ttl Pause Rbac Frame VaultData VaultOps VaultSystem.
From S2P Require Import VaultFunds VaultProps VaultSafety.
Import VaultError.

#[local] Open Scope Z_scope.

Definition owner : Address := Account 21.
Definition heir : Address := Account 22.
Definition ops : Address := Account 23.
Definition payee : Address := Account 24.
Definition cold : Address := Account 25.
Definition vault : Address := Contract 30.
Definition asset : Address := Contract 31.
Definition stream1 : Address := Contract 41.
Definition stream2 : Address := Contract 42.

(** Two streams in the asset that pay the payee all they hold; the host refuses
    a call back into the caller. *)
Definition ex_is_stream (s : Address) : bool := addr_eqb s stream1 || addr_eqb s stream2.

#[export] Instance ex_streams : StreamClient Ledger := {|
  stream_recipient _ s := if ex_is_stream s then Some payee else None;
  stream_withdrawable l s := if ex_is_stream s then ledger_balance l asset s else None;
  stream_withdraw l auth self s amt :=
    if ex_is_stream s && negb (addr_eqb s self) && auth payee
    then ledger_transfer l (fun a => addr_eqb a s) asset s payee amt else None
|}.

#[export] Instance ex_stream_laws : StreamLaws Ledger.
Proof.
  constructor. intros t auth self s amt t' tk b' H Hb. cbn in H.
  destruct (ex_is_stream s && negb (addr_eqb s self) && auth payee) eqn:Hc; [|done].
  breflect. apply addr_eqb_false in H2.
  exact (no_loss_transfer t _ asset s payee amt t' self H H2 tk b' Hb).
Qed.

Abbreviation VWorld := (World VaultKey.data_key Ledger VaultEvent.vault_event).

(** At time [t] and ledger [t], signed by everyone but the vault itself. *)
Definition vault_env (t : Z) : Env := mkEnv t t vault (fun a => negb (addr_eqb a vault)).

Definition vault_tokens : Ledger :=
  <[(asset, owner) := 5000]> (<[(asset, stream1) := 70]> (<[(asset, stream2) := 30]> ∅)).

Definition vault_blank : VWorld :=
  mkWorld (fun _ => None) (fun _ => None) (fun _ => None) vault_tokens [] [].

Definition vault_after {A} (m : M VaultKey.data_key Ledger VaultEvent.vault_event vault_error A)
    (t : Z) (w : VWorld) : VWorld := (invoke m (vault_env t) w).2.

Definition vault_answer {A} (m : M VaultKey.data_key Ledger VaultEvent.vault_event vault_error A)
    (t : Z) (w : VWorld) : Reply vault_error A := (invoke m (vault_env t) w).1.

Lemma vault_ran {A} (m : M VaultKey.data_key Ledger VaultEvent.vault_event vault_error A) t w (r : A) :
  vault_answer m t w = Returned r -> m (vault_env t) w = ROk r (vault_after m t w).
Proof. unfold vault_answer, vault_after, invoke. destruct (m (vault_env t) w); cbn; congruence. Qed.

Lemma vault_env_ok t : U64 t -> VaultEnv vault (vault_env t).
Proof. constructor; [done|done|cbn; done]. Qed.

(** ** The scenario *)

Definition vault_deployed : VWorld := vault_after (initialize owner asset 10000) 100 vault_blank.
Definition vault_funded : VWorld := vault_after (vault_exec (Deposit owner 3000)) 110 vault_deployed.
Definition vault_delegated : VWorld :=
  vault_after (vault_exec (SetOperatorWithdrawLimit owner 500)) 130
    (vault_after (vault_exec (SetOperator owner ops)) 120 vault_funded).
Definition vault_offered : VWorld := vault_after (vault_exec (ProposeOwner owner heir)) 140 vault_delegated.
Definition vault_announced : VWorld :=
  vault_after (vault_exec (InitiateEmergencyMigration owner cold)) 150 vault_delegated.
Definition vault_paused : VWorld := vault_after (vault_exec (VPause owner)) 150 vault_delegated.

Lemma vault_reach_deployed : vault_reachable vault 100 vault_deployed.
Proof.
  apply (vr_init vault (vault_env 100) vault_blank owner asset 10000).
  - by split.
  - apply vault_env_ok. mlia.
  - refine (vault_ran (initialize owner asset 10000) 100 vault_blank tt _). reflexivity.
Qed.

Lemma vault_reach_after t t' c w :
  vault_reachable vault t w -> t <= t' -> U64 t' -> vault_typed c ->
  vault_reachable vault t' (vault_after (vault_exec c) t' w).
Proof.
  intros Hr Hle Hu Ht.
  apply (vr_call vault t w (vault_env t') c (invoke (vault_exec c) (vault_env t') w).1); try done.
  unfold vault_after. by destruct (invoke _ _ _).
Qed.

Ltac vault_step t := apply (vault_reach_after t); [|lia|mlia|cbn; first [exact I|mlia]].

Lemma vault_reach_delegated : vault_reachable vault 130 vault_delegated.
Proof. vault_step 120. vault_step 110. vault_step 100. apply vault_reach_deployed. Qed.

Lemma vault_reach_offered : vault_reachable vault 140 vault_offered.
Proof. vault_step 130. apply vault_reach_delegated. Qed.

Lemma vault_reach_announced : vault_reachable vault 150 vault_announced.
Proof. vault_step 130. apply vault_reach_delegated. Qed.

(** Every call of the scenario returns. *)
Ltac vault_runs t c w :=
  refine (vault_ran (vault_exec c) t w tt _); vm_compute; reflexivity.

(** ** The theorems at these worlds *)

Lemma vault_outflow_is_authorized_witness :
  tok_balance (w_tokens vault_delegated) asset vault = Some 3000 /\
  tok_balance (w_tokens (vault_after (vault_exec (Withdraw ops payee 400)) 160 vault_delegated))
    asset vault = Some 2600 /\
  may_withdraw (vault_env 160) vault_delegated ops 400.
Proof.
  split; [vm_compute; reflexivity|]. split; [vm_compute; reflexivity|].
  refine (vault_outflow_is_authorized (Withdraw ops payee 400) (vault_env 160) vault_delegated tt
    (vault_after (vault_exec (Withdraw ops payee 400)) 160 vault_delegated) asset 3000 2600 _ _ _ _ _).
  - reflexivity.
  - vault_runs 160 (Withdraw ops payee 400) vault_delegated.
  - vm_compute. reflexivity.
  - vm_compute. reflexivity.
  - lia.
Defined.

Lemma ownership_changes_by_acceptance_witness :
  exists o, w_store vault_offered VaultKey.Owner = Some o /\ authorized (vault_env 170) heir = true /\
    w_store (vault_after (vault_exec (AcceptOwner heir)) 170 vault_offered) VaultKey.Owner = Some heir.
Proof.
  destruct (ownership_changes_by_acceptance vault 140 vault_offered (vault_env 170) (AcceptOwner heir)
    (vault_after (vault_exec (AcceptOwner heir)) 170 vault_offered) vault_reach_offered)
    as (o & Ho & Ha & _ & _ & _ & Hn & _).
  - cbn. lia.
  - vault_runs 170 (AcceptOwner heir) vault_offered.
  - exists o. split; [exact Ho|]. split; [exact Ha|exact Hn].
Defined.

Lemma migration_is_time_locked_witness :
  let w := vault_after (vault_exec (ExecuteEmergencyMigration owner)) 200000 vault_announced in
  w_store w VaultKey.EmergencyMigration = None /\
  tok_balance (w_tokens w) asset cold = Some 3000.
Proof.
  destruct (migration_is_time_locked vault 150 vault_announced (vault_env 200000)
    (ExecuteEmergencyMigration owner)
    (vault_after (vault_exec (ExecuteEmergencyMigration owner)) 200000 vault_announced)
    vault_reach_announced) as (_ & _ & Hn & _).
  - cbn. lia.
  - vault_runs 200000 (ExecuteEmergencyMigration owner) vault_announced.
  - split; [exact Hn|vm_compute; reflexivity].
Defined.

Lemma renewal_covers_every_entry_witness :
  exists (keys : list VaultKey.data_key) (w' : VWorld), NoDup keys /\
    bump_all_vault_keys (vault_env 180) vault_delegated = ROk (Z.of_nat (List.length keys)) w'.
Proof.
  destruct (renewal_covers_every_entry vault 130 vault_delegated (vault_env 180)
    vault_reach_delegated) as (keys & w' & Hd & _ & Hr & _).
  - vm_compute. congruence.
  - exists keys, w'. split; [exact Hd|exact Hr].
Defined.

Lemma paused_vault_is_frozen_witness :
  halted (vault_env 200) vault_paused = true /\
  allowed_while_paused (InitiateEmergencyMigration owner cold) = true.
Proof.
  split; [vm_compute; reflexivity|].
  refine (proj1 (paused_vault_is_frozen (InitiateEmergencyMigration owner cold) (vault_env 200)
    vault_paused tt
    (vault_after (vault_exec (InitiateEmergencyMigration owner cold)) 200 vault_paused) _ _)).
  - vm_compute. reflexivity.
  - vault_runs 200 (InitiateEmergencyMigration owner cold) vault_paused.
Defined.

Lemma stream_batch_withdraws_every_offer_witness :
  NoDup [stream1; stream2] /\
  vault_answer (vault_batch_withdraw [stream1; stream2] payee) 190 vault_delegated = Returned 100.
Proof.
  split; [|vm_compute; reflexivity].
  refine (proj1 (stream_batch_withdraws_every_offer [stream1; stream2] payee (vault_env 190)
    vault_delegated 100
    (vault_after (vault_batch_withdraw [stream1; stream2] payee) 190 vault_delegated) _)).
  refine (vault_ran (vault_batch_withdraw [stream1; stream2] payee) 190 vault_delegated 100 _).
  vm_compute. reflexivity.
Defined.

(** ** Observed behaviour *)

(** The recorded balance of a depositor is not debited by [withdraw]: after the
    owner takes its deposit back, the books still credit it in full. *)
Lemma withdraw_leaves_the_books :
  let w := vault_after (vault_exec (Withdraw owner owner 3000)) 120 vault_funded in
  vault_answer (balance_by_token asset owner) 130 w = Returned 3000 /\
  tok_balance (w_tokens w) asset vault = Some 0.
Proof. split; vm_compute; reflexivity. Qed.

(** [deposit_with_fee] announces a fee it never collects: the net amount is all
    the depositor pays and all that moves. *)
Lemma deposit_fee_is_not_collected :
  let w := vault_after (vault_exec (DepositWithFee owner 1000 100)) 120 vault_deployed in
  tok_balance (w_tokens w) asset owner = Some 4100 /\
  tok_balance (w_tokens w) asset vault = Some 900 /\
  last (w_events w) = Some (VaultEvent.TokenDeposited owner 1000 100 900).
Proof. split_and!; vm_compute; reflexivity. Qed.

(** The migration does not record the balance it leaves, so a deposit in the
    ledger of an earlier one is refused after it. *)
Lemma migration_blocks_deposits_in_its_ledger :
  let w1 := vault_after (vault_exec (Deposit owner 10)) 200000 vault_announced in
  let w2 := vault_after (vault_exec (ExecuteEmergencyMigration owner)) 200000 w1 in
  vault_answer (deposit owner 10) 200000 w2 = Failed VaultBalanceChanged.
Proof. vm_compute. reflexivity. Qed.
