(* ===== verification/FactoryData.v ===== *)
(** * DripFactory: data ([contracts/factory/src/{storage,errors,events}.rs])

    Requests and views, the storage keys with the type each one stores, the
    error enum and the published events. *)

From stdpp Require Import base numbers list option strings.
From Stdlib Require Import ZArith Lia String.
From S2P Require Import Prelude Host Pause.

#[local] Open Scope Z_scope.

(** ** Errors *)

Module FacError.

Inductive fac_error : Type :=
| NotInitialized
| InvalidDeposit
| InvalidRate
| InvalidTimeRange
| InsufficientDeposit
| BackdatedStream
| AlreadyInitialized
| RateExceedsMax
| DurationTooShort
| ArithmeticOverflow
| ContractPaused
| AlreadyPaused
| NotPaused
| DurationExceedsMax
| GovernorNotResponding
| EmptyBatch
| BatchTooLarge
| InvalidRecipient
| CreateLocked
| DepositTransferFailed
| StreamFundingFailed
| InvalidWasmHash
| InvalidDuration
| InvalidToken
| StartTimeTooFarInFuture
| StorageVersionMismatch
| InvalidGovernor
| SaltAlreadyUsed
| DuplicateStreamId
| DescriptionTooLong
| InvalidFactoryConfiguration.

(** [e as u32] *)
Definition code (e : fac_error) : Z :=
  match e with
  | NotInitialized => 1
  | InvalidDeposit => 2
  | InvalidRate => 3
  | InvalidTimeRange => 4
  | InsufficientDeposit => 5
  | BackdatedStream => 6
  | AlreadyInitialized => 7
  | RateExceedsMax => 8
  | DurationTooShort => 9
  | ArithmeticOverflow => 10
  | ContractPaused => 11
  | AlreadyPaused => 12
  | NotPaused => 13
  | DurationExceedsMax => 14
  | GovernorNotResponding => 15
  | EmptyBatch => 16
  | BatchTooLarge => 17
  | InvalidRecipient => 22
  | CreateLocked => 23
  | DepositTransferFailed => 24
  | StreamFundingFailed => 25
  | InvalidWasmHash => 26
  | InvalidDuration => 27
  | InvalidToken => 28
  | StartTimeTooFarInFuture => 29
  | StorageVersionMismatch => 30
  | InvalidGovernor => 31
  | SaltAlreadyUsed => 32
  | DuplicateStreamId => 33
  | DescriptionTooLong => 34
  | InvalidFactoryConfiguration => 35
  end.

End FacError.

(** ** Requests and views *)

Module StreamOperation.
Inductive stream_operation : Type :=
| CreateStream | CancelStream | Withdraw | PauseStream | ResumeStream | SetOperator
| RevokeOperator | ExtendDuration | TopUp | TopUpAndExtend | Clawback | ForceCancel
| TransferRecipient.
End StreamOperation.

Record FeeEstimate := mkFeeEstimate {
  fee_stroops : Z;
  fee_xlm : Z;
  cpu_instructions : Z;
  ledger_entries : Z
}.

Record BatchStreamRequest := mkBatchStreamRequest {
  br_recipient : Address;
  br_token : Address;
  br_deposit : Z;
  br_rate_per_sec : Z;
  br_start_time : Z;
  br_end_time : Z
}.

Record StreamInitParams := mkStreamInitParams {
  sp_sender : Address;
  sp_recipient : Address;
  sp_token : Address;
  sp_deposit : Z;
  sp_rate_per_sec : Z;
  sp_start_time : Z;
  sp_end_time : Z;
  sp_clawback : bool
}.

Record FactoryStatus := mkFactoryStatus { fs_is_paused : bool; fs_protocol_fee_bps : option Z }.

Record StreamPage := mkStreamPage { pg_ids : list Z; pg_total : Z }.

Record Aggregate := mkAggregate { total_supply : Z; active_streams : Z }.

Definition CURRENT_STORAGE_VERSION : Z := 1.

(** ** Storage keys

    A salt is a 32-byte hash, read as a number. *)

Module FacKey.

Inductive data_key : Type :=
| StreamCount
| StreamAddr (id : Z)
| BySender (sender : Address)
| ByRecipient (recipient : Address)
| StreamWasmHash
| GovernorAddress
| Paused
| LastBumpedId
| Aggregate
| CreateLock
| BySenderPage (sender : Address) (page : Z)
| ByRecipientPage (recipient : Address) (page : Z)
| BySenderMigrationCursor (sender : Address)
| BySenderLegacyCount (sender : Address)
| ByRecipientMigrationCursor (recipient : Address)
| ByRecipientLegacyCount (recipient : Address)
| BySenderCount (sender : Address)
| ByRecipientCount (recipient : Address)
| FactoryStorageVersion
| SaltUsed (salt : Z)
| IsKnownStream (stream : Address)
| CancelledStream (stream : Address)
| TokenStreamCount (token : Address).

End FacKey.

#[export] Instance fac_key_eq_dec : EqDecision FacKey.data_key.
Proof. solve_decision. Defined.

(** The type of the value each key stores. *)
Definition fac_key_val (k : FacKey.data_key) : Type :=
  match k with
  | FacKey.StreamAddr _ | FacKey.GovernorAddress => Address
  | FacKey.BySender _ | FacKey.ByRecipient _ | FacKey.BySenderPage _ _
  | FacKey.ByRecipientPage _ _ => list Z
  | FacKey.Paused => PauseCell
  | FacKey.Aggregate => Aggregate
  | FacKey.CreateLock | FacKey.SaltUsed _ | FacKey.IsKnownStream _ | FacKey.CancelledStream _ => bool
  | FacKey.StreamCount | FacKey.StreamWasmHash | FacKey.LastBumpedId
  | FacKey.BySenderMigrationCursor _ | FacKey.BySenderLegacyCount _
  | FacKey.ByRecipientMigrationCursor _ | FacKey.ByRecipientLegacyCount _
  | FacKey.BySenderCount _ | FacKey.ByRecipientCount _ | FacKey.FactoryStorageVersion
  | FacKey.TokenStreamCount _ => Z
  end.

#[export] Instance fac_keys : StorageKeys FacKey.data_key := {
  key_eq_dec := fac_key_eq_dec;
  key_val := fac_key_val
}.

#[export] Instance fac_paused_bool : Stored bool FacKey.Paused.
Proof.
  refine {| into_val := (fun b => PauseBool b : key_val FacKey.Paused);
            try_from_val := (fun c : key_val FacKey.Paused =>
              match c with PauseBool b => Some b | PauseRecord _ => None end) |}.
  done.
Defined.

#[export] Instance fac_paused_state : Stored PauseState FacKey.Paused.
Proof.
  refine {| into_val := (fun s => PauseRecord s : key_val FacKey.Paused);
            try_from_val := (fun c : key_val FacKey.Paused =>
              match c with PauseBool _ => None | PauseRecord s => Some s end) |}.
  done.
Defined.

#[export] Instance fac_paused_key : PauseKey FacKey.Paused.
Proof. by refine {| pause_bool := _; pause_state := _ |}. Defined.

(** ** Events *)

Module FacEvent.

Inductive fac_event : Type :=
| paused (governor : Address) (paused_at : Z)
| unpaused (governor : Address) (resumed_at : Z)
| upgraded (governor : Address) (upgraded_at : Z)
| fee (fee_recipient : Address) (amount : Z)
| StreamCreated (creator recipient stream_address : Address) (salt wasm_hash : Z)
| StreamContractUpgraded (old_wasm_hash new_wasm_hash : Z)
| WasmReplaced (hash : Z).

End FacEvent.
