(* ===== verification/FactoryIndex.v ===== *)
(** * DripFactory: the paged stream index
    ([contracts/factory/src/{index,query,ttl}.rs])

    The stream ids of an address, kept in pages of one hundred in persistent
    storage, with the vectors of an earlier layout migrated page by page.  The
    code is written over the keys of one index, so is the model: [IndexKeys]. *)

From stdpp Require Import base numbers list option strings.
From Stdlib Require Import ZArith Lia String.
From S2P Require Import Prelude Host Ttl FactoryData.
Import FacError.

#[local] Open Scope Z_scope.
#[local] Open Scope sf_scope.

Definition MAX_PAGE_SIZE : Z := 100.
Definition PAGE_SIZE : Z := MAX_PAGE_SIZE.
Definition MIGRATION_PAGES_PER_APPEND : Z := 1.
Definition MAX_MIGRATION_PAGES : Z := 20.
Definition BATCH_LIMIT : Z := 8.

(** Typed access to persistent entries: a stored value of another type is a
    panic of the storage interface. *)
Section Typed.
Context {K : Type} `{SK : StorageKeys K} {T X E : Type}.

Definition pget_as (A : Type) (k : K) `{!Stored A k} : M K T X E (option A) :=
  fun env w => convert_val A k (w_persist w k) env w.
Definition pset_as {A} (k : K) `{!Stored A k} (a : A) : M K T X E unit := pset k (into_val k a).

End Typed.

(** What the code assumes of the keys of one index: where the count, the legacy
    vector, the migration cursor, the legacy length and the pages are, and that
    they are different entries. *)
Class IndexLayout {K : Type} `{StorageKeys K} (count_key legacy_key cursor_key legacy_count_key : K)
    (page_key : Z -> K) := {
  il_count :: Stored Z count_key;
  il_legacy :: Stored (list Z) legacy_key;
  il_cursor :: Stored Z cursor_key;
  il_legacy_count :: Stored Z legacy_count_key;
  il_page p :: Stored (list Z) (page_key p);
  il_distinct : NoDup [count_key; legacy_key; cursor_key; legacy_count_key];
  il_page_inj p q : page_key p = page_key q -> p = q;
  il_page_count p : page_key p <> count_key;
  il_page_legacy p : page_key p <> legacy_key;
  il_page_cursor p : page_key p <> cursor_key;
  il_page_legacy_count p : page_key p <> legacy_count_key
}.

Section Index.
Context {K : Type} `{SK : StorageKeys K} {T X E : Type}.
Context (count_key legacy_key cursor_key legacy_count_key : K) (page_key : Z -> K).
Context `{IL : !IndexLayout count_key legacy_key cursor_key legacy_count_key page_key}.
Abbreviation IM := (M K T X E).

Definition write_page (p : Z) (page : list Z) : IM unit :=
  do! pset_as (page_key p) page;
  bump_persistent (page_key p).

(** The first logical position after the pages the legacy vector fills. *)
Definition append_base (legacy_count : Z) : IM Z :=
  if legacy_count =? 0 then ret 0
  else u32_op (((legacy_count - 1) / PAGE_SIZE + 1) * PAGE_SIZE).

Definition logical_to_physical_offset (logical : Z) (legacy_count : option Z) : IM Z :=
  match legacy_count with
  | Some n =>
      if n <=? logical then let! base := append_base n in ret (sat_u32 (base + (logical - n)))
      else ret logical
  | None => ret logical
  end.

(** The inner copying loop: [entries.get(i).unwrap()] for [i] in [from..from+n]. *)
Fixpoint copy_entries (entries : list Z) (from : Z) (n : nat) : IM (list Z) :=
  match n with
  | O => ret []
  | S n' =>
      match entries !! Z.to_nat from with
      | Some x => let! rest := copy_entries entries (from + 1) n' in ret (x :: rest)
      | None => trap HostFailure
      end
  end.

(** The outer migration loop; [pages] is the number of pages left in the cap. *)
Fixpoint migrate_pages (entries : list Z) (legacy_count cursor : Z) (pages : nat) : IM Z :=
  match pages with
  | O => ret cursor
  | S pages' =>
      if cursor <? legacy_count then
        let end_ := Z.min (sat_u32 (cursor + PAGE_SIZE)) legacy_count in
        let! page := copy_entries entries cursor (Z.to_nat (end_ - cursor)) in
        do! write_page (cursor / PAGE_SIZE) page;
        migrate_pages entries legacy_count end_ pages'
      else ret cursor
  end.

Definition migrate_legacy_index (max_pages : Z) : IM Z :=
  let! legacy := pget_as (list Z) legacy_key in
  let! count := pget_as Z count_key in
  match legacy with
  | None => ret (default 0 count)
  | Some entries =>
      let! stored_legacy_count := pget_as Z legacy_count_key in
      let legacy_count := default (Z.of_nat (List.length entries)) stored_legacy_count in
      let total_count := default legacy_count count in
      let! stored_cursor := pget_as Z cursor_key in
      let cursor := default 0 stored_cursor in
      if legacy_count <=? cursor then
        do! premove legacy_key;
        do! premove cursor_key;
        ret total_count
      else
        let capped_pages := Z.min max_pages MAX_MIGRATION_PAGES in
        if capped_pages =? 0 then ret total_count
        else
          let! cursor := migrate_pages entries legacy_count cursor (Z.to_nat capped_pages) in
          do! pset_as count_key total_count;
          do! bump_persistent count_key;
          do! pset_as legacy_count_key legacy_count;
          do! bump_persistent legacy_count_key;
          do! (if legacy_count <=? cursor then
                 do! premove legacy_key;
                 premove cursor_key
               else
                 do! pset_as cursor_key cursor;
                 do! bump_persistent cursor_key;
                 bump_persistent legacy_key);
          ret total_count
  end.

(** The walk that renews three pages, starting at one the ledger picks. *)
Fixpoint renew_pages (start_page num_pages i : Z) (n : nat) : IM unit :=
  match n with
  | O => ret tt
  | S n' =>
      let page_index := sat_u32 (start_page + i) mod num_pages in
      let! present := phas (page_key page_index) in
      do! (if present then bump_persistent (page_key page_index) else ret tt);
      renew_pages start_page num_pages (i + 1) n'
  end.

Definition extend_page_ttls (count : Z) : IM unit :=
  if count =? 0 then ret tt
  else
    let num_pages := sat_u32 (sat_u32 (count - 1) / PAGE_SIZE + 1) in
    let! seq := ledger_sequence in
    renew_pages (seq mod num_pages) num_pages 0 3.

Definition append_index_entry (entry : Z) : IM unit :=
  let! count := migrate_legacy_index MIGRATION_PAGES_PER_APPEND in
  let! legacy_count := pget_as Z legacy_count_key in
  let! physical_offset := logical_to_physical_offset count legacy_count in
  let page_index := physical_offset / PAGE_SIZE in
  let! page := pget_as (list Z) (page_key page_index) in
  do! write_page page_index (default [] page ++ [entry]);
  let new_count := sat_u32 (count + 1) in
  do! pset_as count_key new_count;
  do! bump_persistent count_key;
  extend_page_ttls new_count.

Definition collect_page (page_index : Z) : IM (list Z) :=
  let! present := phas (page_key page_index) in
  do! (if present then bump_persistent (page_key page_index) else ret tt);
  let! page := pget_as (list Z) (page_key page_index) in
  ret (default [] page).

(** The reading loop over the logical positions [logical .. logical + n]. *)
Fixpoint read_positions (legacy_count cursor : option Z) (legacy : option (list Z))
    (logical : Z) (n : nat) (result : list Z) : IM (list Z) :=
  match n with
  | O => ret result
  | S n' =>
      let from_legacy :=
        match legacy_count, cursor, legacy with
        | Some lc, Some c, Some entries =>
            if (logical <? lc) && (c <=? logical) then Some entries else None
        | _, _, _ => None
        end in
      match from_legacy with
      | Some entries =>
          match entries !! Z.to_nat logical with
          | Some x => read_positions legacy_count cursor legacy (logical + 1) n' (result ++ [x])
          | None => trap HostFailure
          end
      | None =>
          let! physical := logical_to_physical_offset logical legacy_count in
          let! page := collect_page (physical / PAGE_SIZE) in
          match page !! Z.to_nat (physical mod PAGE_SIZE) with
          | Some x => read_positions legacy_count cursor legacy (logical + 1) n' (result ++ [x])
          | None => ret result
          end
      end
  end.

(** [query::paginate] *)
Definition paginate (v : list Z) (offset limit : Z) : list Z :=
  let effective_limit := Z.min limit MAX_PAGE_SIZE in
  take (Z.to_nat effective_limit) (drop (Z.to_nat offset) v).

Definition renew_if_present (k : K) : IM unit :=
  let! present := phas k in
  if present then bump_persistent k else ret tt.

Definition read_index (offset limit : Z) : IM (list Z) :=
  let! stored := pget_as Z count_key in
  match stored with
  | Some count =>
      do! bump_persistent count_key;
      do! extend_page_ttls count;
      if count <=? offset then ret []
      else
        let! legacy_count := pget_as Z legacy_count_key in
        do! renew_if_present legacy_count_key;
        let! cursor := pget_as Z cursor_key in
        do! renew_if_present cursor_key;
        let! legacy := pget_as (list Z) legacy_key in
        do! (if is_some legacy then bump_persistent legacy_key else ret tt);
        let effective_limit := Z.min limit PAGE_SIZE in
        let end_ := Z.min (sat_u32 (offset + effective_limit)) count in
        read_positions legacy_count cursor legacy offset (Z.to_nat (end_ - offset)) []
  | None =>
      let! legacy := pget_as (list Z) legacy_key in
      do! renew_if_present legacy_key;
      ret (paginate (default [] legacy) offset limit)
  end.

Definition count_index : IM Z :=
  let! stored := pget_as Z count_key in
  match stored with
  | Some count => do! bump_persistent count_key; ret count
  | None =>
      let! legacy := pget_as (list Z) legacy_key in
      do! renew_if_present legacy_key;
      ret (Z.of_nat (List.length (default [] legacy)))
  end.

(** [migrate_*_index]: the cursor, or the count once migration is over. *)
Definition migrate_index (max_pages : Z) : IM Z :=
  do! migrate_legacy_index max_pages;
  let! cursor := pget_as Z cursor_key in
  let! count := pget_as Z count_key in
  ret (default (default 0 count) cursor).

Definition index_page (offset limit : Z) : IM StreamPage :=
  let! ids := read_index offset limit in
  let! total := count_index in
  ret (mkStreamPage ids total).

End Index.
