(* ===== verification/FactoryIndexFacts.v ===== *)
(** * DripFactory: the paged index implements a list

    The pages, the legacy vector and the migration cursor of an index represent
    one list of stream ids: appending, migrating in any number of steps and
    reading a page are the operations of that list. *)

From stdpp Require Import base numbers list option strings.
From Stdlib Require Import ZArith Lia String.
From S2P Require Import Prelude Host Ttl Frame FactoryData FactoryIndex.

#[local] Open Scope Z_scope.
#[local] Open Scope sf_scope.

Abbreviation llen l := (Z.of_nat (List.length l)).

Lemma bump_persistent_ok {K} `{StorageKeys K} {T X E} (k : K) env (w : World K T X) u w' :
  bump_persistent (E := E) k env w = ROk u w' ->
  is_some (w_persist w k) = true /\ w' = add_ttl (Some k) MIN_TTL_LEDGERS EXTEND_TTL_LEDGERS w.
Proof.
  unfold bump_persistent, extend_ttl_persistent. destruct (is_some _); [|done].
  intros Hr. by injection Hr as <- <-.
Qed.

(** What the entries of an index hold. *)
Record iview := mkView {
  v_count : option Z;
  v_legacy : option (list Z);
  v_cursor : option Z;
  v_legacy_count : option Z;
  v_page : Z -> option (list Z)
}.

Definition upd_page (p : Z) (l : list Z) (f : Z -> option (list Z)) : Z -> option (list Z) :=
  fun q => if q =? p then Some l else f q.

(** ** The list an index represents *)

(** The first position after the pages of a legacy vector of length [L], and
    the position of the [i]-th entry. *)
Definition base (L : Z) : Z := if L =? 0 then 0 else ((L - 1) / PAGE_SIZE + 1) * PAGE_SIZE.
Definition phys (L i : Z) : Z := if i <? L then i else base L + (i - L).

(** [c] of the [L] legacy entries have been migrated. *)
Record paged (ids : list Z) (v : iview) (L c : Z) : Prop := {
  pg_count : v_count v = Some (llen ids);
  pg_lc : (L = 0 /\ v_legacy_count v = None) \/ (0 < L /\ v_legacy_count v = Some L);
  pg_range : 0 <= c <= L /\ L <= llen ids;
  pg_old : (c = L /\ v_legacy v = None /\ v_cursor v = None) \/
           (c < L /\ c mod PAGE_SIZE = 0 /\ v_legacy v = Some (take (Z.to_nat L) ids) /\
            v_cursor v = Some c);
  pg_at i x : 0 <= i -> ids !! Z.to_nat i = Some x -> i < c \/ L <= i ->
    exists pg, v_page v (phys L i / PAGE_SIZE) = Some pg /\
               pg !! Z.to_nat (phys L i mod PAGE_SIZE) = Some x;
  pg_tail : llen (default [] (v_page v (phys L (llen ids) / PAGE_SIZE))) =
            phys L (llen ids) mod PAGE_SIZE;
  pg_rest q : phys L (llen ids) / PAGE_SIZE < q -> default [] (v_page v q) = []
}.

(** Not yet paged: the legacy vector, if any, is the list. *)
Record unpaged (ids : list Z) (v : iview) : Prop := {
  up_count : v_count v = None;
  up_legacy : default [] (v_legacy v) = ids;
  up_cursor : v_cursor v = None;
  up_lc : v_legacy_count v = None;
  up_page q : default [] (v_page v q) = []
}.

Definition represents (ids : list Z) (v : iview) : Prop :=
  unpaged ids v \/ exists L c, paged ids v L c.

(** The slice a page request selects. *)
Definition page_of (ids : list Z) (offset limit : Z) : list Z :=
  take (Z.to_nat (Z.min limit PAGE_SIZE)) (drop (Z.to_nat offset) ids).

(** ** Arithmetic of the pages *)

Lemma base_mod L : 0 <= L -> base L mod PAGE_SIZE = 0.
Proof.
  intros HL. unfold base, PAGE_SIZE, MAX_PAGE_SIZE. destruct (L =? 0); [done|].
  by rewrite Z.mod_mul.
Qed.

Lemma base_bounds L : 0 <= L -> L <= base L <= L + 99.
Proof.
  intros HL. unfold base, PAGE_SIZE, MAX_PAGE_SIZE. destruct (Z.eqb_spec L 0); [lia|].
  pose proof (Z.div_mod (L - 1) 100). pose proof (Z.mod_pos_bound (L - 1) 100). lia.
Qed.

Lemma phys_new L i : L <= i -> phys L i = base L + (i - L).
Proof. intros H. unfold phys. by rewrite (proj2 (Z.ltb_ge i L)). Qed.

Lemma phys_nonneg L i : 0 <= i -> 0 <= L -> 0 <= phys L i.
Proof. intros. unfold phys. pose proof (base_bounds L). destruct (Z.ltb_spec i L); lia. Qed.

(** New entries and legacy ones never share a page. *)
Lemma phys_pages L i j : 0 <= j < L -> L <= i -> j / PAGE_SIZE < phys L i / PAGE_SIZE.
Proof.
  intros Hj Hi. rewrite phys_new by done.
  assert (base L / PAGE_SIZE <= (base L + (i - L)) / PAGE_SIZE).
  { apply Z.div_le_mono; unfold PAGE_SIZE, MAX_PAGE_SIZE; lia. }
  assert (j / PAGE_SIZE <= (L - 1) / PAGE_SIZE).
  { apply Z.div_le_mono; unfold PAGE_SIZE, MAX_PAGE_SIZE; lia. }
  enough (base L / PAGE_SIZE = (L - 1) / PAGE_SIZE + 1) by lia.
  unfold base. destruct (Z.eqb_spec L 0); [lia|]. by rewrite Z.div_mul.
Qed.

Section Facts.
Context {K : Type} `{SK : StorageKeys K} {T X E : Type}.
Context (ck lk uk gk : K) (pk : Z -> K) `{IL : !IndexLayout ck lk uk gk pk}.
Abbreviation IM := (M K T X E).
Implicit Types (w : World K T X) (v : iview).
Abbreviation write_page := (write_page ck lk uk gk pk).
Abbreviation migrate_pages := (migrate_pages ck lk uk gk pk).
Abbreviation migrate_legacy_index := (migrate_legacy_index ck lk uk gk pk).
Abbreviation renew_pages := (renew_pages pk).
Abbreviation extend_page_ttls := (extend_page_ttls pk).
Abbreviation append_index_entry := (append_index_entry ck lk uk gk pk).
Abbreviation collect_page := (collect_page ck lk uk gk pk).
Abbreviation read_positions := (read_positions ck lk uk gk pk).
Abbreviation read_index := (read_index ck lk uk gk pk).
Abbreviation count_index := (count_index ck lk uk gk pk).
Abbreviation index_page := (index_page ck lk uk gk pk).
Abbreviation migrate_index := (migrate_index ck lk uk gk pk).

(** ** Worlds and views *)

Record sees v w : Prop := {
  sees_count : w_persist w ck = into_val ck <$> v_count v;
  sees_legacy : w_persist w lk = into_val lk <$> v_legacy v;
  sees_cursor : w_persist w uk = into_val uk <$> v_cursor v;
  sees_lc : w_persist w gk = into_val gk <$> v_legacy_count v;
  sees_page p : w_persist w (pk p) = into_val (pk p) <$> v_page v p
}.

(** [does m v r v']: from a world that shows [v], [m] answers [r] in one that
    shows [v']. *)
Definition does {A} (m : IM A) v (r : A) v' : Prop :=
  forall env w, sees v w -> exists w', m env w = ROk r w' /\ sees v' w'.

Lemma does_ret {A} (a : A) v : does (ret a) v a v.
Proof. intros env w H. by exists w. Qed.

Lemma does_bind {A B} (m : IM A) (f : A -> IM B) v a v1 b v2 :
  does m v a v1 -> does (f a) v1 b v2 -> does (bind m f) v b v2.
Proof.
  intros Hm Hf env w H. destruct (Hm env w H) as (w1 & H1 & S1).
  destruct (Hf env w1 S1) as (w2 & H2 & S2). exists w2. split; [|done].
  by rewrite (bind_run _ _ _ _ _ _ H1).
Qed.

Lemma does_pget {A} k `{!Stored A k} v (o : option A) :
  (forall w, sees v w -> w_persist w k = into_val k <$> o) -> does (pget_as A k) v o v.
Proof.
  intros Hk env w H. exists w. split; [|done]. unfold pget_as, convert_val. rewrite (Hk w H).
  destruct o as [x|]; cbn; [|done]. by rewrite try_from_into.
Qed.

Lemma does_get_count v : does (pget_as Z ck) v (v_count v) v.
Proof. apply does_pget. apply sees_count. Qed.
Lemma does_get_legacy v : does (pget_as (list Z) lk) v (v_legacy v) v.
Proof. apply does_pget. apply sees_legacy. Qed.
Lemma does_get_cursor v : does (pget_as Z uk) v (v_cursor v) v.
Proof. apply does_pget. apply sees_cursor. Qed.
Lemma does_get_lc v : does (pget_as Z gk) v (v_legacy_count v) v.
Proof. apply does_pget. apply sees_lc. Qed.
Lemma does_get_page p v : does (pget_as (list Z) (pk p)) v (v_page v p) v.
Proof. apply does_pget. intros w H. apply (sees_page _ _ H). Qed.

(** Which entries a view has. *)
Definition has_key v (k : K) : Prop :=
  (k = ck /\ is_Some (v_count v)) \/ (k = lk /\ is_Some (v_legacy v)) \/
  (k = uk /\ is_Some (v_cursor v)) \/ (k = gk /\ is_Some (v_legacy_count v)) \/
  (exists p, k = pk p /\ is_Some (v_page v p)).

Lemma has_key_sees v w k : sees v w -> has_key v k -> is_some (w_persist w k) = true.
Proof.
  intros [H1 H2 H3 H4 H5] [[-> [x Hx]]|[[-> [x Hx]]|[[-> [x Hx]]|[[-> [x Hx]]|(p & -> & x & Hx)]]]].
  - by rewrite H1, Hx. - by rewrite H2, Hx. - by rewrite H3, Hx. - by rewrite H4, Hx.
  - by rewrite H5, Hx.
Qed.

Lemma does_bump k v : has_key v k -> does (bump_persistent k) v tt v.
Proof.
  intros Hk env w H. unfold bump_persistent, extend_ttl_persistent.
  rewrite (has_key_sees v w k H Hk). eexists. split; [done|]. by destruct H.
Qed.

Lemma does_renew k v : does (renew_if_present k) v tt v.
Proof.
  intros env w H. unfold renew_if_present. erewrite bind_run by reflexivity.
  destruct (is_some (w_persist w k)) eqn:Hk; [|by exists w].
  unfold bump_persistent, extend_ttl_persistent. rewrite Hk. eexists. split; [done|]. by destruct H.
Qed.

Lemma layout_ne :
  ck <> lk /\ ck <> uk /\ ck <> gk /\ lk <> uk /\ lk <> gk /\ uk <> gk.
Proof.
  pose proof (il_distinct (count_key := ck) (page_key := pk)) as H.
  rewrite !NoDup_cons, !not_elem_of_cons in H. naive_solver.
Qed.

Ltac layout :=
  destruct layout_ne as (?Hl & ?Hl & ?Hl & ?Hl & ?Hl & ?Hl);
  pose proof il_page_count as Hp1; pose proof il_page_legacy as Hp2;
  pose proof il_page_cursor as Hp3; pose proof il_page_legacy_count as Hp4.

(** Writing one entry changes its field of the view only. *)
Ltac solve_put := layout; intros env w [H1 H2 H3 H4 H5]; eexists; split; [reflexivity|];
  constructor; cbn [v_count v_legacy v_cursor v_legacy_count v_page w_persist]; intros;
  change (w_persist (put_persist ?k ?x w)) with (store_put k x (w_persist w));
  first [by rewrite put_eq | rewrite put_ne by (congruence || naive_solver); done].

Lemma does_set_count n v :
  does (pset_as ck n) v tt
    (mkView (Some n) (v_legacy v) (v_cursor v) (v_legacy_count v) (v_page v)).
Proof. solve_put. Qed.
Lemma does_set_cursor n v :
  does (pset_as uk n) v tt (mkView (v_count v) (v_legacy v) (Some n) (v_legacy_count v) (v_page v)).
Proof. solve_put. Qed.
Lemma does_set_lc n v :
  does (pset_as gk n) v tt (mkView (v_count v) (v_legacy v) (v_cursor v) (Some n) (v_page v)).
Proof. solve_put. Qed.
Lemma does_drop_legacy v :
  does (premove lk) v tt (mkView (v_count v) None (v_cursor v) (v_legacy_count v) (v_page v)).
Proof. solve_put. Qed.
Lemma does_drop_cursor v :
  does (premove uk) v tt (mkView (v_count v) (v_legacy v) None (v_legacy_count v) (v_page v)).
Proof. solve_put. Qed.

Lemma does_write_page p l v :
  does (write_page p l) v tt
    (mkView (v_count v) (v_legacy v) (v_cursor v) (v_legacy_count v) (upd_page p l (v_page v))).
Proof.
  eapply does_bind; [|apply does_bump; right; right; right; right; exists p; split; [done|];
    cbn; unfold upd_page; rewrite Z.eqb_refl; eauto].
  layout. intros env w [H1 H2 H3 H4 H5]. eexists; split; [reflexivity|].
  constructor; cbn [v_count v_legacy v_cursor v_legacy_count v_page]; intros;
  change (w_persist (put_persist ?k ?x w)) with (store_put k x (w_persist w)).
  1-4: by rewrite put_ne by naive_solver.
  unfold upd_page. destruct (Z.eqb_spec p0 p) as [->|Hne].
  - by rewrite put_eq.
  - rewrite put_ne; [done|]. intros Heq. apply Hne. symmetry. exact (il_page_inj _ _ Heq).
Qed.


(** ** Reading positions *)

Lemma does_phys L i lc v :
  0 <= i -> 0 <= L -> i + 100 <= u32_max -> L + 100 <= u32_max ->
  (L = 0 /\ lc = None) \/ (0 < L /\ lc = Some L) ->
  does (logical_to_physical_offset i lc) v (phys L i) v.
Proof.
  intros Hi HL Hb HbL Hlc. pose proof (base_bounds L HL) as HB.
  unfold logical_to_physical_offset, phys. destruct Hlc as [[-> ->]|[Hpos ->]].
  - rewrite (proj2 (Z.ltb_ge i 0)) by lia. replace (base 0 + (i - 0)) with i by (cbn; lia).
    apply does_ret.
  - rewrite Z.leb_antisym. destruct (Z.ltb_spec i L); cbn [negb]; [apply does_ret|].
    assert (Hbase : does (append_base L) v (base L) v).
    { unfold append_base, base in *. destruct (Z.eqb_spec L 0); [lia|].
      intros env w Hs. exists w. split; [|done]. unfold u32_op, checked_u32, checked, in_u32.
      rewrite (proj2 (in_range_spec _ _ _)) by lia. done. }
    eapply does_bind; [exact Hbase|]. replace (sat_u32 (base L + (i - L))) with (base L + (i - L)).
    + apply does_ret.
    + mlia.
Qed.

Lemma does_renew_pages s n i k v : does (renew_pages s n i k) v tt v.
Proof.
  revert i. induction k as [|k IH]; intros i; [apply does_ret|]. cbn [FactoryIndex.renew_pages].
  intros env w H. erewrite bind_run by reflexivity.
  destruct (is_some (w_persist w _)) eqn:Hp.
  - unfold bump_persistent, extend_ttl_persistent. unfold bind. rewrite Hp. apply IH.
    by destruct H.
  - erewrite bind_run by reflexivity. by apply IH.
Qed.

Lemma does_extend n v : does (extend_page_ttls n) v tt v.
Proof.
  unfold FactoryIndex.extend_page_ttls. destruct (n =? 0); [apply does_ret|].
  intros env w H. erewrite bind_run by reflexivity. by apply does_renew_pages.
Qed.

Lemma does_collect p v : does (collect_page p) v (default [] (v_page v p)) v.
Proof.
  unfold FactoryIndex.collect_page. intros env w H. erewrite bind_run by reflexivity.
  destruct (is_some (w_persist w (pk p))) eqn:Hp.
  - unfold bind at 1, bump_persistent, extend_ttl_persistent. rewrite Hp.
    eapply does_bind; [apply does_get_page|apply does_ret|]. by destruct H.
  - erewrite bind_run by reflexivity. eapply does_bind; [apply does_get_page|apply does_ret|done].
Qed.

(** In a paged index every position answers its entry. *)
Lemma does_read_positions ids v L c i n acc :
  paged ids v L c -> llen ids + 100 <= u32_max -> 0 <= i -> i + Z.of_nat n <= llen ids ->
  does (read_positions (v_legacy_count v) (v_cursor v) (v_legacy v) i n acc) v
    (acc ++ take n (drop (Z.to_nat i) ids)) v.
Proof.
  intros HP Hsmall. revert i acc. induction n as [|n IH]; intros i acc Hi Hn.
  { cbn. rewrite app_nil_r. apply does_ret. }
  destruct HP as [Hct Hlc [Hc HL] Hold Hat Htail Hrest].
  destruct (lookup_lt_is_Some_2 ids (Z.to_nat i)) as [x Hx]; [lia|].
  rewrite (drop_S _ _ _ Hx). cbn [take].
  assert (Hnext : does (read_positions (v_legacy_count v) (v_cursor v) (v_legacy v) (i + 1) n
                          (acc ++ [x])) v (acc ++ x :: take n (drop (S (Z.to_nat i)) ids)) v).
  { replace (S (Z.to_nat i)) with (Z.to_nat (i + 1)) by lia.
    replace (acc ++ x :: take n (drop (Z.to_nat (i + 1)) ids))
      with ((acc ++ [x]) ++ take n (drop (Z.to_nat (i + 1)) ids)) by (by rewrite <- app_assoc).
    apply IH; lia. }
  cbn [FactoryIndex.read_positions].
  assert (Hpaged : i < c \/ L <= i ->
    does (let! physical := logical_to_physical_offset i (v_legacy_count v) in
          let! page := collect_page (physical / PAGE_SIZE) in
          match page !! Z.to_nat (physical mod PAGE_SIZE) with
          | Some x => read_positions (v_legacy_count v) (v_cursor v) (v_legacy v) (i + 1) n (acc ++ [x])
          | None => ret acc
          end) v (acc ++ x :: take n (drop (S (Z.to_nat i)) ids)) v).
  { intros Hwhere. eapply does_bind; [apply (does_phys L); [lia..|exact Hlc]|].
    eapply does_bind; [apply does_collect|].
    destruct (Hat i x Hi Hx Hwhere) as (pg & -> & Hpg).
    change (default [] (Some pg)) with pg. by rewrite Hpg. }
  destruct Hold as [(-> & Hl & Hu)|(Hlt & _ & Hl & Hu)].
  - rewrite Hl, Hu in *. destruct (v_legacy_count v); apply Hpaged; lia.
  - destruct Hlc as [[? _]|[_ Hlc]]; [lia|]. rewrite Hl, Hu, Hlc in *.
    destruct ((i <? L) && (c <=? i)) eqn:Hw; [|apply Hpaged; breflect; lia].
    breflect. rewrite lookup_take_lt by lia. by rewrite Hx.
Qed.

Lemma does_read ids v offset limit :
  represents ids v -> llen ids + 200 <= u32_max -> 0 <= offset -> 0 <= limit ->
  does (read_index offset limit) v (page_of ids offset limit) v.
Proof.
  intros HR Hsmall Ho Hlim. unfold FactoryIndex.read_index.
  eapply does_bind; [apply does_get_count|]. destruct HR as [[Hc Hl Hu Hg _]|(L & c & HP)].
  - rewrite Hc. eapply does_bind; [apply does_get_legacy|]. eapply does_bind; [apply does_renew|].
    unfold paginate, page_of, PAGE_SIZE. rewrite Hl. apply does_ret.
  - rewrite (pg_count _ _ _ _ HP).
    eapply does_bind.
    { apply does_bump. left. split; [done|]. rewrite (pg_count _ _ _ _ HP). eauto. }
    eapply does_bind; [apply does_extend|].
    destruct (Z.leb_spec (llen ids) offset).
    { unfold page_of. rewrite drop_ge by lia. rewrite take_nil. apply does_ret. }
    eapply does_bind; [apply does_get_lc|]. eapply does_bind; [apply does_renew|].
    eapply does_bind; [apply does_get_cursor|]. eapply does_bind; [apply does_renew|].
    eapply does_bind; [apply does_get_legacy|].
    eapply (does_bind _ _ _ tt v).
    { destruct (v_legacy v) eqn:Hl; [|apply does_ret]. apply does_bump. right. left.
      split; [done|]. rewrite Hl. eauto. }
    pose proof (does_read_positions ids v L c offset
      (Z.to_nat (Z.min (sat_u32 (offset + Z.min limit PAGE_SIZE)) (llen ids) - offset)) [] HP) as Hd.
    unfold page_of, PAGE_SIZE, MAX_PAGE_SIZE in *.
    assert (Heq : take (Z.to_nat (Z.min (sat_u32 (offset + Z.min limit 100)) (llen ids) - offset))
                    (drop (Z.to_nat offset) ids) =
                  take (Z.to_nat (Z.min limit 100)) (drop (Z.to_nat offset) ids)).
    { assert (Hs : sat_u32 (offset + Z.min limit 100) = offset + Z.min limit 100) by mlia.
      rewrite Hs. destruct (Z.min_spec (offset + Z.min limit 100) (llen ids)) as [[_ ->]|[Hle ->]].
      - f_equal. lia.
      - rewrite !take_ge; [done|rewrite length_drop; lia|rewrite length_drop; lia]. }
    rewrite <- Heq. apply Hd; mlia.
Qed.

Lemma does_count ids v : represents ids v -> does count_index v (llen ids) v.
Proof.
  intros HR. unfold FactoryIndex.count_index. eapply does_bind; [apply does_get_count|].
  destruct HR as [[Hc Hl Hu Hg _]|(L & c & HP)].
  - rewrite Hc. eapply does_bind; [apply does_get_legacy|]. eapply does_bind; [apply does_renew|].
    rewrite Hl. apply does_ret.
  - rewrite (pg_count _ _ _ _ HP). eapply does_bind; [|apply does_ret].
    apply does_bump. left. split; [done|]. rewrite (pg_count _ _ _ _ HP). eauto.
Qed.

Lemma does_index_page ids v offset limit :
  represents ids v -> llen ids + 200 <= u32_max -> 0 <= offset -> 0 <= limit ->
  does (index_page offset limit) v (mkStreamPage (page_of ids offset limit) (llen ids)) v.
Proof.
  intros. unfold FactoryIndex.index_page. eapply does_bind; [by apply does_read|].
  eapply does_bind; [by apply does_count|]. apply does_ret.
Qed.

(** ** Migrating pages *)

Lemma does_copy entries from n v :
  0 <= from -> from + Z.of_nat n <= llen entries ->
  does (copy_entries entries from n) v (take n (drop (Z.to_nat from) entries)) v.
Proof.
  revert from. induction n as [|n IH]; intros from Hf Hn; [apply does_ret|].
  destruct (lookup_lt_is_Some_2 entries (Z.to_nat from)) as [x Hx]; [lia|].
  cbn [copy_entries]. rewrite Hx, (drop_S _ _ _ Hx). cbn [take].
  eapply does_bind; [apply IH; lia|].
  replace (Z.to_nat (from + 1)) with (S (Z.to_nat from)) by lia. apply does_ret.
Qed.

(** The pages from [c] on up to [c'] hold their entries. *)
Definition holds_pages (entries : list Z) (c c' : Z) (f : Z -> option (list Z)) : Prop :=
  forall i x, c <= i < c' -> entries !! Z.to_nat i = Some x ->
    exists pg, f (i / PAGE_SIZE) = Some pg /\ pg !! Z.to_nat (i mod PAGE_SIZE) = Some x.

Lemma holds_first_page entries c e f :
  0 <= c -> c mod PAGE_SIZE = 0 -> e <= c + PAGE_SIZE ->
  f (c / PAGE_SIZE) = Some (take (Z.to_nat (e - c)) (drop (Z.to_nat c) entries)) ->
  holds_pages entries c e f.
Proof.
  unfold PAGE_SIZE, MAX_PAGE_SIZE. intros Hc Hmod He Hf i x Hi Hx.
  assert (i / 100 = c / 100 /\ i mod 100 = i - c) as [Hd Hm].
  { pose proof (Z.div_mod c 100). assert (i = 100 * (c / 100) + (i - c)) as Hi' by lia.
    split; [symmetry; eapply Z.div_unique|symmetry; eapply Z.mod_unique]; try exact Hi'; lia. }
  unfold PAGE_SIZE, MAX_PAGE_SIZE. rewrite Hd, Hm. eexists. split; [exact Hf|].
  rewrite lookup_take_lt by lia. rewrite lookup_drop. rewrite <- Hx. f_equal. lia.
Qed.

Lemma does_migrate_pages entries n v c :
  0 <= c <= llen entries -> c mod PAGE_SIZE = 0 \/ c = llen entries ->
  llen entries + 100 <= u32_max ->
  exists c' f,
    does (migrate_pages entries (llen entries) c n) v c'
      (mkView (v_count v) (v_legacy v) (v_cursor v) (v_legacy_count v) f) /\
    c <= c' <= llen entries /\ (c' mod PAGE_SIZE = 0 \/ c' = llen entries) /\
    ((0 < n)%nat -> c < llen entries -> c < c') /\
    (forall q, ~ (c <= q * PAGE_SIZE < llen entries) -> f q = v_page v q) /\
    holds_pages entries c c' f.
Proof.
  revert c v. induction n as [|n IH]; intros c v Hc Hal Hsmall.
  { exists c, (v_page v). split; [destruct v; apply does_ret|]. repeat split; try lia; try done.
    intros i x Hi. lia. }
  cbn [FactoryIndex.migrate_pages]. destruct (Z.ltb_spec c (llen entries)) as [Hlt|Hge].
  2:{ exists c, (v_page v). split; [destruct v; apply does_ret|].
      repeat split; try lia; try done. intros i x Hi. lia. }
  destruct Hal as [Hal|?]; [|lia].
  set (e := Z.min (sat_u32 (c + PAGE_SIZE)) (llen entries)).
  assert (He : e = Z.min (c + 100) (llen entries)).
  { subst e. unfold PAGE_SIZE, MAX_PAGE_SIZE. f_equal. mlia. }
  set (pg := take (Z.to_nat (e - c)) (drop (Z.to_nat c) entries)).
  set (v1 := mkView (v_count v) (v_legacy v) (v_cursor v) (v_legacy_count v)
               (upd_page (c / PAGE_SIZE) pg (v_page v))).
  destruct (IH e v1) as (c' & f & Hdoes & Hc' & Hal' & _ & Hkeep & Hhold); [lia| |done|].
  { destruct (Z.min_spec (c + 100) (llen entries)) as [[? Hm]|[? Hm]]; [left|right; lia].
    rewrite He, Hm. unfold PAGE_SIZE, MAX_PAGE_SIZE in *. rewrite <- Z.add_mod_idemp_l, Hal; done. }
  assert (Hq : forall q, q * 100 = c <-> q = c / 100).
  { intros q. pose proof (Z.div_mod c 100). unfold PAGE_SIZE, MAX_PAGE_SIZE in Hal. lia. }
  unfold PAGE_SIZE, MAX_PAGE_SIZE in Hkeep.
  exists c', f. split; [|split; [lia|split; [done|split; [lia|split]]]].
  - eapply does_bind; [apply does_copy; lia|]. eapply does_bind; [apply does_write_page|].
    exact Hdoes.
  - intros q Hnq. unfold PAGE_SIZE, MAX_PAGE_SIZE in Hnq. rewrite Hkeep by lia. cbn.
    unfold upd_page. unfold PAGE_SIZE, MAX_PAGE_SIZE.
    destruct (Z.eqb_spec q (c / 100)) as [Heq|]; [apply Hq in Heq; lia|done].
  - intros i x Hi Hx. destruct (Z.lt_ge_cases i e) as [Hie|Hie]; [|apply Hhold; [lia|done]].
    apply (holds_first_page entries c e f); [lia|done|unfold PAGE_SIZE, MAX_PAGE_SIZE; lia| |lia|done].
    unfold PAGE_SIZE, MAX_PAGE_SIZE.
    rewrite Hkeep by (rewrite (proj2 (Hq (c / 100)) eq_refl); lia). cbn.
    unfold upd_page, PAGE_SIZE, MAX_PAGE_SIZE. by rewrite Z.eqb_refl.
Qed.

(** ** One migration step *)

Lemma phys_at_base L q n : 0 <= L <= n -> phys L n / PAGE_SIZE <= q -> L <= q * PAGE_SIZE.
Proof.
  intros HL Hq. rewrite phys_new in Hq by lia. pose proof (base_bounds L) as HB.
  pose proof (base_mod L) as HM. unfold PAGE_SIZE, MAX_PAGE_SIZE in *.
  pose proof (Z.div_mod (base L) 100) as HD.
  assert (base L / 100 <= (base L + (n - L)) / 100) by (apply Z.div_le_mono; lia). lia.
Qed.

(** Copying pages of the legacy vector keeps a partly migrated index. *)
Lemma paged_step ids v L c c' f uk' lk' :
  paged ids v L c -> c <= c' <= L ->
  (forall q, ~ (c <= q * PAGE_SIZE < L) -> f q = v_page v q) ->
  holds_pages (take (Z.to_nat L) ids) c c' f ->
  (c' = L /\ lk' = None /\ uk' = None) \/
  (c' < L /\ c' mod PAGE_SIZE = 0 /\ lk' = Some (take (Z.to_nat L) ids) /\ uk' = Some c') ->
  paged ids (mkView (v_count v) lk' uk' (v_legacy_count v) f) L c'.
Proof.
  intros [Hct Hlc [Hc HL] Hold Hat Htail Hrest] Hc' Hkeep Hhold Hnew.
  assert (Hnewer : forall q n, L <= n -> phys L n / PAGE_SIZE <= q -> f q = v_page v q).
  { intros q n Hn Hq. apply Hkeep. pose proof (phys_at_base L q n). lia. }
  constructor; cbn; try done; try lia.
  - intros i x Hi Hx Hwhere. destruct (decide (c <= i < c')) as [Hin|Hout].
    + unfold phys. rewrite (proj2 (Z.ltb_lt i L)) by lia. apply Hhold; [done|].
      by rewrite lookup_take_lt by lia.
    + destruct (Hat i x Hi Hx) as (pg & Hpg & Hpx); [lia|]. exists pg. split; [|done].
      rewrite <- Hpg. destruct (Z.lt_ge_cases i L) as [HiL|HiL]; [|by apply (Hnewer _ i)].
      apply Hkeep. unfold phys. rewrite (proj2 (Z.ltb_lt i L)) by done.
      unfold PAGE_SIZE, MAX_PAGE_SIZE. pose proof (Z.mul_div_le i 100). lia.
  - by rewrite (Hnewer _ (llen ids)).
  - intros q Hq. rewrite (Hnewer _ (llen ids)) by lia. by apply Hrest.
Qed.

(** A legacy vector of [ids], read as an index nothing of which has been
    migrated yet. *)
Lemma unpaged_view ids v f0 :
  unpaged ids v -> v_legacy v = Some ids -> 0 < llen ids ->
  f0 = Some (llen ids) ->
  paged ids (mkView f0 (v_legacy v) (Some 0) f0 (v_page v)) (llen ids) 0.
Proof.
  intros [Hct Hl Hu Hg Hp] Hleg Hlen ->.
  constructor; cbn; try done; try lia.
  - right. done.
  - right. rewrite Hleg, Nat2Z.id, take_ge by lia. done.
  - intros i x Hi Hx Hwhere. apply lookup_lt_Some in Hx. lia.
  - rewrite Hp. rewrite phys_new, Z.sub_diag, Z.add_0_r by lia. rewrite base_mod; [done|lia].
Qed.

Definition finish_migration (legacy_count cursor : Z) : IM unit :=
  if legacy_count <=? cursor then
    do! premove lk;
    premove uk
  else
    do! pset_as uk cursor;
    do! bump_persistent uk;
    bump_persistent lk.

Lemma does_finish entries v L c :
  c <= L -> v_legacy v = Some entries ->
  exists lk' uk',
    does (finish_migration L c) v tt (mkView (v_count v) lk' uk' (v_legacy_count v) (v_page v)) /\
    ((c = L /\ lk' = None /\ uk' = None) \/ (c < L /\ lk' = Some entries /\ uk' = Some c)).
Proof.
  intros Hc Hl. unfold finish_migration. destruct (Z.leb_spec L c).
  - exists None, None. split; [|left; repeat split; lia].
    eapply does_bind; [apply does_drop_legacy|]. apply does_drop_cursor.
  - exists (Some entries), (Some c). split; [|right; repeat split; lia].
    eapply does_bind; [apply does_set_cursor|]. rewrite <- Hl.
    eapply does_bind; apply does_bump.
    + right. right. left. cbn. eauto.
    + right. left. cbn. rewrite Hl. eauto.
Qed.

(** What a migration step does to an index with a legacy vector: the part the
    branches of [migrate_legacy_index] share. *)
Lemma does_migration ids v L c n :
  paged ids (mkView (Some (llen ids)) (v_legacy v) (Some c) (Some L) (v_page v)) L c ->
  v_legacy v = Some (take (Z.to_nat L) ids) -> c < L ->
  L + 100 <= u32_max ->
  exists v',
    does (let! cursor := migrate_pages (take (Z.to_nat L) ids) L c n in
          do! pset_as ck (llen ids);
          do! bump_persistent ck;
          do! pset_as gk L;
          do! bump_persistent gk;
          do! finish_migration L cursor;
          ret (llen ids)) v (llen ids) v' /\
    exists c', paged ids v' L c'.
Proof.
  intros HP Hl Hc Hsmall. pose proof HP as [_ Hlc [Hc0 HL] Hold _ _ _]. cbn in Hlc, Hold.
  assert (HLl : llen (take (Z.to_nat L) ids) = L) by (rewrite length_take; lia).
  destruct (does_migrate_pages (take (Z.to_nat L) ids) n v c) as
    (c' & f & Hmig & Hc' & Hal & _ & Hkeep & Hhold); [lia| |lia|].
  { left. destruct Hold as [?|(_ & ? & _)]; [lia|done]. }
  rewrite HLl in *.
  destruct (does_finish (take (Z.to_nat L) ids)
              (mkView (Some (llen ids)) (v_legacy v) (v_cursor v) (Some L) f) L c')
    as (lk' & uk' & Hfin & Hcase); [lia|done|]. cbn in Hfin.
  exists (mkView (Some (llen ids)) lk' uk' (Some L) f). split.
  - eapply does_bind; [exact Hmig|]. eapply does_bind; [apply does_set_count|].
    eapply does_bind; [apply does_bump; left; cbn; eauto|].
    eapply does_bind; [apply does_set_lc|].
    eapply does_bind; [apply does_bump; do 3 right; left; cbn; eauto|].
    eapply does_bind; [exact Hfin|]. apply does_ret.
  - exists c'. eapply (paged_step _ _ _ _ _ f uk' lk' HP); [lia|exact Hkeep|exact Hhold|].
    destruct Hcase as [?|(? & ? & ?)]; [by left|right]. repeat split; try done.
    destruct Hal; [done|lia].
Qed.

(** An index whose migration has begun, or that has nothing to migrate. *)
Definition begun (ids : list Z) v : Prop :=
  (exists L c, paged ids v L c) \/ (unpaged ids v /\ ids = [] /\ v_legacy v = None).

(** The decision [migrate_legacy_index] takes once it has read the entries. *)
Definition migration_branch (entries : list Z) (max_pages L total c : Z) : IM Z :=
  if L <=? c then
    do! premove lk;
    do! premove uk;
    ret total
  else if Z.min max_pages MAX_MIGRATION_PAGES =? 0 then ret total
  else
    let! cursor := migrate_pages entries L c (Z.to_nat (Z.min max_pages MAX_MIGRATION_PAGES)) in
    do! pset_as ck total;
    do! bump_persistent ck;
    do! pset_as gk L;
    do! bump_persistent gk;
    do! finish_migration L cursor;
    ret total.

Lemma does_decide entries max_pages L total c v r v' :
  v_legacy v = Some entries -> L = default (llen entries) (v_legacy_count v) ->
  total = default L (v_count v) -> c = default 0 (v_cursor v) ->
  does (migration_branch entries max_pages L total c) v r v' ->
  does (migrate_legacy_index max_pages) v r v'.
Proof.
  intros Hl -> -> -> Hd. unfold FactoryIndex.migrate_legacy_index.
  eapply does_bind; [apply does_get_legacy|]. rewrite Hl.
  eapply does_bind; [apply does_get_count|]. eapply does_bind; [apply does_get_lc|].
  eapply does_bind; [apply does_get_cursor|]. exact Hd.
Qed.

Lemma does_decide_none max_pages v :
  v_legacy v = None -> does (migrate_legacy_index max_pages) v (default 0 (v_count v)) v.
Proof.
  intros Hl. unfold FactoryIndex.migrate_legacy_index.
  eapply does_bind; [apply does_get_legacy|]. rewrite Hl.
  eapply does_bind; [apply does_get_count|]. apply does_ret.
Qed.

(** The branch taken while legacy entries remain. *)
Lemma does_branch ids v L c max_pages :
  represents ids v ->
  paged ids (mkView (Some (llen ids)) (v_legacy v) (Some c) (Some L) (v_page v)) L c ->
  v_legacy v = Some (take (Z.to_nat L) ids) -> c < L -> L + 100 <= u32_max -> 0 <= max_pages ->
  exists v',
    does (migration_branch (take (Z.to_nat L) ids) max_pages L (llen ids) c) v (llen ids) v' /\
    represents ids v' /\ (0 < max_pages -> begun ids v').
Proof.
  intros HR HP Hl Hc Hsmall Hmp. unfold migration_branch. rewrite (proj2 (Z.leb_gt L c)) by lia.
  destruct (Z.eqb_spec (Z.min max_pages MAX_MIGRATION_PAGES) 0) as [H0|H0].
  - exists v. split; [apply does_ret|]. split; [done|]. unfold MAX_MIGRATION_PAGES in H0. lia.
  - edestruct does_migration as (v' & Hd & c' & Hp'); [exact HP|exact Hl|done|done|].
    exists v'. split; [exact Hd|]. split; [right|intros _; left]; eauto.
Qed.

Lemma does_migrate_unpaged ids v max_pages :
  unpaged ids v -> llen ids + 200 <= u32_max -> 0 <= max_pages ->
  exists v', does (migrate_legacy_index max_pages) v (llen ids) v' /\
    represents ids v' /\ (0 < max_pages -> begun ids v').
Proof.
  intros HU Hsmall Hmp. pose proof HU as [Hct Hl Hu Hg Hp].
  destruct (v_legacy v) as [es|] eqn:Hleg; cbn in Hl; subst.
  2:{ exists v. split; [|split; [by left|intros _; right; by rewrite Hleg]].
      pose proof (does_decide_none max_pages v Hleg) as Hd. by rewrite Hct in Hd. }
  destruct (Z.le_gt_cases (llen ids) 0) as [Hz|Hpos].
  - assert (ids = []) as -> by (destruct ids; [done|cbn in Hz; lia]).
    exists (mkView None None None None (v_page v)). split.
    + eapply (does_decide [] _ 0 0 0); [done|by rewrite Hg|by rewrite Hct|by rewrite Hu|].
      unfold migration_branch. cbn. eapply does_bind; [apply does_drop_legacy|].
      eapply does_bind; [apply does_drop_cursor|]. cbn. rewrite Hct, Hg. apply does_ret.
    + assert (unpaged [] (mkView None None None None (v_page v))) by (constructor; done).
      split; [by left|]. intros _. by right.
  - assert (Htk : take (Z.to_nat (llen ids)) ids = ids) by (apply take_ge; lia).
    destruct (does_branch ids v (llen ids) 0 max_pages) as (v' & Hd & HR');
      [by left|by apply unpaged_view|by rewrite Htk|lia..|].
    exists v'. split; [|exact HR']. rewrite Htk in Hd.
    eapply does_decide; [done|by rewrite Hg|by rewrite Hct|by rewrite Hu|exact Hd].
Qed.

Lemma does_migrate ids v max_pages :
  represents ids v -> llen ids + 200 <= u32_max -> 0 <= max_pages ->
  exists v', does (migrate_legacy_index max_pages) v (llen ids) v' /\
    represents ids v' /\ (0 < max_pages -> begun ids v').
Proof.
  intros HR Hsmall Hmp. destruct HR as [HU|(L & c & HP)]; [by apply does_migrate_unpaged|].
  pose proof HP as [Hct Hlc [Hc HL] Hold _ _ _].
  destruct Hold as [(-> & Hl & Hu)|(Hlt & Hmod & Hl & Hu)].
  - exists v. split; [|split; [right|intros _; left]; eauto].
    pose proof (does_decide_none max_pages v Hl) as Hd. by rewrite Hct in Hd.
  - destruct Hlc as [[? _]|[_ Hlc]]; [lia|].
    destruct (does_branch ids v L c max_pages) as (v' & Hd & HR'); [right; eauto| |done..|lia|done|].
    { rewrite <- Hct, <- Hlc, <- Hu. by destruct v. }
    exists v'. split; [|exact HR'].
    eapply does_decide; [done|by rewrite Hlc|by rewrite Hct|by rewrite Hu|exact Hd].
Qed.

(** ** Appending *)

(** The entry goes to the position the arithmetic picks. *)
Lemma paged_append ids v L c x :
  paged ids v L c ->
  let p := phys L (llen ids) / PAGE_SIZE in
  paged (ids ++ [x])
    (mkView (Some (llen ids + 1)) (v_legacy v) (v_cursor v) (v_legacy_count v)
       (upd_page p (default [] (v_page v p) ++ [x]) (v_page v))) L c.
Proof.
  intros [Hct Hlc [Hc HL] Hold Hat Htail Hrest] p.
  assert (Hlen : llen (ids ++ [x]) = llen ids + 1) by (rewrite length_app; cbn; lia).
  assert (Hphys : phys L (llen ids + 1) = phys L (llen ids) + 1).
  { rewrite !phys_new by lia. lia. }
  pose proof (phys_nonneg L (llen ids)) as Hnn.
  unfold PAGE_SIZE, MAX_PAGE_SIZE in *. fold p in Htail.
  pose proof (Z.div_mod (phys L (llen ids)) 100) as HD. fold p in HD.
  pose proof (Z.mod_pos_bound (phys L (llen ids)) 100) as HM.
  pose proof (Z.div_mod (phys L (llen ids) + 1) 100) as HD1.
  pose proof (Z.mod_pos_bound (phys L (llen ids) + 1) 100) as HM1.
  constructor; cbn; rewrite ?Hlen; try done; try lia.
  - destruct Hold as [?|(? & ? & Hl & ?)]; [by left|right]. repeat split; try done.
    rewrite Hl. f_equal. rewrite take_app_le by lia. done.
  - intros i y Hi Hy Hwhere. unfold upd_page, PAGE_SIZE, MAX_PAGE_SIZE.
    destruct (decide (i = llen ids)) as [->|Hne].
    + rewrite Nat2Z.id, list_lookup_middle in Hy by done. injection Hy as <-.
      fold p. rewrite Z.eqb_refl. eexists. split; [done|]. apply list_lookup_middle. lia.
    + pose proof (lookup_lt_Some _ _ _ Hy) as Hlt. rewrite length_app in Hlt. cbn in Hlt.
      rewrite lookup_app_l in Hy by lia. destruct (Hat i y Hi Hy Hwhere) as (pg & Hpg & Hy').
      destruct (Z.eqb_spec (phys L i / 100) p) as [Heq|]; [|by exists pg].
      rewrite Heq in Hpg. rewrite Hpg. exists (pg ++ [x]). split; [done|].
      change (default [] (Some pg)) with pg. rewrite lookup_app_l; [done|].
      by apply lookup_lt_Some in Hy'.
  - rewrite Hphys. unfold upd_page, PAGE_SIZE, MAX_PAGE_SIZE.
    destruct (Z.eqb_spec ((phys L (llen ids) + 1) / 100) p) as [Heq|Hne].
    + change (default [] (Some ?l)) with l. rewrite length_app. cbn [List.length].
      lia.
    + assert (Hp : (phys L (llen ids) + 1) / 100 = p + 1) by lia.
      rewrite Hp, Hrest by lia. cbn. lia.
  - intros q Hq. rewrite Hphys in Hq. unfold PAGE_SIZE, MAX_PAGE_SIZE in Hq.
    assert (p <= (phys L (llen ids) + 1) / 100) by (apply Z.div_le_mono; lia).
    unfold upd_page. rewrite (proj2 (Z.eqb_neq q p)) by lia. apply Hrest. lia.
Qed.

(** Starting an index. *)
Lemma unpaged_append v x :
  unpaged [] v -> v_legacy v = None ->
  paged [x] (mkView (Some 1) None None None (upd_page 0 [x] (v_page v))) 0 0.
Proof.
  intros [_ _ _ _ Hp] Hl. constructor; try done; try (cbn; lia).
  - by left.
  - by left.
  - intros i y Hi Hy _.
    assert (i = 0) as -> by (apply lookup_lt_Some in Hy; cbn in Hy; lia).
    injection Hy as ->. cbn. eauto.
  - intros q Hq. change (phys 0 (llen [x]) / PAGE_SIZE) with 0 in Hq. cbn. unfold upd_page.
    rewrite (proj2 (Z.eqb_neq q 0)) by lia. apply Hp.
Qed.

Lemma does_append ids v x :
  represents ids v -> llen ids + 201 <= u32_max ->
  exists v', does (append_index_entry x) v tt v' /\ represents (ids ++ [x]) v'.
Proof.
  intros HR Hsmall.
  destruct (does_migrate ids v MIGRATION_PAGES_PER_APPEND) as (v1 & Hm & _ & Hb);
    [done|lia|unfold MIGRATION_PAGES_PER_APPEND; lia|].
  specialize (Hb ltac:(unfold MIGRATION_PAGES_PER_APPEND; lia)).
  assert (Hrun : forall L, (L = 0 /\ v_legacy_count v1 = None) \/
                           (0 < L /\ v_legacy_count v1 = Some L) -> 0 <= L <= llen ids ->
    let p := phys L (llen ids) / PAGE_SIZE in
    does (append_index_entry x) v tt
      (mkView (Some (llen ids + 1)) (v_legacy v1) (v_cursor v1) (v_legacy_count v1)
         (upd_page p (default [] (v_page v1 p) ++ [x]) (v_page v1)))).
  { intros L Hlc HL p. unfold FactoryIndex.append_index_entry.
    eapply does_bind; [exact Hm|]. eapply does_bind; [apply does_get_lc|].
    eapply does_bind; [apply (does_phys L); [lia..|exact Hlc]|].
    eapply does_bind; [apply does_get_page|]. eapply does_bind; [apply does_write_page|].
    assert (Hs : sat_u32 (llen ids + 1) = llen ids + 1) by mlia. rewrite Hs.
    eapply does_bind; [apply does_set_count|].
    eapply does_bind; [apply does_bump; left; cbn; eauto|]. apply does_extend. }
  destruct Hb as [(L & c & HP)|(HU & -> & Hl)].
  - eexists. split; [apply (Hrun L); destruct HP; [done|lia]|].
    right. exists L, c. by apply paged_append.
  - eexists. split; [apply (Hrun 0); [left; split; [done|apply HU]|cbn; lia]|].
    right. exists 0, 0. destruct HU as [Hct Hlg Hu Hg Hp]. cbn. rewrite Hl, Hu, Hg.
    change (phys 0 0 / PAGE_SIZE) with 0. rewrite Hp. apply unpaged_append; [|done].
    by constructor.
Qed.

Lemma does_migrate_index ids v max_pages :
  represents ids v -> llen ids + 200 <= u32_max -> 0 <= max_pages ->
  exists n v', does (migrate_index max_pages) v n v' /\ represents ids v'.
Proof.
  intros HR Hsmall Hmp. destruct (does_migrate ids v max_pages) as (v' & Hm & HR' & _); [done..|].
  eexists _, v'. split; [|exact HR']. unfold FactoryIndex.migrate_index.
  eapply does_bind; [exact Hm|]. eapply does_bind; [apply does_get_cursor|].
  eapply does_bind; [apply does_get_count|]. apply does_ret.
Qed.

(** ** Sequences of operations *)

Inductive index_op :=
| Append (id : Z) | Migrate (max_pages : Z) | Read (offset limit : Z) | Count.

Definition index_exec (o : index_op) : IM unit :=
  match o with
  | Append x => append_index_entry x
  | Migrate n => do! migrate_index n; ret tt
  | Read offset limit => do! index_page offset limit; ret tt
  | Count => do! count_index; ret tt
  end.

Fixpoint index_run (os : list index_op) : IM unit :=
  match os with [] => ret tt | o :: os => do! index_exec o; index_run os end.

(** The arguments are unsigned. *)
Definition op_ok (o : index_op) : Prop :=
  match o with
  | Append _ | Count => True
  | Migrate n => 0 <= n
  | Read offset limit => 0 <= offset /\ 0 <= limit
  end.

(** The same on the list. *)
Definition op_spec (ids : list Z) (o : index_op) : list Z :=
  match o with Append x => ids ++ [x] | Migrate _ | Read _ _ | Count => ids end.

(** A world whose index holds [ids]. *)
Definition index_holds (ids : list Z) w : Prop := exists v, sees v w /\ represents ids v.

Lemma index_step ids o env w :
  index_holds ids w -> op_ok o -> llen ids + 201 <= u32_max ->
  exists w', index_exec o env w = ROk tt w' /\ index_holds (op_spec ids o) w'.
Proof.
  intros (v & Hs & HR) Hok Hsmall. destruct o as [x|n|offset limit|]; cbn in *.
  - destruct (does_append ids v x HR Hsmall) as (v' & Hd & HR').
    destruct (Hd env w Hs) as (w' & Hw & Hs'). exists w'. split; [done|]. by exists v'.
  - destruct (does_migrate_index ids v n HR) as (r & v' & Hd & HR'); [lia|done|].
    destruct (Hd env w Hs) as (w' & Hw & Hs'). exists w'.
    split; [by rewrite (bind_run _ _ _ _ _ _ Hw)|]. by exists v'.
  - destruct (does_index_page ids v offset limit HR ltac:(lia) ltac:(tauto) ltac:(tauto) env w Hs)
      as (w' & Hw & Hs'). exists w'. split; [by rewrite (bind_run _ _ _ _ _ _ Hw)|]. by exists v.
  - destruct (does_count ids v HR env w Hs) as (w' & Hw & Hs'). exists w'.
    split; [by rewrite (bind_run _ _ _ _ _ _ Hw)|]. by exists v.
Qed.

Lemma index_ran ids o env w u w' :
  index_holds ids w -> op_ok o -> llen ids + 201 <= u32_max -> index_exec o env w = ROk u w' ->
  index_holds (op_spec ids o) w'.
Proof.
  intros Hh Ho Hs H. destruct (index_step ids o env w Hh Ho Hs) as (w1 & H1 & Hh1).
  rewrite H1 in H. by injection H as <- <-.
Qed.

Lemma index_steps os ids env w :
  index_holds ids w -> Forall op_ok os -> llen ids + llen os + 201 <= u32_max ->
  exists w', index_run os env w = ROk tt w' /\ index_holds (foldl op_spec ids os) w' /\
    llen (foldl op_spec ids os) <= llen ids + llen os.
Proof.
  revert ids w. induction os as [|o os IH]; intros ids w Hh Hok Hsmall.
  { exists w. cbn. split; [done|]. split; [done|lia]. }
  apply Forall_cons in Hok as [Ho Hok]. cbn [List.length] in Hsmall.
  destruct (index_step ids o env w Hh Ho) as (w1 & H1 & Hh1); [lia|].
  assert (Hl : llen (op_spec ids o) <= llen ids + 1).
  { destruct o; cbn; rewrite ?length_app; cbn; lia. }
  destruct (IH _ w1 Hh1 Hok) as (w2 & H2 & Hh2 & Hl2); [lia|]. exists w2.
  cbn [index_run foldl List.length]. split; [by rewrite (bind_run _ _ _ _ _ _ H1)|].
  split; [done|lia].
Qed.

Lemma index_answers ids env w offset limit :
  index_holds ids w -> llen ids + 200 <= u32_max -> 0 <= offset -> 0 <= limit ->
  exists w', (index_page offset limit : IM StreamPage) env w =
    ROk (mkStreamPage (page_of ids offset limit) (llen ids)) w' /\ index_holds ids w'.
Proof.
  intros (v & Hs & HR) Hsmall Ho Hl.
  destruct (does_index_page ids v offset limit HR Hsmall Ho Hl env w Hs) as (w' & Hw & Hs').
  exists w'. split; [done|]. by exists v.
Qed.

(** ** What the operations touch *)

(** The entries of the index. *)
Definition in_layout (k : K) : Prop :=
  k = ck \/ k = lk \/ k = uk \/ k = gk \/ exists p, k = pk p.

(** Only the index and the TTL requests change. *)
Definition only_index w w' : Prop :=
  w_store w' = w_store w /\ w_tokens w' = w_tokens w /\ w_events w' = w_events w /\
  forall k, ~ in_layout k -> w_persist w' k = w_persist w k.

#[export] Instance only_index_preorder : PreOrder only_index.
Proof.
  constructor; [by intros w|]. intros w1 w2 w3 (S1 & T1 & E1 & P1) (S2 & T2 & E2 & P2).
  split; [congruence|]. split; [congruence|]. split; [congruence|].
  intros k Hk. by rewrite P2, P1.
Qed.

Section Touch.
Context (R : World K T X -> World K T X -> Prop) `{!PreOrder R}
  `{!forall o a b, Allows R (add_ttl o a b)} `{!forall x, Allows R (put_persist ck x)}
  `{!forall x, Allows R (put_persist lk x)} `{!forall x, Allows R (put_persist uk x)}
  `{!forall x, Allows R (put_persist gk x)} `{!forall p x, Allows R (put_persist (pk p) x)}.
Abbreviation Keeps := (Keeps (E := E) R).

#[export] Instance keeps_pget_as A k `{!Stored A k} : Keeps (pget_as A k).
Proof.
  intros env w. unfold pget_as, convert_val. destruct (w_persist w k) as [v|]; [|cbn; reflexivity].
  destruct (try_from_val k v); cbn; [reflexivity|exact I].
Qed.
#[export] Instance keeps_pset_as A k `{!Stored A k} (a : A) `{!forall x, Allows R (put_persist k x)} :
  Keeps (pset_as k a).
Proof. unfold pset_as. apply _. Qed.
#[export] Instance keeps_renew k : Keeps (renew_if_present k).
Proof. unfold renew_if_present. solve_keeps. Qed.
#[export] Instance keeps_write_page p l : Keeps (write_page p l).
Proof. unfold FactoryIndex.write_page. solve_keeps. Qed.
#[export] Instance keeps_copy l i n : Keeps (copy_entries l i n).
Proof. revert i. induction n; intros; cbn [copy_entries]; solve_keeps. Qed.
#[export] Instance keeps_migrate_pages l L c n : Keeps (migrate_pages l L c n).
Proof. revert c. induction n; intros; cbn [FactoryIndex.migrate_pages]; solve_keeps. Qed.
#[export] Instance keeps_migrate_legacy n : Keeps (migrate_legacy_index n).
Proof. unfold FactoryIndex.migrate_legacy_index. solve_keeps. Qed.
#[export] Instance keeps_physical i o : Keeps (logical_to_physical_offset i o).
Proof. unfold logical_to_physical_offset, append_base. solve_keeps. Qed.
#[export] Instance keeps_renew_pages s m i n : Keeps (renew_pages s m i n).
Proof. revert i. induction n; intros; cbn [FactoryIndex.renew_pages]; solve_keeps. Qed.
#[export] Instance keeps_extend_pages n : Keeps (extend_page_ttls n).
Proof. unfold FactoryIndex.extend_page_ttls. solve_keeps. Qed.
#[export] Instance keeps_append_index x : Keeps (append_index_entry x).
Proof. unfold FactoryIndex.append_index_entry. solve_keeps. Qed.
#[export] Instance keeps_collect_page p : Keeps (collect_page p).
Proof. unfold FactoryIndex.collect_page. solve_keeps. Qed.
#[export] Instance keeps_read_positions a b c i n l : Keeps (read_positions a b c i n l).
Proof. revert i l. induction n; intros; cbn [FactoryIndex.read_positions]; solve_keeps. Qed.
#[export] Instance keeps_read_index i n : Keeps (read_index i n).
Proof. unfold FactoryIndex.read_index. solve_keeps. Qed.
#[export] Instance keeps_count_index : Keeps count_index.
Proof. unfold FactoryIndex.count_index. solve_keeps. Qed.
#[export] Instance keeps_migrate_index n : Keeps (migrate_index n).
Proof. unfold FactoryIndex.migrate_index. solve_keeps. Qed.
#[export] Instance keeps_index_page i n : Keeps (index_page i n).
Proof. unfold FactoryIndex.index_page. solve_keeps. Qed.

End Touch.

#[export] Instance only_index_ttl o a b : Allows only_index (add_ttl o a b).
Proof. by intros w. Qed.
Lemma only_index_put k x : in_layout k -> Allows only_index (put_persist k x).
Proof.
  intros Hk w. split; [done|]. split; [done|]. split; [done|]. intros j Hj.
  change (store_put k x (w_persist w) j = w_persist w j). apply put_ne. by intros <-.
Qed.
#[export] Instance only_index_ck x : Allows only_index (put_persist ck x).
Proof. apply only_index_put. by left. Qed.
#[export] Instance only_index_lk x : Allows only_index (put_persist lk x).
Proof. apply only_index_put. right. by left. Qed.
#[export] Instance only_index_uk x : Allows only_index (put_persist uk x).
Proof. apply only_index_put. do 2 right. by left. Qed.
#[export] Instance only_index_gk x : Allows only_index (put_persist gk x).
Proof. apply only_index_put. do 3 right. by left. Qed.
#[export] Instance only_index_pk p x : Allows only_index (put_persist (pk p) x).
Proof. apply only_index_put. do 4 right. by exists p. Qed.

Lemma append_only x env w u w' : (append_index_entry x : IM unit) env w = ROk u w' -> only_index w w'.
Proof. exact (keeps_ok (Keeps0 := _) _ _ _ _ _ _). Qed.
Lemma migrate_only n env w r w' : (migrate_index n : IM Z) env w = ROk r w' -> only_index w w'.
Proof. exact (keeps_ok (Keeps0 := _) _ _ _ _ _ _). Qed.
Lemma index_page_only i n env w r w' :
  (index_page i n : IM StreamPage) env w = ROk r w' -> only_index w w'.
Proof. exact (keeps_ok (Keeps0 := _) _ _ _ _ _ _). Qed.
Lemma count_index_only env w r w' : (count_index : IM Z) env w = ROk r w' -> only_index w w'.
Proof. exact (keeps_ok (Keeps0 := _) _ _ _ _ _ _). Qed.

(** What an index holds depends on its entries only. *)
Lemma index_holds_frame ids w w' :
  (forall k, in_layout k -> w_persist w' k = w_persist w k) ->
  index_holds ids w -> index_holds ids w'.
Proof.
  intros Hk (v & [H1 H2 H3 H4 H5] & HR). exists v. split; [|done].
  constructor; [..|intros p]; rewrite Hk; try done; unfold in_layout; eauto 10.
Qed.

(** An index no entry of which is present is empty. *)
Lemma index_holds_blank w : (forall k, in_layout k -> w_persist w k = None) -> index_holds [] w.
Proof.
  intros Hk. exists (mkView None None None None (fun _ => None)). split; [|left; by constructor].
  constructor; [..|intros p]; cbn; apply Hk; unfold in_layout; eauto 10.
Qed.

(** C20 The paged index is a list. From any index that holds a list of ids, be it
    an unmigrated legacy vector, a partly migrated one or pages, every sequence
    of appends, migration steps and reads goes through, and afterwards a page
    request answers the slice of the list, at most one hundred ids long, and
    its full length. *)
Theorem index_refines_list ids os env w offset limit :
  index_holds ids w -> Forall op_ok os -> llen ids + llen os + 201 <= u32_max ->
  0 <= offset -> 0 <= limit ->
  exists w' w'', (index_run os : IM unit) env w = ROk tt w' /\
    let list := foldl op_spec ids os in
    (index_page offset limit : IM StreamPage) env w' =
      ROk (mkStreamPage (take (Z.to_nat (Z.min limit 100)) (drop (Z.to_nat offset) list)) (llen list))
        w''.
Proof.
  intros Hh Hok Hsm Ho Hl.
  destruct (index_steps os ids env w Hh Hok Hsm) as (w' & H1 & Hh' & Hle).
  destruct (index_answers _ env w' offset limit Hh') as (w'' & H2 & _); [lia|done|done|].
  exists w', w''. by split.
Qed.

End Facts.
