(* ===== verification/FactoryOps.v ===== *)
(** * DripFactory: entry points
    ([contracts/factory/src/{lib,deploy,governance,index,pause,ttl}.rs])

    Stream creation, batches, cancellation bookkeeping, the registry reads and
    maintenance. *)

From stdpp Require Import base numbers list option strings gmap.
From Stdlib Require Import ZArith Lia String.
From S2P Require Import StreamOps.
From S2P Require Import Prelude Host Ttl Pause GovernorStore FactoryData FactoryIndex.
Import FacError.

#[local] Open Scope Z_scope.
#[local] Open Scope sf_scope.
#[local] Existing Instance fac_keys.

(** ** The contracts and host services the factory calls

    The arguments of a stream's [initialize]. *)
Record InitArgs := mkInitArgs {
  ia_sender : Address;
  ia_recipient : Address;
  ia_token : Address;
  ia_rate_per_sec : Z;
  ia_start_time : Z;
  ia_end_time : Z;
  ia_clawback : bool;
  ia_force_cancel_pause_secs : Z;
  ia_is_regulated_asset : bool;
  ia_description : option string
}.

(** [governor_config] is the governor's answer to [config]; [stream_salt] is
    the hash of a stream id; [deploy_contract t factory salt wasm_hash] is the
    deployer; [stream_initialize], [stream_cancel] and [stream_is_cancelled]
    are the calls to a stream, given the environment the called contract sees.
    [None] is a call that failed. *)
Class Network (T : Type) := {
  governor_config : T -> Address -> option GovernorConfig;
  stream_salt : Z -> Z;
  deploy_contract : T -> Address -> Z -> Z -> option (Address * T);
  stream_initialize : Env -> T -> InitArgs -> option T;
  stream_cancel : Env -> T -> Address -> option T;
  stream_is_cancelled : T -> Address -> option bool
}.

(** The environment of a called contract: it sees the signatures of the
    invocation, and the caller signs for itself. *)
Definition callee_env (env : Env) (callee : Address) : Env :=
  mkEnv (timestamp env) (sequence env) callee (call_auth env).

Definition MAX_BATCH_SIZE : Z := 10.

(** ** The two indices *)

Definition fac_plain (k : FacKey.data_key) : Stored (key_val k) k :=
  {| into_val := fun x => x; try_from_val := Some; try_from_into := fun _ => eq_refl |}.

#[export] Instance sender_layout a :
  IndexLayout (FacKey.BySenderCount a) (FacKey.BySender a) (FacKey.BySenderMigrationCursor a)
    (FacKey.BySenderLegacyCount a) (FacKey.BySenderPage a).
Proof.
  refine {| il_count := fac_plain (FacKey.BySenderCount a);
            il_legacy := fac_plain (FacKey.BySender a);
            il_cursor := fac_plain (FacKey.BySenderMigrationCursor a);
            il_legacy_count := fac_plain (FacKey.BySenderLegacyCount a);
            il_page p := fac_plain (FacKey.BySenderPage a p) |}; try done.
  - repeat constructor; set_solver.
  - by intros p q [= ->].
Defined.

#[export] Instance recipient_layout a :
  IndexLayout (FacKey.ByRecipientCount a) (FacKey.ByRecipient a)
    (FacKey.ByRecipientMigrationCursor a) (FacKey.ByRecipientLegacyCount a)
    (FacKey.ByRecipientPage a).
Proof.
  refine {| il_count := fac_plain (FacKey.ByRecipientCount a);
            il_legacy := fac_plain (FacKey.ByRecipient a);
            il_cursor := fac_plain (FacKey.ByRecipientMigrationCursor a);
            il_legacy_count := fac_plain (FacKey.ByRecipientLegacyCount a);
            il_page p := fac_plain (FacKey.ByRecipientPage a p) |}; try done.
  - repeat constructor; set_solver.
  - by intros p q [= ->].
Defined.

(** ** Bounds of a new stream *)

(** [governance::enforce_bounds] *)
Definition enforce_bounds (config : GovernorConfig) (rate_per_sec start_time end_time now : Z)
  : fac_error + unit :=
  if gc_max_rate_per_second config <? rate_per_sec then inl RateExceedsMax
  else
    let start_offset := sat_u64 (start_time - now) in
    if gc_max_duration_seconds config <? start_offset then inl StartTimeTooFarInFuture
    else if 0 <? end_time then
      match checked_u64 (end_time - start_time) with
      | None => inl ArithmeticOverflow
      | Some duration =>
          if duration <? gc_min_duration_seconds config then inl DurationTooShort
          else if gc_max_duration_seconds config <? duration then inl DurationExceedsMax
          else inr tt
      end
    else inr tt.

(** [estimate_fee] *)
Definition estimate_fee (operation : StreamOperation.stream_operation) : FeeEstimate :=
  let '(cpu_instructions, ledger_entries) :=
    match operation with
    | StreamOperation.CreateStream => (2500000, 5)
    | StreamOperation.CancelStream => (800000, 2)
    | StreamOperation.Withdraw => (500000, 1)
    | StreamOperation.PauseStream => (400000, 2)
    | StreamOperation.ResumeStream => (400000, 2)
    | StreamOperation.SetOperator => (400000, 2)
    | StreamOperation.RevokeOperator => (400000, 2)
    | StreamOperation.ExtendDuration => (600000, 2)
    | StreamOperation.TopUp => (700000, 2)
    | StreamOperation.TopUpAndExtend => (900000, 3)
    | StreamOperation.Clawback => (700000, 2)
    | StreamOperation.ForceCancel => (800000, 2)
    | StreamOperation.TransferRecipient => (400000, 2)
    end in
  mkFeeEstimate 0 0 cpu_instructions ledger_entries.

Section Factory.
Context {T : Type} `{TC : TokenClient T} `{NW : Network T}.
Abbreviation FM := (M FacKey.data_key T FacEvent.fac_event fac_error).
Implicit Types (sender recipient token governor stream : Address).

(** ** Module [pause] *)

Definition is_paused : FM bool := Pause.is_paused FacKey.Paused.
Definition set_paused (paused : bool) : FM unit :=
  ignore_result (Pause.set_paused FacKey.Paused paused).
Definition require_not_paused : FM unit :=
  map_err (fun _ => ContractPaused) (Pause.require_not_paused FacKey.Paused).

(** ** Module [governance] *)

Definition governor_address : FM Address :=
  let! stored := sget FacKey.GovernorAddress in ok_or stored NotInitialized.

Definition config governor : FM GovernorConfig :=
  fun env w => ok_or (governor_config (w_tokens w) governor) GovernorNotResponding env w.

Definition lift {A} (r : fac_error + A) : FM A :=
  match r with inl e => throw e | inr a => ret a end.

(** ** Module [ttl] *)

(** The body of the walker's loop, for [i] in [i .. i + n]. *)
Fixpoint walk (count cursor i : Z) (n : nat) (new_last touched : Z) : FM (Z * Z) :=
  match n with
  | O => ret (new_last, touched)
  | S n' =>
      let next := sat_u64 (sat_u64 (cursor + 1) + i) in
      let id := next mod count in
      let! present := phas (FacKey.StreamAddr id) in
      if present then
        do! bump_persistent (FacKey.StreamAddr id);
        walk count cursor (i + 1) n' id (touched + 1)
      else walk count cursor (i + 1) n' id touched
  end.

Definition bump_persistent_bucket : FM Z :=
  let! stored := sget FacKey.StreamCount in
  let count := default 0 stored in
  if count =? 0 then ret 0
  else
    let! last := sget FacKey.LastBumpedId in
    let cursor := default 0 last in
    let! r := walk count cursor 0 (Z.to_nat BATCH_LIMIT) cursor 0 in
    do! sset FacKey.LastBumpedId (fst r);
    ret (snd r).

(** ** Module [deploy] *)

Definition deploy_stream (wasm_hash stream_id : Z) (args : InitArgs) : FM Address :=
  let salt := stream_salt stream_id in
  let! used := phas (FacKey.SaltUsed salt) in
  do! throw_if used SaltAlreadyUsed;
  let! addr :=
    (fun env w =>
       match deploy_contract (w_tokens w) (current_contract env) salt wasm_hash with
       | Some (a, t') => ROk a (set_tokens t' w)
       | None => RTrap HostFailure
       end) in
  do! pset (FacKey.SaltUsed salt) true;
  do! (fun env w =>
         match stream_initialize (callee_env env addr) (w_tokens w) args with
         | Some t' => ROk tt (set_tokens t' w)
         | None => RTrap HostFailure
         end);
  ret addr.

Definition set_stream_wasm_hash (new_wasm_hash : Z) : FM unit :=
  let! governor := governor_address in
  do! require_auth governor;
  do! throw_if (new_wasm_hash =? 0) InvalidWasmHash;
  do! require_not_paused;
  let! stored := sget FacKey.StreamWasmHash in
  let! old_wasm_hash := ok_or stored NotInitialized in
  do! bump_instance;
  do! bump_persistent_bucket;
  if negb (old_wasm_hash =? new_wasm_hash) then
    do! sset FacKey.StreamWasmHash new_wasm_hash;
    publish (FacEvent.StreamContractUpgraded old_wasm_hash new_wasm_hash)
  else ret tt.

(** ** Module [index] at the two sides *)

Definition append_sender_index sender (stream_id : Z) : FM unit :=
  append_index_entry (FacKey.BySenderCount sender) (FacKey.BySender sender)
    (FacKey.BySenderMigrationCursor sender) (FacKey.BySenderLegacyCount sender)
    (FacKey.BySenderPage sender) stream_id.
Definition append_recipient_index recipient (stream_id : Z) : FM unit :=
  append_index_entry (FacKey.ByRecipientCount recipient) (FacKey.ByRecipient recipient)
    (FacKey.ByRecipientMigrationCursor recipient) (FacKey.ByRecipientLegacyCount recipient)
    (FacKey.ByRecipientPage recipient) stream_id.
Definition migrate_sender_index sender (max_pages : Z) : FM Z :=
  migrate_index (FacKey.BySenderCount sender) (FacKey.BySender sender)
    (FacKey.BySenderMigrationCursor sender) (FacKey.BySenderLegacyCount sender)
    (FacKey.BySenderPage sender) max_pages.
Definition migrate_recipient_index recipient (max_pages : Z) : FM Z :=
  migrate_index (FacKey.ByRecipientCount recipient) (FacKey.ByRecipient recipient)
    (FacKey.ByRecipientMigrationCursor recipient) (FacKey.ByRecipientLegacyCount recipient)
    (FacKey.ByRecipientPage recipient) max_pages.
Definition streams_by_sender sender (offset limit : Z) : FM StreamPage :=
  index_page (FacKey.BySenderCount sender) (FacKey.BySender sender)
    (FacKey.BySenderMigrationCursor sender) (FacKey.BySenderLegacyCount sender)
    (FacKey.BySenderPage sender) offset limit.
Definition streams_by_recipient recipient (offset limit : Z) : FM StreamPage :=
  index_page (FacKey.ByRecipientCount recipient) (FacKey.ByRecipient recipient)
    (FacKey.ByRecipientMigrationCursor recipient) (FacKey.ByRecipientLegacyCount recipient)
    (FacKey.ByRecipientPage recipient) offset limit.
Definition stream_count_by_sender sender : FM Z :=
  count_index (FacKey.BySenderCount sender) (FacKey.BySender sender)
    (FacKey.BySenderMigrationCursor sender) (FacKey.BySenderLegacyCount sender)
    (FacKey.BySenderPage sender).
Definition stream_count_by_recipient recipient : FM Z :=
  count_index (FacKey.ByRecipientCount recipient) (FacKey.ByRecipient recipient)
    (FacKey.ByRecipientMigrationCursor recipient) (FacKey.ByRecipientLegacyCount recipient)
    (FacKey.ByRecipientPage recipient).

(** ** Initialization *)

Definition initialize (stream_wasm_hash : Z) governor : FM unit :=
  let! has := shas FacKey.StreamCount in
  do! panic_if has (code AlreadyInitialized);
  do! panic_if (stream_wasm_hash =? 0) (code InvalidWasmHash);
  do! panic_if (is_zero_address governor) (code InvalidGovernor);
  do! bump_instance;
  do! sset FacKey.StreamWasmHash stream_wasm_hash;
  do! sset FacKey.GovernorAddress governor;
  do! sset FacKey.StreamCount 0;
  do! sset FacKey.Aggregate (mkAggregate 0 0);
  sset FacKey.FactoryStorageVersion CURRENT_STORAGE_VERSION.

(** ** Creation *)

Definition validate_stream_request sender recipient token
    (deposit rate_per_sec start_time end_time : Z) : FM Z :=
  do! throw_if (is_zero_address recipient || addr_eqb recipient sender) InvalidRecipient;
  do! throw_if (is_zero_address token) InvalidToken;
  do! throw_if ((0 <? end_time) && (end_time <=? start_time)) InvalidDuration;
  do! throw_if ((0 <? end_time) && (end_time - start_time <? MIN_STREAM_DURATION))
        DurationTooShort;
  do! throw_if (deposit <=? 0) InvalidDeposit;
  do! throw_if (rate_per_sec <=? 0) InvalidRate;
  do! throw_if (deposit <? rate_per_sec) InsufficientDeposit;
  let! now := ledger_timestamp in
  do! throw_if (start_time <? now) BackdatedStream;
  do! (if 0 <? end_time then
         let! required := ok_or (checked_i128 (rate_per_sec * (end_time - start_time)))
                            ArithmeticOverflow in
         throw_if (deposit <? required) InsufficientDeposit
       else ret tt);
  ret now.

Definition aggregate : FM Aggregate :=
  let! stored := sget FacKey.Aggregate in ret (default (mkAggregate 0 0) stored).

(** Release the creation lock and fail. *)
Definition unlock_and_fail {A} (e : fac_error) : FM A :=
  do! sset FacKey.CreateLock false; throw e.

(** The surcharge, and what the sender pays in all. *)
Definition protocol_fee (deposit fee_bps : Z) : FM (Z * Z) :=
  let! product := ok_or (checked_i128 (deposit * fee_bps)) ArithmeticOverflow in
  let fee := Z.quot product 10000 in
  let! total_funding := ok_or (checked_i128 (deposit + fee)) ArithmeticOverflow in
  ret (fee, total_funding).

(** Pull the deposit and the fee, and pass the fee on. *)
Definition collect_funding (config : GovernorConfig) sender token (fee total_funding : Z)
  : FM unit :=
  let! factory_addr := contract_address in
  let! before := token_balance token factory_addr in
  do! token_transfer token sender factory_addr total_funding;
  let! after := token_balance token factory_addr in
  let! expected := i128_op (before + total_funding) in
  do! (if negb (after =? expected) then unlock_and_fail DepositTransferFailed else ret tt);
  do! (if 0 <? fee then token_transfer token factory_addr (gc_fee_recipient config) fee
       else ret tt);
  publish (FacEvent.fee (gc_fee_recipient config) fee).

(** Forward the deposit to the new stream. *)
Definition fund_stream token stream (deposit : Z) : FM unit :=
  let! factory_addr := contract_address in
  let! before := token_balance token stream in
  do! token_transfer token factory_addr stream deposit;
  let! after := token_balance token stream in
  let! expected := i128_op (before + deposit) in
  if negb (after =? expected) then unlock_and_fail StreamFundingFailed else ret tt.

(** Enter the stream in the registry and count it. *)
Definition register_stream stream (stream_id stream_count : Z) : FM unit :=
  do! pset (FacKey.StreamAddr stream_id) stream;
  do! pset (FacKey.IsKnownStream stream) true;
  do! bump_persistent (FacKey.StreamAddr stream_id);
  do! bump_persistent (FacKey.IsKnownStream stream);
  let! next := u64_op (stream_count + 1) in
  do! sset FacKey.StreamCount next;
  let! agg := aggregate in
  let! total := u64_op (total_supply agg + 1) in
  let! active := u64_op (active_streams agg + 1) in
  sset FacKey.Aggregate (mkAggregate total active).

Definition create_stream_with_config (config : GovernorConfig) (now : Z) sender recipient token
    (deposit rate_per_sec start_time end_time : Z) (clawback : bool)
    (description : option string) : FM Z :=
  do! lift (enforce_bounds config rate_per_sec start_time end_time now);
  let! fees := protocol_fee deposit (gc_fee_bps config) in
  let! locked := sget FacKey.CreateLock in
  do! throw_if (default false locked) CreateLocked;
  do! sset FacKey.CreateLock true;
  do! bump_instance;
  do! collect_funding config sender token (fst fees) (snd fees);
  let! stored_count := sget FacKey.StreamCount in
  let stream_count := default 0 stored_count in
  let stream_id := stream_count in
  let! stored_hash := sget FacKey.StreamWasmHash in
  match stored_hash with
  | None => unlock_and_fail NotInitialized
  | Some wasm_hash =>
      let! stream_addr :=
        (fun env w =>
           match deploy_stream wasm_hash stream_id
                   (mkInitArgs sender recipient token rate_per_sec start_time end_time clawback
                      (gc_force_cancel_pause_secs config) false description) env w with
           | RErr e w' => unlock_and_fail e env w'
           | r => r
           end) in
      do! fund_stream token stream_addr deposit;
      do! publish (FacEvent.StreamCreated sender recipient stream_addr (stream_salt stream_id)
                     wasm_hash);
      do! register_stream stream_addr stream_id stream_count;
      do! append_sender_index sender stream_id;
      do! append_recipient_index recipient stream_id;
      do! sset FacKey.CreateLock false;
      ret stream_id
  end.

Definition create_stream sender recipient token (deposit rate_per_sec start_time end_time : Z)
    (clawback : bool) (description : option string) : FM Z :=
  do! require_auth sender;
  do! require_not_paused;
  let! now := validate_stream_request sender recipient token deposit rate_per_sec start_time
                end_time in
  do! throw_if (match description with
                | Some desc => MAX_DESCRIPTION_LEN <? Z.of_nat (String.length desc)
                | None => false
                end) DescriptionTooLong;
  let! governor := governor_address in
  let! cfg := config governor in
  create_stream_with_config cfg now sender recipient token deposit rate_per_sec start_time
    end_time clawback description.

(** ** Batches *)

Fixpoint create_each (cfg : GovernorConfig) (configs : list StreamInitParams) : FM (list Address) :=
  match configs with
  | [] => ret []
  | c :: rest =>
      do! require_auth (sp_sender c);
      let! now := validate_stream_request (sp_sender c) (sp_recipient c) (sp_token c)
                    (sp_deposit c) (sp_rate_per_sec c) (sp_start_time c) (sp_end_time c) in
      let! stream_id :=
        create_stream_with_config cfg now (sp_sender c) (sp_recipient c) (sp_token c)
          (sp_deposit c) (sp_rate_per_sec c) (sp_start_time c) (sp_end_time c) (sp_clawback c)
          None in
      let! addr := pget (FacKey.StreamAddr stream_id) in
      match addr with
      | None => trap HostFailure
      | Some a => let! deployed := create_each cfg rest in ret ((a : Address) :: deployed)
      end
  end.

Definition batch_create_streams (configs : list StreamInitParams) : FM (list Address) :=
  do! throw_if (bool_decide (configs = [])) EmptyBatch;
  do! throw_if (MAX_BATCH_SIZE <? Z.of_nat (List.length configs)) BatchTooLarge;
  do! require_not_paused;
  let! governor := governor_address in
  let! cfg := config governor in
  create_each cfg configs.

Definition batch_deploy_streams (configs : list StreamInitParams) : FM (list Address) :=
  batch_create_streams configs.

Fixpoint create_requests (cfg : GovernorConfig) sender (clawback : bool)
    (requests : list BatchStreamRequest) : FM (list Z) :=
  match requests with
  | [] => ret []
  | r :: rest =>
      let! now := validate_stream_request sender (br_recipient r) (br_token r) (br_deposit r)
                    (br_rate_per_sec r) (br_start_time r) (br_end_time r) in
      let! stream_id :=
        create_stream_with_config cfg now sender (br_recipient r) (br_token r) (br_deposit r)
          (br_rate_per_sec r) (br_start_time r) (br_end_time r) clawback None in
      let! ids := create_requests cfg sender clawback rest in
      ret (stream_id :: ids)
  end.

Definition create_batch_streams sender (requests : list BatchStreamRequest) (clawback : bool)
  : FM (list Z) :=
  do! throw_if (bool_decide (requests = [])) EmptyBatch;
  do! throw_if (MAX_BATCH_SIZE <? Z.of_nat (List.length requests)) BatchTooLarge;
  do! require_auth sender;
  do! require_not_paused;
  let! governor := governor_address in
  let! cfg := config governor in
  create_requests cfg sender clawback requests.

(** ** Cancellation *)

(** The duplicate check, over the set of the addresses seen so far. *)
Fixpoint has_duplicate (seen : gset Address) (addrs : list Address) : bool :=
  match addrs with
  | [] => false
  | a :: rest => if bool_decide (a ∈ seen) then true else has_duplicate ({[a]} ∪ seen) rest
  end.

(** Mark a stream cancelled and count it out. *)
Definition record_cancellation stream : FM unit :=
  do! pset (FacKey.CancelledStream stream) true;
  do! bump_persistent (FacKey.CancelledStream stream);
  let! agg := aggregate in
  sset FacKey.Aggregate (mkAggregate (total_supply agg) (sat_u64 (active_streams agg - 1))).

Fixpoint cancel_each sender (addrs : list Address) : FM unit :=
  match addrs with
  | [] => ret tt
  | stream :: rest =>
      do! (fun env w =>
             match stream_cancel (callee_env env stream) (w_tokens w) sender with
             | Some t' => ROk tt (set_tokens t' w)
             | None => RTrap HostFailure
             end);
      let! recorded := pget (FacKey.CancelledStream stream) in
      do! (if default false recorded then ret tt else record_cancellation stream);
      cancel_each sender rest
  end.

Definition cancel_batch_streams sender (stream_addresses : list Address) : FM unit :=
  do! require_auth sender;
  do! throw_if (bool_decide (stream_addresses = [])) EmptyBatch;
  do! throw_if (MAX_BATCH_SIZE <? Z.of_nat (List.length stream_addresses)) BatchTooLarge;
  do! throw_if (has_duplicate ∅ stream_addresses) DuplicateStreamId;
  cancel_each sender stream_addresses.

Definition record_cancel stream : FM unit :=
  let! known := pget (FacKey.IsKnownStream stream) in
  if negb (default false known) then ret tt
  else
    let! recorded := pget (FacKey.CancelledStream stream) in
    if default false recorded then ret tt
    else
      let! cancelled :=
        (fun env w =>
           match stream_is_cancelled (w_tokens w) stream with
           | Some b => ROk b w
           | None => RTrap HostFailure
           end) in
      if negb cancelled then ret tt else record_cancellation stream.

(** ** Reads *)

Definition stream_address (stream_id : Z) : FM (option Address) :=
  let! addr := pget (FacKey.StreamAddr stream_id) in
  do! (if is_some addr then bump_persistent (FacKey.StreamAddr stream_id) else ret tt);
  ret addr.

Fixpoint resolve_each (ids : list Z) : FM (list (option Address)) :=
  match ids with
  | [] => ret []
  | id :: rest =>
      let! a := stream_address id in
      let! out := resolve_each rest in
      ret (a :: out)
  end.

Definition stream_addresses (ids : list Z) : FM (list (option Address)) :=
  do! throw_if (MAX_PAGE_SIZE <? Z.of_nat (List.length ids)) BatchTooLarge;
  resolve_each ids.

Definition get_streams_by_creator_paged (creator : Address) (start_index limit : Z)
  : FM (list Address) :=
  let! page := streams_by_sender creator start_index limit in
  let! addrs := resolve_each (pg_ids page) in
  ret (omap id addrs).

Definition streams_by_creator_paged (creator : Address) (start_index limit : Z)
  : FM (list Address) := get_streams_by_creator_paged creator start_index limit.
Definition get_streams_by_creator (creator : Address) : FM (list Address) :=
  get_streams_by_creator_paged creator 0 MAX_PAGE_SIZE.
Definition streams_by_creator (creator : Address) : FM (list Address) :=
  get_streams_by_creator creator.

Definition stream_count : FM Z :=
  let! stored := sget FacKey.StreamCount in ret (default 0 stored).
Definition get_total_streams_count : FM Z := stream_count.
Definition get_stream_count : FM Z := stream_count.

Definition deployed_stream_count_by_token token : FM Z :=
  let! stored := pget (FacKey.TokenStreamCount token) in
  let count := default 0 stored in
  do! (if 0 <? count then bump_persistent (FacKey.TokenStreamCount token) else ret tt);
  ret count.
Definition stream_count_by_token token : FM Z := deployed_stream_count_by_token token.

Definition is_known_stream (address : Address) : FM bool :=
  let! stored := pget (FacKey.IsKnownStream address) in
  let is_known := default false stored in
  do! (if is_known then bump_persistent (FacKey.IsKnownStream address) else ret tt);
  ret is_known.

Definition protocol_fee_bps : FM Z :=
  let! governor := governor_address in
  let! cfg := config governor in
  ret (gc_fee_bps cfg).
Definition protocol_fee_bps_or_default (default_bps : Z) : FM Z :=
  unwrap_or protocol_fee_bps default_bps.

(** [r.ok()] *)
Definition result_ok {A} (m : FM A) : FM (option A) :=
  unwrap_or (E1 := fac_error) (let! a := m in ret (Some a)) None.

Definition factory_status : FM FactoryStatus :=
  let! p := is_paused in
  let! fee := result_ok protocol_fee_bps in
  ret (mkFactoryStatus p fee).

Definition stream_wasm_hash : FM Z :=
  let! stored := sget FacKey.StreamWasmHash in ok_or stored NotInitialized.
Definition factory_storage_version : FM Z :=
  let! stored := sget FacKey.FactoryStorageVersion in ret (default 0 stored).

(** ** Maintenance *)

Definition upgrade_stream_wasm (new_wasm_hash : Z) : FM unit := set_stream_wasm_hash new_wasm_hash.

Definition upgrade_self (new_wasm_hash expected_storage_version : Z) : FM unit :=
  let! governor := governor_address in
  do! require_auth governor;
  do! throw_if (new_wasm_hash =? 0) InvalidWasmHash;
  do! require_not_paused;
  let! stored := sget FacKey.FactoryStorageVersion in
  let! stored_version := ok_or stored NotInitialized in
  do! throw_if (negb (expected_storage_version =? stored_version)) StorageVersionMismatch;
  do! bump_instance;
  do! publish (FacEvent.WasmReplaced new_wasm_hash);
  let! now := ledger_timestamp in
  publish (FacEvent.upgraded governor now).

Definition pause : FM unit :=
  let! governor := governor_address in
  do! require_auth governor;
  let! paused := is_paused in
  do! throw_if paused AlreadyPaused;
  do! bump_instance;
  do! bump_persistent_bucket;
  do! set_paused true;
  let! now := ledger_timestamp in
  publish (FacEvent.paused governor now).

Definition unpause : FM unit :=
  let! governor := governor_address in
  do! require_auth governor;
  let! paused := is_paused in
  do! throw_if (negb paused) NotPaused;
  do! bump_instance;
  do! bump_persistent_bucket;
  do! set_paused false;
  let! now := ledger_timestamp in
  publish (FacEvent.unpaused governor now).

End Factory.
