(* ===== verification/FactorySystem.v ===== *)
(** * DripFactory: calls, frames and reachable worlds

    The entry points as a type of calls, what the factory relies on when it
    calls other contracts, the relations most of the code stays inside, and the
    worlds a deployed factory can be in. *)

From stdpp Require Import base numbers list option strings gmap.
From Stdlib Require Import ZArith Lia String.
From S2P Require Import StreamOps.
From S2P Require Import Prelude Host Ttl Pause Frame GovernorStore.
From S2P Require Import FactoryData FactoryIndex FactoryIndexFacts FactoryOps.
Import FacError.

#[local] Open Scope Z_scope.
#[local] Open Scope sf_scope.
#[local] Existing Instance fac_keys.

(** What the factory relies on: a contract address comes from its deployer and
    one salt, deploying moves no tokens, and neither does the [initialize] of
    the stream code the governor configured. *)
Class NetworkLaws (T : Type) `{TokenClient T} `{Network T} : Prop := {
  deploy_one_salt t1 t2 f s1 s2 h1 h2 a t1' t2' :
    deploy_contract t1 f s1 h1 = Some (a, t1') -> deploy_contract t2 f s2 h2 = Some (a, t2') ->
    s1 = s2;
  deploy_balance t f s h a t' tk x :
    deploy_contract t f s h = Some (a, t') -> tok_balance t' tk x = tok_balance t tk x;
  initialize_balance env t args t' tk x :
    stream_initialize env t args = Some t' -> tok_balance t' tk x = tok_balance t tk x
}.

Inductive fac_call :=
| FInitialize (stream_wasm_hash : Z) (governor : Address)
| FCreateStream (sender recipient token : Address)
    (deposit rate_per_sec start_time end_time : Z) (clawback : bool) (description : option string)
| FBatchCreateStreams (configs : list StreamInitParams)
| FCreateBatchStreams (sender : Address) (requests : list BatchStreamRequest) (clawback : bool)
| FCancelBatchStreams (sender : Address) (stream_addresses : list Address)
| FRecordCancel (stream : Address)
| FMigrateSenderIndex (sender : Address) (max_pages : Z)
| FMigrateRecipientIndex (recipient : Address) (max_pages : Z)
| FUpgradeStreamWasm (new_wasm_hash : Z)
| FUpgradeSelf (new_wasm_hash expected_storage_version : Z)
| FPause
| FUnpause
| FStreamAddress (stream_id : Z)
| FStreamAddresses (ids : list Z)
| FStreamsBySender (sender : Address) (offset limit : Z)
| FStreamsByRecipient (recipient : Address) (offset limit : Z)
| FStreamsByCreator (creator : Address) (start_index limit : Z)
| FStreamCountBySender (sender : Address)
| FStreamCountByRecipient (recipient : Address)
| FStreamCountByToken (token : Address)
| FIsKnownStream (address : Address)
| FIsPaused
| FFactoryStatus.

(** Numeric arguments are unsigned where the code says so. *)
Definition fac_typed (c : fac_call) : Prop :=
  match c with
  | FMigrateSenderIndex _ n | FMigrateRecipientIndex _ n => 0 <= n
  | FStreamsBySender _ o l | FStreamsByRecipient _ o l | FStreamsByCreator _ o l =>
      0 <= o /\ 0 <= l
  | _ => True
  end.

Section System.
Context {T : Type} `{TC : TokenClient T} `{NW : Network T}.
Abbreviation FM := (M FacKey.data_key T FacEvent.fac_event fac_error).
Abbreviation FWorld := (World FacKey.data_key T FacEvent.fac_event).
Implicit Types (w : FWorld) (c : fac_call).

Definition fac_exec c : FM unit :=
  match c with
  | FInitialize h g => initialize h g
  | FCreateStream s r t d rate a b cl desc => do! create_stream s r t d rate a b cl desc; ret tt
  | FBatchCreateStreams l => do! batch_create_streams l; ret tt
  | FCreateBatchStreams s l cl => do! create_batch_streams s l cl; ret tt
  | FCancelBatchStreams s l => cancel_batch_streams s l
  | FRecordCancel a => record_cancel a
  | FMigrateSenderIndex a n => do! migrate_sender_index a n; ret tt
  | FMigrateRecipientIndex a n => do! migrate_recipient_index a n; ret tt
  | FUpgradeStreamWasm h => upgrade_stream_wasm h
  | FUpgradeSelf h v => upgrade_self h v
  | FPause => pause
  | FUnpause => unpause
  | FStreamAddress i => do! stream_address i; ret tt
  | FStreamAddresses l => do! stream_addresses l; ret tt
  | FStreamsBySender a o l => do! streams_by_sender a o l; ret tt
  | FStreamsByRecipient a o l => do! streams_by_recipient a o l; ret tt
  | FStreamsByCreator a o l => do! get_streams_by_creator_paged a o l; ret tt
  | FStreamCountBySender a => do! stream_count_by_sender a; ret tt
  | FStreamCountByRecipient a => do! stream_count_by_recipient a; ret tt
  | FStreamCountByToken a => do! deployed_stream_count_by_token a; ret tt
  | FIsKnownStream a => do! is_known_stream a; ret tt
  | FIsPaused => do! is_paused; ret tt
  | FFactoryStatus => do! factory_status; ret tt
  end.

(** ** The event log as the history of creations *)

Record Creation := mkCreation { cr_creator : Address; cr_recipient : Address; cr_stream : Address }.

Definition creation_of (x : FacEvent.fac_event) : option Creation :=
  match x with
  | FacEvent.StreamCreated c r a _ _ => Some (mkCreation c r a)
  | _ => None
  end.

Definition created w : list Creation := omap creation_of (w_events w).

(** ** Frames of the helpers *)

Section Helpers.
Context (R : FWorld -> FWorld -> Prop) `{!PreOrder R}.

#[export] Instance keeps_lift {A} (r : fac_error + A) : Keeps R (lift (T := T) r).
Proof. destruct r; apply _. Qed.
#[export] Instance keeps_governor_address : Keeps R (governor_address (T := T)).
Proof. unfold governor_address. solve_keeps. Qed.
#[export] Instance keeps_config g : Keeps R (config g).
Proof. intros env w. unfold config. destruct (governor_config _ _); cbn; reflexivity. Qed.
#[export] Instance keeps_aggregate : Keeps R (aggregate (T := T)).
Proof. unfold aggregate. solve_keeps. Qed.
#[export] Instance keeps_protocol_fee d b : Keeps R (protocol_fee (T := T) d b).
Proof. unfold protocol_fee. solve_keeps. Qed.
#[export] Instance keeps_validate_request s r t d rate a b :
  Keeps R (validate_stream_request (T := T) s r t d rate a b).
Proof. unfold validate_stream_request. solve_keeps. Qed.
#[export] Instance keeps_fee_bps : Keeps R protocol_fee_bps.
Proof. unfold protocol_fee_bps. solve_keeps. Qed.
#[export] Instance keeps_result_ok {A} (m : FM A) : Keeps R m -> Keeps R (result_ok m).
Proof. intros Hm. unfold result_ok. solve_keeps. Qed.

Context `{!forall v, Allows R (put FacKey.Paused v)}.
#[export] Instance keeps_fac_is_paused : Keeps R (is_paused (T := T)).
Proof. unfold is_paused. apply _. Qed.
#[export] Instance keeps_fac_set_paused b : Keeps R (set_paused (T := T) b).
Proof. unfold set_paused. apply _. Qed.
#[export] Instance keeps_fac_not_paused : Keeps R (require_not_paused (T := T)).
Proof. unfold require_not_paused. apply _. Qed.

Context `{!forall o a b, Allows R (add_ttl o a b)}.
#[export] Instance keeps_walk n m i k l t : Keeps R (walk (T := T) n m i k l t).
Proof. revert i l t. induction k; intros; cbn [walk]; solve_keeps. Qed.
#[export] Instance keeps_bucket `{!forall v, Allows R (put FacKey.LastBumpedId v)} :
  Keeps R (bump_persistent_bucket (T := T)).
Proof. unfold bump_persistent_bucket. solve_keeps. Qed.

#[export] Instance keeps_stream_address i : Keeps R (stream_address (T := T) i).
Proof. unfold stream_address. solve_keeps. Qed.
#[export] Instance keeps_resolve l : Keeps R (resolve_each (T := T) l).
Proof. induction l; cbn [resolve_each]; solve_keeps. Qed.

Context `{!forall v, Allows R (put FacKey.CreateLock v)} `{!forall t, Allows R (set_tokens t)}.
#[export] Instance keeps_unlock_fail {A} e : Keeps R (unlock_and_fail (T := T) (A := A) e).
Proof. unfold unlock_and_fail. solve_keeps. Qed.
#[export] Instance keeps_fund_stream t s d : Keeps R (fund_stream t s d).
Proof. unfold fund_stream. solve_keeps. Qed.
#[export] Instance keeps_collect_funding g s t f n `{!forall a n, Allows R (add_event (FacEvent.fee a n))} :
  Keeps R (collect_funding g s t f n).
Proof. unfold collect_funding. solve_keeps. Qed.

#[export] Instance keeps_deploy_stream h i a
  `{!forall s v, Allows R (put_persist (FacKey.SaltUsed s) (Some v))} : Keeps R (deploy_stream h i a).
Proof.
  unfold deploy_stream. apply keeps_bind; [apply _|apply _|intros used].
  apply keeps_bind; [apply _|apply _|intros _]. apply keeps_bind; [apply _| |intros addr].
  - intros env w. destruct (deploy_contract _ _ _ _) as [[? ?]|]; [apply allows|exact I].
  - apply keeps_bind; [apply _|apply _|intros _]. apply keeps_bind; [apply _| |intros _; apply _].
    intros env w. destruct (stream_initialize _ _ _); [apply allows|exact I].
Qed.

End Helpers.
End System.

Ltac unfold_fac :=
  cbn [fac_exec];
  unfold initialize, record_cancel, upgrade_stream_wasm, set_stream_wasm_hash, upgrade_self,
    pause, unpause, stream_addresses, get_streams_by_creator_paged, deployed_stream_count_by_token,
    is_known_stream, factory_status, cancel_batch_streams, batch_create_streams,
    create_batch_streams, create_stream, migrate_sender_index, migrate_recipient_index,
    streams_by_sender, streams_by_recipient, stream_count_by_sender, stream_count_by_recipient.
Ltac solve_fac := unfold_fac; solve_keeps.
