(* ===== verification/FactoryRegistry.v ===== *)
(** * DripFactory: the registry is the log of creations

    The worlds a deployed factory can be in, and the invariant that ties the
    counter, the address table, the known-stream marks, the aggregate and the
    two indices to the [StreamCreated] events. *)

From stdpp Require Import base numbers list option strings gmap.
From Stdlib Require Import ZArith Lia String.
From S2P Require Import Prelude Host Ttl Pause Frame GovernorStore.
From S2P Require Import FactoryData FactoryIndex FactoryIndexFacts FactoryOps FactorySystem.
Import FacError.

#[local] Open Scope Z_scope.
#[local] Open Scope sf_scope.

(** The positions in a history at which [f] is [a], counted from [i]. *)
Fixpoint ids_from (f : Creation -> Address) (a : Address) (i : Z) (h : list Creation) : list Z :=
  match h with
  | [] => []
  | c :: rest =>
      if addr_eqb (f c) a then i :: ids_from f a (i + 1) rest else ids_from f a (i + 1) rest
  end.
Definition ids_of (f : Creation -> Address) (a : Address) (h : list Creation) : list Z :=
  ids_from f a 0 h.

Lemma ids_from_snoc f a i h c :
  ids_from f a i (h ++ [c]) =
  ids_from f a i h ++ (if addr_eqb (f c) a then [i + llen h] else []).
Proof.
  revert i. induction h as [|d h IH]; intros i.
  - cbn. rewrite Z.add_0_r. by destruct (addr_eqb _ _).
  - cbn [ids_from app List.length]. rewrite IH.
    replace (i + 1 + llen h) with (i + Z.of_nat (S (List.length h))) by lia.
    by destruct (addr_eqb (f d) a).
Qed.

Lemma ids_of_snoc f a h c :
  ids_of f a (h ++ [c]) = ids_of f a h ++ (if addr_eqb (f c) a then [llen h] else []).
Proof. apply ids_from_snoc. Qed.

Lemma ids_from_length f a i h : llen (ids_from f a i h) <= llen h.
Proof.
  revert i. induction h as [|d h IH]; intros i; [done|]. cbn [ids_from].
  specialize (IH (i + 1)). destruct (addr_eqb (f d) a); cbn [List.length]; lia.
Qed.
Lemma ids_of_length f a h : llen (ids_of f a h) <= llen h.
Proof. apply ids_from_length. Qed.

Section Registry.
Context {T : Type} `{TC : TokenClient T} `{NW : Network T} `{NL : !NetworkLaws T}.
Abbreviation FWorld := (World FacKey.data_key T FacEvent.fac_event).
Abbreviation FM := (M FacKey.data_key T FacEvent.fac_event fac_error).
Context (self : Address).
Implicit Types (w : FWorld).

(** ** The invariant *)

(** [a] was deployed by this factory for stream [id]. *)
Definition deployed_as (id : Z) (a : Address) : Prop :=
  exists (t : T) h t', deploy_contract t self (stream_salt (T := T) id) h = Some (a, t').

Definition recorded w (a : Address) : bool :=
  default false (w_persist w (FacKey.CancelledStream a)).

(** Streams whose cancellation has not been recorded. *)
Definition live w : Z :=
  zsum (fun a => if recorded w a then 0 else 1) (cr_stream <$> created w).

Definition sender_index (ids : list Z) (a : Address) w : Prop :=
  index_holds (FacKey.BySenderCount a) (FacKey.BySender a) (FacKey.BySenderMigrationCursor a)
    (FacKey.BySenderLegacyCount a) (FacKey.BySenderPage a) ids w.
Definition recipient_index (ids : list Z) (a : Address) w : Prop :=
  index_holds (FacKey.ByRecipientCount a) (FacKey.ByRecipient a)
    (FacKey.ByRecipientMigrationCursor a) (FacKey.ByRecipientLegacyCount a)
    (FacKey.ByRecipientPage a) ids w.

Definition known w (a : Address) : bool :=
  default false (w_persist w (FacKey.IsKnownStream a)).

Record Registry (strict : bool) w : Prop := {
  rg_count : w_store w FacKey.StreamCount = Some (llen (created w));
  rg_agg : exists agg, w_store w FacKey.Aggregate = Some agg /\
    total_supply agg = llen (created w) /\ 0 <= active_streams agg <= total_supply agg /\
    (strict = true -> active_streams agg = live w);
  rg_addr i : 0 <= i ->
    w_persist w (FacKey.StreamAddr i) = cr_stream <$> (created w !! Z.to_nat i);
  rg_known a : known w a = bool_decide (a ∈ cr_stream <$> created w);
  rg_salt i : 0 <= i < llen (created w) ->
    is_some (w_persist w (FacKey.SaltUsed (stream_salt (T := T) i))) = true;
  rg_deploy i cr : created w !! i = Some cr -> deployed_as (Z.of_nat i) (cr_stream cr);
  rg_distinct : NoDup (cr_stream <$> created w);
  rg_sender a : sender_index (ids_of cr_creator a (created w)) a w;
  rg_recipient a : recipient_index (ids_of cr_recipient a (created w)) a w;
  rg_recorded a : strict = true -> recorded w a = true -> known w a = true
}.

(** ** What most of the code leaves alone *)

Definition core (k : FacKey.data_key) : Prop := k = FacKey.StreamCount \/ k = FacKey.Aggregate.

Record quiet w w' : Prop := {
  q_core k : core k -> w_store w' k = w_store w k;
  q_persist k : (forall s, k <> FacKey.SaltUsed s) -> w_persist w' k = w_persist w k;
  q_salt s : is_some (w_persist w (FacKey.SaltUsed s)) = true ->
             is_some (w_persist w' (FacKey.SaltUsed s)) = true;
  q_created : created w' = created w
}.

#[export] Instance quiet_preorder : PreOrder quiet.
Proof.
  constructor; [by intros w|]. intros w1 w2 w3 [A1 B1 C1 D1] [A2 B2 C2 D2]. constructor.
  - intros k Hk. by rewrite A2, A1.
  - intros k Hk. by rewrite B2, B1.
  - eauto.
  - congruence.
Qed.

#[export] Instance quiet_put k v `{!InFrame (fun k => ~ core k) k} : Allows quiet (put k v).
Proof. intros w. constructor; try done. intros j Hj. apply put_store_ne. by intros ->. Qed.
#[export] Instance quiet_tokens t : Allows quiet (set_tokens t).
Proof. by intros w. Qed.
#[export] Instance quiet_ttl o a b : Allows quiet (add_ttl o a b).
Proof. by intros w. Qed.
Lemma quiet_event x : creation_of x = None -> Allows quiet (add_event x).
Proof.
  intros Hx w. constructor; try done. unfold created, add_event. cbn. rewrite omap_app. cbn.
  by rewrite Hx, app_nil_r.
Qed.
#[export] Instance quiet_fee a n : Allows quiet (add_event (FacEvent.fee a n)).
Proof. by apply quiet_event. Qed.
#[export] Instance quiet_paused a n : Allows quiet (add_event (FacEvent.paused a n)).
Proof. by apply quiet_event. Qed.
#[export] Instance quiet_unpaused a n : Allows quiet (add_event (FacEvent.unpaused a n)).
Proof. by apply quiet_event. Qed.
#[export] Instance quiet_upgraded a n : Allows quiet (add_event (FacEvent.upgraded a n)).
Proof. by apply quiet_event. Qed.
#[export] Instance quiet_wasm n : Allows quiet (add_event (FacEvent.WasmReplaced n)).
Proof. by apply quiet_event. Qed.
#[export] Instance quiet_hash a n : Allows quiet (add_event (FacEvent.StreamContractUpgraded a n)).
Proof. by apply quiet_event. Qed.
#[export] Instance quiet_salt s v : Allows quiet (put_persist (FacKey.SaltUsed s) (Some v)).
Proof.
  intros w. constructor; try done.
  - intros k Hk. apply put_ne. intros <-. by apply (Hk s).
  - intros s' Hs. change (is_some (store_put (FacKey.SaltUsed s) (Some v) (w_persist w)
      (FacKey.SaltUsed s')) = true).
    destruct (decide (s' = s)) as [->|Hne]; [by rewrite put_eq|]. rewrite put_ne; [done|congruence].
Qed.

(** Keys of the sender index, and of the recipient index. *)
Abbreviation sender_keys a := (in_layout (FacKey.BySenderCount a) (FacKey.BySender a)
  (FacKey.BySenderMigrationCursor a) (FacKey.BySenderLegacyCount a) (FacKey.BySenderPage a)).
Abbreviation recipient_keys a := (in_layout (FacKey.ByRecipientCount a) (FacKey.ByRecipient a)
  (FacKey.ByRecipientMigrationCursor a) (FacKey.ByRecipientLegacyCount a)
  (FacKey.ByRecipientPage a)).

Definition index_key (k : FacKey.data_key) : Prop :=
  exists a, sender_keys a k \/ recipient_keys a k.

Lemma live_frame w w' :
  created w' = created w -> (forall a, recorded w' a = recorded w a) -> live w' = live w.
Proof. intros Hc Hr. unfold live. rewrite Hc. apply zsum_ext. intros i _. by rewrite Hr. Qed.

Lemma registry_quiet strict w w' : quiet w w' -> Registry strict w -> Registry strict w'.
Proof.
  intros [Hcore Hp Hs Hc] HR. pose proof HR as [R1 R2 R3 R4 R5 R6 R7 R8 R9 R10].
  assert (Hrec : forall a, recorded w' a = recorded w a).
  { intros a. unfold recorded. by rewrite Hp. }
  assert (Hkn : forall a, known w' a = known w a).
  { intros a. unfold known. by rewrite Hp. }
  constructor; rewrite ?Hc; try done.
  - rewrite Hcore by (by left). done.
  - destruct R2 as (agg & H1 & H2 & H3 & H4). exists agg. rewrite Hcore by (by right).
    split; [done|]. split; [done|]. split; [done|]. intros Hst.
    rewrite (live_frame w w' Hc Hrec). auto.
  - intros i Hi. rewrite Hp by done. auto.
  - intros a. rewrite Hkn. auto.
  - intros i Hi. apply Hs. auto.
  - intros a. eapply index_holds_frame; [|apply R8]. intros k Hk. apply Hp.
    intros s ->. unfold in_layout in Hk. naive_solver.
  - intros a. eapply index_holds_frame; [|apply R9]. intros k Hk. apply Hp.
    intros s ->. unfold in_layout in Hk. naive_solver.
  - intros a Hst. rewrite Hrec, Hkn. auto.
Qed.

(** ** Index operations *)

Lemma sender_apart a b k : sender_keys a k -> sender_keys b k -> a = b.
Proof. unfold in_layout. intros H1 H2. naive_solver. Qed.
Lemma recipient_apart a b k : recipient_keys a k -> recipient_keys b k -> a = b.
Proof. unfold in_layout. intros H1 H2. naive_solver. Qed.
Lemma sides_apart a b k : sender_keys a k -> recipient_keys b k -> False.
Proof. unfold in_layout. intros H1 H2. naive_solver. Qed.

(** The entries outside the indices. *)
Definition outside (k : FacKey.data_key) : Prop :=
  (forall a, ~ sender_keys a k) /\ (forall a, ~ recipient_keys a k).

Lemma registry_transfer strict w w' :
  w_store w' = w_store w -> w_events w' = w_events w ->
  (forall k, outside k -> w_persist w' k = w_persist w k) ->
  (forall ids a, sender_index ids a w -> llen ids <= llen (created w) -> sender_index ids a w') ->
  (forall ids a, recipient_index ids a w -> llen ids <= llen (created w) ->
     recipient_index ids a w') ->
  Registry strict w -> Registry strict w'.
Proof.
  intros Hst Hev Hp Hsi Hri [R1 R2 R3 R4 R5 R6 R7 R8 R9 R10].
  assert (Hc : created w' = created w) by (unfold created; by rewrite Hev).
  assert (Hplain : forall k, (forall a, ~ sender_keys a k) -> (forall a, ~ recipient_keys a k) ->
                      w_persist w' k = w_persist w k) by (intros; apply Hp; by split).
  assert (Hrec : forall a, recorded w' a = recorded w a).
  { intros a. unfold recorded. rewrite Hplain; [done|unfold in_layout; naive_solver..]. }
  assert (Hkn : forall a, known w' a = known w a).
  { intros a. unfold known. rewrite Hplain; [done|unfold in_layout; naive_solver..]. }
  constructor; rewrite ?Hc, ?Hst; try done.
  - destruct R2 as (agg & H1 & H2 & H3 & H4). exists agg.
    by rewrite (live_frame w w' Hc Hrec).
  - intros i Hi. rewrite Hplain; [auto|unfold in_layout; naive_solver..].
  - intros a. by rewrite Hkn.
  - intros i Hi. rewrite Hplain; [auto|unfold in_layout; naive_solver..].
  - intros a. apply Hsi; [done|apply ids_of_length].
  - intros a. apply Hri; [done|apply ids_of_length].
  - intros a Hs. rewrite Hrec, Hkn. auto.
Qed.

Lemma registry_sender_op strict w w' a :
  only_index (FacKey.BySenderCount a) (FacKey.BySender a) (FacKey.BySenderMigrationCursor a)
    (FacKey.BySenderLegacyCount a) (FacKey.BySenderPage a) w w' ->
  (forall ids, sender_index ids a w -> llen ids <= llen (created w) -> sender_index ids a w') ->
  Registry strict w -> Registry strict w'.
Proof.
  intros (Hs & _ & He & Hp) Hi. apply registry_transfer; try done.
  - intros k [H1 _]. by apply Hp.
  - intros ids b Hb Hl. destruct (decide (b = a)) as [->|Hne]; [by apply Hi|].
    eapply index_holds_frame; [|exact Hb]. intros k Hk. apply Hp. intros Hk'.
    apply Hne. by eapply sender_apart.
  - intros ids b Hb _. eapply index_holds_frame; [|exact Hb]. intros k Hk. apply Hp. intros Hk'.
    by eapply sides_apart.
Qed.

Lemma registry_recipient_op strict w w' a :
  only_index (FacKey.ByRecipientCount a) (FacKey.ByRecipient a)
    (FacKey.ByRecipientMigrationCursor a) (FacKey.ByRecipientLegacyCount a)
    (FacKey.ByRecipientPage a) w w' ->
  (forall ids, recipient_index ids a w -> llen ids <= llen (created w) ->
     recipient_index ids a w') ->
  Registry strict w -> Registry strict w'.
Proof.
  intros (Hs & _ & He & Hp) Hi. apply registry_transfer; try done.
  - intros k [_ H2]. by apply Hp.
  - intros ids b Hb _. eapply index_holds_frame; [|exact Hb]. intros k Hk. apply Hp. intros Hk'.
    by eapply sides_apart.
  - intros ids b Hb Hl. destruct (decide (b = a)) as [->|Hne]; [by apply Hi|].
    eapply index_holds_frame; [|exact Hb]. intros k Hk. apply Hp. intros Hk'.
    apply Hne. by eapply recipient_apart.
Qed.

(** ** Deployment *)

(** [t] is the state right after the stream was deployed at [a] and
    initialized. *)
Definition launched (sid : Z) (a : Address) (h : Z) (args : InitArgs) (env : Env) (t : T) : Prop :=
  exists t0 t1, deploy_contract t0 self (stream_salt (T := T) sid) h = Some (a, t1) /\
    stream_initialize (callee_env env a) t1 args = Some t.

Lemma deploy_ok strict h args env w a w' :
  current_contract env = self -> Registry strict w ->
  deploy_stream h (llen (created w)) args env w = ROk a w' ->
  Registry strict w' /\ created w' = created w /\ deployed_as (llen (created w)) a /\
  a ∉ (cr_stream <$> created w) /\
  is_some (w_persist w' (FacKey.SaltUsed (stream_salt (T := T) (llen (created w))))) = true /\
  (forall tk x, tok_balance (w_tokens w') tk x = tok_balance (w_tokens w) tk x) /\
  launched (llen (created w)) a h args env (w_tokens w').
Proof.
  intros Hself HR H.
  assert (HQ : quiet w w') by exact (keeps_ok (Keeps0 := _) _ _ _ _ _ _ H).
  split; [by eapply registry_quiet|]. split; [apply (q_created _ _ HQ)|].
  unfold deploy_stream in H. apply bind_ok in H as (used & w1 & Hu & H).
  injection Hu as <- <-. apply bind_ok in H as (? & w1 & Hu & H).
  apply throw_if_ok in Hu as [Hu ->]. apply bind_ok in H as (addr & w1 & Hd & H).
  destruct (deploy_contract _ _ _ _) as [[a1 t1]|] eqn:Hdep in Hd; [|done]. injection Hd as <- <-.
  apply bind_ok in H as (? & w2 & Hsalt & H). injection Hsalt as <- <-.
  apply bind_ok in H as (? & w3 & Hi & H).
  destruct (stream_initialize _ _ _) as [t2|] eqn:Hini in Hi; [|done].
  injection Hi as <- <-. injection H as -> <-. rewrite Hself in Hdep.
  split; [by exists (w_tokens w), h, t1|]. split; [|split; [|split]].
  - intros Hin. apply list_elem_of_fmap in Hin as (cr & -> & Hcr).
    apply list_elem_of_lookup in Hcr as [i Hi].
    destruct (rg_deploy _ _ HR i cr Hi) as (t' & h' & t'' & Hd').
    pose proof (deploy_one_salt _ _ _ _ _ _ _ _ _ _ Hd' Hdep) as Heq.
    apply lookup_lt_Some in Hi as Hlt.
    pose proof (rg_salt _ _ HR (Z.of_nat i) ltac:(lia)) as Hused. rewrite Heq in Hused. exact (eq_true_false_abs _ Hused Hu).
  - change (is_some (store_put (FacKey.SaltUsed (stream_salt (llen (created w)))) (Some true)
      (w_persist w) (FacKey.SaltUsed (stream_salt (llen (created w))))) = true).
    by rewrite put_eq.
  - intros tk' x'. cbn. rewrite (initialize_balance _ _ _ _ _ _ Hini). cbn.
    by rewrite (deploy_balance _ _ _ _ _ _ _ _ Hdep).
  - by exists (w_tokens w), t1.
Qed.

(** ** Enrolment: the event, the registry entry and the two index entries *)

Definition enroll (sender recipient stream : Address) (sid salt hash : Z) : FM unit :=
  do! publish (FacEvent.StreamCreated sender recipient stream salt hash);
  do! register_stream stream sid sid;
  do! append_sender_index sender sid;
  append_recipient_index recipient sid.

(** What enters the registry before the indices are extended. *)
Lemma register_ok stream sid env w u w' agg :
  w_store w FacKey.Aggregate = Some agg -> register_stream stream sid sid env w = ROk u w' ->
  (forall k, ~ core k -> w_store w' k = w_store w k) /\
  w_store w' FacKey.StreamCount = Some (sid + 1) /\
  w_store w' FacKey.Aggregate = Some (mkAggregate (total_supply agg + 1) (active_streams agg + 1)) /\
  w_events w' = w_events w /\ w_tokens w' = w_tokens w /\
  w_persist w' = store_put (FacKey.IsKnownStream stream) (Some true)
                   (store_put (FacKey.StreamAddr sid) (Some stream) (w_persist w)).
Proof.
  intros Hagg H. unfold register_stream, aggregate in H. inv_ok.
  repeat match goal with Hb : bump_persistent _ _ _ = ROk _ _ |- _ =>
    apply bump_persistent_ok in Hb as [_ ->] end.
  match goal with |- context [default _ ?o] =>
    assert (Ho : o = Some agg) by (rewrite put_store_ne by done; exact Hagg) end.
  rewrite Ho. cbn [default from_option]. unfold id.
  split; [|split; [|split; [|done]]].
  - intros k Hk. rewrite !put_store_ne; [done|intros <-; apply Hk; unfold core; tauto..].
  - rewrite put_store_ne by done. by rewrite put_store_eq.
  - by rewrite put_store_eq.
Qed.

Lemma recorded_store w w' :
  (forall a, w_persist w' (FacKey.CancelledStream a) = w_persist w (FacKey.CancelledStream a)) ->
  forall a, recorded w' a = recorded w a.
Proof. intros H a. unfold recorded. by rewrite H. Qed.

(** One more stream on the books. *)
Lemma live_snoc w w' cr :
  created w' = created w ++ [cr] -> (forall a, recorded w' a = recorded w a) ->
  recorded w (cr_stream cr) = false -> live w' = live w + 1.
Proof.
  intros Hc Hr Hn. unfold live. rewrite Hc, fmap_app, zsum_app. cbn. rewrite Hr, Hn.
  f_equal. apply zsum_ext. intros i _. by rewrite Hr.
Qed.

(** The world between the registry entry and the index entries. *)
Record entered (sender recipient stream : Address) w w' : Prop := {
  en_created : created w' = created w ++ [mkCreation sender recipient stream];
  en_count : w_store w' FacKey.StreamCount = Some (llen (created w) + 1);
  en_agg agg : w_store w FacKey.Aggregate = Some agg -> w_store w' FacKey.Aggregate =
    Some (mkAggregate (total_supply agg + 1) (active_streams agg + 1));
  en_store k : ~ core k -> w_store w' k = w_store w k;
  en_addr : w_persist w' (FacKey.StreamAddr (llen (created w))) = Some stream;
  en_known : w_persist w' (FacKey.IsKnownStream stream) = Some true;
  en_persist k : k <> FacKey.StreamAddr (llen (created w)) -> k <> FacKey.IsKnownStream stream ->
    w_persist w' k = w_persist w k;
  en_tokens : w_tokens w' = w_tokens w
}.

Lemma entered_ok strict s r stream salt hash env w u w' :
  Registry strict w ->
  (do! publish (FacEvent.StreamCreated s r stream salt hash);
   register_stream stream (llen (created w)) (llen (created w))) env w = ROk u w' ->
  entered s r stream w w'.
Proof.
  intros HR H. destruct (rg_agg _ _ HR) as (agg & Hagg & _).
  apply bind_ok in H as ([] & w1 & He & H). injection He as <-.
  destruct (register_ok _ _ _ (add_event _ w) _ _ agg Hagg H) as (R1 & R2 & R3 & R4 & R5 & R6).
  constructor; try done.
  - unfold created. rewrite R4. cbn. by rewrite omap_app.
  - intros agg' Hagg'. rewrite Hagg in Hagg'. by injection Hagg' as <-.
  - by rewrite R6, put_ne, put_eq by done.
  - by rewrite R6, put_eq.
  - intros k H1 H2. by rewrite R6, !put_ne by congruence.
Qed.

(** Both index entries. *)
Lemma entries_ok s r sid env w u w' ids_s ids_r :
  (do! append_sender_index s sid; append_recipient_index r sid) env w = ROk u w' ->
  (forall a, sender_index (ids_s a) a w) -> (forall a, recipient_index (ids_r a) a w) ->
  llen (ids_s s) + 201 <= u32_max -> llen (ids_r r) + 201 <= u32_max ->
  (forall a, sender_index (ids_s a ++ (if addr_eqb s a then [sid] else [])) a w') /\
  (forall a, recipient_index (ids_r a ++ (if addr_eqb r a then [sid] else [])) a w') /\
  w_store w' = w_store w /\ w_events w' = w_events w /\ w_tokens w' = w_tokens w /\
  (forall k, outside k -> w_persist w' k = w_persist w k).
Proof.
  intros H Hs Hr Hls Hlr. apply bind_ok in H as ([] & w1 & H1 & H2). destruct u.
  pose proof (index_ran _ _ _ _ _ _ (Append sid) env w tt w1 (Hs s) I Hls H1) as Hs1.
  destruct (append_only _ _ _ _ _ _ _ _ _ _ H1) as (S1 & T1 & E1 & P1).
  assert (Hr1 : forall a, recipient_index (ids_r a) a w1).
  { intros a. eapply index_holds_frame; [|apply Hr]. intros k Hk. apply P1. intros Hk'.
    by eapply sides_apart. }
  pose proof (index_ran _ _ _ _ _ _ (Append sid) env w1 tt w' (Hr1 r) I Hlr H2) as Hr2.
  destruct (append_only _ _ _ _ _ _ _ _ _ _ H2) as (S2 & T2 & E2 & P2).
  split; [|split; [|split; [congruence|split; [congruence|split; [congruence|]]]]].
  - intros a. eapply (index_holds_frame _ _ _ _ _ _ w1); [|].
    { intros k Hk. apply P2. intros Hk'. by eapply sides_apart. }
    destruct (addr_eqb s a) eqn:Ha; [apply addr_eqb_true in Ha as <-; exact Hs1|].
    rewrite app_nil_r. apply addr_eqb_false in Ha.
    eapply (index_holds_frame _ _ _ _ _ _ w); [|apply Hs]. intros k Hk. apply P1. intros Hk'.
    apply Ha. by eapply sender_apart.
  - intros a. destruct (addr_eqb r a) eqn:Ha; [apply addr_eqb_true in Ha as <-; exact Hr2|].
    rewrite app_nil_r. apply addr_eqb_false in Ha.
    eapply (index_holds_frame _ _ _ _ _ _ w1); [|apply Hr1]. intros k Hk. apply P2. intros Hk'.
    apply Ha. by eapply recipient_apart.
  - intros k [Ho1 Ho2]. rewrite P2, P1; [done|apply Ho1|apply Ho2].
Qed.

(** What a world has gained with one more stream. *)
Record grown (sender recipient stream : Address) w w' : Prop := {
  gr_created : created w' = created w ++ [mkCreation sender recipient stream];
  gr_count : w_store w' FacKey.StreamCount = Some (llen (created w) + 1);
  gr_agg agg : w_store w FacKey.Aggregate = Some agg -> w_store w' FacKey.Aggregate =
    Some (mkAggregate (total_supply agg + 1) (active_streams agg + 1));
  gr_store k : ~ core k -> w_store w' k = w_store w k;
  gr_addr : w_persist w' (FacKey.StreamAddr (llen (created w))) = Some stream;
  gr_known : w_persist w' (FacKey.IsKnownStream stream) = Some true;
  gr_persist k : (forall a, ~ sender_keys a k) -> (forall a, ~ recipient_keys a k) ->
    k <> FacKey.StreamAddr (llen (created w)) -> k <> FacKey.IsKnownStream stream ->
    w_persist w' k = w_persist w k;
  gr_sender a : sender_index (ids_of cr_creator a (created w')) a w';
  gr_recipient a : recipient_index (ids_of cr_recipient a (created w')) a w';
  gr_tokens : w_tokens w' = w_tokens w
}.

(** Solve that a plain key is no index key. *)
Ltac plain := intros; unfold in_layout; naive_solver.

Lemma enroll_grows strict s r stream salt hash env w u w' :
  Registry strict w -> llen (created w) + 201 <= u32_max ->
  enroll s r stream (llen (created w)) salt hash env w = ROk u w' -> grown s r stream w w'.
Proof.
  intros HR Hsmall H. unfold enroll in H.
  apply bind_ok in H as ([] & w0 & Hev & H). apply bind_ok in H as ([] & w1 & Hreg & H).
  assert (Hen : entered s r stream w w1).
  { apply (entered_ok strict s r stream salt hash env w tt); [done|].
    by rewrite (bind_run _ _ _ _ _ _ Hev). }
  destruct Hen as [N1 N2 N3 N4 N5 N6 N7 N8].
  destruct (entries_ok s r (llen (created w)) env w1 u w'
    (fun a => ids_of cr_creator a (created w)) (fun a => ids_of cr_recipient a (created w)) H)
    as (Hs & Hr & S2 & E2 & T2 & P2).
  { intros a. eapply index_holds_frame; [|apply (rg_sender _ _ HR a)]. intros k Hk.
    apply N7; unfold in_layout in Hk; naive_solver. }
  { intros a. eapply index_holds_frame; [|apply (rg_recipient _ _ HR a)]. intros k Hk.
    apply N7; unfold in_layout in Hk; naive_solver. }
  { pose proof (ids_of_length cr_creator s (created w)). lia. }
  { pose proof (ids_of_length cr_recipient r (created w)). lia. }
  assert (Hc : created w' = created w ++ [mkCreation s r stream]).
  { rewrite <- N1. unfold created. by rewrite E2. }
  constructor; rewrite ?S2, ?T2; try done.
  - rewrite P2; [done|split; plain].
  - rewrite P2; [done|split; plain].
  - intros k H1 H2 H3 H4. by rewrite (P2 k (conj H1 H2)), N7.
  - intros a. rewrite Hc, ids_of_snoc. apply Hs.
  - intros a. rewrite Hc, ids_of_snoc. apply Hr.
Qed.

Lemma registry_grows strict s r stream w w' :
  Registry strict w -> deployed_as (llen (created w)) stream ->
  stream ∉ (cr_stream <$> created w) ->
  is_some (w_persist w (FacKey.SaltUsed (stream_salt (T := T) (llen (created w))))) = true ->
  grown s r stream w w' -> Registry strict w'.
Proof.
  intros HR Hdep Hnew Hsalt [Hc G2 G3 _ G5 G6 Hp Hs Hr _].
  assert (Hrec : forall a, recorded w' a = recorded w a).
  { apply recorded_store. intros a. apply Hp; [plain..|done|done]. }
  assert (Hkn : forall a, known w' a = if decide (a = stream) then true else known w a).
  { intros a. unfold known. destruct (decide (a = stream)) as [->|Hne]; [by rewrite G6|].
    rewrite Hp; [done|plain..|done|congruence]. }
  assert (Hkw : known w stream = false).
  { rewrite (rg_known _ _ HR). by apply bool_decide_eq_false. }
  assert (Hlen : llen (created w') = llen (created w) + 1) by (rewrite Hc, length_app; cbn; lia).
  destruct HR as [R1 R2 R3 R4 R5 R6 R7 _ _ R10]. constructor; try done.
  - by rewrite G2, Hlen.
  - destruct R2 as (agg & A1 & A2 & A3 & A4). eexists. split; [exact (G3 _ A1)|].
    rewrite Hlen. cbn. split; [lia|]. split; [lia|]. intros Hst. rewrite (A4 Hst). symmetry.
    apply (live_snoc w w' _ Hc Hrec). cbn. destruct (recorded w stream) eqn:Hrs; [|done].
    by rewrite (R10 _ Hst Hrs) in Hkw.
  - intros i Hi. rewrite Hc. destruct (decide (i = llen (created w))) as [->|Hne].
    + by rewrite G5, Nat2Z.id, list_lookup_middle.
    + rewrite Hp; [|plain..|congruence|done].
      rewrite (R3 i Hi). destruct (Z.lt_ge_cases i (llen (created w))).
      * by rewrite lookup_app_l by lia.
      * rewrite !lookup_ge_None_2; [done|rewrite length_app; cbn; lia|lia].
  - intros a. rewrite Hkn, Hc, fmap_app. cbn. destruct (decide (a = stream)) as [->|Hne].
    + symmetry. apply bool_decide_eq_true. set_solver.
    + rewrite R4. apply bool_decide_ext. set_solver.
  - intros i Hi. rewrite Hp; [|plain..|done|done].
    destruct (decide (i = llen (created w))) as [->|]; [done|]. apply R5. lia.
  - intros i cr. rewrite Hc. intros [Hi|[Hge Hi]]%lookup_app_Some; [by apply R6|].
    apply list_lookup_singleton_Some in Hi as [Hi <-]. cbn.
    by replace i with (List.length (created w)) by lia.
  - rewrite Hc, fmap_app. cbn. apply NoDup_app. split; [done|]. split; [set_solver|].
    apply NoDup_singleton.
  - intros a Hst. rewrite Hrec, Hkn. intros Ha. destruct (decide (a = stream)); [done|]. auto.
Qed.

(** ** Recording a cancellation *)

Lemma live_nonneg w : 0 <= live w.
Proof.
  unfold live. induction (cr_stream <$> created w) as [|x l IH]; [done|].
  change (0 <= (if recorded w x then 0 else 1) +
    zsum (fun a => if recorded w a then 0 else 1) l). destruct (recorded w x); lia.
Qed.

Lemma recording_ok strict stream env w u w' :
  Registry strict w -> llen (created w) <= u32_max ->
  recorded w stream = false -> (strict = true -> known w stream = true) ->
  record_cancellation stream env w = ROk u w' -> Registry strict w' /\ created w' = created w.
Proof.
  intros HR Hsmall Hrec Hkn H. unfold record_cancellation, aggregate in H. inv_ok.
  match goal with Hb : bump_persistent _ _ _ = ROk _ _ |- _ =>
    apply bump_persistent_ok in Hb as [_ ->] end.
  set (w1 := add_ttl _ _ _ _). change (w_store w1 FacKey.Aggregate) with (w_store w FacKey.Aggregate).
  destruct HR as [R1 R2 R3 R4 R5 R6 R7 R8 R9 R10].
  destruct R2 as (agg & A1 & A2 & A3 & A4). rewrite A1. cbn [default from_option]. unfold id.
  set (w2 := put _ _ w1). assert (Hc : created w2 = created w) by done.
  assert (Hp : forall k, k <> FacKey.CancelledStream stream -> w_persist w2 k = w_persist w k).
  { intros k Hk. change (store_put (FacKey.CancelledStream stream) (Some true) (w_persist w) k =
      w_persist w k). by rewrite put_ne. }
  assert (Hself : recorded w2 stream = true).
  { unfold recorded. change (default false (store_put (FacKey.CancelledStream stream) (Some true)
      (w_persist w) (FacKey.CancelledStream stream)) = true). by rewrite put_eq. }
  assert (Hoth : forall a, a <> stream -> recorded w2 a = recorded w a).
  { intros a Ha. unfold recorded. rewrite Hp; [done|congruence]. }
  assert (Hkw : forall a, known w2 a = known w a) by (intros a; unfold known; by rewrite Hp).
  split; [|done]. constructor; rewrite ?Hc; try done.
  - exists (mkAggregate (total_supply agg) (sat_u64 (active_streams agg - 1))).
    split; [apply put_store_eq|]. cbn. split; [done|]. split; [mlia|]. intros Hst.
    assert (Hin : stream ∈ cr_stream <$> created w).
    { pose proof (Hkn Hst) as Hk. rewrite R4 in Hk. by apply bool_decide_eq_true in Hk. }
    assert (Hlive : live w2 = live w - 1).
    { unfold live. rewrite Hc, (zsum_update _ (fun a => if recorded w a then 0 else 1) _ stream);
        [rewrite Hself, Hrec; lia|exact R7|exact Hin|]. intros j Hj. by rewrite Hoth. }
    pose proof (live_nonneg w2). pose proof (A4 Hst). mlia.
  - intros a. eapply index_holds_frame; [|apply R8]. intros k Hk. apply Hp.
    intros ->. unfold in_layout in Hk. naive_solver.
  - intros a. eapply index_holds_frame; [|apply R9]. intros k Hk. apply Hp.
    intros ->. unfold in_layout in Hk. naive_solver.
  - intros a Hst Ha. rewrite Hkw. destruct (decide (a = stream)) as [->|Hne]; [by apply Hkn|].
    rewrite Hoth in Ha by done. by apply R10.
Qed.

End Registry.

#[export] Hint Extern 1 (InFrame (fun _ => ~ core _) _) =>
  red; unfold core; intros [?|?]; discriminate : typeclass_instances.
