(* ===== verification/FactoryCreate.v ===== *)
(** * DripFactory: what creating a stream does

    The stages of [create_stream_with_config] and its effect on tokens and
    registry. *)

From stdpp Require Import base numbers list option strings gmap.
From Stdlib Require Import ZArith Lia String.
From S2P Require Import StreamOps.
From S2P Require Import Prelude Host Ttl Pause Frame GovernorStore.
From S2P Require Import FactoryData FactoryIndex FactoryIndexFacts FactoryOps FactorySystem.
From S2P Require Import FactoryRegistry.
Import FacError.

#[local] Open Scope Z_scope.
#[local] Open Scope sf_scope.
#[local] Existing Instance fac_keys.

(** ** Bounds *)

(** The requests the governor's bounds let through. *)
Definition within_bounds (cfg : GovernorConfig) (rate start_time end_time now : Z) : Prop :=
  rate <= gc_max_rate_per_second cfg /\
  start_time - now <= gc_max_duration_seconds cfg /\
  (end_time <= 0 \/
   gc_min_duration_seconds cfg <= end_time - start_time <= gc_max_duration_seconds cfg).

Lemma enforce_bounds_spec cfg rate start_time end_time now :
  U64 start_time -> U64 end_time -> U64 now -> U64 (gc_max_duration_seconds cfg) ->
  0 < gc_min_duration_seconds cfg ->
  enforce_bounds cfg rate start_time end_time now = inr tt <->
  within_bounds cfg rate start_time end_time now.
Proof.
  intros Hs He Hn Hm Hmin. unfold enforce_bounds, within_bounds. cbv zeta.
  destruct (Z.ltb_spec (gc_max_rate_per_second cfg) rate); [split; [done|lia]|].
  destruct (Z.ltb_spec (gc_max_duration_seconds cfg) (sat_u64 (start_time - now))).
  { split; [done|mlia]. }
  assert (start_time - now <= gc_max_duration_seconds cfg) by mlia.
  destruct (Z.ltb_spec 0 end_time); [|split; [intros _|done]; lia].
  destruct (checked_u64 (end_time - start_time)) as [d|] eqn:Hd.
  - apply checked_u64_Some in Hd as [_ ->].
    repeat (match goal with |- context [if ?b then _ else _] => destruct b eqn:? end); breflect;
      (split; [|intros Hx]); try done; lia.
  - split; [done|]. intros (_ & _ & Hx).
    rewrite checked_u64_in in Hd; [done|]. mlia.
Qed.

(** The requests the factory's own checks let through. *)
Record valid_request (sender recipient token : Address) (deposit rate start_time end_time now : Z)
  : Prop := {
  vr_recipient : is_zero_address recipient = false /\ recipient <> sender;
  vr_token : is_zero_address token = false;
  vr_span : end_time <= 0 \/ start_time + MIN_STREAM_DURATION <= end_time;
  vr_funds : 0 < rate <= deposit;
  vr_start : now <= start_time;
  vr_total : end_time <= 0 \/ rate * (end_time - start_time) <= deposit /\
                             rate * (end_time - start_time) <= i128_max
}.

Section Create.
Context {T : Type} `{TC : TokenClient T} `{TL : !TokenLaws T} `{NW : Network T}
  `{NL : !NetworkLaws T}.
Abbreviation FWorld := (World FacKey.data_key T FacEvent.fac_event).
Abbreviation FM := (M FacKey.data_key T FacEvent.fac_event fac_error).
Context (self : Address).
Implicit Types (w : FWorld).

Lemma request_validated s r tok d rate a b env w now w' :
  validate_stream_request s r tok d rate a b env w = ROk now w' ->
  w' = w /\ now = timestamp env /\ valid_request s r tok d rate a b (timestamp env).
Proof.
  intros H. unfold validate_stream_request in H. inv_ok; breflect; split_and!; try done.
  - repeat match goal with H : addr_eqb _ _ = false |- _ => apply addr_eqb_false in H end.
    checked_inv. constructor; unfold MIN_STREAM_DURATION in *; try done; munfold; lia.
  - repeat match goal with H : addr_eqb _ _ = false |- _ => apply addr_eqb_false in H end.
    constructor; unfold MIN_STREAM_DURATION in *; try done; lia.
Qed.

Lemma lift_ok {A} (r : fac_error + A) env w a w' :
  lift (T := T) r env w = ROk a w' -> r = inr a /\ w' = w.
Proof. destruct r; intros H; [done|]. by injection H as <- <-. Qed.

(** ** The fee *)

Definition fee_of (cfg : GovernorConfig) (deposit : Z) : Z :=
  Z.quot (deposit * gc_fee_bps cfg) 10000.

Lemma protocol_fee_ok d bps env w p w' :
  protocol_fee (T := T) d bps env w = ROk p w' ->
  w' = w /\ p = (Z.quot (d * bps) 10000, d + Z.quot (d * bps) 10000) /\
  I128 (d * bps) /\ I128 (d + Z.quot (d * bps) 10000).
Proof. intros H. unfold protocol_fee in H. inv_ok. by checked_inv. Qed.

(** ** Token movements of the stages *)

Lemma collect_ok cfg s tok fee total env w u w' :
  0 <= fee ->
  collect_funding cfg s tok fee total env w = ROk u w' ->
  moved tok (w_tokens w) (w_tokens w') (fun a =>
    at_addr (current_contract env) (total - fee) a - at_addr s total a +
    at_addr (gc_fee_recipient cfg) fee a) /\ 0 <= total /\ call_auth env s = true.
Proof.
  intros Hfee H. unfold collect_funding in H. inv_ok; try done.
  - cbn [w_tokens set_tokens add_event] in *.
    match goal with H1 : tok_transfer (w_tokens w) _ _ _ _ _ = Some ?t1,
                    H2 : tok_transfer ?t1 _ _ _ _ _ = Some _ |- _ =>
      split; [|split; [by eapply tok_transfer_amount|by eapply tok_transfer_auth]];
      pose proof (moved_transfer _ _ _ _ _ _ _ H1) as M1;
      pose proof (moved_transfer _ _ _ _ _ _ _ H2) as M2 end.
    eapply moved_ext; [|eapply moved_trans; [exact M1|exact M2]]. intros a. cbn. unfold at_addr.
    repeat destruct (addr_eqb _ _); lia.
  - breflect. assert (fee = 0) as -> by lia. cbn [w_tokens set_tokens add_event] in *.
    match goal with H1 : tok_transfer (w_tokens w) _ _ _ _ _ = Some _ |- _ =>
      split; [|split; [by eapply tok_transfer_amount|by eapply tok_transfer_auth]];
      eapply moved_ext; [|eapply moved_transfer; exact H1] end.
    intros a. cbn. unfold at_addr. repeat destruct (addr_eqb _ _); lia.
Qed.

Lemma fund_ok tok stream d env w u w' :
  fund_stream tok stream d env w = ROk u w' ->
  moved tok (w_tokens w) (w_tokens w') (fun a =>
    at_addr stream d a - at_addr (current_contract env) d a) /\
  tok_transfer (w_tokens w) (call_auth env) tok (current_contract env) stream d = Some (w_tokens w').
Proof.
  intros H. unfold fund_stream in H. inv_ok; try done.
  match goal with H1 : tok_transfer (w_tokens w) _ _ _ _ _ = Some _ |- _ =>
    split; [exact (moved_transfer _ _ _ _ _ _ _ H1)|exact H1] end.
Qed.

(** ** The stages in order *)

(** [t] is the state after a stream was deployed, initialized and funded. *)
Definition established (sid : Z) (a : Address) (h : Z) (args : InitArgs) (tok : Address) (d : Z)
    (env : Env) (t : T) : Prop :=
  exists t1, launched self sid a h args env t1 /\
    tok_transfer t1 (call_auth env) tok self a d = Some t.

(** What a creation leaves. *)
Record creation (strict : bool) (cfg : GovernorConfig) (s r tok : Address)
    (d rate start_time end_time : Z) (clawback : bool) (desc : option string) (env : Env)
    (sid : Z) w w' : Prop := {
  cn_id : sid = llen (created w);
  cn_bounds : enforce_bounds cfg rate start_time end_time (timestamp env) = inr tt;
  cn_fee : I128 (d * gc_fee_bps cfg) /\ I128 (d + fee_of cfg d);
  cn_open : default false (w_store w FacKey.CreateLock) = false;
  cn_lock : w_store w' FacKey.CreateLock = Some false;
  cn_store k : ~ core k -> k <> FacKey.CreateLock -> w_store w' k = w_store w k;
  cn_registry : Registry self strict w';
  cn_new : exists stream,
    created w' = created w ++ [mkCreation s r stream] /\ deployed_as (T := T) self sid stream /\
    moved tok (w_tokens w) (w_tokens w') (fun a =>
      at_addr stream d a + at_addr (gc_fee_recipient cfg) (fee_of cfg d) a -
      at_addr s (d + fee_of cfg d) a) /\
    exists h, established sid stream h
      (mkInitArgs s r tok rate start_time end_time clawback (gc_force_cancel_pause_secs cfg) false
         desc) tok d env (w_tokens w')
}.

(** The last three stages, from a world with the funds collected. *)
Lemma create_tail strict s r tok d hash args env w sid w' :
  current_contract env = self -> Registry self strict w -> llen (created w) + 201 <= u32_max ->
  (let! stream := (fun env w =>
      match deploy_stream hash (llen (created w)) args env w with
      | RErr e w' => unlock_and_fail e env w'
      | x => x
      end) in
   do! fund_stream tok stream d;
   do! publish (FacEvent.StreamCreated s r stream (stream_salt (T := T) sid) hash);
   do! register_stream stream sid sid;
   do! append_sender_index s sid;
   do! append_recipient_index r sid;
   do! sset FacKey.CreateLock false;
   ret sid) env w = ROk sid w' ->
  sid = llen (created w) ->
  Registry self strict w' /\ w_store w' FacKey.CreateLock = Some false /\
  (forall k, ~ core k -> k <> FacKey.CreateLock -> w_store w' k = w_store w k) /\
  exists stream, created w' = created w ++ [mkCreation s r stream] /\
    deployed_as (T := T) self sid stream /\
    moved tok (w_tokens w) (w_tokens w') (fun a => at_addr stream d a - at_addr self d a) /\
    established sid stream hash args tok d env (w_tokens w').
Proof.
  intros Hself HR Hsmall H ->. apply bind_ok in H as (stream & w1 & Hd & H).
  destruct (deploy_stream _ _ _ _ _) as [a1 w1'|e1 w1'|t1] eqn:Hdep in Hd; [|done..].
  injection Hd as -> ->.
  assert (S1 : frame (fun _ => False) w w1) by exact (keeps_ok (Keeps0 := _) _ _ _ _ _ _ Hdep).
  destruct (deploy_ok self strict _ _ env w stream w1 Hself HR Hdep) as (HR1 & C1 & D1 & F1 & U1 & T1 & L1).
  apply bind_ok in H as ([] & w2 & Hf & H). destruct (fund_ok _ _ _ _ _ _ _ Hf) as [M2 X2].
  assert (Q2 : quiet w1 w2) by exact (keeps_ok (Keeps0 := _) _ _ _ _ _ _ Hf).
  assert (S2 : frame (fun k => k = FacKey.CreateLock) w1 w2)
    by exact (keeps_ok (Keeps0 := _) _ _ _ _ _ _ Hf).
  pose proof (registry_quiet self strict _ _ Q2 HR1) as HR2.
  assert (C2 : created w2 = created w) by (rewrite (q_created _ _ Q2); exact C1).
  assert (Hen : exists w3, enroll s r stream (llen (created w)) (stream_salt (T := T) (llen (created w)))
     hash env w2 = ROk tt w3 /\
     (do! sset FacKey.CreateLock false; ret (llen (created w)) : FM Z) env w3 = ROk (llen (created w)) w').
  { unfold enroll. apply bind_ok in H as ([] & w3 & H3 & H). apply bind_ok in H as ([] & w4 & H4 & H).
    apply bind_ok in H as ([] & w5 & H5 & H). apply bind_ok in H as ([] & w6 & H6 & H).
    exists w6. split; [|exact H]. by do 3 (erewrite bind_run; [|eassumption]). }
  destruct Hen as (w3 & Hen & Hlast). injection Hlast as <-.
  rewrite <- C2 in Hen, D1, F1, U1, Hsmall.
  pose proof (enroll_grows self strict _ _ _ _ _ _ _ _ _ HR2 Hsmall Hen) as HG.
  assert (HR3 : Registry self strict w3).
  { eapply registry_grows; [exact HR2|exact D1|exact F1| |exact HG]. by apply (q_salt _ _ Q2). }
  split; [|split; [|split]].
  - eapply registry_quiet; [|exact HR3]. apply allows.
  - apply put_store_eq.
  - intros k Hk Hne. rewrite put_store_ne by congruence. rewrite (gr_store _ _ _ _ _ HG k Hk).
    rewrite (S2 k Hne). apply S1. tauto.
  - exists stream. split; [|split; [|split]].
    + rewrite <- C2. exact (gr_created _ _ _ _ _ HG).
    + rewrite <- C2. exact D1.
    + change (w_tokens (put ?k ?v w3)) with (w_tokens w3). rewrite (gr_tokens _ _ _ _ _ HG).
      rewrite <- Hself. destruct M2 as [M2 O2]. constructor.
      * intros a b Hb. apply M2. by rewrite T1.
      * intros tk' a Hne. rewrite O2 by done. apply T1.
    + exists (w_tokens w1). split; [exact L1|]. rewrite <- Hself.
      change (w_tokens (put ?k ?v w3)) with (w_tokens w3). by rewrite (gr_tokens _ _ _ _ _ HG).
Qed.

Lemma creation_ok strict cfg s r tok d rate a b cl desc env w sid w' :
  current_contract env = self -> Registry self strict w -> llen (created w) + 201 <= u32_max ->
  0 <= d -> 0 <= gc_fee_bps cfg ->
  create_stream_with_config cfg (timestamp env) s r tok d rate a b cl desc env w = ROk sid w' ->
  creation strict cfg s r tok d rate a b cl desc env sid w w'.
Proof.
  intros Hself HR Hsmall Hd Hbps H. unfold create_stream_with_config in H.
  apply bind_ok in H as ([] & w1 & Hb & H). apply lift_ok in Hb as [Hb ->].
  apply bind_ok in H as (fees & w1 & Hfees & H).
  apply protocol_fee_ok in Hfees as (-> & -> & Hfee1 & Hfee2). cbn [fst snd] in H.
  apply bind_ok in H as (lock & w1 & Hl & H). injection Hl as <- <-.
  apply bind_ok in H as ([] & w1 & Ho & H). apply throw_if_ok in Ho as [Hopen ->].
  apply bind_ok in H as ([] & w1 & Hset & H). injection Hset as <-.
  apply bind_ok in H as ([] & w2 & Hbump & H). injection Hbump as <-.
  set (w1 := add_ttl None _ _ _) in H. apply bind_ok in H as ([] & w2 & Hc & H).
  assert (Q : quiet w w2).
  { transitivity w1; [transitivity (put FacKey.CreateLock (Some true) w); apply allows|].
    exact (keeps_ok (Keeps0 := _) _ _ _ _ _ _ Hc). }
  assert (S2 : frame (fun k => k = FacKey.CreateLock) w w2).
  { transitivity w1; [transitivity (put FacKey.CreateLock (Some true) w); apply allows|].
    exact (keeps_ok (Keeps0 := _) _ _ _ _ _ _ Hc). }
  pose proof (registry_quiet self strict _ _ Q HR) as HR2.
  assert (C2 : created w2 = created w) by exact (q_created _ _ Q).
  assert (0 <= Z.quot (d * gc_fee_bps cfg) 10000) as Hfee0 by (apply Z.quot_pos; lia).
  pose proof (collect_ok _ _ _ _ _ _ _ _ _ Hfee0 Hc) as (M1 & _ & _).
  apply bind_ok in H as (cnt & w3 & Hcnt & H). injection Hcnt as <- <-.
  apply bind_ok in H as (hash & w3 & Hh & H). injection Hh as <- <-.
  destruct (w_store w2 FacKey.StreamWasmHash) as [hash|] eqn:Hhash; [|by inv_ok].
  rewrite (rg_count _ _ _ HR2) in H. cbn [default from_option] in H. unfold id in H.
  assert (sid = llen (created w2)) as ->.
  { clear - H. repeat (apply bind_ok in H as (? & ? & _ & H)). by injection H. }
  rewrite <- C2 in Hsmall.
  destruct (create_tail strict s r tok d hash _ env w2 _ w' Hself HR2 Hsmall H eq_refl)
    as (HR' & Hlock & Hst & stream & Hcr & Hdep & M2 & HE).
  rewrite C2 in Hcr, Hdep, HE. rewrite C2. constructor; try done.
  - intros k Hk Hne. rewrite (Hst k Hk Hne). by apply S2.
  - exists stream. split; [done|]. split; [done|]. split; [|by exists hash].
    eapply moved_ext; [|eapply moved_trans; [exact M1|exact M2]].
    intros x. cbn. rewrite Hself. unfold fee_of, at_addr. repeat destruct (addr_eqb _ _); lia.
Qed.

End Create.
