(* ===== verification/FactoryReach.v ===== *)
(** * DripFactory: reachable worlds

    Every call of a deployed factory keeps the registry, the guard of the batch
    creation and the halt. *)

From stdpp Require Import base numbers list option strings gmap.
From Stdlib Require Import ZArith Lia String.
From S2P Require Import Prelude Host Ttl Pause Frame GovernorStore.
From S2P Require Import FactoryData FactoryIndex FactoryIndexFacts FactoryOps FactorySystem.
From S2P Require Import FactoryRegistry FactoryCreate.
Import FacError.

#[local] Open Scope Z_scope.
#[local] Open Scope sf_scope.
#[local] Existing Instance fac_keys.

(** The governor's answers have the width of their types, and a stream that
    fails to deploy or initialize traps: nothing more is assumed here. *)
Class ConfigLaws (T : Type) `{Network T} : Prop := {
  config_fee_width t g c : governor_config t g = Some c -> 0 <= gc_fee_bps c
}.

Section Reach.
Context {T : Type} `{TC : TokenClient T} `{TL : !TokenLaws T} `{NW : Network T}
  `{NL : !NetworkLaws T} `{CL : !ConfigLaws T}.
Abbreviation FWorld := (World FacKey.data_key T FacEvent.fac_event).
Abbreviation FM := (M FacKey.data_key T FacEvent.fac_event fac_error).
Context (self : Address).
Implicit Types (w : FWorld) (c : fac_call).

(** ** The log only grows *)

Definition logged w w' : Prop := exists l, w_events w' = w_events w ++ l.

#[export] Instance logged_preorder : PreOrder logged.
Proof.
  constructor; [intros w; exists []; by rewrite app_nil_r|].
  intros w1 w2 w3 [l1 H1] [l2 H2]. exists (l1 ++ l2). by rewrite H2, H1, app_assoc.
Qed.
#[export] Instance logged_put k v : Allows logged (put k v).
Proof. intros w. exists []. by rewrite app_nil_r. Qed.
#[export] Instance logged_persist k v : Allows logged (put_persist k v).
Proof. intros w. exists []. by rewrite app_nil_r. Qed.
#[export] Instance logged_tokens t : Allows logged (set_tokens t).
Proof. intros w. exists []. by rewrite app_nil_r. Qed.
#[export] Instance logged_ttl o a b : Allows logged (add_ttl o a b).
Proof. intros w. exists []. by rewrite app_nil_r. Qed.
#[export] Instance logged_event x : Allows logged (add_event x).
Proof. intros w. by exists [x]. Qed.

Lemma logged_created w w' : logged w w' -> llen (created w) <= llen (created w').
Proof. intros [l Hl]. unfold created. rewrite Hl, omap_app, length_app. lia. Qed.

Section Loops.
Context (R : FWorld -> FWorld -> Prop) `{!PreOrder R}
  `{!forall v, Allows R (put FacKey.StreamCount v)} `{!forall v, Allows R (put FacKey.Aggregate v)}
  `{!forall v, Allows R (put FacKey.CreateLock v)} `{!forall v, Allows R (put FacKey.Paused v)}
  `{!forall v, Allows R (put FacKey.LastBumpedId v)}
  `{!forall k v, Allows R (put_persist k v)} `{!forall t, Allows R (set_tokens t)}
  `{!forall o a b, Allows R (add_ttl o a b)}.

#[export] Instance keeps_recording a : Keeps R (record_cancellation (T := T) a).
Proof. unfold record_cancellation. solve_keeps. Qed.
#[export] Instance keeps_cancel_each s l : Keeps R (cancel_each s l).
Proof.
  induction l as [|a l IH]; cbn [cancel_each]; [apply _|].
  apply keeps_bind; [apply _| |intros _; solve_keeps].
  intros env w. destruct (stream_cancel _ _ _); [apply allows|exact I].
Qed.
#[export] Instance keeps_record_cancel a : Keeps R (record_cancel a).
Proof.
  unfold record_cancel. apply keeps_bind; [apply _|apply _|intros k]. destruct (negb _); [apply _|].
  apply keeps_bind; [apply _|apply _|intros rc]. case_match; [apply _|].
  apply keeps_bind; [apply _| |intros cn; solve_keeps].
  intros env w. destruct (stream_is_cancelled _ _); [reflexivity|exact I].
Qed.

(** Calls that create no stream and change no setting. *)
Definition minor c : bool :=
  match c with
  | FCreateStream _ _ _ _ _ _ _ _ _ | FBatchCreateStreams _ | FCreateBatchStreams _ _ _
  | FInitialize _ _ | FUpgradeStreamWasm _ | FUpgradeSelf _ _ | FPause | FUnpause => false
  | _ => true
  end.

Lemma keeps_minor c : minor c = true -> Keeps R (fac_exec c).
Proof. destruct c; try discriminate; intros _; solve_fac. Qed.

Context `{!forall x, Allows R (add_event x)}.

#[export] Instance keeps_register s i n : Keeps R (register_stream (T := T) s i n).
Proof. unfold register_stream. solve_keeps. Qed.
Lemma keeps_on_error {A} (m : FM A) (h : fac_error -> FM A) :
  Keeps R m -> (forall e, Keeps R (h e)) ->
  Keeps R (fun env w => match m env w with RErr e w' => h e env w' | r => r end).
Proof.
  intros Hm Hh env w. specialize (Hm env w). destruct (m env w) as [x w1|e w1|t]; [done| |done].
  specialize (Hh e env w1). destruct (h e env w1); try done; by etransitivity.
Qed.

#[export] Instance keeps_create_with cfg now s r t d rate a b cl desc :
  Keeps R (create_stream_with_config cfg now s r t d rate a b cl desc).
Proof.
  unfold create_stream_with_config. do 8 (apply keeps_bind; [apply _|apply _|intros ?]).
  cbv zeta. apply keeps_bind; [apply _|apply _|intros o]. destruct o as [h|]; [|apply _].
  apply keeps_bind; [apply _| |intros ?; solve_keeps].
  apply keeps_on_error; apply _.
Qed.
#[export] Instance keeps_create_each cfg l : Keeps R (create_each cfg l).
Proof. induction l; cbn [create_each]; solve_keeps. Qed.
#[export] Instance keeps_create_requests cfg s cl l : Keeps R (create_requests cfg s cl l).
Proof. induction l; cbn [create_requests]; solve_keeps. Qed.
Lemma keeps_others c :
  match c with FInitialize _ _ | FUpgradeStreamWasm _ => False | _ => True end ->
  Keeps R (fac_exec c).
Proof. destruct c; intros Hc; try destruct Hc; solve_fac. Qed.

#[export] Instance keeps_exec c `{!forall k v, Allows R (put k v)} : Keeps R (fac_exec c).
Proof. destruct c; solve_fac. Qed.

End Loops.

(** ** The invariant over the calls *)

(** The cancellations routed through the factory name its own streams. *)
Definition cancels_known w c : Prop :=
  match c with
  | FCancelBatchStreams _ l => Forall (fun a => known w a = true) l
  | _ => True
  end.

Definition unlocked w : Prop := default false (w_store w FacKey.CreateLock) = false.

(** The invariant of the registry, with the creation lock open. *)
Definition sound (strict : bool) w : Prop := Registry self strict w /\ unlocked w.

Lemma sound_quiet strict w w' :
  quiet w w' -> w_store w' FacKey.CreateLock = w_store w FacKey.CreateLock ->
  sound strict w -> sound strict w'.
Proof.
  intros HQ Hl [HR Hu]. split; [by eapply registry_quiet|]. unfold unlocked. by rewrite Hl.
Qed.

Lemma sound_creation strict cfg s r tok d rate a b cl desc env w sid w' :
  current_contract env = self -> sound strict w -> llen (created w') + 201 <= u32_max ->
  0 <= d -> 0 <= gc_fee_bps cfg ->
  create_stream_with_config cfg (timestamp env) s r tok d rate a b cl desc env w = ROk sid w' ->
  sound strict w' /\ creation self strict cfg s r tok d rate a b cl desc env sid w w'.
Proof.
  intros Hself [HR _] Hsmall Hd Hb H.
  assert (Hlog : logged w w') by exact (keeps_ok (Keeps0 := _) _ _ _ _ _ _ H).
  apply logged_created in Hlog.
  assert (HC : creation self strict cfg s r tok d rate a b cl desc env sid w w').
  { eapply creation_ok; try done. lia. }
  split; [|done]. split; [apply (cn_registry _ _ _ _ _ _ _ _ _ _ _ _ _ _ _ _ HC)|].
  unfold unlocked. by rewrite (cn_lock _ _ _ _ _ _ _ _ _ _ _ _ _ _ _ _ HC).
Qed.

Lemma create_each_sound strict cfg l env w r w' :
  current_contract env = self -> 0 <= gc_fee_bps cfg -> sound strict w ->
  llen (created w') + 201 <= u32_max -> create_each cfg l env w = ROk r w' -> sound strict w'.
Proof.
  intros Hself Hb. revert r w. induction l as [|p l IH]; intros r w Hs Hsmall H; cbn in H.
  { by injection H as _ <-. }
  apply bind_ok in H as ([] & w1 & Ha & H). apply require_auth_ok in Ha as [_ ->].
  apply bind_ok in H as (now & w1 & Hv & H). apply request_validated in Hv as (-> & -> & Hv).
  apply bind_ok in H as (sid & w1 & Hc & H). apply bind_ok in H as (o & w2 & Ho & H).
  injection Ho as <- <-. destruct (w_persist w1 _) as [a|]; [|done].
  apply bind_ok in H as (ds & w2 & Hrest & H). injection H as _ <-.
  assert (Hlog : logged w1 w2) by exact (keeps_ok (Keeps0 := _) _ _ _ _ _ _ Hrest).
  apply logged_created in Hlog.
  eapply IH; [|exact Hsmall|exact Hrest].
  refine (proj1 (sound_creation strict _ _ _ _ _ _ _ _ _ _ _ _ _ _ Hself Hs _ _ Hb Hc));
    [lia|destruct Hv; lia].
Qed.

Lemma create_requests_sound strict cfg s cl l env w r w' :
  current_contract env = self -> 0 <= gc_fee_bps cfg -> sound strict w ->
  llen (created w') + 201 <= u32_max -> create_requests cfg s cl l env w = ROk r w' ->
  sound strict w'.
Proof.
  intros Hself Hb. revert r w. induction l as [|p l IH]; intros r w Hs Hsmall H; cbn in H.
  { by injection H as _ <-. }
  apply bind_ok in H as (now & w1 & Hv & H). apply request_validated in Hv as (-> & -> & Hv).
  apply bind_ok in H as (sid & w1 & Hc & H).
  apply bind_ok in H as (ds & w2 & Hrest & H). injection H as _ <-.
  assert (Hlog : logged w1 w2) by exact (keeps_ok (Keeps0 := _) _ _ _ _ _ _ Hrest).
  apply logged_created in Hlog.
  eapply IH; [|exact Hsmall|exact Hrest].
  refine (proj1 (sound_creation strict _ _ _ _ _ _ _ _ _ _ _ _ _ _ Hself Hs _ _ Hb Hc));
    [lia|destruct Hv; lia].
Qed.

Lemma recording_sound strict a env w u w' :
  sound strict w -> llen (created w) <= u32_max ->
  recorded w a = false -> (strict = true -> known w a = true) ->
  record_cancellation a env w = ROk u w' ->
  sound strict w' /\ created w' = created w.
Proof.
  intros [HR Hu] Hsm Hrec Hkn H. destruct (recording_ok _ _ _ _ _ _ _ HR Hsm Hrec Hkn H) as [HR' Hc].
  split; [|done]. split; [done|]. unfold unlocked.
  assert (HF : frame (fun k => k = FacKey.Aggregate) w w')
    by (unfold record_cancellation, aggregate in H; exact (keeps_ok (Keeps0 := _) _ _ _ _ _ _ H)).
  by rewrite HF by done.
Qed.

Lemma known_created strict w w' a :
  Registry self strict w -> Registry self strict w' -> created w' = created w ->
  known w' a = known w a.
Proof. intros H1 H2 Hc. by rewrite (rg_known _ _ _ H1), (rg_known _ _ _ H2), Hc. Qed.

Lemma cancel_each_sound strict s l env w u w' :
  sound strict w -> llen (created w) <= u32_max ->
  (strict = true -> Forall (fun a => known w a = true) l) ->
  cancel_each s l env w = ROk u w' -> sound strict w'.
Proof.
  revert w. induction l as [|a l IH]; intros w Hs Hsm Hkn H; cbn in H; [by injection H as _ <-|].
  apply bind_ok in H as ([] & w1 & Hc & H).
  destruct (stream_cancel _ _ _) as [t'|]; [|done]. injection Hc as <-.
  assert (Hs1 : sound strict (set_tokens t' w)) by (eapply sound_quiet; [apply allows|done|done]).
  apply bind_ok in H as (o & w1 & Ho & H). injection Ho as <- <-.
  apply bind_ok in H as ([] & w1 & Hr & H).
  assert (Hw1 : sound strict w1 /\ created w1 = created w).
  { destruct (default false _) eqn:Hrec in Hr; [by injection Hr as <-|].
    apply (recording_sound strict a env (set_tokens t' w) tt w1); try done.
    intros Hst. by apply Hkn, Forall_cons in Hst as [? _]. }
  destruct Hw1 as [Hs2 Hc2]. eapply (IH w1); [done|by rewrite Hc2| |exact H].
  intros Hst. specialize (Hkn Hst). apply Forall_cons in Hkn as [_ Hl].
  eapply Forall_impl; [exact Hl|]. cbn. intros x Hx.
  by rewrite (known_created strict w w1 x (proj1 Hs) (proj1 Hs2) Hc2).
Qed.

(** The configuration a call reads. *)
Lemma config_ok g env w cfg w' :
  config g env w = ROk cfg w' -> w' = w /\ governor_config (w_tokens w) g = Some cfg.
Proof. unfold config. intros H. by apply ok_or_ok in H as [? ->]. Qed.

Lemma governor_ok env w g w' :
  governor_address (T := T) env w = ROk g w' -> w' = w /\ w_store w FacKey.GovernorAddress = Some g.
Proof.
  intros H. unfold governor_address in H. apply bind_ok in H as (o & w1 & Ho & H).
  injection Ho as <- <-. by apply ok_or_ok in H as [? ->].
Qed.

(** The prologue of the three creating entry points: paused, governor, config. *)
Lemma create_stream_sound strict s r tok d rate a b cl desc env w sid w' :
  current_contract env = self -> sound strict w -> llen (created w') + 201 <= u32_max ->
  create_stream s r tok d rate a b cl desc env w = ROk sid w' ->
  sound strict w' /\ exists w1 cfg, quiet w w1 /\ authorized env s = true /\
    valid_request s r tok d rate a b (timestamp env) /\ w_tokens w1 = w_tokens w /\
    (exists g, governor_config (w_tokens w) g = Some cfg /\
               w_store w FacKey.GovernorAddress = Some g) /\
    creation self strict cfg s r tok d rate a b cl desc env sid w1 w'.
Proof.
  intros Hself Hs Hsmall H. unfold create_stream in H.
  apply bind_ok in H as ([] & w1 & Ha & H). apply require_auth_ok in Ha as [Ha ->].
  apply bind_ok in H as ([] & w1 & Hp & H).
  assert (Q : quiet w w1) by exact (keeps_ok (Keeps0 := _) _ _ _ _ _ _ Hp).
  assert (F : frame (fun k => k = FacKey.Paused) w w1)
    by exact (keeps_ok (Keeps0 := _) _ _ _ _ _ _ Hp).
  assert (Ht : same_tokens w w1) by exact (keeps_ok (Keeps0 := _) _ _ _ _ _ _ Hp).
  assert (Hs1 : sound strict w1) by (eapply sound_quiet; [exact Q|by apply F|done]).
  apply bind_ok in H as (now & w2 & Hv & H). apply request_validated in Hv as (-> & -> & Hv).
  apply bind_ok in H as ([] & w2 & Hd & H). apply throw_if_ok in Hd as [_ ->].
  apply bind_ok in H as (g & w2 & Hg & H). apply governor_ok in Hg as [-> Hg].
  apply bind_ok in H as (cfg & w2 & Hcfg & H). apply config_ok in Hcfg as [-> Hcfg].
  pose proof (config_fee_width _ _ _ Hcfg) as Hfee.
  assert (Hd0 : 0 <= d) by (destruct Hv; lia).
  destruct (sound_creation strict _ _ _ _ _ _ _ _ _ _ _ _ _ _ Hself Hs1 Hsmall
    Hd0 Hfee H) as [Hs' HC].
  split; [done|]. exists w1, cfg. split_and!; try done.
  exists g. rewrite <- Ht. split; [done|]. rewrite <- Hg. symmetry. by apply F.
Qed.

Lemma quiet_sound strict w w' :
  quiet w w' -> frame (fun k => k <> FacKey.CreateLock) w w' -> sound strict w -> sound strict w'.
Proof. intros HQ HF. apply sound_quiet; [done|]. apply HF. tauto. Qed.

(** The batch entry points. *)
Lemma batches_sound strict {A} (m : GovernorConfig -> FM A) (pre : FM unit) env w r w' :
  Keeps quiet pre -> Keeps (frame (fun k => k <> FacKey.CreateLock)) pre ->
  (forall cfg r w1, 0 <= gc_fee_bps cfg -> sound strict w1 -> m cfg env w1 = ROk r w' ->
     sound strict w') ->
  sound strict w ->
  (do! pre; do! require_not_paused;
   let! governor := governor_address in
   let! cfg := config governor in m cfg) env w = ROk r w' ->
  sound strict w'.
Proof.
  intros K1 K2 Hm Hs H. apply bind_ok in H as ([] & w1 & Hp & H).
  assert (Hs1 : sound strict w1).
  { eapply quiet_sound; [exact (keeps_ok (Keeps0 := _) _ _ _ _ _ _ Hp)|
      exact (keeps_ok (Keeps0 := _) _ _ _ _ _ _ Hp)|done]. }
  apply bind_ok in H as ([] & w2 & Hq & H).
  assert (Hs2 : sound strict w2).
  { eapply quiet_sound; [exact (keeps_ok (Keeps0 := _) _ _ _ _ _ _ Hq)|
      exact (keeps_ok (Keeps0 := _) _ _ _ _ _ _ Hq)|done]. }
  apply bind_ok in H as (g & w3 & Hg & H). apply governor_ok in Hg as [-> Hg].
  apply bind_ok in H as (cfg & w3 & Hcfg & H). apply config_ok in Hcfg as [-> Hcfg].
  eapply Hm; [by eapply config_fee_width|exact Hs2|exact H].
Qed.

(** Index operations keep the registry. *)
Lemma sender_op_sound strict o a env w u w' :
  sound strict w -> llen (created w) + 201 <= u32_max -> op_ok o ->
  (forall ids, op_spec ids o = ids) ->
  (index_exec (FacKey.BySenderCount a) (FacKey.BySender a) (FacKey.BySenderMigrationCursor a)
    (FacKey.BySenderLegacyCount a) (FacKey.BySenderPage a) o : FM unit) env w = ROk u w' ->
  sound strict w'.
Proof.
  intros [HR Hu] Hsm Ho Hid H.
  assert (HO : only_index (FacKey.BySenderCount a) (FacKey.BySender a)
    (FacKey.BySenderMigrationCursor a) (FacKey.BySenderLegacyCount a) (FacKey.BySenderPage a) w w').
  { destruct o; exact (keeps_ok (Keeps0 := _) _ _ _ _ _ _ H). }
  split; [|unfold unlocked; by rewrite (proj1 HO)].
  eapply registry_sender_op; [exact HO| |exact HR]. intros ids Hi Hl. rewrite <- (Hid ids).
  eapply index_ran; [exact Hi|exact Ho|lia|exact H].
Qed.

Lemma recipient_op_sound strict o a env w u w' :
  sound strict w -> llen (created w) + 201 <= u32_max -> op_ok o ->
  (forall ids, op_spec ids o = ids) ->
  (index_exec (FacKey.ByRecipientCount a) (FacKey.ByRecipient a)
    (FacKey.ByRecipientMigrationCursor a) (FacKey.ByRecipientLegacyCount a)
    (FacKey.ByRecipientPage a) o : FM unit) env w = ROk u w' ->
  sound strict w'.
Proof.
  intros [HR Hu] Hsm Ho Hid H.
  assert (HO : only_index (FacKey.ByRecipientCount a) (FacKey.ByRecipient a)
    (FacKey.ByRecipientMigrationCursor a) (FacKey.ByRecipientLegacyCount a)
    (FacKey.ByRecipientPage a) w w').
  { destruct o; exact (keeps_ok (Keeps0 := _) _ _ _ _ _ _ H). }
  split; [|unfold unlocked; by rewrite (proj1 HO)].
  eapply registry_recipient_op; [exact HO| |exact HR]. intros ids Hi Hl. rewrite <- (Hid ids).
  eapply index_ran; [exact Hi|exact Ho|lia|exact H].
Qed.

(** A result that is dropped. *)
Lemma drop_ok {A} (m : FM A) env w u w' :
  (do! m; ret tt) env w = ROk u w' -> exists a, m env w = ROk a w'.
Proof. intros H. apply bind_ok in H as (a & w1 & Hm & H). injection H as _ <-. by exists a. Qed.

Lemma read_sound strict (m : FM unit) env w w' :
  Keeps quiet m -> Keeps (frame (fun k => k <> FacKey.CreateLock)) m ->
  sound strict w -> m env w = ROk tt w' -> sound strict w'.
Proof.
  intros K1 K2 Hs H. eapply quiet_sound; [exact (keeps_ok (Keeps0 := _) _ _ _ _ _ _ H)|
    exact (keeps_ok (Keeps0 := _) _ _ _ _ _ _ H)|done].
Qed.

(** The calls that only read or renew, or that change the settings. *)
Definition calm c : bool :=
  match c with
  | FInitialize _ _ | FCreateStream _ _ _ _ _ _ _ _ _ | FBatchCreateStreams _
  | FCreateBatchStreams _ _ _ | FCancelBatchStreams _ _ | FRecordCancel _
  | FMigrateSenderIndex _ _ | FMigrateRecipientIndex _ _ | FStreamsBySender _ _ _
  | FStreamsByRecipient _ _ _ | FStreamsByCreator _ _ _ | FStreamCountBySender _
  | FStreamCountByRecipient _ => false
  | _ => true
  end.

Lemma calm_sound strict c env w w' :
  calm c = true -> sound strict w -> fac_exec c env w = ROk tt w' -> sound strict w'.
Proof.
  intros Hc Hs H. destruct c; try discriminate Hc;
    (refine (read_sound strict (fac_exec _) env w w' _ _ Hs H); solve_fac).
Qed.

(** The calls on one index. *)
Lemma index_sound strict c env w w' :
  fac_typed c -> llen (created w) + 201 <= u32_max -> sound strict w ->
  fac_exec c env w = ROk tt w' ->
  match c with
  | FMigrateSenderIndex _ _ | FMigrateRecipientIndex _ _ | FStreamsBySender _ _ _
  | FStreamsByRecipient _ _ _ | FStreamsByCreator _ _ _ | FStreamCountBySender _
  | FStreamCountByRecipient _ => sound strict w'
  | _ => True
  end.
Proof.
  intros Hty Hsm Hs H. destruct c; try exact I; cbn in Hty.
  - by refine (sender_op_sound strict (Migrate max_pages) _ _ _ _ _ Hs Hsm Hty _ H).
  - by refine (recipient_op_sound strict (Migrate max_pages) _ _ _ _ _ Hs Hsm Hty _ H).
  - by refine (sender_op_sound strict (Read offset limit) _ _ _ _ _ Hs Hsm Hty _ H).
  - by refine (recipient_op_sound strict (Read offset limit) _ _ _ _ _ Hs Hsm Hty _ H).
  - cbn [fac_exec] in H. apply drop_ok in H as [l H]. unfold get_streams_by_creator_paged in H.
    apply bind_ok in H as (pg & w1 & Hp & H).
    assert (Hs1 : sound strict w1).
    { apply (sender_op_sound strict (Read start_index limit) creator env _ tt _ Hs Hsm Hty); [done|].
      cbn. by rewrite (bind_run _ _ _ _ _ _ Hp). }
    apply bind_ok in H as (r & w2 & Hr & H). injection H as _ <-.
    eapply quiet_sound; [exact (keeps_ok (Keeps0 := _) _ _ _ _ _ _ Hr)|
      exact (keeps_ok (Keeps0 := _) _ _ _ _ _ _ Hr)|done].
  - by refine (sender_op_sound strict Count _ _ _ _ _ Hs Hsm I _ H).
  - by refine (recipient_op_sound strict Count _ _ _ _ _ Hs Hsm I _ H).
Qed.

Lemma record_cancel_sound strict a env w w' :
  sound strict w -> llen (created w) <= u32_max -> record_cancel a env w = ROk tt w' ->
  sound strict w'.
Proof.
  intros Hs Hsm H. unfold record_cancel in H. apply bind_ok in H as (k & w1 & Hk & H).
  injection Hk as <- <-. fold (known w a) in H. destruct (known w a) eqn:Hkn; cbn [negb] in H;
    [|by injection H as <-].
  apply bind_ok in H as (rc & w1 & Hr & H). injection Hr as <- <-.
  fold (recorded w a) in H. destruct (recorded w a) eqn:Hrec; [by injection H as <-|].
  apply bind_ok in H as (cn & w1 & Hc & H).
  destruct (stream_is_cancelled _ _); [|done]. injection Hc as <- <-.
  destruct (negb _); [by injection H as <-|]. by refine (proj1 (recording_sound strict a env w tt w' Hs Hsm Hrec _ H)).
Qed.

Theorem exec_sound strict c env w w' :
  current_contract env = self -> fac_typed c -> (strict = true -> cancels_known w c) ->
  sound strict w -> llen (created w') + 201 <= u32_max ->
  fac_exec c env w = ROk tt w' -> sound strict w'.
Proof.
  intros Hself Hty Hkn Hs Hsm H.
  assert (Hlog : logged w w') by exact (keeps_ok (Keeps0 := _) _ _ _ _ _ _ H).
  apply logged_created in Hlog. assert (Hsw : llen (created w) + 201 <= u32_max) by lia.
  pose proof (index_sound strict c env w w' Hty Hsw Hs H) as Hi.
  destruct (calm c) eqn:Hcalm; [by eapply calm_sound|].
  destruct c; try discriminate Hcalm; try exact Hi; clear Hi.
  - cbn [fac_exec] in H. unfold initialize in H. exfalso.
    apply bind_ok in H as (b & w1 & Hh & H). injection Hh as <- <-.
    rewrite (rg_count _ _ _ (proj1 Hs)) in H. by apply bind_ok in H as (? & ? & ? & _).
  - cbn [fac_exec] in H. apply drop_ok in H as [sid H].
    by destruct (create_stream_sound _ _ _ _ _ _ _ _ _ _ _ _ _ _ Hself Hs Hsm H).
  - cbn [fac_exec] in H. apply drop_ok in H as [l H]. unfold batch_create_streams in H.
    apply bind_ok in H as ([] & w1 & Hp & H). apply throw_if_ok in Hp as [_ ->].
    refine (batches_sound strict (fun cfg => create_each cfg configs) _ env w l w' _ _ _ Hs H).
    intros cfg r w1 Hfee Hs1 H1. by eapply create_each_sound.
  - cbn [fac_exec] in H. apply drop_ok in H as [l H]. unfold create_batch_streams in H.
    apply bind_ok in H as ([] & w1 & Hp & H). apply throw_if_ok in Hp as [_ ->].
    apply bind_ok in H as ([] & w1 & Hp & H). apply throw_if_ok in Hp as [_ ->].
    refine (batches_sound strict (fun cfg => create_requests cfg sender clawback requests) _ env w l
      w' _ _ _ Hs H).
    intros cfg r w1 Hfee Hs1 H1. by eapply create_requests_sound.
  - cbn [fac_exec] in H. unfold cancel_batch_streams in H.
    apply bind_ok in H as ([] & w1 & Hp & H). apply require_auth_ok in Hp as [_ ->].
    do 3 (apply bind_ok in H as ([] & w1 & Hp & H); apply throw_if_ok in Hp as [_ ->]).
    eapply cancel_each_sound; [exact Hs|lia|exact Hkn|exact H].
  - eapply record_cancel_sound; [exact Hs|lia|exact H].
Qed.

(** ** Reachable worlds *)

(** A factory deployed by [initialize] in empty storage and then called; the
    other contracts run freely in between.  With [strict], the batches of
    cancellations name streams of this factory. *)
Inductive fac_reach (strict : bool) : FWorld -> Prop :=
| fr_init env t h g w :
    current_contract env = self ->
    initialize h g env (mkWorld empty_store empty_store empty_store t [] []) = ROk tt w ->
    fac_reach strict w
| fr_call c env t w w' :
    fac_reach strict w -> current_contract env = self -> fac_typed c ->
    (strict = true -> cancels_known w c) ->
    fac_exec c env (set_tokens t w) = ROk tt w' -> fac_reach strict w'.

Lemma init_sound strict env t h g u w :
  initialize h g env (mkWorld empty_store empty_store empty_store t [] []) = ROk u w ->
  sound strict w.
Proof.
  intros H. unfold initialize, bump_instance in H. inv_ok. split; [|reflexivity]. constructor; try done.
  - exists (mkAggregate 0 0). done.
  - intros i [Hi0 Hi]. change (i < 0) in Hi. lia.
  - constructor.
  - intros a. by apply index_holds_blank.
  - intros a. by apply index_holds_blank.
Qed.

Lemma reach_sound strict w :
  fac_reach strict w -> llen (created w) + 201 <= u32_max -> sound strict w.
Proof.
  intros Hr. induction Hr as [|c env t w w' Hr IH Hself Hty Hkn H]; intros Hsm;
    [by eapply init_sound|].
  assert (Hlog : logged (set_tokens t w) w') by exact (keeps_ok (Keeps0 := _) _ _ _ _ _ _ H).
  apply logged_created in Hlog. change (created (set_tokens t w)) with (created w) in Hlog.
  refine (exec_sound strict c env (set_tokens t w) w' Hself Hty Hkn _ Hsm H).
  eapply sound_quiet; [apply allows|done|]. apply IH. lia.
Qed.

End Reach.
