(* ===== verification/FactoryOutside.v ===== *)
(** * DripFactory: what a call does to the rest of the chain

    Every entry point of the factory keeps what its own token transfers, its
    deployments of initialized streams and its cancellations keep. *)

From stdpp Require Import base numbers list option strings gmap.
From Stdlib Require Import ZArith Lia String.
From S2P Require Import Prelude Host Ttl Pause Frame Safe GovernorStore.
From S2P Require Import FactoryData FactoryIndex FactoryIndexFacts FactoryOps FactorySystem FactoryReach.

#[local] Open Scope Z_scope.
#[local] Open Scope sf_scope.
#[local] Existing Instance fac_keys.

(** The arguments of a deployment have their machine width. *)
Definition wide_args (args : InitArgs) : Prop :=
  I128 (ia_rate_per_sec args) /\ U64 (ia_start_time args) /\ U64 (ia_end_time args).

Definition wide_request (rate a b : Z) : Prop := I128 rate /\ U64 a /\ U64 b.

(** The arguments of a call have their machine width. *)
Definition fac_wide (c : fac_call) : Prop :=
  match c with
  | FCreateStream _ _ _ _ rate a b _ _ => wide_request rate a b
  | FBatchCreateStreams l =>
      Forall (fun p => wide_request (sp_rate_per_sec p) (sp_start_time p) (sp_end_time p)) l
  | FCreateBatchStreams _ l _ =>
      Forall (fun r => wide_request (br_rate_per_sec r) (br_start_time r) (br_end_time r)) l
  | _ => fac_typed c
  end.

Section Factory.
Context {T : Type} `{TC : TokenClient T} `{NW : Network T}.
Abbreviation FM := (M FacKey.data_key T FacEvent.fac_event FacError.fac_error).
Context (env : Env) (P : T -> Prop) `{HC : !TransferClosed env P}.

(** What deploying a stream with its initialization, and cancelling one, keep. *)
Context (HD : forall t h salt a t1 args t2,
  deploy_contract t (current_contract env) salt h = Some (a, t1) -> wide_args args ->
  stream_initialize (callee_env env a) t1 args = Some t2 -> P t -> P t2).
Context (HX : forall t s sender t',
  stream_cancel (callee_env env s) t sender = Some t' -> P t -> P t').

Lemma deploy_safe h i args : wide_args args -> Safe env P (deploy_stream h i args : FM _).
Proof.
  intros Hw. unfold deploy_stream. apply safe_bind; [solve_safe|intros used].
  apply safe_bind; [solve_safe|intros _]. intros w HP. unfold bind at 1.
  destruct (deploy_contract _ _ _ _) as [[a t1]|] eqn:Hd; [|exact I].
  unfold bind, pset. destruct (stream_initialize _ _ _) as [t2|] eqn:Hi; [|exact I].
  exact (HD _ _ _ _ _ _ _ Hd Hw Hi HP).
Qed.

Lemma safe_on_error {A} (m : FM A) (h : FacError.fac_error -> FM A) :
  Safe env P m -> (forall e, Safe env P (h e)) ->
  Safe env P (fun env w => match m env w with RErr e w' => h e env w' | r => r end).
Proof.
  intros Hm Hh w HP. specialize (Hm w HP). destruct (m env w) as [x w1|e w1|t]; [done| |done].
  exact (Hh e w1 Hm).
Qed.

Lemma create_with_safe cfg now s r t d rate a b cl desc :
  wide_request rate a b ->
  Safe env P (create_stream_with_config cfg now s r t d rate a b cl desc : FM _).
Proof.
  intros Hw. unfold create_stream_with_config.
  do 6 (apply safe_bind; [solve_safe|intros ?]).
  apply safe_bind; [unfold collect_funding, unlock_and_fail; solve_safe|intros _].
  apply safe_bind; [solve_safe|intros ?]. cbv zeta. apply safe_bind; [solve_safe|intros o].
  destruct o as [h|]; [|solve_safe].
  apply safe_bind; [apply safe_on_error; [by apply deploy_safe|solve_safe]|intros ad].
  unfold fund_stream, unlock_and_fail. solve_safe.
Qed.

Lemma create_each_safe cfg l :
  Forall (fun p => wide_request (sp_rate_per_sec p) (sp_start_time p) (sp_end_time p)) l ->
  Safe env P (create_each cfg l : FM _).
Proof.
  induction 1 as [|p l Hp Hl IH]; cbn [create_each]; [solve_safe|].
  do 2 (apply safe_bind; [solve_safe|intros ?]).
  apply safe_bind; [by apply create_with_safe|intros ?]. solve_safe.
Qed.

Lemma create_requests_safe cfg s cl l :
  Forall (fun r => wide_request (br_rate_per_sec r) (br_start_time r) (br_end_time r)) l ->
  Safe env P (create_requests cfg s cl l : FM _).
Proof.
  induction 1 as [|p l Hp Hl IH]; cbn [create_requests]; [solve_safe|].
  apply safe_bind; [solve_safe|intros ?].
  apply safe_bind; [by apply create_with_safe|intros ?]. solve_safe.
Qed.

Lemma cancel_each_safe s l : Safe env P (cancel_each s l : FM _).
Proof.
  induction l as [|a l IH]; cbn [cancel_each]; [solve_safe|].
  apply safe_bind; [|intros _; solve_safe].
  intros w HP. destruct (stream_cancel _ _ _) eqn:Hc; [exact (HX _ _ _ _ Hc HP)|exact I].
Qed.

#[local] Instance still_record a : Keeps (same_tokens (T := T)) (record_cancel a : FM _).
Proof. apply _. Qed.

(** A call of a factory keeps what its transfers, deployments and
    cancellations keep. *)
Lemma factory_exec_safe c : fac_wide c -> Safe env P (fac_exec c : FM unit).
Proof.
  intros Hw. destruct c; unfold_fac; cbn [fac_wide] in Hw; try solve [solve_safe].
  - apply safe_bind; [|solve_safe]. do 6 (apply safe_bind; [solve_safe|intros ?]).
    by apply create_with_safe.
  - apply safe_bind; [|solve_safe]. do 5 (apply safe_bind; [solve_safe|intros ?]).
    by apply create_each_safe.
  - apply safe_bind; [|solve_safe]. do 6 (apply safe_bind; [solve_safe|intros ?]).
    by apply create_requests_safe.
  - do 4 (apply safe_bind; [solve_safe|intros ?]). apply cancel_each_safe.
Qed.

End Factory.
