(* ===== verification/FactoryProps.v ===== *)
(** * DripFactory: properties

    The registry against the log, creation, cancellation counting, settings,
    the emergency halt and the TTL walker. *)

From stdpp Require Import base numbers list option strings gmap.
From Stdlib Require Import ZArith Lia String.
From S2P Require Import StreamOps StreamSafety.
From S2P Require Import GovernorConfig.
From S2P Require Import Prelude Host Ttl Pause Frame GovernorStore.
From S2P Require Import FactoryData FactoryIndex FactoryIndexFacts FactoryOps FactorySystem.
From S2P Require Import FactoryRegistry FactoryCreate FactoryReach.
Import FacError.

#[local] Open Scope Z_scope.
#[local] Open Scope sf_scope.
#[local] Existing Instance fac_keys.

Section Props.
Context {T : Type} `{TC : TokenClient T} `{TL : !TokenLaws T} `{NW : Network T}
  `{NL : !NetworkLaws T} `{CL : !ConfigLaws T}.
Abbreviation FWorld := (World FacKey.data_key T FacEvent.fac_event).
Abbreviation FM := (M FacKey.data_key T FacEvent.fac_event fac_error).
Context (self : Address).
Implicit Types (w : FWorld) (c : fac_call).

(** ** The registry *)

(** C4 The registry replays the event log. In every reachable world the
    counter is the number of [StreamCreated] events; the id of the i-th event
    resolves to the address it published, an unknown id to none; an address is
    known exactly when it was published, and no address was published twice;
    and a page of the streams of a sender or recipient is the slice of the ids
    of the events that name it, with their full number. *)
Theorem registry_replays_the_log strict w env :
  fac_reach self strict w -> llen (created w) + 201 <= u32_max ->
  stream_count env w = ROk (llen (created w)) w /\
  (forall i, 0 <= i -> exists w',
     stream_address i env w = ROk (cr_stream <$> (created w !! Z.to_nat i)) w') /\
  (forall a, exists w', is_known_stream a env w =
     ROk (bool_decide (a ∈ (cr_stream <$> created w))) w') /\
  NoDup (cr_stream <$> created w) /\
  (forall a offset limit, 0 <= offset -> 0 <= limit ->
     (exists w', streams_by_sender a offset limit env w =
        ROk (let ids := ids_of cr_creator a (created w) in
             mkStreamPage (page_of ids offset limit) (llen ids)) w') /\
     (exists w', streams_by_recipient a offset limit env w =
        ROk (let ids := ids_of cr_recipient a (created w) in
             mkStreamPage (page_of ids offset limit) (llen ids)) w')).
Proof.
  intros Hr Hsm. destruct (reach_sound self strict w Hr Hsm) as [[R1 R2 R3 R4 R5 R6 R7 R8 R9 R10] _].
  split; [|split; [|split; [|split; [exact R7|]]]].
  - unfold stream_count. erewrite bind_run by reflexivity. by rewrite R1.
  - intros i Hi. unfold stream_address. erewrite bind_run by reflexivity. rewrite (R3 i Hi).
    destruct (created w !! Z.to_nat i) as [cr|] eqn:Hcr; cbn; [|by eexists].
    unfold bump_persistent, extend_ttl_persistent, bind. rewrite (R3 i Hi), Hcr. by eexists.
  - intros a. unfold is_known_stream. erewrite bind_run by reflexivity. fold (known w a).
    rewrite R4. destruct (bool_decide _) eqn:Hk; [|by eexists].
    unfold bump_persistent, extend_ttl_persistent, bind. pose proof (R4 a) as Hka. rewrite Hk in Hka.
    unfold known in Hka. destruct (w_persist w (FacKey.IsKnownStream a)); [by eexists|done].
  - intros a offset limit Ho Hl. cbv zeta. split.
    + pose proof (ids_of_length cr_creator a (created w)).
      destruct (index_answers (E := fac_error) _ _ _ _ _ _ env w offset limit (R8 a))
        as (w' & Hw & _); [lia|done..|]. by exists w'.
    + pose proof (ids_of_length cr_recipient a (created w)).
      destruct (index_answers (E := fac_error) _ _ _ _ _ _ env w offset limit (R9 a))
        as (w' & Hw & _); [lia|done..|]. by exists w'.
Qed.

(** C17 Creating a stream moves exactly the funds it declares. A successful
    [create_stream] was signed by the sender, passed the factory's checks and
    the governor's bounds, and took from the sender the deposit and the fee,
    the governed share of the deposit rounded down: the fee goes to the
    governed recipient, the deposit to the new stream, and the factory keeps
    nothing. The stream got the next id, is published with its parties, and
    the creation lock is open again. *)
Theorem create_stream_is_exact strict w env s r tok d rate a b cl desc sid w' :
  fac_reach self strict w -> current_contract env = self ->
  llen (created w') + 201 <= u32_max ->
  create_stream s r tok d rate a b cl desc env w = ROk sid w' ->
  authorized env s = true /\ valid_request s r tok d rate a b (timestamp env) /\
  exists g cfg stream,
    w_store w FacKey.GovernorAddress = Some g /\ governor_config (w_tokens w) g = Some cfg /\
    enforce_bounds cfg rate a b (timestamp env) = inr tt /\
    sid = llen (created w) /\ created w' = created w ++ [mkCreation s r stream] /\
    stream ∉ (cr_stream <$> created w) /\ unlocked w' /\
    moved tok (w_tokens w) (w_tokens w') (fun x =>
      at_addr stream d x + at_addr (gc_fee_recipient cfg) (Z.quot (d * gc_fee_bps cfg) 10000) x -
      at_addr s (d + Z.quot (d * gc_fee_bps cfg) 10000) x).
Proof.
  intros Hr Hself Hsm H.
  assert (Hlog : logged w w') by exact (keeps_ok (Keeps0 := _) _ _ _ _ _ _ H).
  apply logged_created in Hlog.
  pose proof (reach_sound self strict w Hr ltac:(lia)) as Hs.
  destruct (create_stream_sound self strict _ _ _ _ _ _ _ _ _ _ _ _ _ Hself Hs Hsm H)
    as (Hs' & w1 & cfg & HQ & Hau & Hv & Ht & (g & Hcfg & Hg) & HC).
  destruct HC as [C1 C2 C3 C4 C5 C6 C7 (stream & C8 & C9 & C10 & _)].
  rewrite (q_created _ _ HQ) in *. rewrite Ht in C10.
  split; [done|]. split; [done|]. exists g, cfg, stream. split_and!; try done; [|apply Hs'].
  intros Hin. pose proof (rg_distinct _ _ _ (proj1 Hs')) as Hnd. rewrite C8, fmap_app in Hnd.
  apply NoDup_app in Hnd as (_ & Hdis & _). apply (Hdis _ Hin). cbn. set_solver.
Qed.

(** The aggregate counts the streams. When the cancellations routed through
    the factory name its own streams, the total is the number of streams ever
    created and the active count is the number of those whose cancellation has
    not been recorded; each stream is counted out at most once. *)
Theorem aggregate_counts_streams w env :
  fac_reach self true w -> llen (created w) + 201 <= u32_max ->
  aggregate env w = ROk (mkAggregate (llen (created w)) (live w)) w /\
  live w = llen (filter (fun a => recorded w a = false) (cr_stream <$> created w)).
Proof.
  intros Hr Hsm. destruct (reach_sound self true w Hr Hsm) as [[R1 R2 _ _ _ _ _ _ _ _] _].
  destruct R2 as ([tot act] & A1 & A2 & A3 & A4). cbn in A2, A4. specialize (A4 eq_refl). subst. split.
  - unfold aggregate. erewrite bind_run by reflexivity. by rewrite A1.
  - unfold live. induction (cr_stream <$> created w) as [|x l IH]; [done|].
    change (zsum (fun a => if recorded w a then 0 else 1) (x :: l)) with
      ((if recorded w x then 0 else 1) + zsum (fun a => if recorded w a then 0 else 1) l).
    rewrite filter_cons, IH. destruct (recorded w x) eqn:Hx.
    + by rewrite decide_False by done.
    + rewrite decide_True by done. cbn [List.length]. lia.
Qed.

(** ** Settings and the emergency halt *)

Definition is_setting (k : FacKey.data_key) : bool :=
  match k with
  | FacKey.StreamWasmHash | FacKey.GovernorAddress | FacKey.FactoryStorageVersion => true
  | _ => false
  end.

Lemma set_hash_ok h env w u w' :
  set_stream_wasm_hash (T := T) h env w = ROk u w' ->
  exists g, w_store w FacKey.GovernorAddress = Some g /\ authorized env g = true /\ h <> 0 /\
  (forall k, is_setting k = true -> k <> FacKey.StreamWasmHash -> w_store w' k = w_store w k) /\
  w_store w' FacKey.StreamWasmHash = Some h.
Proof.
  intros H. unfold set_stream_wasm_hash in H. apply bind_ok in H as (g & w1 & Hg & H).
  apply governor_ok in Hg as [-> Hg]. apply bind_ok in H as ([] & w1 & Ha & H).
  apply require_auth_ok in Ha as [Ha ->]. apply bind_ok in H as ([] & w1 & Hz & H).
  apply throw_if_ok in Hz as [Hz ->]. apply bind_ok in H as ([] & w1 & Hp & H).
  assert (F1 : frame (fun k => is_setting k = false) w w1)
    by exact (keeps_ok (Keeps0 := _) _ _ _ _ _ _ Hp).
  apply bind_ok in H as (o & w2 & Ho & H). injection Ho as <- <-.
  apply bind_ok in H as (old & w2 & Ho & H). apply ok_or_ok in Ho as [Ho ->].
  apply bind_ok in H as ([] & w2 & Hb & H). injection Hb as <-.
  apply bind_ok in H as (n & w3 & Hb & H).
  assert (F2 : frame (fun k => is_setting k = false) w1 w3).
  { transitivity (add_ttl (X := FacEvent.fac_event) (T := T) None MIN_TTL_LEDGERS EXTEND_TTL_LEDGERS w1);
      [by intros k|]. exact (keeps_ok (Keeps0 := _) _ _ _ _ _ _ Hb). }
  assert (F : frame (fun k => is_setting k = false) w w3) by (by transitivity w1).
  exists g. split; [done|]. split; [done|]. split; [breflect; lia|].
  destruct (negb _) eqn:Hne in H.
  - apply bind_ok in H as ([] & w4 & Hs & H). injection Hs as <-. injection H as _ <-. split.
    + intros k Hk Hh. change (w_store (put FacKey.StreamWasmHash (Some h) w3) k = w_store w k).
      rewrite put_store_ne by congruence. apply F. congruence.
    + exact (put_store_eq FacKey.StreamWasmHash (Some h) w3).
  - injection H as _ <-. split; [intros k Hk _; apply F; congruence|].
    rewrite F2 by done. rewrite Ho. breflect. by subst.
Qed.

(** Only the governor changes what the factory deploys. In every reachable
    world no call changes the governor or the storage version, and a call that
    changes the hash of the stream code is [upgrade_stream_wasm] with that
    non-zero hash, authorised by the governor. *)
Theorem settings_follow_the_governor strict w c env u w' :
  fac_reach self strict w -> llen (created w) + 201 <= u32_max ->
  fac_exec c env w = ROk u w' ->
  w_store w' FacKey.GovernorAddress = w_store w FacKey.GovernorAddress /\
  w_store w' FacKey.FactoryStorageVersion = w_store w FacKey.FactoryStorageVersion /\
  (w_store w' FacKey.StreamWasmHash = w_store w FacKey.StreamWasmHash \/
   exists h g, c = FUpgradeStreamWasm h /\ h <> 0 /\
     w_store w FacKey.GovernorAddress = Some g /\ authorized env g = true /\
     w_store w' FacKey.StreamWasmHash = Some h).
Proof.
  intros Hr Hsm H. destruct (reach_sound self strict w Hr Hsm) as [HR _].
  assert (HF : match c with FInitialize _ _ | FUpgradeStreamWasm _ => False | _ => True end ->
               frame (fun k => is_setting k = false) w w').
  { intros Hc. exact (keeps_ok (Keeps0 := keeps_others _ c Hc) _ _ _ _ _ _ H). }
  destruct c; try (specialize (HF I); split_and!; [by apply HF..|left; by apply HF]).
  - exfalso. cbn [fac_exec] in H. unfold initialize in H.
    apply bind_ok in H as (b & w1 & Hh & H). injection Hh as <- <-.
    rewrite (rg_count _ _ _ HR) in H. by apply bind_ok in H as (? & ? & ? & _).
  - cbn [fac_exec] in H. apply set_hash_ok in H as (g & Hg & Ha & Hh & Hk & Hs).
    split; [by apply Hk|]. split; [by apply Hk|]. right. by exists new_wasm_hash, g.
Qed.

Definition halted env w : bool :=
  pause_active (w_store w FacKey.Paused : option PauseCell) (timestamp env).

Lemma fac_holds w : holds FacKey.Paused w (w_store w FacKey.Paused : option PauseCell).
Proof. unfold holds. destruct (w_store w FacKey.Paused) as [[]|]; done. Qed.

Lemma fac_not_paused_ok env w u w' :
  require_not_paused (T := T) env w = ROk u w' -> halted env w = false.
Proof.
  intros H. unfold require_not_paused, map_err in H.
  destruct (Pause.require_not_paused _ _ _) as [u1 w1|e w1|t] eqn:Hr; try discriminate H.
  unfold Pause.require_not_paused, require_not_paused_flag in Hr.
  apply bind_ok in Hr as (b & w2 & Hb & Hr). destruct b; [done|].
  by apply (is_paused_ok FacKey.Paused _ _ _ _ _ (fac_holds w)) in Hb as [Hb _].
Qed.

(** What a halted factory still does. *)
Definition allowed_while_paused c : bool :=
  match c with
  | FCreateStream _ _ _ _ _ _ _ _ _ | FBatchCreateStreams _ | FCreateBatchStreams _ _ _
  | FUpgradeStreamWasm _ | FUpgradeSelf _ _ | FPause => false
  | _ => true
  end.

Definition same_log w w' : Prop := created w' = created w.
#[export] Instance same_log_preorder : PreOrder same_log.
Proof. constructor; unfold same_log; congruence. Qed.

#[export] Instance same_log_put k v : Allows same_log (put k v).
Proof. done. Qed.
#[export] Instance same_log_persist k v : Allows same_log (put_persist k v).
Proof. done. Qed.
#[export] Instance same_log_tokens t : Allows same_log (set_tokens t).
Proof. done. Qed.
#[export] Instance same_log_ttl o a b : Allows same_log (add_ttl o a b).
Proof. done. Qed.
#[export] Instance same_log_unpaused a n : Allows same_log (add_event (FacEvent.unpaused a n)).
Proof. intros w. apply (q_created _ _ (quiet_unpaused a n w)). Qed.

Lemma keeps_log c :
  allowed_while_paused c && negb (match c with FInitialize _ _ => true | _ => false end) = true ->
  Keeps same_log (fac_exec c).
Proof.
  intros Hc. destruct c; try discriminate Hc; try (by apply keeps_minor; try apply _).
  unfold_fac. solve_keeps.
Qed.

Lemma creation_forbidden_while_paused c env w u w' :
  fac_exec c env w = ROk u w' -> allowed_while_paused c = false -> halted env w = false.
Proof.
  intros H Hc. destruct c; try discriminate Hc; clear Hc; cbn [fac_exec] in H;
    repeat match goal with
    | H : (do! _; ret tt) _ _ = ROk _ _ |- _ => apply drop_ok in H as [? H]
    end;
    unfold create_stream, batch_create_streams, create_batch_streams, upgrade_stream_wasm,
      set_stream_wasm_hash, upgrade_self, pause in H;
    repeat (apply bind_ok in H as (? & ? & Hg & H); cbv beta in H;
      first [ by apply fac_not_paused_ok in Hg
            | apply throw_if_ok in Hg as [_ ->]
            | apply require_auth_ok in Hg as [_ ->]
            | apply governor_ok in Hg as [-> _] ]).
  apply bind_ok in H as (b & w1 & Hb & H).
  apply (is_paused_ok FacKey.Paused _ _ _ _ _ (fac_holds w)) in Hb as [Hb _].
  apply bind_ok in H as (u2 & w2 & Hg & H). apply throw_if_ok in Hg as [-> ->]. done.
Qed.

(** A halted factory creates nothing. While the pause is in force every
    creation, single or batched, and every upgrade is refused, and what still
    goes through adds no stream. *)
Theorem paused_factory_creates_nothing c env w u w' :
  halted env w = true -> fac_exec c env w = ROk u w' ->
  allowed_while_paused c = true /\
  match c with FInitialize _ _ => True | _ => created w' = created w end.
Proof.
  intros Hh H. destruct (allowed_while_paused c) eqn:Hc.
  - split; [done|]. destruct c; try discriminate Hc; try exact I;
      match type of H with fac_exec ?x _ _ = _ =>
        exact (keeps_ok (Keeps0 := keeps_log x eq_refl) _ _ _ _ _ _ H) end.
  - by rewrite (creation_forbidden_while_paused _ _ _ _ _ H Hc) in Hh.
Qed.

(** ** The TTL walker *)

(** [k] maintenance calls in a row. *)
Fixpoint maintenance (k : nat) : FM unit :=
  match k with
  | O => ret tt
  | S k' => do! bump_persistent_bucket; maintenance k'
  end.

(** The renewal requests for the ids [cursor + 1 + i], [cursor + 2 + i], ... *)
Definition renewals (count cursor i : Z) (n : nat) : list (option FacKey.data_key * Z * Z) :=
  map (fun j => (Some (FacKey.StreamAddr ((cursor + 1 + i + Z.of_nat j) mod count)),
                 MIN_TTL_LEDGERS, EXTEND_TTL_LEDGERS)) (seq 0 n).

Lemma renewals_S count cursor i n :
  renewals count cursor i (S n) =
  (Some (FacKey.StreamAddr ((cursor + 1 + i) mod count)), MIN_TTL_LEDGERS, EXTEND_TTL_LEDGERS)
  :: renewals count cursor (i + 1) n.
Proof.
  unfold renewals. cbn [seq map]. rewrite Z.add_0_r. f_equal. rewrite <- seq_shift, map_map.
  apply map_ext. intros j.
  by replace (cursor + 1 + i + Z.of_nat (S j)) with (cursor + 1 + (i + 1) + Z.of_nat j) by lia.
Qed.

(** Every stream of the registry is there. *)
Definition complete (count : Z) w : Prop :=
  forall i, 0 <= i < count -> is_some (w_persist w (FacKey.StreamAddr i)) = true.

Definition plus_ttl w (l : list (option FacKey.data_key * Z * Z)) : FWorld :=
  mkWorld (w_store w) (w_persist w) (w_temp w) (w_tokens w) (w_events w) (w_ttl w ++ l).

Lemma walk_ok count cursor i n last touched env w :
  0 < count -> complete count w -> 0 <= cursor -> 0 <= i ->
  cursor + 1 + i + Z.of_nat n <= u64_max ->
  exists r t, walk (T := T) count cursor i n last touched env w =
    ROk (r, t) (plus_ttl w (renewals count cursor i n)) /\
    r = (if (n =? 0)%nat then last else (cursor + 1 + i + Z.of_nat n - 1) mod count).
Proof.
  intros Hc Hw. revert i last touched w Hw. induction n as [|n IH]; intros i last touched w Hw H1 H2 H3.
  { exists last, touched. split; [|done]. unfold plus_ttl. cbn. rewrite app_nil_r. by destruct w. }
  cbn [walk]. replace (sat_u64 (sat_u64 (cursor + 1) + i)) with (cursor + 1 + i) by mlia.
  assert (Hin : 0 <= (cursor + 1 + i) mod count < count) by (apply Z.mod_pos_bound; lia).
  erewrite bind_run by reflexivity. rewrite (Hw _ Hin).
  unfold bump_persistent, extend_ttl_persistent. unfold bind at 1. rewrite (Hw _ Hin).
  destruct (IH (i + 1) ((cursor + 1 + i) mod count) (touched + 1)
    (add_ttl (Some (FacKey.StreamAddr ((cursor + 1 + i) mod count))) MIN_TTL_LEDGERS
       EXTEND_TTL_LEDGERS w) Hw) as (r & t & Hrun & Hr); [lia..|].
  exists r, t. rewrite Hrun. split.
  - f_equal. unfold plus_ttl, add_ttl. cbn [w_store w_persist w_temp w_tokens w_events w_ttl].
    by rewrite renewals_S, <- app_assoc.
  - rewrite Hr. destruct n; cbn [Nat.eqb]; f_equal; lia.
Qed.

(** One maintenance call. *)
Lemma bucket_ok count cursor env w :
  w_store w FacKey.StreamCount = Some count -> 0 < count -> count + 16 <= u64_max ->
  default 0 (w_store w FacKey.LastBumpedId) = cursor -> 0 <= cursor <= count -> complete count w ->
  exists t w', bump_persistent_bucket env w = ROk t w' /\
    w_ttl w' = w_ttl w ++ renewals count cursor 0 8 /\ w_persist w' = w_persist w /\
    w_store w' FacKey.StreamCount = Some count /\
    w_store w' FacKey.LastBumpedId = Some ((cursor + 8) mod count).
Proof.
  intros Hn Hpos Hmax Hcur Hrange Hw. unfold bump_persistent_bucket.
  erewrite bind_run by reflexivity. rewrite Hn. change (default 0 (Some count)) with count.
  rewrite (proj2 (Z.eqb_neq count 0)) by lia. erewrite bind_run by reflexivity. rewrite Hcur.
  change (Z.to_nat BATCH_LIMIT) with 8%nat.
  destruct (walk_ok count cursor 0 8 cursor 0 env w) as (r & t & Hrun & Hr); [done|done|lia..|].
  rewrite (bind_run _ _ _ _ _ _ Hrun). eexists t, _. split; [reflexivity|]. cbn [fst].
  split; [done|]. split; [done|]. split.
  - rewrite put_store_ne by done. exact Hn.
  - rewrite put_store_eq, Hr. cbn [Nat.eqb]. do 2 f_equal. lia.
Qed.

Lemma maintenance_ok count env k : forall cursor w,
  w_store w FacKey.StreamCount = Some count -> 0 < count -> count + 16 <= u64_max ->
  default 0 (w_store w FacKey.LastBumpedId) = cursor -> 0 <= cursor <= count -> complete count w ->
  exists w' l, maintenance k env w = ROk tt w' /\ w_ttl w' = w_ttl w ++ l /\
    forall j, 0 <= j < 8 * Z.of_nat k ->
      (Some (FacKey.StreamAddr ((cursor + 1 + j) mod count)), MIN_TTL_LEDGERS, EXTEND_TTL_LEDGERS)
        ∈ l.
Proof.
  induction k as [|k IH]; intros cursor w Hn Hpos Hmax Hcur Hrange Hw.
  { exists w, []. rewrite app_nil_r. split; [done|]. split; [done|lia]. }
  destruct (bucket_ok count cursor env w Hn Hpos Hmax Hcur Hrange Hw)
    as (t & w1 & H1 & Ht & Hp & Hn1 & Hc1).
  assert (Hmod : 0 <= (cursor + 8) mod count < count) by (apply Z.mod_pos_bound; lia).
  destruct (IH ((cursor + 8) mod count) w1) as (w2 & l & H2 & Ht2 & Hl); [done|done|done| |lia| |].
  { by rewrite Hc1. }
  { intros i Hi. rewrite Hp. by apply Hw. }
  exists w2, (renewals count cursor 0 8 ++ l). split; [|split].
  - cbn [maintenance]. by rewrite (bind_run _ _ _ _ _ _ H1).
  - by rewrite Ht2, Ht, app_assoc.
  - intros j Hj. apply elem_of_app. destruct (Z.lt_ge_cases j 8) as [Hlt|Hge].
    + left. apply list_elem_of_In, in_map_iff. exists (Z.to_nat j). split; [|apply in_seq; lia].
      by replace (cursor + 1 + 0 + Z.of_nat (Z.to_nat j)) with (cursor + 1 + j) by lia.
    + right. specialize (Hl (j - 8) ltac:(lia)).
      replace ((cursor + 1 + j) mod count) with (((cursor + 8) mod count + 1 + (j - 8)) mod count);
        [done|]. rewrite <- Z.add_assoc, Z.add_mod_idemp_l by lia. f_equal. lia.
Qed.

(** C40 Maintenance keeps the whole registry alive. In every reachable world
    whose cursor is an id the walker could have stored, however many streams
    there are, one maintenance call for every eight of them renews the address
    entry of each. *)
Theorem walker_covers_every_stream strict w env k :
  fac_reach self strict w -> llen (created w) + 201 <= u32_max ->
  0 <= default 0 (w_store w FacKey.LastBumpedId) <= llen (created w) ->
  0 < llen (created w) <= 8 * Z.of_nat k ->
  exists w' l, maintenance k env w = ROk tt w' /\ w_ttl w' = w_ttl w ++ l /\
    forall i, 0 <= i < llen (created w) ->
      (Some (FacKey.StreamAddr i), MIN_TTL_LEDGERS, EXTEND_TTL_LEDGERS) ∈ l.
Proof.
  intros Hr Hsm Hcur Hk. destruct (reach_sound self strict w Hr Hsm) as [HR _].
  set (n := llen (created w)) in *. set (cursor := default 0 _) in *.
  destruct (maintenance_ok n env k cursor w) as (w' & l & Hm & Ht & Hl); [apply (rg_count _ _ _ HR)|lia|
    unfold u32_max, u64_max in *; lia|done|done| |].
  { intros i Hi. rewrite (rg_addr _ _ _ HR i) by lia.
    destruct (lookup_lt_is_Some_2 (created w) (Z.to_nat i)) as [x Hx]; [lia|]. by rewrite Hx. }
  exists w', l. split; [done|]. split; [done|]. intros i Hi.
  assert (Hmod : 0 <= (i - cursor - 1) mod n < n) by (apply Z.mod_pos_bound; lia).
  specialize (Hl ((i - cursor - 1) mod n) ltac:(lia)).
  rewrite Z.add_mod_idemp_r in Hl by lia.
  replace (cursor + 1 + (i - cursor - 1)) with i in Hl by lia. by rewrite Z.mod_small in Hl.
Qed.

End Props.

(** An event that announces no creation. *)
#[export] Hint Extern 2 (Allows same_log (add_event _)) =>
  intros ?; unfold same_log, created; cbn [w_events add_event];
  rewrite omap_app; cbn; apply app_nil_r : typeclass_instances.
