(* ===== verification/Protocol.v ===== *)
(** * The composed protocol: factory, governor and streams

    A network in which the contracts the factory calls are the governor and the
    streams of this repository, run on one reference ledger.  It satisfies what
    the factory assumes of its network, and the streams the factory deploys in
    it satisfy what the theorems on streams assume. *)

From stdpp Require Import base numbers list option strings gmap.
From Stdlib Require Import ZArith Lia String.
From S2P Require Import Prelude Host Ttl Pause Frame.
From S2P Require Import GovernorData GovernorStore GovernorOps GovernorConfig.
From S2P Require Import StreamData StreamState StreamOps StreamFacts StreamSystem StreamSafety.
From S2P Require Import FactoryData FactoryIndex FactoryIndexFacts FactoryOps FactorySystem.
From S2P Require Import FactoryRegistry FactoryCreate FactoryReach.

#[local] Open Scope Z_scope.
#[local] Open Scope sf_scope.
#[local] Existing Instance fac_keys.

Abbreviation GovWorld := (World GovKey.data_key Ledger GovEvent.gov_event).
Abbreviation StreamWorld := (World DataKey.data_key Ledger Event.stream_event).

Record Net := mkNet {
  net_ledger : Ledger;
  net_governors : gmap Address GovWorld;
  net_streams : gmap Address StreamWorld
}.

Definition with_ledger (l : Ledger) (n : Net) : Net :=
  mkNet l (net_governors n) (net_streams n).

#[export] Instance net_tokens : TokenClient Net := {
  tok_balance n := ledger_balance (net_ledger n);
  tok_transfer n auth tk from to amt :=
    (fun l => with_ledger l n) <$> ledger_transfer (net_ledger n) auth tk from to amt
}.

Lemma net_transfer (n : Net) auth tk from to amt n' :
  tok_transfer n auth tk from to amt = Some n' ->
  exists l, ledger_transfer (net_ledger n) auth tk from to amt = Some l /\ n' = with_ledger l n.
Proof. cbn. intros (l & -> & H)%fmap_Some. eauto. Qed.

#[export] Instance net_token_laws : TokenLaws Net.
Proof.
  constructor.
  - intros tk a n b. intros H. exact (tok_balance_range (T := Ledger) tk a (net_ledger n) b H).
  - intros * (l & H & ->)%net_transfer. by eapply (tok_transfer_amount (T := Ledger)).
  - intros * (l & H & ->)%net_transfer. by eapply (tok_transfer_auth (T := Ledger)).
  - intros * (l & H & ->)%net_transfer. intros Hb. exact (tok_transfer_balance (T := Ledger) _ _ _ _ _ _ _ _ _ H Hb).
  - intros * (l & H & ->)%net_transfer. intros Hne. exact (tok_transfer_other (T := Ledger) _ _ _ _ _ _ _ _ _ H Hne).
  - intros * (l & H & ->)%net_transfer. intros Hb. exact (tok_transfer_defined (T := Ledger) _ _ _ _ _ _ _ _ _ H Hb).
Qed.

(** ** Calls into the contracts *)

(** A call to the stream at [a]: it runs in its own storage on the shared
    ledger, and its effects are kept if it returns. *)
Definition call_stream {A} (m : M DataKey.data_key Ledger Event.stream_event Error.stream_error A)
    (env : Env) (a : Address) (n : Net) : option (A * Net) :=
  match net_streams n !! a with
  | None => None
  | Some sw =>
      match m env (set_tokens (net_ledger n) sw) with
      | ROk x sw' => Some (x, mkNet (w_tokens sw') (net_governors n) (<[a := sw']> (net_streams n)))
      | _ => None
      end
  end.

Definition blank_stream (l : Ledger) : StreamWorld :=
  mkWorld empty_store empty_store empty_store l [] [].

(** The governor's answer, of the width of its type. *)
Definition net_config (n : Net) (g : Address) : option GovernorStore.GovernorConfig :=
  match net_governors n !! g with
  | None => None
  | Some gw =>
      match Governor.config (mkEnv 0 0 g (fun _ => false)) gw with
      | ROk c _ => if in_u32 (gc_fee_bps c) then Some c else None
      | _ => None
      end
  end.

(** The address a deployer gets for a salt; it must be free. *)
Definition contract_id (f : Address) (salt : Z) : Address := Contract (Npos (encode (f, salt))).

#[export] Instance net_network : Network Net := {
  governor_config := net_config;
  stream_salt i := i;
  deploy_contract n f salt _ :=
    let a := contract_id f salt in
    match net_streams n !! a, net_governors n !! a with
    | None, None => Some (a, mkNet (net_ledger n) (net_governors n)
                            (<[a := blank_stream (net_ledger n)]> (net_streams n)))
    | _, _ => None
    end;
  stream_initialize env n args :=
    snd <$> call_stream
      (StreamOps.initialize (ia_sender args) (ia_recipient args) (ia_token args)
         (ia_rate_per_sec args) (ia_start_time args) (ia_end_time args) (ia_clawback args)
         (ia_force_cancel_pause_secs args) (ia_is_regulated_asset args) (ia_description args))
      env (current_contract env) n;
  stream_cancel env n sender :=
    snd <$> call_stream (StreamOps.cancel sender) env (current_contract env) n;
  stream_is_cancelled n a :=
    match net_streams n !! a with
    | Some sw => is_cancelled <$> (w_store sw DataKey.Config : option StreamInfo)
    | None => None
    end
}.

(** ** The network keeps the factory's assumptions *)

Abbreviation SM := (M DataKey.data_key Ledger Event.stream_event Error.stream_error).

#[local] Instance keeps_load : Keeps (same_tokens (T := Ledger)) (load : SM StreamInfo).
Proof.
  intros env w. unfold load, try_load, bind, sget, ok_or.
  by destruct (w_store w DataKey.Config).
Qed.

#[local] Instance keeps_initialize s r tok rate a b cl th reg desc :
  Keeps (same_tokens (T := Ledger))
    (StreamOps.initialize s r tok rate a b cl th reg desc : SM unit).
Proof.
  unfold StreamOps.initialize, bump_for_remaining, save, ev_created, assert_non_negative_amount,
    next_sequence, save. solve_keeps.
Qed.

Lemma call_stream_ok {A} (m : SM A) env a n x n' :
  call_stream m env a n = Some (x, n') ->
  exists sw sw', net_streams n !! a = Some sw /\
    m env (set_tokens (net_ledger n) sw) = ROk x sw' /\
    n' = mkNet (w_tokens sw') (net_governors n) (<[a := sw']> (net_streams n)).
Proof.
  unfold call_stream. destruct (net_streams n !! a) as [sw|]; [|done].
  destruct (m env _) as [y sw'| |] eqn:Hm; [|done..]. intros [= -> <-]. eauto.
Qed.

#[export] Instance net_laws : NetworkLaws Net.
Proof.
  constructor.
  - intros * H1 H2. cbn in H1, H2. destruct (net_streams t1 !! _); [done|].
    destruct (net_streams t2 !! _); [done|]. destruct (net_governors t1 !! _); [done|].
    destruct (net_governors t2 !! _); [done|]. injection H1 as <- _. injection H2 as H2 _. apply (inj encode) in H2. by injection H2.
  - intros * H. cbn in H. destruct (net_streams t !! _); [done|].
    destruct (net_governors t !! _); [done|]. by injection H as _ <-.
  - intros * H. cbn [stream_initialize net_network] in H. apply fmap_Some in H as ([[] n'] & H & ->).
    apply call_stream_ok in H as (sw & sw' & _ & Hm & ->). cbn.
    assert (Ht : same_tokens (set_tokens (net_ledger t) sw) sw')
      by exact (keeps_ok (Keeps0 := _) _ _ _ _ _ _ Hm).
    by rewrite Ht.
Qed.

#[export] Instance net_config_laws : ConfigLaws Net.
Proof.
  constructor. intros n g c H. cbn in H. unfold net_config in H.
  destruct (net_governors n !! g); [|done].
  destruct (Governor.config _ _) as [c'| |]; [|done..].
  destruct (in_u32 (gc_fee_bps c')) eqn:Hb; [|done]. injection H as <-.
  unfold in_u32, in_range in Hb. breflect. done.
Qed.

(** ** Streams the factory deploys *)

(** A request the factory accepts is one the stream accepts. If the
    factory's checks and the bounds of a valid governor configuration let a
    request through, and the governor allows no duration beyond the stream's
    own maximum, then the [initialize] the factory calls goes through in blank
    storage. *)
Theorem accepted_request_initializes (s r tok : Address) (d rate a b : Z) (cl : bool) (desc : option string)
    (cfg : GovernorStore.GovernorConfig) (env : Env) (w0 : StreamWorld) :
  valid_request s r tok d rate a b (timestamp env) ->
  enforce_bounds cfg rate a b (timestamp env) = inr tt -> ValidConfig cfg ->
  gc_max_duration_seconds cfg <= MAX_STREAM_DURATION ->
  match desc with Some x => Z.of_nat (String.length x) <= MAX_DESCRIPTION_LEN | None => True end ->
  I128 rate -> U64 a -> U64 b -> U64 (timestamp env) ->
  w_store w0 DataKey.Config = None ->
  (0 < b \/ is_Some (tok_balance (w_tokens w0) tok (current_contract env))) ->
  exists u w, StreamOps.initialize s r tok rate a b cl (gc_force_cancel_pause_secs cfg) false desc
                env w0 = ROk u w.
Proof.
  intros [V1 V2 V3 V4 V5 V6] Hb HV Hmax Hdesc Hr Ha Hbu Ht Hw Hbal.
  apply enforce_bounds_spec in Hb; [|try done..]; [|destruct HV; mlia|apply HV].
  destruct Hb as (B1 & B2 & B3). apply initialize_goes_through; try done.
  destruct V1 as [V1 V1']. unfold acceptable, MIN_STREAM_DURATION, MAX_STREAM_DURATION in *.
  pose proof (vc_force _ HV). split_and!; try done; lia.
Qed.

(** What arrived is held. *)
Lemma transfer_received {T} `{TokenLaws T} (t : T) auth tk from to amt t' b :
  tok_transfer t auth tk from to amt = Some t' -> tok_balance t' tk to = Some b -> to <> from ->
  amt <= b.
Proof.
  intros Htr Hb Hne. destruct (tok_transfer_defined _ _ _ _ _ _ _ _ _ Htr Hb) as [b0 Hb0].
  pose proof (tok_transfer_balance _ _ _ _ _ _ _ _ _ Htr Hb0) as Hb1.
  rewrite Hb, addr_eqb_refl, (proj2 (addr_eqb_false _ _) Hne) in Hb1.
  pose proof (tok_balance_range _ _ _ _ Hb0). injection Hb1 as ->. lia.
Qed.

(** The streams the factory deploys are the ones the stream theorems are
    about. In the composed protocol a successful [create_stream] leaves, at the
    address it publishes, a stream in a reachable state: initialized at this
    moment with exactly the requested parties, token, rate and schedule and
    nothing withdrawn.  The stream holds at least the deposit, which covers
    the whole schedule of a bounded stream. *)
Theorem factory_deploys_reachable_streams self strict (w : World FacKey.data_key Net FacEvent.fac_event)
    (env : Env) (s r tok : Address) (d rate a b : Z) (cl : bool) (desc : option string) (sid : Z) w'
    (bal : Z) :
  fac_reach self strict w -> current_contract env = self ->
  llen (created w') + 201 <= u32_max ->
  I128 rate -> U64 a -> U64 b -> U64 (timestamp env) ->
  create_stream s r tok d rate a b cl desc env w = ROk sid w' ->
  exists stream sw,
    created w' = created w ++ [mkCreation s r stream] /\
    net_streams (w_tokens w') !! stream = Some sw /\
    (forall allowed l, reachable allowed (timestamp env) (set_tokens l sw)) /\
    w_store sw DataKey.Config = Some (init_info s r tok rate a b cl false) /\
    (0 < b -> rate * (b - a) <= d) /\
    (tok_balance (w_tokens w') tok stream = Some bal -> stream <> self -> d <= bal).
Proof.
  intros Hreach Hself Hsm Hr Ha Hb Ht H.
  assert (Hlog : logged w w') by exact (keeps_ok (Keeps0 := _) _ _ _ _ _ _ H).
  apply logged_created in Hlog.
  pose proof (reach_sound self strict w Hreach ltac:(lia)) as Hs.
  destruct (create_stream_sound self strict _ _ _ _ _ _ _ _ _ _ _ _ _ Hself Hs Hsm H)
    as (_ & w1 & cfg & HQ & _ & Hv & _ & _ & HC).
  destruct (cn_new _ _ _ _ _ _ _ _ _ _ _ _ _ _ _ _ HC) as (stream & Hc & _ & _ & h & n1 & HL & Htr).
  rewrite (q_created _ _ HQ) in Hc. destruct HL as (n0 & n0' & Hdep & Hini).
  cbn in Hdep. destruct (net_streams n0 !! _); [done|].
  destruct (net_governors n0 !! _); [done|]. injection Hdep as <- <-.
  cbn [stream_initialize net_network] in Hini. apply fmap_Some in Hini as ([[] n2] & Hini & ->).
  apply call_stream_ok in Hini as (sw & sw' & Hsw & Hm & ->).
  cbn [current_contract callee_env net_streams] in *. rewrite lookup_insert_eq in Hsw.
  injection Hsw as <-. cbn [ia_sender ia_recipient ia_token ia_rate_per_sec ia_start_time ia_end_time
    ia_clawback ia_force_cancel_pause_secs ia_is_regulated_asset ia_description] in Hm.
  set (stream := contract_id self _) in *.
  assert (Hfresh : fresh (set_tokens (net_ledger n0) (blank_stream (net_ledger n0)))) by done.
  pose proof (initialize_ok _ _ _ _ _ _ _ _ _ _ _ _ _ _ Hfresh Hr Ha Hb Hm) as (Hcfg & _).
  assert (Hheld : tok_balance (w_tokens w') tok stream = Some bal -> stream <> self -> d <= bal).
  { intros Hbal Hne. by eapply transfer_received. }
  apply net_transfer in Htr as Hled. destruct Hled as (l & Hl & Hw').
  exists stream, sw'. split; [exact Hc|]. split; [rewrite Hw'; apply lookup_insert_eq|].
  split; [|split; [exact Hcfg|split]].
  - intros allowed l'. apply reach_tokens. exact (reach_init allowed (callee_env env stream) _ _ _ _ _ _ _ _ _ _ _ _
      Hfresh Ht Hr Ha Hb Hm).
  - destruct Hv. lia.
  - exact Hheld.
Qed.
