(* ===== verification/FactoryExample.v ===== *)
(** * DripFactory: a concrete factory

    A factory on the composed protocol, with a deployed governor: Alice opens a
    stream to Bob, it is cancelled through the factory and the cancellation is
    reported again.  The factory's theorems are exercised on it. *)

From stdpp Require Import base numbers list option strings gmap.
From Stdlib Require Import ZArith Lia String.
From S2P Require Import Prelude Host Ttl Pause Frame.
From S2P Require Import GovernorData GovernorStore GovernorOps GovernorConfig GovernorExample.
From S2P Require Import StreamData StreamState StreamOps StreamSystem StreamSafety StreamExample.
From S2P Require Import FactoryData FactoryIndex FactoryIndexFacts FactoryOps FactorySystem.
From S2P Require Import FactoryRegistry FactoryCreate FactoryReach FactoryProps Protocol.

#[local] Open Scope Z_scope.
#[local] Open Scope sf_scope.
#[local] Existing Instance fac_keys.

Abbreviation FacWorld := (World FacKey.data_key Net FacEvent.fac_event).
Abbreviation FacM := (M FacKey.data_key Net FacEvent.fac_event FacError.fac_error).

Definition fac_env (t : Z) : Env := mkEnv t t factory (fun a => negb (addr_eqb a factory)).

Definition fac_net : Net :=
  mkNet (<[(usdc, alice) := 1000000]> ∅) {[gov := gov_deployed]} ∅.

Definition fac_blank : FacWorld := mkWorld empty_store empty_store empty_store fac_net [] [].

Definition fac_after {A} (m : FacM A) (t : Z) (w : FacWorld) : FacWorld :=
  (invoke m (fac_env t) w).2.
Definition fac_answer {A} (m : FacM A) (t : Z) (w : FacWorld) : Reply FacError.fac_error A :=
  (invoke m (fac_env t) w).1.

Lemma fac_ran {A} (m : FacM A) t w (r : A) :
  fac_answer m t w = Returned r -> m (fac_env t) w = ROk r (fac_after m t w).
Proof. unfold fac_answer, fac_after, invoke. destruct (m (fac_env t) w); cbn; congruence. Qed.

Definition fac_deployed : FacWorld := fac_after (FactoryOps.initialize 77 gov) 100 fac_blank.

(** 72000 units at 10 per second from 1000 to 8200, with a fee of 30 bps. *)
Definition open_stream : FacM Z :=
  create_stream alice bob usdc 72000 10 1000 8200 true None.
Definition fac_opened : FacWorld := fac_after open_stream 900 fac_deployed.

Lemma fac_reach_deployed strict : fac_reach factory strict fac_deployed.
Proof.
  apply (fr_init factory strict (fac_env 100) fac_net 77 gov); [done|].
  refine (fac_ran (FactoryOps.initialize 77 gov) 100 fac_blank tt _). reflexivity.
Qed.

Lemma fac_run_open : open_stream (fac_env 900) fac_deployed = ROk 0 fac_opened.
Proof. refine (fac_ran open_stream 900 fac_deployed 0 _). vm_compute. reflexivity. Qed.

Definition stream0 : Address := contract_id factory 0.

Lemma fac_reach_after strict t c w :
  fac_reach factory strict w -> fac_typed c -> (strict = true -> cancels_known w c) ->
  fac_answer (fac_exec c) t w = Returned tt ->
  fac_reach factory strict (fac_after (fac_exec c) t w).
Proof.
  intros Hr Ht Hk Ha.
  apply (fr_call factory strict c (fac_env t) (w_tokens w) w); [done|done|done|done|].
  replace (set_tokens (w_tokens w) w) with w by (by destruct w). by apply fac_ran.
Qed.

(** The factory after the creation, a batch cancellation of the stream, and a
    report of the same cancellation. *)
Definition open_call : fac_call := FCreateStream alice bob usdc 72000 10 1000 8200 true None.
Definition fac_opened' : FacWorld := fac_after (fac_exec open_call) 900 fac_deployed.
Definition cancel_call : fac_call := FCancelBatchStreams alice [stream0].
Definition fac_cancelled : FacWorld := fac_after (fac_exec cancel_call) 1100 fac_opened'.
Definition report_call : fac_call := FRecordCancel stream0.
Definition fac_reported : FacWorld := fac_after (fac_exec report_call) 1200 fac_cancelled.

Lemma fac_reach_opened strict : fac_reach factory strict fac_opened'.
Proof.
  apply fac_reach_after; [apply fac_reach_deployed|done|done|]. vm_compute. reflexivity.
Qed.

Lemma fac_reach_cancelled strict : fac_reach factory strict fac_cancelled.
Proof.
  apply fac_reach_after; [apply fac_reach_opened|done| |].
  - intros _. repeat constructor.
  - vm_compute. reflexivity.
Qed.

Lemma fac_reach_reported strict : fac_reach factory strict fac_reported.
Proof.
  apply fac_reach_after; [apply fac_reach_cancelled|done|done|]. vm_compute. reflexivity.
Qed.

(** ** The theorems at these worlds *)

Lemma registry_replays_the_log_witness :
  created fac_opened' = [mkCreation alice bob stream0] /\
  stream_count (fac_env 950) fac_opened' = ROk 1 fac_opened' /\
  exists w', streams_by_recipient bob 0 10 (fac_env 950) fac_opened' = ROk (mkStreamPage [0] 1) w'.
Proof.
  assert (Hc : created fac_opened' = [mkCreation alice bob stream0]) by (vm_compute; reflexivity).
  split; [exact Hc|].
  destruct (registry_replays_the_log factory true fac_opened' (fac_env 950) (fac_reach_opened true))
    as (H1 & _ & _ & _ & H2); [rewrite Hc; vm_compute; discriminate|].
  rewrite Hc in H1. split; [exact H1|].
  destruct (H2 bob 0 10 ltac:(lia) ltac:(lia)) as [_ [w' Hw]]. rewrite Hc in Hw. by exists w'.
Defined.

Lemma create_stream_is_exact_witness :
  authorized (fac_env 900) alice = true /\
  exists stream, created fac_opened = created fac_deployed ++ [mkCreation alice bob stream].
Proof.
  destruct (create_stream_is_exact factory true fac_deployed (fac_env 900) alice bob usdc 72000 10
    1000 8200 true None 0 fac_opened (fac_reach_deployed true))
    as (Ha & _ & g & cfg & stream & _ & _ & _ & _ & Hc & _).
  - reflexivity.
  - vm_compute. discriminate.
  - exact fac_run_open.
  - split; [exact Ha|]. by exists stream.
Defined.

Lemma aggregate_counts_streams_witness :
  aggregate (fac_env 1300) fac_reported = ROk (mkAggregate 1 0) fac_reported.
Proof.
  destruct (aggregate_counts_streams factory fac_reported (fac_env 1300) (fac_reach_reported true))
    as [H _]; [vm_compute; discriminate|].
  replace (mkAggregate 1 0) with (mkAggregate (llen (created fac_reported)) (live fac_reported))
    by (vm_compute; reflexivity). exact H.
Defined.

Definition hash_call : fac_call := FUpgradeStreamWasm 78.

(** The governor's own signature. *)
Definition gov_signs (t : Z) : Env := mkEnv t t factory (fun a => addr_eqb a gov).

Lemma settings_follow_the_governor_witness :
  exists w', fac_exec hash_call (gov_signs 950) fac_opened' = ROk tt w' /\
    w_store w' FacKey.GovernorAddress = Some gov.
Proof.
  set (w' := (invoke (fac_exec hash_call) (gov_signs 950) fac_opened').2).
  assert (Hr : fac_exec hash_call (gov_signs 950) fac_opened' = ROk tt w').
  { assert (Ha : (invoke (fac_exec hash_call) (gov_signs 950) fac_opened').1 = Returned tt)
      by (vm_compute; reflexivity).
    unfold w', invoke in *. destruct (fac_exec hash_call (gov_signs 950) fac_opened'); cbn in *; congruence. }
  exists w'. split; [exact Hr|].
  destruct (settings_follow_the_governor factory true fac_opened' hash_call (gov_signs 950) tt w'
    (fac_reach_opened true)) as [H _]; [vm_compute; discriminate|exact Hr|].
  rewrite H. vm_compute. reflexivity.
Defined.

Definition fac_paused : FacWorld := (invoke (fac_exec FPause) (gov_signs 950) fac_opened').2.

Lemma fac_run_paused :
  fac_exec (FStreamCountBySender alice) (fac_env 960) fac_paused =
  ROk tt (fac_after (fac_exec (FStreamCountBySender alice)) 960 fac_paused).
Proof.
  refine (fac_ran (fac_exec (FStreamCountBySender alice)) 960 fac_paused tt _).
  vm_compute. reflexivity.
Qed.

Lemma paused_factory_creates_nothing_witness :
  halted (fac_env 960) fac_paused = true /\
  created (fac_after (fac_exec (FStreamCountBySender alice)) 960 fac_paused) = created fac_paused.
Proof.
  assert (Hh : halted (fac_env 960) fac_paused = true) by (vm_compute; reflexivity).
  split; [exact Hh|].
  exact (proj2 (paused_factory_creates_nothing (FStreamCountBySender alice) (fac_env 960) fac_paused
                  tt _ Hh fac_run_paused)).
Defined.

Lemma walker_covers_every_stream_witness :
  exists w' l, maintenance 1 (fac_env 950) fac_opened' = ROk tt w' /\
    w_ttl w' = w_ttl fac_opened' ++ l /\
    (Some (FacKey.StreamAddr 0), MIN_TTL_LEDGERS, EXTEND_TTL_LEDGERS) ∈ l.
Proof.
  assert (Hn : llen (created fac_opened') = 1) by (vm_compute; reflexivity).
  destruct (walker_covers_every_stream factory true fac_opened' (fac_env 950) 1
    (fac_reach_opened true)) as (w' & l & H1 & H2 & H3).
  - rewrite Hn. vm_compute. discriminate.
  - rewrite Hn. vm_compute. split; discriminate.
  - rewrite Hn. lia.
  - exists w', l. split; [exact H1|]. split; [exact H2|]. apply H3. rewrite Hn. lia.
Defined.

Lemma accepted_request_initializes_witness :
  exists c, Governor.config (gov_env 500) gov_deployed = ROk c gov_deployed /\
  exists u w, StreamOps.initialize alice bob usdc 10 1000 8200 true (gc_force_cancel_pause_secs c)
    false None (env_at 900) ex_blank = ROk u w.
Proof.
  destruct (configuration_always_valid gov 100 gov_deployed (gov_env 500) gov_reach_deployed)
    as (c & Hc & HV).
  exists c. split; [exact Hc|].
  assert (Hcfg : match Governor.config (gov_env 500) gov_deployed with ROk x _ => x = c | _ => False end)
    by (by rewrite Hc).
  vm_compute in Hcfg. subst c.
  apply (accepted_request_initializes alice bob usdc 72000 10 1000 8200 true None _ (env_at 900) ex_blank).
  - constructor; cbn; try done; try lia; right; unfold MIN_STREAM_DURATION; munfold; lia.
  - vm_compute. reflexivity.
  - exact HV.
  - vm_compute. discriminate.
  - exact I.
  - mlia.
  - mlia.
  - mlia.
  - vm_compute. split; discriminate.
  - reflexivity.
  - left. lia.
Defined.

Lemma factory_deploys_reachable_streams_witness :
  exists stream sw, created fac_opened = created fac_deployed ++ [mkCreation alice bob stream] /\
    net_streams (w_tokens fac_opened) !! stream = Some sw /\
    w_store sw DataKey.Config = Some (init_info alice bob usdc 10 1000 8200 true false).
Proof.
  destruct (factory_deploys_reachable_streams factory true fac_deployed (fac_env 900) alice bob usdc
    72000 10 1000 8200 true None 0 fac_opened 72000 (fac_reach_deployed true))
    as (stream & sw & H1 & H2 & _ & H3 & _).
  - reflexivity.
  - vm_compute. discriminate.
  - mlia.
  - mlia.
  - mlia.
  - vm_compute. split; discriminate.
  - exact fac_run_open.
  - exists stream, sw. split; [exact H1|]. split; [exact H2|exact H3].
Defined.

(** An index that starts as a legacy vector of 150 ids: three appends, one of
    which finds the migration still under way, and a page across the boundary. *)
Definition legacy_ids : list Z := seqZ 0 150.
Definition fac_legacy : FacWorld :=
  put_persist (FacKey.BySender alice) (Some legacy_ids) fac_blank.
Definition index_ops : list index_op := [Append 500; Append 501; Migrate 5; Append 502].

Lemma fac_legacy_holds : sender_index legacy_ids alice fac_legacy.
Proof.
  exists (mkView None (Some legacy_ids) None None (fun _ => None)). split.
  - by constructor.
  - left. by constructor.
Qed.

Lemma index_refines_list_witness :
  exists w' w'',
    (index_run (FacKey.BySenderCount alice) (FacKey.BySender alice)
      (FacKey.BySenderMigrationCursor alice) (FacKey.BySenderLegacyCount alice)
      (FacKey.BySenderPage alice) index_ops : FacM unit) (fac_env 10) fac_legacy = ROk tt w' /\
    (streams_by_sender alice 148 10 : FacM StreamPage) (fac_env 10) w' =
      ROk (mkStreamPage [148; 149; 500; 501; 502] 153) w''.
Proof.
  destruct (index_refines_list (E := FacError.fac_error) (FacKey.BySenderCount alice)
    (FacKey.BySender alice) (FacKey.BySenderMigrationCursor alice)
    (FacKey.BySenderLegacyCount alice) (FacKey.BySenderPage alice) legacy_ids index_ops (fac_env 10)
    fac_legacy 148 10 fac_legacy_holds) as (w' & w'' & H1 & H2).
  - repeat constructor; cbn; lia.
  - vm_compute. discriminate.
  - lia.
  - lia.
  - exists w', w''. split; [exact H1|]. exact H2.
Defined.

(** ** Observed defects *)

(** A stream this factory did not deploy, cancelled by its own sender through
    [cancel_batch_streams], is counted out of [active_streams]: Alice's only
    stream here is live, and the factory reports none. *)
Definition with_foreign (n : Net) : Net :=
  mkNet (<[(usdc, stream_addr) := 10000]> (net_ledger n)) (net_governors n)
    (<[stream_addr := ex_stream]> (net_streams n)).

Lemma foreign_cancel_counts_down :
  let w := set_tokens (with_foreign (w_tokens fac_opened')) fac_opened' in
  known w stream_addr = false /\
  exists w', cancel_batch_streams alice [stream_addr] (fac_env 1100) w = ROk tt w' /\
    aggregate (fac_env 1100) w' = ROk (mkAggregate 1 0) w' /\ recorded w' stream0 = false.
Proof.
  cbv zeta. split; [vm_compute; reflexivity|]. eexists. split; [|split].
  - refine (fac_ran (cancel_batch_streams alice [stream_addr]) 1100 _ tt _). vm_compute. reflexivity.
  - unfold aggregate. erewrite bind_run by reflexivity. by vm_compute.
  - vm_compute. reflexivity.
Qed.

(** The per-token counter is read but never written: after a stream in USDC the
    factory still answers zero. *)
Lemma token_count_is_never_written :
  fac_answer (deployed_stream_count_by_token usdc) 950 fac_opened' = Returned 0 /\
  fac_answer stream_count 950 fac_opened' = Returned 1.
Proof. split; [vm_compute; reflexivity|vm_compute; reflexivity]. Qed.
