(* ===== verification/OracleData.v ===== *)
(** * TwapOracle: data ([contracts/oracle/src/lib.rs])

    The error enum, the roles, the configuration and price records, the storage
    keys with the type each one stores, and the published events. *)

From stdpp Require Import base numbers list option strings.
From Stdlib Require Import ZArith Lia String.
From S2P Require Import Prelude Host Pause Rbac.

#[local] Open Scope Z_scope.

(** ** Errors (the enum of lib.rs; errors.rs is not part of the crate) *)

Module OracleError.

Inductive oracle_error : Type :=
| OracleStalePrice
| OracleNotConfigured
| InvalidPrice
| OracleLocked
| CalculationOverflow
| NotAuthorized
| AlreadyInitialized
| NoPriceAvailable
| ArithmeticOverflow
| InvalidDecimals
| ContractPaused
| AlreadyPaused
| NotPaused
| LastAdmin
| InvalidMaxStaleness
| TooManySubmitters
| PriceExceedsMaxPrice
| SubmitTooSoon
| InvalidMinSubmitters
| InsufficientQuorum
| InvalidWasmHash
| PriceNotFound
| TooManyPairReporters
| StalePriceFeed
| ExcessivePriceDeviation
| PriceDeviationExceeded
| FallbackOracleFailed
| InvalidHeartbeatTimeout
| InvalidObservationCount
| OracleDeviationTooHigh
| InvalidRoleExpiration.

(** [e as u32] *)
Definition code (e : oracle_error) : Z :=
  match e with
  | OracleStalePrice => 1001
  | OracleNotConfigured => 1002
  | InvalidPrice => 1003
  | OracleLocked => 1004
  | CalculationOverflow => 1005
  | NotAuthorized => 1006
  | AlreadyInitialized => 1007
  | NoPriceAvailable => 1008
  | ArithmeticOverflow => 1009
  | InvalidDecimals => 1010
  | ContractPaused => 1011
  | AlreadyPaused => 1012
  | NotPaused => 1013
  | LastAdmin => 1014
  | InvalidMaxStaleness => 1015
  | TooManySubmitters => 1016
  | PriceExceedsMaxPrice => 1017
  | SubmitTooSoon => 1018
  | InvalidMinSubmitters => 1019
  | InsufficientQuorum => 1020
  | InvalidWasmHash => 1021
  | PriceNotFound => 1022
  | TooManyPairReporters => 1023
  | StalePriceFeed => 1024
  | ExcessivePriceDeviation => 1025
  | PriceDeviationExceeded => 1026
  | FallbackOracleFailed => 1027
  | InvalidHeartbeatTimeout => 1028
  | InvalidObservationCount => 1029
  | OracleDeviationTooHigh => 24
  | InvalidRoleExpiration => 1031
  end.

End OracleError.

#[export] Instance oracle_error_eq_dec : EqDecision OracleError.oracle_error.
Proof. solve_decision. Defined.

(** ** Roles *)

Module OracleRole.
Inductive oracle_role : Type := Admin | PriceFeeder | Pauser.
End OracleRole.

#[export] Instance oracle_role_eq_dec : EqDecision OracleRole.oracle_role.
Proof. solve_decision. Defined.

(** What a role key may hold: an assignment, or a legacy boolean. *)
Inductive RoleCell :=
| RoleBool (b : bool)
| RoleGrant (a : RoleAssignment).

(** ** Configuration and prices *)

Definition PRICE_PRECISION : Z := 100000000.
Definition MAX_SUBMITTERS : Z := 32.
Definition MAX_TWAP_OBSERVATIONS : Z := 32.
Definition MAX_PAIR_REPORTERS : Z := 5.
Definition PAIR_REPORT_FRESHNESS_SECS : Z := 15 * 60.

(** A [Symbol] is read as its text. *)
Definition Symbol : Type := string.

Record AssetOracleConfig := mkAssetOracleConfig { heartbeat_timeout_seconds : Z }.

Record OracleConfig := mkOracleConfig {
  decimals : Z;
  asset_peg : Z;
  max_staleness : Z;
  max_price : Z;
  min_submit_interval : Z;
  min_submitters : Z
}.

Record OracleConfigUpdate := mkOracleConfigUpdate {
  u_decimals : option Z;
  u_asset_peg : option Z;
  u_max_staleness : option Z;
  u_max_price : option Z;
  u_min_submit_interval : option Z;
  u_min_submitters : option Z;
  u_quote_currency : option Symbol;
  u_max_deviation_bps : option Z
}.

Record PriceData := mkPriceData { price : Z; updated_at : Z }.

Record PriceObservation := mkPriceObservation { po_price : Z; po_timestamp : Z }.

Record PairPriceData := mkPairPriceData { pp_price : Z; pp_updated_at : Z }.

Record PriceStatus := mkPriceStatus {
  fresh_submitter_count : Z;
  st_min_submitters : Z;
  newest_age : Z;
  oldest_fresh_age : Z;
  stale : bool
}.

(** ** Storage keys

    [OLock] is the entry under the symbol [O_Lock] that the re-entrancy guard
    uses; it is not a variant of [DataKey]. *)

Module OKey.

Inductive data_key : Type :=
| Admin
| Config
| QuoteCurrency
| Price
| Role (role : OracleRole.oracle_role) (account : Address)  (** [Role(RoleKey { role, account })] *)
| AdminCount
| Paused
| Submission (feeder : Address)
| Submitters
| RoleMembers (role : OracleRole.oracle_role)
| PairPrice (base quote : Address)
| PairSubmission (base quote reporter : Address)
| PairReporters (base quote : Address)
| PairPriceSymbol (base quote : Symbol)
| PairSymbolSubmission (base quote : Symbol) (reporter : Address)
| PairSymbolReporters (base quote : Symbol)
| MaxStalenessSeconds
| MaxDeviationBps
| PrimaryOracle
| FallbackOracle
| StellarAssetStalenessSecs
| AssetOracleConfig (token : Address)
| PriceObservations
| OLock.

End OKey.

#[export] Instance oracle_key_eq_dec : EqDecision OKey.data_key.
Proof. solve_decision. Defined.

(** The type of the value each key stores. *)
Definition oracle_key_val (k : OKey.data_key) : Type :=
  match k with
  | OKey.Admin | OKey.PrimaryOracle | OKey.FallbackOracle => Address
  | OKey.Config => OracleConfig
  | OKey.QuoteCurrency => Symbol
  | OKey.Price | OKey.Submission _ => PriceData
  | OKey.Role _ _ => RoleCell
  | OKey.Paused => PauseCell
  | OKey.Submitters | OKey.RoleMembers _ | OKey.PairReporters _ _
  | OKey.PairSymbolReporters _ _ => list Address
  | OKey.PairSubmission _ _ _ | OKey.PairSymbolSubmission _ _ _ => PairPriceData
  | OKey.AssetOracleConfig _ => AssetOracleConfig
  | OKey.PriceObservations => list PriceObservation
  | OKey.AdminCount | OKey.PairPrice _ _ | OKey.PairPriceSymbol _ _ | OKey.MaxStalenessSeconds
  | OKey.MaxDeviationBps | OKey.StellarAssetStalenessSecs | OKey.OLock => Z
  end.

#[export] Instance oracle_keys : StorageKeys OKey.data_key := {
  key_eq_dec := oracle_key_eq_dec;
  key_val := oracle_key_val
}.

#[export] Instance oracle_paused_bool : Stored bool OKey.Paused.
Proof.
  refine {| into_val := (fun b => PauseBool b : key_val OKey.Paused);
            try_from_val := (fun c : key_val OKey.Paused =>
              match c with PauseBool b => Some b | PauseRecord _ => None end) |}.
  done.
Defined.

#[export] Instance oracle_paused_state : Stored PauseState OKey.Paused.
Proof.
  refine {| into_val := (fun s => PauseRecord s : key_val OKey.Paused);
            try_from_val := (fun c : key_val OKey.Paused =>
              match c with PauseBool _ => None | PauseRecord s => Some s end) |}.
  done.
Defined.

#[export] Instance oracle_paused_key : PauseKey OKey.Paused.
Proof. by refine {| pause_bool := _; pause_state := _ |}. Defined.

#[export] Instance oracle_role_assignment r a : Stored RoleAssignment (OKey.Role r a).
Proof.
  refine {| into_val := (fun x => RoleGrant x : key_val (OKey.Role r a));
            try_from_val := (fun c : key_val (OKey.Role r a) =>
              match c with RoleGrant x => Some x | RoleBool _ => None end) |}.
  done.
Defined.

#[export] Instance oracle_role_bool r a : Stored bool (OKey.Role r a).
Proof.
  refine {| into_val := (fun b => RoleBool b : key_val (OKey.Role r a));
            try_from_val := (fun c : key_val (OKey.Role r a) =>
              match c with RoleBool b => Some b | RoleGrant _ => None end) |}.
  done.
Defined.

#[export] Instance oracle_role_key r a : RoleKey (OKey.Role r a).
Proof. by refine {| role_assignment := _; role_bool := _ |}. Defined.

#[export] Instance oracle_admin_count : Stored Z OKey.AdminCount.
Proof.
  refine {| into_val := (fun z => z : key_val OKey.AdminCount);
            try_from_val := (fun z : key_val OKey.AdminCount => Some z) |}.
  done.
Defined.

#[export] Instance oracle_role_members r : Stored (list Address) (OKey.RoleMembers r).
Proof.
  refine {| into_val := (fun l => l : key_val (OKey.RoleMembers r));
            try_from_val := (fun l : key_val (OKey.RoleMembers r) => Some l) |}.
  done.
Defined.

(** The keys of each role are laid out as the role library expects. *)
#[export] Instance oracle_role_layout r :
  RoleLayout (OKey.Role r) OKey.AdminCount (OKey.RoleMembers r).
Proof. constructor; try apply _; congruence. Defined.

(** ** Events *)

Module OEvent.

Inductive oracle_event : Type :=
| grant (caller : Address) (role : OracleRole.oracle_role) (account : Address)
| revoke (caller : Address) (role : OracleRole.oracle_role) (account : Address)
| paused (caller : Address) (paused_at : Z)
| unpaused (caller : Address) (resumed_at : Z)
| adm_xfer (old_admin new_admin : Address)
| upgraded (caller : Address) (upgraded_at : Z)
| priced (caller : Address) (price timestamp : Z)
| ocfg (caller : Address) (config : OracleConfig)
| qcurr (caller : Address) (currency : Symbol)
| rej (caller : Address) (price : Z) (reason : Symbol)
| role_revoked (e : RoleRevokedEvent)
| WasmReplaced (hash : Z).

End OEvent.

#[export] Instance oracle_emits : Emits RoleRevokedEvent OEvent.oracle_event :=
  {| inject := OEvent.role_revoked |}.
