(* ===== verification/OracleMedian.v ===== *)
(** * Medians ([median] and [median_u128] of contracts/oracle/src/lib.rs)

    The two medians over an in-place insertion sort, and what they compute: the
    sort returns the sorted permutation, the median is the middle order
    statistic or the floor of the average of the two middle ones, and values
    reported by a minority cannot push it outside the range of the others. *)

From stdpp Require Import base numbers list option sets sorting.
From Stdlib Require Import ZArith Lia.
From S2P Require Import Prelude.

#[local] Open Scope Z_scope.

(** ** The code

    [None] is the panic of [get(_).unwrap()] out of range. *)

(** The inner loop: shift the larger entries before [j] one place up, and put
    [key] in the hole. *)
Fixpoint sift (key : Z) (j : nat) (sorted : list Z) : option (list Z) :=
  match j with
  | O => Some (<[O := key]> sorted)
  | S j' =>
      match sorted !! j' with
      | None => None
      | Some prev =>
          if key <? prev then sift key j' (<[j := prev]> sorted)
          else Some (<[j := key]> sorted)
      end
  end.

(** The outer loop, for [n] more entries from index [i]. *)
Fixpoint insertion_sort (n i : nat) (sorted : list Z) : option (list Z) :=
  match n with
  | O => Some sorted
  | S n' =>
      match sorted !! i with
      | None => None
      | Some key =>
          match sift key i sorted with
          | None => None
          | Some sorted' => insertion_sort n' (S i) sorted'
          end
      end
  end.

(** The entry in the middle, or [average] of the two. *)
Definition middle (average : Z -> Z -> Z) (sorted : list Z) : option Z :=
  let len := List.length sorted in
  let mid := Nat.div2 len in
  if Nat.even len then
    match sorted !! (mid - 1)%nat, sorted !! mid with
    | Some a, Some b => Some (average a b)
    | _, _ => None
    end
  else sorted !! mid.

(** [((a + b) / 2) as u64], computed in [u128] *)
Definition average_u64 (a b : Z) : Z := (a + b) / 2.

(** The average that cannot overflow. *)
Definition sat_u128 (z : Z) : Z := clamp 0 u128_max z.
Definition average_u128 (a b : Z) : Z :=
  sat_u128 (sat_u128 (a / 2 + b / 2) + (a mod 2 + b mod 2) / 2).

Definition median (prices : list Z) : option Z :=
  match insertion_sort (List.length prices - 1) 1 prices with
  | Some sorted => middle average_u64 sorted
  | None => None
  end.

Definition median_u128 (values : list Z) : option Z :=
  match insertion_sort (List.length values - 1) 1 values with
  | Some sorted => middle average_u128 sorted
  | None => None
  end.

(** ** The sort *)

Lemma insert_after (pre : list Z) x y post :
  <[List.length pre := y]> (pre ++ x :: post) = pre ++ y :: post.
Proof. rewrite insert_app_r_alt by done. by rewrite Nat.sub_diag. Qed.

(** Sifting into the hole after [pre] inserts [key] in [pre]. *)
Lemma sift_inserts key pre : forall x post,
  exists l, sift key (List.length pre) (pre ++ x :: post) = Some (l ++ post) /\
    l ≡ₚ key :: pre /\ (StronglySorted Z.le pre -> StronglySorted Z.le l).
Proof.
  induction pre as [|p pre IH] using rev_ind; intros x post.
  - exists [key]. split; [done|]. split; [done|]. intros _. repeat constructor.
  - rewrite length_app, Nat.add_1_r. cbn [sift].
    rewrite <- app_assoc. cbn [app]. rewrite lookup_app_r, Nat.sub_diag by done. cbn [lookup list_lookup].
    replace (pre ++ p :: x :: post) with ((pre ++ [p]) ++ x :: post) by by rewrite <- app_assoc.
    replace (S (List.length pre)) with (List.length (pre ++ [p])) by (rewrite length_app; cbn; lia).
    rewrite !insert_after, <- app_assoc. cbn [app].
    destruct (Z.ltb_spec key p) as [Hlt|Hge].
    + destruct (IH p (p :: post)) as (l & -> & Hp & Hs). exists (l ++ [p]).
      split; [by rewrite <- app_assoc|]. split; [by rewrite Hp|].
      intros Hsp. apply StronglySorted_app in Hsp as (Hle & Hs1 & _).
      apply StronglySorted_app_2; [|by apply Hs|repeat constructor].
      intros a b Ha ->%list_elem_of_singleton. rewrite Hp in Ha.
      apply elem_of_cons in Ha as [Ha|Ha]; [subst a; lia|]. apply (Hle a p); [done|]. by apply list_elem_of_singleton.
    + exists (pre ++ [p; key]). split; [by rewrite <- !app_assoc|].
      split; [by rewrite (Permutation_app_comm pre [p]), (Permutation_app_comm pre [p; key]),
        (perm_swap p key pre) |].
      intros Hsp. pose proof Hsp as Hsp'. apply StronglySorted_app in Hsp' as (Hle & Hs1 & _).
      apply StronglySorted_app_2; [|done|repeat constructor; lia].
      intros a b Ha Hb. assert (a <= p) by (apply (Hle a p); [done|set_solver]).
      rewrite !elem_of_cons, elem_of_nil in Hb. naive_solver lia.
Qed.

Lemma insertion_sort_sorts n : forall pre post,
  List.length post = n -> StronglySorted Z.le pre ->
  exists l, insertion_sort n (List.length pre) (pre ++ post) = Some l /\
    l ≡ₚ pre ++ post /\ StronglySorted Z.le l.
Proof.
  induction n as [|n IH]; intros pre post Hn Hs.
  - apply nil_length_inv in Hn as ->. exists (pre ++ []). rewrite app_nil_r. done.
  - destruct post as [|key post]; [done|]. cbn [insertion_sort].
    rewrite lookup_app_r, Nat.sub_diag by done. cbn [lookup list_lookup].
    destruct (sift_inserts key pre key post) as (l & -> & Hp & Hl).
    destruct (IH l post) as (s & Hs1 & Hs2 & Hs3); [by injection Hn|by apply Hl|].
    rewrite (Permutation_length Hp) in Hs1. exists s. split; [done|]. split; [|done].
    rewrite Hs2, Hp. cbn. by rewrite Permutation_middle.
Qed.

(** The sort of a non-empty list. *)
Lemma sort_spec (l : list Z) :
  l <> [] -> exists s, insertion_sort (List.length l - 1) 1 l = Some s /\ s ≡ₚ l /\
    StronglySorted Z.le s.
Proof.
  destruct l as [|x l]; [done|]. intros _.
  destruct (insertion_sort_sorts (List.length l) [x] l eq_refl) as (s & H & Hs);
    [repeat constructor|].
  exists s. cbn [List.length]. rewrite Nat.sub_succ, Nat.sub_0_r. done.
Qed.

(** ** The median *)

(** [m] is a median of the sorted list [s]: the middle entry, or the floor of
    the average of the two middle entries. *)
Definition is_median (s : list Z) (m : Z) : Prop :=
  let len := List.length s in
  if Nat.even len
  then exists a b, s !! (Nat.div2 len - 1)%nat = Some a /\ s !! Nat.div2 len = Some b /\
                   m = (a + b) / 2
  else s !! Nat.div2 len = Some m.

Definition fits (hi : Z) (l : list Z) : Prop := Forall (fun x => 0 <= x <= hi) l.

Lemma div2_spec n : exists r, (r <= 1)%nat /\ n = (2 * Nat.div2 n + r)%nat /\ (Nat.even n = true <-> r = O).
Proof.
  destruct (Nat.even n) eqn:He.
  - apply Nat.even_spec in He as [k ->]. exists O. rewrite Nat.div2_double. split_and!; [lia|lia|done].
  - assert (Ho : Nat.odd n = true) by by rewrite <- Nat.negb_even, He.
    apply Nat.odd_spec in Ho as [k ->]. exists 1%nat.
    rewrite Nat.add_1_r, Nat.div2_succ_double. split_and!; [lia|lia|done].
Qed.

(** Any average that is the floor of the mean on the entries gives the median. *)
Lemma middle_spec average (s : list Z) :
  s <> [] -> (forall a b, a ∈ s -> b ∈ s -> average a b = (a + b) / 2) ->
  exists m, middle average s = Some m /\ is_median s m.
Proof.
  intros Hne Ha. unfold middle, is_median. set (len := List.length s).
  assert (Hlen : (0 < len)%nat) by (destruct s; [done|cbn in *; lia]).
  destruct (div2_spec len) as (r & Hr & Hdiv & He).
  destruct (lookup_lt_is_Some_2 s (Nat.div2 len)) as [b Hb]; [fold len; lia|].
  rewrite Hb. destruct (Nat.even len); [|by exists b].
  assert (r = O) by by apply He.
  destruct (lookup_lt_is_Some_2 s (Nat.div2 len - 1)) as [a Hl]; [fold len; lia|].
  rewrite Hl. eexists. split; [reflexivity|]. exists a, b. split_and!; [done..|].
  apply Ha; by eapply list_elem_of_lookup_2.
Qed.

Lemma average_u128_exact a b :
  0 <= a <= u128_max -> 0 <= b <= u128_max -> average_u128 a b = (a + b) / 2.
Proof.
  intros Ha Hb. unfold average_u128, sat_u128, clamp.
  pose proof (Z.div_mod a 2 ltac:(lia)). pose proof (Z.div_mod b 2 ltac:(lia)).
  pose proof (Z.mod_pos_bound a 2 ltac:(lia)). pose proof (Z.mod_pos_bound b 2 ltac:(lia)).
  assert (Hs : (a + b) / 2 = a / 2 + b / 2 + (a mod 2 + b mod 2) / 2).
  { replace (a + b) with ((a / 2 + b / 2) * 2 + (a mod 2 + b mod 2)) by lia.
    by rewrite Z.div_add_l by lia. }
  assert (0 <= (a + b) / 2 <= u128_max).
  { split; [apply Z.div_pos; lia|]. apply Z.div_le_upper_bound; lia. }
  assert (0 <= (a mod 2 + b mod 2) / 2) by (apply Z.div_pos; lia). lia.
Qed.

(** A non-empty list has a median, the one of its sorted permutation. *)
Lemma sorted_median average (l : list Z) :
  l <> [] -> (forall a b, a ∈ l -> b ∈ l -> average a b = (a + b) / 2) ->
  exists m s, s ≡ₚ l /\ StronglySorted Z.le s /\ is_median s m /\
    match insertion_sort (List.length l - 1) 1 l with
    | Some sorted => middle average sorted
    | None => None
    end = Some m.
Proof.
  intros Hne Ha. destruct (sort_spec l Hne) as (s & -> & Hp & Hs).
  assert (Hsn : s <> []) by (intros ->; by apply Permutation_nil_l in Hp).
  destruct (middle_spec average s Hsn) as (m & Hm & Hmed).
  { intros a b. rewrite Hp. apply Ha. }
  by exists m, s.
Qed.

Lemma median_spec (l : list Z) :
  l <> [] -> exists m s, s ≡ₚ l /\ StronglySorted Z.le s /\ is_median s m /\ median l = Some m.
Proof. intros Hne. by apply (sorted_median average_u64). Qed.

Lemma median_u128_spec (l : list Z) :
  l <> [] -> fits u128_max l ->
  exists m s, s ≡ₚ l /\ StronglySorted Z.le s /\ is_median s m /\ median_u128 l = Some m.
Proof.
  intros Hne Hf. apply (sorted_median average_u128); [done|]. intros a b Ha Hb.
  unfold fits in Hf. rewrite Forall_forall in Hf. apply average_u128_exact; auto.
Qed.

(** ** Resistance to a minority *)

(** How many entries lie in a range. *)
Definition inside (lo hi : Z) (l : list Z) : nat :=
  List.length (filter (fun x => lo <= x <= hi) l).

Lemma inside_perm lo hi (s l : list Z) : s ≡ₚ l -> inside lo hi s = inside lo hi l.
Proof. unfold inside. by intros ->. Qed.

Lemma inside_none lo hi (l : list Z) :
  (forall x, x ∈ l -> ~ (lo <= x <= hi)) -> inside lo hi l = O.
Proof.
  unfold inside. induction l as [|x l IH]; [done|]. intros H.
  rewrite filter_cons_False by (apply H; set_solver). apply IH. set_solver.
Qed.

Lemma inside_app lo hi (l1 l2 : list Z) : inside lo hi (l1 ++ l2) = (inside lo hi l1 + inside lo hi l2)%nat.
Proof. unfold inside. by rewrite filter_app, length_app. Qed.

Lemma inside_length lo hi (l : list Z) : (inside lo hi l <= List.length l)%nat.
Proof. apply length_filter. Qed.

(** In a sorted list whose majority lies in the range, so does entry [k] when
    at most half of the entries come before it and at most half after. *)
Lemma majority_entry lo hi (s : list Z) k x :
  StronglySorted Z.le s -> s !! k = Some x ->
  (List.length s < 2 * inside lo hi s)%nat ->
  (2 * k <= List.length s)%nat -> (List.length s <= 2 * k + 2)%nat -> lo <= x <= hi.
Proof.
  intros Hs Hk Hin Hk1 Hk2. rewrite <- (take_drop_middle s k x Hk) in Hs.
  assert (Hlen : List.length (take k s) = k).
  { rewrite length_take. apply lookup_lt_Some in Hk. lia. }
  assert (Hd : List.length (drop (S k) s) = (List.length s - S k)%nat) by apply length_drop.
  rewrite <- (take_drop_middle s k x Hk) in Hin at 2.
  rewrite inside_app in Hin. change (x :: drop (S k) s) with ([x] ++ drop (S k) s) in Hin.
  rewrite inside_app in Hin.
  apply StronglySorted_app in Hs as (Hle & _ & Hs). apply StronglySorted_inv in Hs as [_ Hge].
  rewrite Forall_forall in Hge.
  pose proof (inside_length lo hi (take k s)). pose proof (inside_length lo hi (drop (S k) s)).
  pose proof (inside_length lo hi [x] : (_ <= 1)%nat).
  destruct (Z.lt_ge_cases x lo) as [Hlt|].
  { rewrite (inside_none lo hi (take k s)) in Hin; [|intros y Hy].
    - rewrite (inside_none lo hi [x]) in Hin; [lia|]. intros y ->%list_elem_of_singleton. lia.
    - specialize (Hle y x Hy ltac:(set_solver)). lia. }
  destruct (Z.lt_ge_cases hi x) as [Hlt|]; [|lia].
  rewrite (inside_none lo hi (drop (S k) s)) in Hin; [|intros y Hy; specialize (Hge y Hy); lia].
  rewrite (inside_none lo hi [x]) in Hin; [lia|]. intros y ->%list_elem_of_singleton. lia.
Qed.

(** The median of a list whose majority lies in a range lies in it. *)
Lemma median_majority lo hi (s l : list Z) m :
  s ≡ₚ l -> StronglySorted Z.le s -> is_median s m ->
  (List.length l < 2 * inside lo hi l)%nat -> lo <= m <= hi.
Proof.
  intros Hp Hs Hm. rewrite <- (inside_perm lo hi s l Hp), <- (Permutation_length Hp).
  intros Hin. unfold is_median in Hm. destruct (div2_spec (List.length s)) as (r & Hr & Hd & He).
  destruct (Nat.even (List.length s)).
  - assert (r = O) by by apply He. destruct Hm as (a & b & Ha & Hb & ->).
    assert (0 < List.length s)%nat by (apply lookup_lt_Some in Hb; lia).
    assert (lo <= a <= hi) by (eapply (majority_entry lo hi s); [done|exact Ha|lia..]).
    assert (lo <= b <= hi) by (eapply (majority_entry lo hi s); [done|exact Hb|lia..]).
    split; [apply Z.div_le_lower_bound; lia|apply Z.div_le_upper_bound; lia].
  - eapply (majority_entry lo hi s); [done|exact Hm|lia..].
Qed.

(** C27 No minority of feeders moves the price. When more than half of the values
    lie in a range, however extreme the others are and wherever they stand, the
    median of the oracle exists and lies in that range; and so does the [u128]
    median of the pair feeds. *)
Theorem median_resists_minority lo hi (values : list Z) :
  (List.length values < 2 * inside lo hi values)%nat ->
  (exists m, median values = Some m /\ lo <= m <= hi) /\
  (fits u128_max values -> exists m, median_u128 values = Some m /\ lo <= m <= hi).
Proof.
  intros Hin. assert (Hne : values <> []) by (intros ->; cbn in Hin; lia). split.
  - destruct (median_spec values Hne) as (m & s & Hp & Hs & Hm & ->). exists m. split; [done|].
    by eapply median_majority.
  - intros Hf. destruct (median_u128_spec values Hne Hf) as (m & s & Hp & Hs & Hm & ->).
    exists m. split; [done|]. by eapply median_majority.
Qed.
