(* ===== verification/OracleOps.v ===== *)
(** * TwapOracle: operations ([contracts/oracle/src/lib.rs])

    Roles, the per-feeder submissions and their bounded history, the
    time-weighted average with its quorum and failover, the pair feeds, and
    every entry point. *)

From stdpp Require Import base numbers list option strings.
From Stdlib Require Import ZArith Lia String.
From S2P Require Import Prelude Host Ttl Pause Rbac OracleData OracleMedian.
Import OracleError.

#[local] Open Scope Z_scope.
#[local] Open Scope sf_scope.

(** The external oracle contracts a feed address may name: the answers of
    [get_twap_price] and [latest_price] in an environment, with the state the
    call leaves; [None] when the call failed. *)
Class FeedClient (T : Type) := {
  feed_get_twap_price : Env -> T -> Address -> option (Z * T);
  feed_latest_price : Env -> T -> Address -> option (PriceData * T)
}.

(** [a.checked_div(b)] *)
Definition checked_div (a b : Z) : option Z := if b =? 0 then None else Some (a / b).

(** [abs_diff] *)
Definition abs_diff (a b : Z) : Z := Z.abs (a - b).

Section Oracle.
Context {T : Type} `{FC : FeedClient T}.
Abbreviation OM := (M OKey.data_key T OEvent.oracle_event oracle_error).
Implicit Types (caller account feeder reporter token : Address) (role : OracleRole.oracle_role).

(** ** Roles *)

Definition is_admin role : bool := bool_decide (role = OracleRole.Admin).

Definition has_role role account : OM bool := Rbac.has_role (OKey.Role role account).

(** The loop that keeps the members whose assignment has not expired. *)
Fixpoint active_members role (all_members active : list Address) : OM (list Address) :=
  match all_members with
  | [] => ret active
  | account :: rest =>
      let! held := has_role role account in
      active_members role rest (if held then active ++ [account] else active)
  end.

Definition role_members role : OM (list Address) :=
  let! all_members := Rbac.role_members (OKey.RoleMembers role) in
  active_members role all_members [].

Definition grant_role_inner role account : OM bool :=
  Rbac.grant (OKey.Role role account) OKey.AdminCount (OKey.RoleMembers role)
    (is_admin role) account.

Definition grant_role_with_expiration_inner role account (expires_at : option Z) : OM bool :=
  Rbac.grant_with_expiration (OKey.Role role account) OKey.AdminCount (OKey.RoleMembers role)
    (is_admin role) account expires_at.

Definition rbac_error (e : RbacError) : oracle_error :=
  match e with
  | Rbac.LastAdmin => LastAdmin
  | Rbac.NotAuthorized => NotAuthorized
  end.

Definition require_role caller role : OM unit :=
  do! require_auth caller;
  let! held := has_role role caller in
  if held then ret tt else throw NotAuthorized.

Definition require_role_or_admin caller role : OM unit :=
  map_err (fun _ => NotAuthorized)
    (Rbac.require_role_or_admin caller (OKey.Role role caller)
       (OKey.Role OracleRole.Admin caller) None).

(** ** Pause *)

Definition is_paused : OM bool := Pause.is_paused OKey.Paused.
Definition set_paused (paused : bool) : OM unit :=
  ignore_result (Pause.set_paused OKey.Paused paused).
Definition require_not_paused : OM unit :=
  map_err (fun _ => ContractPaused) (Pause.require_not_paused OKey.Paused).

(** ** The re-entrancy guard *)

Definition MAX_REENTRANCY_DEPTH : Z := 1.

Definition with_guard {R} (f : OM R) : OM R :=
  let! held := sget OKey.OLock in
  let depth := default 0 held in
  do! throw_if (MAX_REENTRANCY_DEPTH <=? depth) OracleLocked;
  let! depth' := u32_op (depth + 1) in
  do! sset OKey.OLock depth';
  let! result := attempt f in
  let! left := sget OKey.OLock in
  let d := default 1 left in
  do! (if 0 <? d then sset OKey.OLock (d - 1) else ret tt);
  match result with inr r => ret r | inl e => throw e end.

(** ** Submissions *)

Definition submitters : OM (list Address) :=
  let! stored := pget OKey.Submitters in ret (default [] stored).

(** [for existing in submitters.iter() { if existing == *account { return } }] *)
Definition tracked account (l : list Address) : bool :=
  existsb (fun existing => addr_eqb existing account) l.

Definition add_submitter account : OM unit :=
  let! l := submitters in
  if tracked account l then bump_persistent OKey.Submitters
  else
    do! throw_if (MAX_SUBMITTERS <=? Z.of_nat (List.length l)) TooManySubmitters;
    do! pset OKey.Submitters (l ++ [account]);
    bump_persistent OKey.Submitters.

(** The loop over the submissions: the fresh non-zero prices in order, and
    whether there was any submission. *)
Fixpoint collect_fresh (feeders : list Address) (now max_staleness : Z) (fresh : list Z)
    (saw_any : bool) : OM (list Z * bool) :=
  match feeders with
  | [] => ret (fresh, saw_any)
  | feeder :: rest =>
      let! submission := pget (OKey.Submission feeder) in
      match submission with
      | Some data =>
          let age := sat_u64 (now - updated_at data) in
          if (age <=? max_staleness) && negb (price data =? 0)
          then collect_fresh rest now max_staleness (fresh ++ [price data]) true
          else collect_fresh rest now max_staleness fresh true
      | None => collect_fresh rest now max_staleness fresh saw_any
      end
  end.

Definition current_submission_median (fallback_price now : Z) : OM Z :=
  let! stored := sget OKey.Config in
  match stored with
  | None => ret fallback_price
  | Some config =>
      let! l := submitters in
      let! r := collect_fresh l now (max_staleness config) [] false in
      match fst r with
      | [] => ret fallback_price
      | fresh => unwrap (median fresh)
      end
  end.

(** The loop over the feeders for the most recent submission. *)
Fixpoint latest_submission (feeders : list Address) (latest : option PriceData)
  : OM (option PriceData) :=
  match feeders with
  | [] => ret latest
  | feeder :: rest =>
      let! submission := pget (OKey.Submission feeder) in
      latest_submission rest
        match submission with
        | None => latest
        | Some data =>
            match latest with
            | None => Some data
            | Some cur => if updated_at cur <? updated_at data then Some data else latest
            end
        end
  end.

Definition remove_submitter account : OM unit :=
  do! premove (OKey.Submission account);
  let! l := submitters in
  let updated := without account l in
  if tracked account l then
    match updated with
    | [] =>
        do! premove OKey.Submitters;
        sremove OKey.Price
    | _ =>
        do! pset OKey.Submitters updated;
        do! bump_persistent OKey.Submitters;
        let! latest := latest_submission updated None in
        match latest with
        | Some latest_price => sset OKey.Price latest_price
        | None => sremove OKey.Price
        end
    end
  else ret tt.

Definition revoke_role_inner role account : OM bool :=
  let! removed :=
    map_err rbac_error
      (Rbac.revoke (OKey.Role role account) OKey.AdminCount (OKey.RoleMembers role)
         (is_admin role) account) in
  do! (if removed && bool_decide (role = OracleRole.PriceFeeder)
       then remove_submitter account else ret tt);
  ret removed.

(** ** The observation history *)

Definition record_price_observation (price timestamp : Z) : OM unit :=
  let! stored := pget OKey.PriceObservations in
  let observations : list PriceObservation := default [] stored in
  let observation := mkPriceObservation price timestamp in
  let append :=
    let retained :=
      if Z.of_nat (List.length observations) =? MAX_TWAP_OBSERVATIONS
      then drop 1 observations else observations in
    do! pset OKey.PriceObservations (retained ++ [observation]);
    bump_persistent OKey.PriceObservations in
  match last observations with
  | Some latest =>
      do! throw_if (timestamp <? po_timestamp latest) StalePriceFeed;
      if po_timestamp latest =? timestamp then
        do! pset OKey.PriceObservations
              (<[(List.length observations - 1)%nat := observation]> observations);
        bump_persistent OKey.PriceObservations
      else append
  | None => append
  end.

(** The loop of [calculate_twap], for [n] more entries from [index]. *)
Fixpoint weigh (observations : list PriceObservation) (now max_staleness : Z)
    (n index : nat) (weighted_price total_duration : Z) : OM (Z * Z) :=
  match n with
  | O => ret (weighted_price, total_duration)
  | S n' =>
      let! observation := unwrap (observations !! index) in
      let next_timestamp :=
        match observations !! S index with Some o => po_timestamp o | None => now end in
      let valid_until :=
        Z.min (Z.min next_timestamp now) (sat_u64 (po_timestamp observation + max_staleness)) in
      let duration := sat_u64 (valid_until - po_timestamp observation) in
      let! product := ok_or (checked_u128 (po_price observation * duration)) ArithmeticOverflow in
      let! weighted := ok_or (checked_u128 (weighted_price + product)) ArithmeticOverflow in
      let! total := ok_or (checked_u64 (total_duration + duration)) ArithmeticOverflow in
      weigh observations now max_staleness n' (S index) weighted total
  end.

Definition calculate_twap (observation_count max_staleness : Z) : OM Z :=
  let! stored := pget OKey.PriceObservations in
  let observations : list PriceObservation := default [] stored in
  let len := Z.of_nat (List.length observations) in
  do! throw_if (len =? 0) NoPriceAvailable;
  let first := Z.to_nat (sat_u32 (len - observation_count)) in
  let! now := ledger_timestamp in
  let! r := weigh observations now max_staleness (List.length observations - first) first 0 0 in
  let '(weighted_price, total_duration) := r in
  do! throw_if (total_duration =? 0) NoPriceAvailable;
  let price := weighted_price / total_duration in
  do! throw_if (u64_max <? price) ArithmeticOverflow;
  ret price.

(** [match calculate_twap(..) { Err(NoPriceAvailable) => fallback, r => r }] *)
Definition twap_or (observation_count max_staleness : Z) (fallback : OM Z) : OM Z :=
  let! r := attempt (calculate_twap observation_count max_staleness) in
  match r with
  | inr twap => ret twap
  | inl NoPriceAvailable => fallback
  | inl e => throw e
  end.

Definition record_and_calculate_twap (price timestamp observation_count max_staleness : Z)
  : OM Z :=
  do! record_price_observation price timestamp;
  twap_or observation_count max_staleness (ret price).

(** ** External feeds and failover *)

(** [env.try_invoke_contract(feed, ..)]: a failed call leaves nothing behind. *)
Definition try_feed {A} (call : T -> option (A * T)) : OM (option A) :=
  fun _ w => match call (w_tokens w) with
             | Some (a, t') => ROk (Some a) (set_tokens t' w)
             | None => ROk None w
             end.

(** The endpoints of an external feed, tried in turn. *)
Definition query_latest (feed : Address) (now max_staleness : Z) : OM PriceData :=
  let! latest_res := (fun env => try_feed (fun t => feed_latest_price env t feed) env) in
  match latest_res with
  | Some data =>
      if (0 <? price data) &&
         ((max_staleness =? 0) || (sat_u64 (now - updated_at data) <=? max_staleness))
      then ret data else throw NoPriceAvailable
  | None => throw NoPriceAvailable
  end.

Definition query_external (feed : Address) (now max_staleness : Z) : OM PriceData :=
  let! twap_res := (fun env => try_feed (fun t => feed_get_twap_price env t feed) env) in
  match twap_res with
  | Some p =>
      if 0 <? p then ret (mkPriceData p now) else query_latest feed now max_staleness
  | None => query_latest feed now max_staleness
  end.

Definition query_oracle_feed (feed : Address) (max_staleness : Z) : OM PriceData :=
  let! now := ledger_timestamp in
  let! submission := pget (OKey.Submission feed) in
  match submission with
  | Some data =>
      do! throw_if (price data =? 0) InvalidPrice;
      do! throw_if ((0 <? max_staleness) &&
                    (max_staleness <? sat_u64 (now - updated_at data))) OracleStalePrice;
      ret data
  | None =>
      let! self := contract_address in
      if addr_eqb feed self then throw NoPriceAvailable
      else query_external feed now max_staleness
  end.

(** [if let Some(fallback) { if let Ok(data) = .. { return Ok(data) } } Err(primary_err)] *)
Definition query_fallback (fallback : option Address) (max_staleness : Z)
    (primary_err : oracle_error) : OM PriceData :=
  match fallback with
  | Some fallback_addr =>
      let! r := attempt (query_oracle_feed fallback_addr max_staleness) in
      match r with inr data => ret data | inl _ => throw primary_err end
  | None => throw primary_err
  end.

Definition resolve_oracle_with_failover (max_staleness : Z) : OM PriceData :=
  let! primary := sget OKey.PrimaryOracle in
  let! fallback := sget OKey.FallbackOracle in
  match primary with
  | Some primary_addr =>
      let! r := attempt (query_oracle_feed primary_addr max_staleness) in
      match r with
      | inr data => ret data
      | inl err => query_fallback fallback max_staleness err
      end
  | None => query_fallback fallback max_staleness NoPriceAvailable
  end.

Definition has_feeds : OM bool :=
  let! primary := shas OKey.PrimaryOracle in
  if primary then ret true else shas OKey.FallbackOracle.

(** ** The time-weighted price *)

(** [if let Ok(data) = resolve_oracle_with_failover(..) { return .. }] before
    [rest]. *)
Definition failover_or (observation_count max_staleness : Z) (rest : OM Z) : OM Z :=
  let! r := attempt (resolve_oracle_with_failover max_staleness) in
  match r with
  | inr data =>
      record_and_calculate_twap (price data) (updated_at data) observation_count max_staleness
  | inl _ => rest
  end.

(** The part of [get_twap_price_inner] that aggregates the feeders. *)
Definition twap_from_submitters (config : OracleConfig) (observation_count : Z) : OM Z :=
  let! feeders := submitters in
  let! now := ledger_timestamp in
  let! r := collect_fresh feeders now (max_staleness config) [] false in
  let '(fresh_prices, saw_any_submission) := r in
  match fresh_prices with
  | [] =>
      failover_or observation_count (max_staleness config)
        (throw (if saw_any_submission then OracleStalePrice else NoPriceAvailable))
  | _ =>
      if Z.of_nat (List.length fresh_prices) <? min_submitters config
      then failover_or observation_count (max_staleness config) (throw InsufficientQuorum)
      else twap_or observation_count (max_staleness config) (unwrap (median fresh_prices))
  end.

Definition get_twap_price_inner (observation_count : Z) : OM Z :=
  do! throw_if ((observation_count =? 0) || (MAX_TWAP_OBSERVATIONS <? observation_count))
    InvalidObservationCount;
  let! stored := sget OKey.Config in
  let! config := ok_or stored OracleNotConfigured in
  let! feeds := has_feeds in
  if feeds
  then failover_or observation_count (max_staleness config)
         (twap_from_submitters config observation_count)
  else twap_from_submitters config observation_count.

Definition get_twap_price : OM Z := with_guard (get_twap_price_inner MAX_TWAP_OBSERVATIONS).

Definition get_twap_price_for_observations (observation_count : Z) : OM Z :=
  with_guard (get_twap_price_inner observation_count).

Definition max_staleness_seconds : OM Z :=
  let! stored := sget OKey.Config in
  match stored with
  | Some config => ret (max_staleness config)
  | None => let! s := sget OKey.MaxStalenessSeconds in ret (default 0 s)
  end.

Definition get_price_with_fallback : OM Z :=
  with_guard
    (let! staleness := max_staleness_seconds in
     let! feeds := has_feeds in
     if feeds then let! d := resolve_oracle_with_failover staleness in ret (price d)
     else get_twap_price_inner MAX_TWAP_OBSERVATIONS).

(** ** Price health *)

Record Ages := mkAges { ag_count : Z; ag_newest : Z; ag_oldest : Z }.

(** The loop of [load_price_status]. *)
Fixpoint collect_ages (feeders : list Address) (now max_staleness : Z) (ages : Ages)
    (saw_any : bool) : OM (Ages * bool) :=
  match feeders with
  | [] => ret (ages, saw_any)
  | feeder :: rest =>
      let! submission := pget (OKey.Submission feeder) in
      match submission with
      | Some data =>
          let age := sat_u64 (now - updated_at data) in
          if (age <=? max_staleness) && negb (price data =? 0) then
            let! count := u32_op (ag_count ages + 1) in
            collect_ages rest now max_staleness
              (if ag_count ages =? 0 then mkAges count age age
               else mkAges count (Z.min (ag_newest ages) age) (Z.max (ag_oldest ages) age))
              true
          else collect_ages rest now max_staleness ages true
      | None => collect_ages rest now max_staleness ages saw_any
      end
  end.

Definition load_price_status : OM PriceStatus :=
  let! stored := sget OKey.Config in
  let! config := ok_or stored OracleNotConfigured in
  let! feeders := submitters in
  let! now := ledger_timestamp in
  let! r := collect_ages feeders now (max_staleness config) (mkAges 0 0 0) false in
  let '(ages, saw_any_submission) := r in
  do! throw_if (negb saw_any_submission) NoPriceAvailable;
  ret (mkPriceStatus (ag_count ages) (min_submitters config) (ag_newest ages) (ag_oldest ages)
         (ag_count ages =? 0)).

Definition price_status : OM PriceStatus := load_price_status.
Definition price_age : OM Z := let! s := load_price_status in ret (newest_age s).
Definition is_price_stale : OM bool := let! s := load_price_status in ret (stale s).

(** The feeders' part of [latest_price]. *)
Definition latest_from_submitters (staleness : Z) : OM PriceData :=
  let! feeders := submitters in
  let! latest := latest_submission feeders None in
  let! legacy := sget OKey.Price in
  let! data := ok_or (match latest with Some d => Some d | None => legacy end) NoPriceAvailable in
  let! now := ledger_timestamp in
  do! throw_if ((0 <? staleness) && (staleness <? sat_u64 (now - updated_at data)))
    StalePriceFeed;
  ret data.

Definition latest_price : OM PriceData :=
  let! staleness := max_staleness_seconds in
  let! feeds := has_feeds in
  if feeds then
    let! r := attempt (resolve_oracle_with_failover staleness) in
    match r with
    | inr data => ret data
    | inl _ => latest_from_submitters staleness
    end
  else latest_from_submitters staleness.

Definition get_stored_price : OM PriceData := latest_price.

(** ** Payouts *)

Definition calculate_fiat_stream_payout_inner (token_amount : Z) : OM Z :=
  let! current_price := get_twap_price_inner MAX_TWAP_OBSERVATIONS in
  let! stored := sget OKey.Config in
  let! config := ok_or stored OracleNotConfigured in
  let! precision := ok_or (checked_u128 (10 ^ decimals config)) InvalidDecimals in
  let! product := ok_or (checked_u128 (token_amount * current_price)) ArithmeticOverflow in
  let! value := ok_or (checked_div product precision) ArithmeticOverflow in
  do! throw_if (u64_max <? value) ArithmeticOverflow;
  ret value.

Definition calculate_fiat_stream_payout (token_amount : Z) : OM Z :=
  with_guard (calculate_fiat_stream_payout_inner token_amount).

(** ** Configuration *)

Definition oracle_config : OM OracleConfig :=
  let! stored := sget OKey.Config in ok_or stored OracleNotConfigured.

Definition min_submitters_view : OM Z :=
  let! config := oracle_config in ret (min_submitters config).

Fixpoint remove_submissions (feeders : list Address) : OM unit :=
  match feeders with
  | [] => ret tt
  | feeder :: rest => do! premove (OKey.Submission feeder); remove_submissions rest
  end.

(** The price cache is dropped when the scale or the peg changes. *)
Definition clear_prices : OM unit :=
  do! sremove OKey.Price;
  let! feeders := submitters in
  do! remove_submissions feeders;
  do! premove OKey.Submitters;
  premove OKey.PriceObservations.

Definition store_oracle_config caller (config : OracleConfig) : OM unit :=
  do! throw_if (19 <? decimals config) InvalidDecimals;
  do! throw_if (max_staleness config =? 0) InvalidMaxStaleness;
  do! throw_if ((min_submitters config =? 0) || (MAX_SUBMITTERS <? min_submitters config))
    InvalidMinSubmitters;
  do! bump_instance;
  let! existing := sget OKey.Config in
  do! match existing with
      | Some old =>
          if negb (decimals old =? decimals config) || negb (asset_peg old =? asset_peg config)
          then clear_prices else ret tt
      | None => ret tt
      end;
  do! sset OKey.Config config;
  publish (OEvent.ocfg caller config).

Definition configure_oracle caller (config : OracleConfig) : OM unit :=
  do! require_role_or_admin caller OracleRole.Admin;
  store_oracle_config caller config.

(** [if let Some(value) = update { config.field = value }], for every field. *)
Definition updated_config (u : OracleConfigUpdate) (c : OracleConfig) : OracleConfig :=
  mkOracleConfig (default (decimals c) (u_decimals u)) (default (asset_peg c) (u_asset_peg u))
    (default (max_staleness c) (u_max_staleness u)) (default (max_price c) (u_max_price u))
    (default (min_submit_interval c) (u_min_submit_interval u))
    (default (min_submitters c) (u_min_submitters u)).

Definition update_oracle_config caller (update : OracleConfigUpdate) : OM unit :=
  do! require_role_or_admin caller OracleRole.Admin;
  let! config := oracle_config in
  do! store_oracle_config caller (updated_config update config);
  do! match u_quote_currency update with
      | Some currency =>
          do! sset OKey.QuoteCurrency currency;
          publish (OEvent.qcurr caller currency)
      | None => ret tt
      end;
  match u_max_deviation_bps update with
  | Some dev => sset OKey.MaxDeviationBps dev
  | None => ret tt
  end.

Definition quote_currency : OM (option Symbol) := sget OKey.QuoteCurrency.

Definition set_oracle_feeds caller (primary_oracle : Address) (fallback_oracle : option Address)
  : OM unit :=
  do! require_not_paused;
  do! require_role_or_admin caller OracleRole.Admin;
  do! bump_instance;
  do! sset OKey.PrimaryOracle primary_oracle;
  match fallback_oracle with
  | Some fallback => sset OKey.FallbackOracle fallback
  | None => sremove OKey.FallbackOracle
  end.

Definition set_primary_oracle caller (primary_oracle : Address) : OM unit :=
  do! require_not_paused;
  do! require_role_or_admin caller OracleRole.Admin;
  do! bump_instance;
  sset OKey.PrimaryOracle primary_oracle.

Definition set_fallback_oracle caller (fallback_oracle : Address) : OM unit :=
  do! require_not_paused;
  do! require_role_or_admin caller OracleRole.Admin;
  do! bump_instance;
  sset OKey.FallbackOracle fallback_oracle.

Definition primary_oracle : OM (option Address) := sget OKey.PrimaryOracle.
Definition fallback_oracle : OM (option Address) := sget OKey.FallbackOracle.

Definition set_max_staleness_seconds caller (seconds : Z) : OM unit :=
  do! require_not_paused;
  do! require_role_or_admin caller OracleRole.Admin;
  do! throw_if (seconds =? 0) InvalidMaxStaleness;
  do! bump_instance;
  do! sset OKey.MaxStalenessSeconds seconds;
  let! stored := sget OKey.Config in
  match stored with
  | Some c =>
      sset OKey.Config
        (mkOracleConfig (decimals c) (asset_peg c) seconds (max_price c) (min_submit_interval c)
           (min_submitters c))
  | None => ret tt
  end.

Definition set_asset_oracle_config caller token (config : AssetOracleConfig) : OM unit :=
  do! require_not_paused;
  do! require_role_or_admin caller OracleRole.Admin;
  do! throw_if (heartbeat_timeout_seconds config =? 0) InvalidHeartbeatTimeout;
  do! bump_instance;
  do! pset (OKey.AssetOracleConfig token) config;
  bump_persistent (OKey.AssetOracleConfig token).

Definition asset_oracle_config token : OM (option AssetOracleConfig) :=
  pget (OKey.AssetOracleConfig token).

Definition set_max_deviation_bps caller (max_deviation_bps : Z) : OM unit :=
  do! require_not_paused;
  do! require_role_or_admin caller OracleRole.Admin;
  do! bump_instance;
  sset OKey.MaxDeviationBps max_deviation_bps.

Definition max_deviation_bps : OM Z :=
  let! stored := sget OKey.MaxDeviationBps in ret (default 0 stored).

(** ** Submitting a price *)

(** [events::price_rejected(..); return Err(e)] *)
Definition reject caller (price : Z) (reason : Symbol) (e : oracle_error) : OM unit :=
  do! publish (OEvent.rej caller price reason);
  throw e.

(** The change against the last accepted price, in basis points. *)
Definition last_price_deviation (price : Z) (last : option PriceData) : OM (option Z) :=
  match last with
  | Some l =>
      if 0 <? OracleData.price l then
        let! deviation := ok_or (checked_u128 (abs_diff price (OracleData.price l) * 10000))
                            ArithmeticOverflow in
        ret (Some (deviation / OracleData.price l))
      else ret None
  | None => ret None
  end.

Definition exceeds (deviation : option Z) (bound : Z) : bool :=
  match deviation with Some d => bound <? d | None => false end.

(** The checks that need a stored configuration. *)
Definition check_configured caller (price now : Z) (deviation : option Z) (config : OracleConfig)
  : OM unit :=
  do! (if negb (max_price config =? 0) && (max_price config <? price)
       then reject caller price "max_price" PriceExceedsMaxPrice else ret tt);
  let! stored := sget OKey.MaxDeviationBps in
  let max_deviation := default 0 stored in
  do! (if (0 <? max_deviation) && exceeds deviation max_deviation
       then reject caller price "deviation" ExcessivePriceDeviation else ret tt);
  if 0 <? min_submit_interval config then
    let! submission := pget (OKey.Submission caller) in
    match submission with
    | Some last =>
        if sat_u64 (now - updated_at last) <? min_submit_interval config
        then reject caller price "stale" SubmitTooSoon else ret tt
    | None => ret tt
    end
  else ret tt.

Definition submit_price caller (price : Z) : OM unit :=
  let! running := attempt require_not_paused in
  do! match running with
      | inl _ => reject caller price "paused" ContractPaused
      | inr _ => ret tt
      end;
  let! feeder := attempt (require_role caller OracleRole.PriceFeeder) in
  do! match feeder with
      | inl _ => reject caller price "unauth" NotAuthorized
      | inr _ => ret tt
      end;
  do! (if price =? 0 then reject caller price "zero" InvalidPrice else ret tt);
  let! now := ledger_timestamp in
  let! last := sget OKey.Price in
  let! deviation := last_price_deviation price last in
  do! (if exceeds deviation 5000
       then reject caller price "deviation" OracleDeviationTooHigh else ret tt);
  let! stored := sget OKey.Config in
  do! match stored with
      | Some config => check_configured caller price now deviation config
      | None => ret tt
      end;
  let data := mkPriceData price now in
  do! bump_instance;
  do! sset OKey.Price data;
  do! pset (OKey.Submission caller) data;
  do! bump_persistent (OKey.Submission caller);
  do! add_submitter caller;
  let! aggregate := current_submission_median price now in
  do! record_price_observation aggregate now;
  publish (OEvent.priced caller price now).

(** ** Pair feeds *)

Definition is_authorized_pair_reporter reporter : OM bool :=
  let! feeder := has_role OracleRole.PriceFeeder reporter in
  if feeder then ret true else has_role OracleRole.Admin reporter.

(** The loop that keeps the reporters still authorized. *)
Fixpoint active_reporters (existing : list Address) reporter (active : list Address)
    (already_present : bool) : OM (list Address * bool) :=
  match existing with
  | [] => ret (active, already_present)
  | account :: rest =>
      let! held := is_authorized_pair_reporter account in
      if held
      then active_reporters rest reporter (active ++ [account])
             (already_present || addr_eqb account reporter)
      else active_reporters rest reporter active already_present
  end.

(** The reporters of a pair once [reporter] is one of them. *)
Definition with_reporter (existing : list Address) reporter : OM (list Address) :=
  let! r := active_reporters existing reporter [] false in
  let '(active, already_present) := r in
  if (already_present : bool) then ret active
  else
    do! throw_if (MAX_PAIR_REPORTERS <=? Z.of_nat (List.length active)) TooManyPairReporters;
    ret (active ++ [reporter]).

Definition add_pair_reporter (base quote : Address) reporter : OM unit :=
  let key := OKey.PairReporters base quote in
  let! stored := pget key in
  let! active := with_reporter (default [] stored) reporter in
  do! pset key active;
  bump_persistent key.

Definition add_symbol_pair_reporter (base quote : Symbol) reporter : OM unit :=
  let key := OKey.PairSymbolReporters base quote in
  let! stored := pget key in
  let! active := with_reporter (default [] stored) reporter in
  do! pset key active;
  bump_persistent key.

Definition asset_heartbeat_secs (asset : Address) : OM Z :=
  let! stored := pget (OKey.AssetOracleConfig asset) in
  match stored with
  | Some config => ret (heartbeat_timeout_seconds config)
  | None =>
      let! global := max_staleness_seconds in
      ret (if 0 <? global then global else PAIR_REPORT_FRESHNESS_SECS)
  end.

(** The loop over the reports of the authorized reporters; [report] reads one. *)
Fixpoint collect_reports (report : Address -> OM (option PairPriceData)) (now heartbeat : Z)
    (reporters : list Address) (fresh : list Z) (saw : bool) : OM (list Z * bool) :=
  match reporters with
  | [] => ret (fresh, saw)
  | reporter :: rest =>
      let! held := is_authorized_pair_reporter reporter in
      if held then
        let! stored := report reporter in
        match stored with
        | Some data =>
            collect_reports report now heartbeat rest
              (if sat_u64 (now - pp_updated_at data) <=? heartbeat
               then fresh ++ [pp_price data] else fresh) true
        | None => collect_reports report now heartbeat rest fresh saw
        end
      else collect_reports report now heartbeat rest fresh saw
  end.

(** What both aggregations do with the reports. *)
Definition aggregate_reports (report : Address -> OM (option PairPriceData)) (heartbeat : Z)
    (reporters : list Address) : OM Z :=
  let! now := ledger_timestamp in
  let! r := collect_reports report now heartbeat reporters [] false in
  let '(fresh, saw_authorized_submission) := r in
  match fresh with
  | [] => throw (if saw_authorized_submission then OracleStalePrice else PriceNotFound)
  | _ => unwrap (median_u128 fresh)
  end.

Definition aggregate_pair_price (base quote : Address) : OM Z :=
  let! heartbeat := asset_heartbeat_secs base in
  let! stored := pget (OKey.PairReporters base quote) in
  match default [] stored with
  | [] => let! legacy := sget (OKey.PairPrice base quote) in ok_or legacy PriceNotFound
  | reporters =>
      aggregate_reports (fun reporter => pget (OKey.PairSubmission base quote reporter))
        heartbeat reporters
  end.

Definition aggregate_symbol_pair_price (base quote : Symbol) : OM Z :=
  let! stored := pget (OKey.PairSymbolReporters base quote) in
  match default [] stored with
  | [] => let! legacy := sget (OKey.PairPriceSymbol base quote) in ok_or legacy PriceNotFound
  | reporters =>
      aggregate_reports (fun reporter => pget (OKey.PairSymbolSubmission base quote reporter))
        PAIR_REPORT_FRESHNESS_SECS reporters
  end.

Definition set_price caller (base quote : Address) (price : Z) : OM unit :=
  do! require_not_paused;
  do! require_role_or_admin caller OracleRole.PriceFeeder;
  do! throw_if (price =? 0) InvalidPrice;
  do! bump_instance;
  do! add_pair_reporter base quote caller;
  let! now := ledger_timestamp in
  do! pset (OKey.PairSubmission base quote caller) (mkPairPriceData price now);
  do! bump_persistent (OKey.PairSubmission base quote caller);
  sset (OKey.PairPrice base quote) price.

Definition get_price (base quote : Address) : OM Z := aggregate_pair_price base quote.

(** The direct price, or the reciprocal of the reverse one. *)
Definition price_or_reciprocal (direct reverse : OM Z) : OM Z :=
  let! d := attempt direct in
  match d with
  | inr price => ret price
  | inl ((PriceNotFound | OracleStalePrice) as direct_err) =>
      let! r := attempt reverse in
      match r with
      | inr price =>
          do! throw_if (price =? 0) InvalidPrice;
          let! precision_sq := ok_or (checked_u128 (PRICE_PRECISION * PRICE_PRECISION))
                                 ArithmeticOverflow in
          ok_or (checked_div precision_sq price) ArithmeticOverflow
      | inl reverse_err =>
          if bool_decide (direct_err = OracleStalePrice) ||
             bool_decide (reverse_err = OracleStalePrice)
          then throw OracleStalePrice else throw PriceNotFound
      end
  | inl err => throw err
  end.

Definition get_price_inverted (base quote : Address) : OM Z :=
  price_or_reciprocal (aggregate_pair_price base quote) (aggregate_pair_price quote base).

Definition set_price_symbol caller (base quote : Symbol) (price : Z) : OM unit :=
  do! require_not_paused;
  do! require_role_or_admin caller OracleRole.PriceFeeder;
  do! throw_if (price =? 0) InvalidPrice;
  do! bump_instance;
  do! add_symbol_pair_reporter base quote caller;
  let! now := ledger_timestamp in
  do! pset (OKey.PairSymbolSubmission base quote caller) (mkPairPriceData price now);
  do! bump_persistent (OKey.PairSymbolSubmission base quote caller);
  sset (OKey.PairPriceSymbol base quote) price.

Definition get_price_symbol (base quote : Symbol) : OM Z := aggregate_symbol_pair_price base quote.

Definition get_price_inverted_symbol (base quote : Symbol) : OM Z :=
  price_or_reciprocal (aggregate_symbol_pair_price base quote)
    (aggregate_symbol_pair_price quote base).

(** ** Administration *)

Definition initialize (admin : Address) : OM unit :=
  let! has := shas OKey.Admin in
  do! throw_if has AlreadyInitialized;
  do! bump_instance;
  do! sset OKey.Admin admin;
  do! grant_role_inner OracleRole.Admin admin;
  ret tt.

Definition grant_role_with_expiration caller role account (expires_at : option Z) : OM unit :=
  do! require_role_or_admin caller OracleRole.Admin;
  let! now := ledger_timestamp in
  do! throw_if ((bool_decide (role = OracleRole.Admin) && is_some expires_at) ||
                match expires_at with Some t => t <=? now | None => false end)
    InvalidRoleExpiration;
  do! bump_instance;
  let! granted := grant_role_with_expiration_inner role account expires_at in
  if granted then publish (OEvent.grant caller role account) else ret tt.

Definition grant_role caller role account : OM unit :=
  do! require_role_or_admin caller OracleRole.Admin;
  do! bump_instance;
  let! granted := grant_role_inner role account in
  if granted then publish (OEvent.grant caller role account) else ret tt.

Definition revoke_role caller role account : OM unit :=
  do! require_role_or_admin caller OracleRole.Admin;
  do! bump_instance;
  let! removed := revoke_role_inner role account in
  if removed then publish (OEvent.revoke caller role account) else ret tt.

Definition purge_submitter caller feeder : OM unit :=
  do! require_role_or_admin caller OracleRole.Admin;
  do! bump_instance;
  remove_submitter feeder.

Definition transfer_admin caller (new_admin : Address) : OM unit :=
  do! require_role_or_admin caller OracleRole.Admin;
  do! bump_instance;
  do! grant_role_inner OracleRole.Admin new_admin;
  do! revoke_role_inner OracleRole.Admin caller;
  publish (OEvent.adm_xfer caller new_admin).

Definition pause caller : OM unit :=
  do! require_role_or_admin caller OracleRole.Pauser;
  let! already := is_paused in
  do! throw_if already AlreadyPaused;
  do! bump_instance;
  do! set_paused true;
  let! now := ledger_timestamp in
  publish (OEvent.paused caller now).

Definition unpause caller : OM unit :=
  do! require_role_or_admin caller OracleRole.Pauser;
  let! halted := is_paused in
  do! throw_if (negb halted) NotPaused;
  do! bump_instance;
  do! set_paused false;
  let! now := ledger_timestamp in
  publish (OEvent.unpaused caller now).

Definition upgrade caller (new_wasm_hash : Z) : OM unit :=
  do! require_role caller OracleRole.Admin;
  do! require_not_paused;
  do! throw_if (new_wasm_hash =? 0) InvalidWasmHash;
  do! bump_instance;
  do! publish (OEvent.WasmReplaced new_wasm_hash);
  let! now := ledger_timestamp in
  publish (OEvent.upgraded caller now).

End Oracle.
