(* ===== verification/OracleSystem.v ===== *)
(** * TwapOracle: calls and frames

    The entry points that change state as a type of calls, and what each helper
    leaves alone. *)

From stdpp Require Import base numbers list option strings gmap.
From Stdlib Require Import ZArith Lia String.
From S2P Require Import Prelude Host Ttl Pause Rbac Frame OracleData OracleMedian OracleOps.
Import OracleError.

#[local] Open Scope Z_scope.
#[local] Open Scope sf_scope.

(** What the oracle relies on of an external feed: the machine width of its
    answers. *)
Class FeedLaws (T : Type) `{FeedClient T} : Prop := {
  feed_twap_range env t f p t' : feed_get_twap_price env t f = Some (p, t') -> U64 p;
  feed_latest_range env t f d t' :
    feed_latest_price env t f = Some (d, t') -> U64 (price d) /\ U64 (updated_at d)
}.

(** ** Calls *)

Inductive oracle_call :=
| OInitialize (admin : Address)
| SubmitPrice (caller : Address) (price : Z)
| GetTwapPrice
| GetTwapPriceForObservations (observation_count : Z)
| GetPriceWithFallback
| LatestPrice
| CalculateFiatStreamPayout (token_amount : Z)
| SetPrice (caller base quote : Address) (price : Z)
| SetPriceSymbol (caller : Address) (base quote : Symbol) (price : Z)
| ConfigureOracle (caller : Address) (config : OracleConfig)
| UpdateOracleConfig (caller : Address) (update : OracleConfigUpdate)
| SetOracleFeeds (caller primary_oracle : Address) (fallback_oracle : option Address)
| SetPrimaryOracle (caller primary_oracle : Address)
| SetFallbackOracle (caller fallback_oracle : Address)
| SetMaxStalenessSeconds (caller : Address) (seconds : Z)
| SetAssetOracleConfig (caller token : Address) (config : AssetOracleConfig)
| SetMaxDeviationBps (caller : Address) (max_deviation_bps : Z)
| OGrantRoleWithExpiration (caller : Address) (role : OracleRole.oracle_role) (account : Address)
    (expires_at : option Z)
| OGrantRole (caller : Address) (role : OracleRole.oracle_role) (account : Address)
| ORevokeRole (caller : Address) (role : OracleRole.oracle_role) (account : Address)
| PurgeSubmitter (caller feeder : Address)
| TransferAdmin (caller new_admin : Address)
| OPause (caller : Address)
| OUnpause (caller : Address)
| OIsPaused
| OUpgrade (caller : Address) (new_wasm_hash : Z).

(** The fields of a configuration have their machine width. *)
Definition typed_config (c : OracleConfig) : Prop :=
  U32 (decimals c) /\ U32 (asset_peg c) /\ U64 (max_staleness c) /\ U64 (max_price c) /\
  U64 (min_submit_interval c) /\ U32 (min_submitters c).

Definition typed_option (P : Z -> Prop) (o : option Z) : Prop :=
  match o with Some z => P z | None => True end.

Definition oracle_typed (c : oracle_call) : Prop :=
  match c with
  | SubmitPrice _ p | CalculateFiatStreamPayout p | SetMaxStalenessSeconds _ p => U64 p
  | GetTwapPriceForObservations n | SetMaxDeviationBps _ n => U32 n
  | SetPrice _ _ _ p | SetPriceSymbol _ _ _ p => 0 <= p <= u128_max
  | ConfigureOracle _ c => typed_config c
  | UpdateOracleConfig _ u =>
      typed_option U32 (u_decimals u) /\ typed_option U32 (u_asset_peg u) /\
      typed_option U64 (u_max_staleness u) /\ typed_option U64 (u_max_price u) /\
      typed_option U64 (u_min_submit_interval u) /\ typed_option U32 (u_min_submitters u) /\
      typed_option U32 (u_max_deviation_bps u)
  | SetAssetOracleConfig _ _ c => U64 (heartbeat_timeout_seconds c)
  | _ => True
  end.

Section System.
Context {T : Type} `{FC : FeedClient T}.
Abbreviation OM := (M OKey.data_key T OEvent.oracle_event oracle_error).
Abbreviation OWorld := (World OKey.data_key T OEvent.oracle_event).
Implicit Types (w : OWorld).

Definition drop_result {A} (m : OM A) : OM unit := do! m; ret tt.

Definition oracle_exec c : OM unit :=
  match c with
  | OInitialize a => initialize a
  | SubmitPrice a p => submit_price a p
  | GetTwapPrice => drop_result get_twap_price
  | GetTwapPriceForObservations n => drop_result (get_twap_price_for_observations n)
  | GetPriceWithFallback => drop_result get_price_with_fallback
  | LatestPrice => drop_result latest_price
  | CalculateFiatStreamPayout n => drop_result (calculate_fiat_stream_payout n)
  | SetPrice a b q p => set_price a b q p
  | SetPriceSymbol a b q p => set_price_symbol a b q p
  | ConfigureOracle a c => configure_oracle a c
  | UpdateOracleConfig a u => update_oracle_config a u
  | SetOracleFeeds a p f => set_oracle_feeds a p f
  | SetPrimaryOracle a p => set_primary_oracle a p
  | SetFallbackOracle a f => set_fallback_oracle a f
  | SetMaxStalenessSeconds a s => set_max_staleness_seconds a s
  | SetAssetOracleConfig a t c => set_asset_oracle_config a t c
  | SetMaxDeviationBps a n => set_max_deviation_bps a n
  | OGrantRoleWithExpiration a r x e => grant_role_with_expiration a r x e
  | OGrantRole a r x => grant_role a r x
  | ORevokeRole a r x => revoke_role a r x
  | PurgeSubmitter a f => purge_submitter a f
  | TransferAdmin a n => transfer_admin a n
  | OPause a => pause a
  | OUnpause a => unpause a
  | OIsPaused => drop_result is_paused
  | OUpgrade a h => upgrade a h
  end.

(** *** Frames of the helpers *)

Section Reads.
Context (R : OWorld -> OWorld -> Prop) `{!PreOrder R}.

#[export] Instance keeps_ohas r a : Keeps R (has_role r a).
Proof. unfold has_role. apply _. Qed.
#[export] Instance keeps_orequire a r : Keeps R (require_role a r).
Proof. unfold require_role. solve_keeps. Qed.
#[export] Instance keeps_orequire_or a r : Keeps R (require_role_or_admin a r).
Proof. unfold require_role_or_admin, Rbac.require_role_or_admin. solve_keeps. Qed.
#[export] Instance keeps_submitters : Keeps R submitters.
Proof. unfold submitters. solve_keeps. Qed.
#[export] Instance keeps_collect_fresh l n s f b : Keeps R (collect_fresh l n s f b).
Proof. revert f b. induction l; intros; cbn [collect_fresh]; solve_keeps. Qed.
#[export] Instance keeps_latest_submission l o : Keeps R (latest_submission l o).
Proof. revert o. induction l; intros; cbn [latest_submission]; solve_keeps. Qed.
#[export] Instance keeps_current_median p n : Keeps R (current_submission_median p n).
Proof. unfold current_submission_median. solve_keeps. Qed.
#[export] Instance keeps_weigh l now s n i a b : Keeps R (weigh l now s n i a b).
Proof. revert i a b. induction n; intros; cbn [weigh]; solve_keeps. Qed.
#[export] Instance keeps_calculate c s : Keeps R (calculate_twap c s).
Proof. unfold calculate_twap. solve_keeps. Qed.
#[export] Instance keeps_twap_or c s m : Keeps R m -> Keeps R (twap_or c s m).
Proof. intros. unfold twap_or. solve_keeps. Qed.
#[export] Instance keeps_has_feeds : Keeps R has_feeds.
Proof. unfold has_feeds. solve_keeps. Qed.
#[export] Instance keeps_staleness : Keeps R max_staleness_seconds.
Proof. unfold max_staleness_seconds. solve_keeps. Qed.
#[export] Instance keeps_oconfig : Keeps R oracle_config.
Proof. unfold oracle_config. solve_keeps. Qed.
#[export] Instance keeps_deviation p o : Keeps R (last_price_deviation p o).
Proof. unfold last_price_deviation. solve_keeps. Qed.
#[export] Instance keeps_pair_reporter a : Keeps R (is_authorized_pair_reporter a).
Proof. unfold is_authorized_pair_reporter. solve_keeps. Qed.
#[export] Instance keeps_active_reporters l a b c : Keeps R (active_reporters l a b c).
Proof. revert b c. induction l; intros; cbn [active_reporters]; solve_keeps. Qed.
#[export] Instance keeps_with_reporter l a : Keeps R (with_reporter l a).
Proof. unfold with_reporter. solve_keeps. Qed.

End Reads.

Section Writes.
Context (R : OWorld -> OWorld -> Prop) `{!PreOrder R} `{!forall o a b, Allows R (add_ttl o a b)}.

#[export] Instance keeps_latest_from s : Keeps R (latest_from_submitters s).
Proof. unfold latest_from_submitters. solve_keeps. Qed.

#[export] Instance keeps_record p n `{!forall v, Allows R (put_persist OKey.PriceObservations v)} :
  Keeps R (record_price_observation p n).
Proof. unfold record_price_observation. solve_keeps. Qed.

#[export] Instance keeps_record_twap p n c s
    `{!forall v, Allows R (put_persist OKey.PriceObservations v)} :
  Keeps R (record_and_calculate_twap p n c s).
Proof. unfold record_and_calculate_twap. solve_keeps. Qed.

#[export] Instance keeps_add_submitter a `{!forall v, Allows R (put_persist OKey.Submitters v)} :
  Keeps R (add_submitter a).
Proof. unfold add_submitter. solve_keeps. Qed.

#[export] Instance keeps_remove_submitter a
    `{!forall v, Allows R (put_persist OKey.Submitters v)}
    `{!forall v, Allows R (put_persist (OKey.Submission a) v)}
    `{!forall v, Allows R (put OKey.Price v)} :
  Keeps R (remove_submitter a).
Proof. unfold remove_submitter. solve_keeps. Qed.

#[export] Instance keeps_remove_submissions l
    `{!forall a, Allows R (put_persist (OKey.Submission a) None)} :
  Keeps R (remove_submissions l).
Proof. induction l; cbn [remove_submissions]; solve_keeps. Qed.

#[export] Instance keeps_ogrant_exp r a e :
  (forall v, Allows R (put (OKey.Role r a) v)) ->
  (forall v, Allows R (put (OKey.RoleMembers r) v)) ->
  (forall x, Allows R (add_event x)) ->
  (is_admin r = true -> forall v, Allows R (put OKey.AdminCount v)) ->
  Keeps R (grant_role_with_expiration_inner r a e).
Proof. intros. unfold grant_role_with_expiration_inner. by apply keeps_grant. Qed.

#[export] Instance keeps_ogrant r a :
  (forall v, Allows R (put (OKey.Role r a) v)) ->
  (forall v, Allows R (put (OKey.RoleMembers r) v)) ->
  (forall x, Allows R (add_event x)) ->
  (is_admin r = true -> forall v, Allows R (put OKey.AdminCount v)) ->
  Keeps R (grant_role_inner r a).
Proof. intros. unfold grant_role_inner, Rbac.grant. by apply keeps_grant. Qed.

Lemma orevoke_keeps r a :
  (forall x, Allows R (add_event x)) ->
  (forall v, Allows R (put (OKey.Role r a) v)) ->
  (forall v, Allows R (put (OKey.RoleMembers r) v)) ->
  (is_admin r = true -> forall v, Allows R (put OKey.AdminCount v)) ->
  (r = OracleRole.PriceFeeder -> Keeps R (remove_submitter a)) ->
  Keeps R (revoke_role_inner r a).
Proof.
  intros ? ? ? ? Hr. unfold revoke_role_inner, Rbac.revoke. apply keeps_bind; [apply _| |].
  - by apply keeps_map_err, keeps_revoke.
  - intros removed. case_bool_decide; [specialize (Hr ltac:(done))|rewrite andb_false_r]; solve_keeps.
Qed.

#[export] Instance keeps_orevoke r a :
  (forall x, Allows R (add_event x)) ->
  (forall v, Allows R (put (OKey.Role r a) v)) ->
  (forall v, Allows R (put (OKey.RoleMembers r) v)) ->
  (is_admin r = true -> forall v, Allows R (put OKey.AdminCount v)) ->
  Keeps R (remove_submitter a) ->
  Keeps R (revoke_role_inner r a).
Proof. intros. by apply orevoke_keeps. Qed.

(** Revoking an administrator purges no submission. *)
#[export] Instance keeps_orevoke_admin a :
  (forall x, Allows R (add_event x)) ->
  (forall v, Allows R (put (OKey.Role OracleRole.Admin a) v)) ->
  (forall v, Allows R (put (OKey.RoleMembers OracleRole.Admin) v)) ->
  (forall v, Allows R (put OKey.AdminCount v)) ->
  Keeps R (revoke_role_inner OracleRole.Admin a).
Proof. intros. by apply orevoke_keeps. Qed.

Context `{!forall x, Allows R (add_event x)}.

#[export] Instance keeps_reject a p r e : Keeps R (reject a p r e).
Proof. unfold reject. solve_keeps. Qed.
#[export] Instance keeps_check_configured a p n d c : Keeps R (check_configured a p n d c).
Proof. unfold check_configured. solve_keeps. Qed.

End Writes.

Section Feeds.
Context (R : OWorld -> OWorld -> Prop) `{!PreOrder R} `{!forall t, Allows R (set_tokens t)}.

#[export] Instance keeps_try_feed {A} (call : Env -> T -> option (A * T)) :
  Keeps R (fun env => try_feed (call env) env).
Proof.
  intros env w. cbn. unfold try_feed. destruct (call env (w_tokens w)) as [[a t']|];
    [apply allows|reflexivity].
Qed.
#[export] Instance keeps_query_latest f n s : Keeps R (query_latest f n s).
Proof.
  unfold query_latest. apply keeps_bind; [apply _| |solve_keeps].
  exact (keeps_try_feed (fun env t => feed_latest_price env t f)).
Qed.
#[export] Instance keeps_query_external f n s : Keeps R (query_external f n s).
Proof.
  unfold query_external. apply keeps_bind; [apply _| |solve_keeps].
  exact (keeps_try_feed (fun env t => feed_get_twap_price env t f)).
Qed.
#[export] Instance keeps_query f s : Keeps R (query_oracle_feed f s).
Proof. unfold query_oracle_feed. solve_keeps. Qed.
#[export] Instance keeps_query_fallback f s e : Keeps R (query_fallback f s e).
Proof. unfold query_fallback. solve_keeps. Qed.
#[export] Instance keeps_resolve_feeds s : Keeps R (resolve_oracle_with_failover s).
Proof. unfold resolve_oracle_with_failover. solve_keeps. Qed.

Context `{!forall o a b, Allows R (add_ttl o a b)}.
Context `{!forall v, Allows R (put_persist OKey.PriceObservations v)}.

#[export] Instance keeps_failover c s m : Keeps R m -> Keeps R (failover_or c s m).
Proof. intros. unfold failover_or. solve_keeps. Qed.
#[export] Instance keeps_twap_submitters c n : Keeps R (twap_from_submitters c n).
Proof. unfold twap_from_submitters. solve_keeps. Qed.
#[export] Instance keeps_twap_inner n : Keeps R (get_twap_price_inner n).
Proof. unfold get_twap_price_inner. solve_keeps. Qed.
#[export] Instance keeps_payout_inner n : Keeps R (calculate_fiat_stream_payout_inner n).
Proof. unfold calculate_fiat_stream_payout_inner. solve_keeps. Qed.

End Feeds.

#[export] Instance keeps_oguard (R : OWorld -> OWorld -> Prop) `{!PreOrder R}
    `{!forall v, Allows R (put OKey.OLock v)} {A} (m : OM A) :
  Keeps R m -> Keeps R (with_guard m).
Proof. intros. unfold with_guard. solve_keeps. Qed.

Section Paused.
Context (R : OWorld -> OWorld -> Prop) `{!PreOrder R} `{!forall v, Allows R (put OKey.Paused v)}.

#[export] Instance keeps_ois_paused : Keeps R is_paused.
Proof. unfold is_paused. apply _. Qed.
#[export] Instance keeps_oset_paused b : Keeps R (set_paused b).
Proof. unfold set_paused. apply _. Qed.
#[export] Instance keeps_onot_paused : Keeps R require_not_paused.
Proof. unfold require_not_paused. apply _. Qed.

End Paused.

End System.

Ltac unfold_oracle :=
  cbn [oracle_exec];
  unfold drop_result, initialize, submit_price, get_twap_price, get_twap_price_for_observations,
    get_price_with_fallback, latest_price, calculate_fiat_stream_payout, set_price,
    set_price_symbol, add_pair_reporter, add_symbol_pair_reporter, configure_oracle,
    update_oracle_config, store_oracle_config, clear_prices, set_oracle_feeds,
    set_primary_oracle, set_fallback_oracle, set_max_staleness_seconds,
    set_asset_oracle_config, set_max_deviation_bps, grant_role_with_expiration, grant_role,
    revoke_role, purge_submitter, transfer_admin, pause, unpause, upgrade.
Ltac solve_oracle := unfold_oracle; solve_keeps.
