(* ===== verification/OracleState.v ===== *)
(** * TwapOracle: the parts of the state

    The parts of the storage with the calls that write each one, and what is
    true of every part in every world a deployed oracle can reach: valid
    configuration, bounded and exact feeder roster, bounded history in strict
    order of time, bounded pair reporters, typed roles and a free guard. *)

From stdpp Require Import base numbers list option strings sets sorting.
From Stdlib Require Import ZArith Lia String.
From S2P Require Import Prelude Host Ttl Pause Rbac Frame Admins OracleData OracleMedian.
From S2P Require Import OracleOps OracleSystem.
Import OracleError.

#[local] Open Scope Z_scope.
#[local] Open Scope sf_scope.

(** ** Parts of the storage *)

Inductive opart := OAdmins | OConf | OFeeders | OHistory | OPairs | OGuard | ORest.

Definition opart_of (k : OKey.data_key) : opart :=
  match k with
  | OKey.Role OracleRole.Admin _ | OKey.RoleMembers OracleRole.Admin | OKey.AdminCount => OAdmins
  | OKey.Config => OConf
  | OKey.Submission _ | OKey.Submitters => OFeeders
  | OKey.PriceObservations => OHistory
  | OKey.PairSubmission _ _ _ | OKey.PairReporters _ _ | OKey.PairSymbolSubmission _ _ _
  | OKey.PairSymbolReporters _ _ => OPairs
  | OKey.OLock => OGuard
  | _ => ORest
  end.

(** Every key but those of one part. *)
Definition ooff (p : opart) (k : OKey.data_key) : Prop := opart_of k <> p.

#[export] Hint Extern 1 (InFrame (ooff _) _) =>
  (red; unfold ooff; cbn; first [congruence | match goal with
     | r : OracleRole.oracle_role |- _ => destruct r; cbn in *; congruence end])
  : typeclass_instances.

(** The calls that may write a part. *)
Definition owrites (c : oracle_call) (p : opart) : bool :=
  match c, p with
  | (OGrantRoleWithExpiration _ r _ _ | OGrantRole _ r _ | ORevokeRole _ r _), OAdmins => is_admin r
  | (OInitialize _ | TransferAdmin _ _), OAdmins => true
  | (ConfigureOracle _ _ | UpdateOracleConfig _ _), (OConf | OFeeders | OHistory) => true
  | SetMaxStalenessSeconds _ _, OConf => true
  | SubmitPrice _ _, (OFeeders | OHistory) => true
  | (ORevokeRole _ _ _ | PurgeSubmitter _ _), OFeeders => true
  | (GetTwapPrice | GetTwapPriceForObservations _ | GetPriceWithFallback
    | CalculateFiatStreamPayout _), (OHistory | OGuard) => true
  | (SetPrice _ _ _ _ | SetPriceSymbol _ _ _ _), OPairs => true
  | _, _ => false
  end.

Section Frames.
Context {T : Type} `{FC : FeedClient T}.
Abbreviation OM := (M OKey.data_key T OEvent.oracle_event oracle_error).
Abbreviation OWorld := (World OKey.data_key T OEvent.oracle_event).
Implicit Types (w : OWorld) (c : oracle_call).

Lemma role_frame_admin r : is_admin r = false -> r <> OracleRole.Admin.
Proof. by intros H%bool_decide_eq_false. Qed.

Lemma exec_frame_admins c :
  owrites c OAdmins = false -> Keeps (frame (ooff OAdmins)) (oracle_exec (T := T) c).
Proof.
  destruct c; intros Hw; try discriminate Hw; cbn in Hw; try solve [clear Hw; solve_oracle].
  all: destruct role; try discriminate Hw; solve_oracle.
Qed.

Lemma exec_frame_config c :
  owrites c OConf = false -> Keeps (frame (ooff OConf)) (oracle_exec (T := T) c).
Proof. destruct c; intros Hw; try discriminate Hw; clear Hw; solve_oracle. Qed.

Lemma exec_frame_guard c :
  owrites c OGuard = false -> Keeps (frame (ooff OGuard)) (oracle_exec (T := T) c).
Proof. destruct c; intros Hw; try discriminate Hw; clear Hw; solve_oracle. Qed.

Lemma exec_frame_feeders c :
  owrites c OFeeders = false -> Keeps (pframe (ooff OFeeders)) (oracle_exec (T := T) c).
Proof. destruct c; intros Hw; try discriminate Hw; clear Hw; solve_oracle. Qed.

Lemma exec_frame_history c :
  owrites c OHistory = false -> Keeps (pframe (ooff OHistory)) (oracle_exec (T := T) c).
Proof. destruct c; intros Hw; try discriminate Hw; clear Hw; solve_oracle. Qed.

Lemma exec_frame_pairs c :
  owrites c OPairs = false -> Keeps (pframe (ooff OPairs)) (oracle_exec (T := T) c).
Proof. destruct c; intros Hw; try discriminate Hw; clear Hw; solve_oracle. Qed.

End Frames.

(** ** The invariant *)

Record ValidOracleConfig (c : OracleConfig) : Prop := {
  voc_typed : typed_config c;
  voc_decimals : decimals c <= 19;
  voc_staleness : 0 < max_staleness c;
  voc_quorum : 1 <= min_submitters c <= MAX_SUBMITTERS
}.

Definition later (a b : PriceObservation) : Prop := po_timestamp a < po_timestamp b.

(** A history of observations: bounded, in strict order of time, of positive
    prices. *)
Record History (l : list PriceObservation) : Prop := {
  hi_bounded : Z.of_nat (List.length l) <= MAX_TWAP_OBSERVATIONS;
  hi_ordered : StronglySorted later l;
  hi_typed : Forall (fun o => 0 < po_price o <= u64_max /\ U64 (po_timestamp o)) l
}.

Section Invariant.
Context {T : Type} `{FC : FeedClient T}.
Abbreviation OM := (M OKey.data_key T OEvent.oracle_event oracle_error).
Abbreviation OWorld := (World OKey.data_key T OEvent.oracle_event).
Implicit Types (w : OWorld).

Definition feeders w : list Address := default [] (w_persist w OKey.Submitters).
Definition submission w (a : Address) : option PriceData := w_persist w (OKey.Submission a).
Definition history w : list PriceObservation := default [] (w_persist w OKey.PriceObservations).

Definition config_valid w : Prop :=
  forall c, w_store w OKey.Config = Some c -> ValidOracleConfig c.

(** The tracked feeders are the addresses with a submission, at most
    [MAX_SUBMITTERS] of them, once each; and every submission is a positive
    price of the past. *)
Record Feeders (n : Z) w : Prop := {
  fe_nodup : NoDup (feeders w);
  fe_bounded : Z.of_nat (List.length (feeders w)) <= MAX_SUBMITTERS;
  fe_tracked a : a ∈ feeders w <-> is_Some (submission w a);
  fe_submission a d : submission w a = Some d -> 0 < price d <= u64_max /\ 0 <= updated_at d <= n
}.

(** No pair has more than [MAX_PAIR_REPORTERS] reporters, and every report is a
    positive price of the past. *)
Record Pairs (n : Z) w : Prop := {
  pa_reporters b q l : w_persist w (OKey.PairReporters b q) = Some l ->
    l <> [] /\ NoDup l /\ Z.of_nat (List.length l) <= MAX_PAIR_REPORTERS;
  pa_symbol_reporters b q l : w_persist w (OKey.PairSymbolReporters b q) = Some l ->
    l <> [] /\ NoDup l /\ Z.of_nat (List.length l) <= MAX_PAIR_REPORTERS;
  pa_report b q a d : w_persist w (OKey.PairSubmission b q a) = Some d ->
    0 < pp_price d <= u128_max /\ 0 <= pp_updated_at d <= n;
  pa_symbol_report b q a d : w_persist w (OKey.PairSymbolSubmission b q a) = Some d ->
    0 < pp_price d <= u128_max /\ 0 <= pp_updated_at d <= n
}.

(** No role cell holds a legacy boolean. *)
Definition roles_typed w : Prop :=
  forall r a b, w_store w (OKey.Role r a) <> Some (RoleBool b).

(** The guard is free. *)
Definition unguarded w : Prop := default 0 (w_store w OKey.OLock) = 0.

(** ** Roles *)

(** Whether an account holds a role at a time. *)
Definition holds w (r : OracleRole.oracle_role) (now : Z) (a : Address) : bool :=
  match w_store w (OKey.Role r a) with
  | Some (RoleGrant g) => active now (expires_at g)
  | _ => false
  end.

Lemma role_read {E} r a env w :
  roles_typed w ->
  Rbac.has_role (E := E) (OKey.Role r a) env w = ROk (holds w r (timestamp env) a) w.
Proof.
  intros Ht. unfold Rbac.has_role, holds. specialize (Ht r a). mrun.
  destruct (w_store w (OKey.Role r a)) as [[b|g]|] eqn:Hc; cbn; [naive_solver| |].
  - destruct (expires_at g); done.
  - by rewrite Hc.
Qed.

Lemma role_read_ok {E} r a env w b w' :
  Rbac.has_role (E := E) (OKey.Role r a) env w = ROk b w' ->
  w' = w /\ b = holds w r (timestamp env) a.
Proof.
  unfold Rbac.has_role, holds. mrun.
  destruct (w_store w (OKey.Role r a)) as [[x|g]|] eqn:Hc; cbn; [done| |].
  - destruct (expires_at g); intros [= <- <-]; done.
  - rewrite Hc. by intros [= <- <-].
Qed.

Lemma holds_frame w w' r now a :
  w_store w' (OKey.Role r a) = w_store w (OKey.Role r a) -> holds w' r now a = holds w r now a.
Proof. unfold holds. by intros ->. Qed.

Lemma orequire_role_ok a r env w u w' :
  require_role a r env w = ROk u w' ->
  w' = w /\ authorized env a = true /\ holds w r (timestamp env) a = true.
Proof.
  unfold require_role. intros H. apply bind_ok in H as (u1 & w1 & Ha & H).
  apply require_auth_ok in Ha as [Ha ->]. apply bind_ok in H as (b & w1 & Hb & H).
  apply role_read_ok in Hb as [-> ->]. destruct (holds _ _ _ _); [|done]. by injection H as _ <-.
Qed.

Lemma orequire_or_ok a r env w u w' :
  require_role_or_admin a r env w = ROk u w' ->
  w' = w /\ authorized env a = true /\
  holds w OracleRole.Admin (timestamp env) a || holds w r (timestamp env) a = true.
Proof.
  unfold require_role_or_admin. intros H. apply map_err_ok in H.
  unfold Rbac.require_role_or_admin in H.
  apply bind_ok in H as (u1 & w1 & Ha & H). apply require_auth_ok in Ha as [Ha ->].
  apply bind_ok in H as (b & w1 & Hb & H). apply role_read_ok in Hb as [-> ->].
  apply bind_ok in H as (ok & w1 & Hok & H).
  destruct (holds w OracleRole.Admin (timestamp env) a).
  - injection Hok as <- <-. by injection H as _ <-.
  - apply role_read_ok in Hok as [-> ->]. destruct (holds w r _ a); [|done]. by injection H as _ <-.
Qed.

(** ** Computations that only read, and that only move the other contracts *)

Lemma reads {A} (m : OM A) `{!Keeps eq m} env w a w' : m env w = ROk a w' -> w' = w.
Proof. intros H. symmetry. exact (keeps_ok eq m _ _ _ _ H). Qed.

(** Nothing but the state of the called contracts changed. *)
Record outer w w' : Prop := {
  ou_store : w_store w' = w_store w;
  ou_persist : w_persist w' = w_persist w
}.

#[export] Instance outer_preorder : PreOrder outer.
Proof. split; [done|]. intros w1 w2 w3 [H1 P1] [H2 P2]. split; congruence. Qed.
#[export] Instance outer_tokens t : Allows outer (set_tokens t).
Proof. done. Qed.
#[export] Instance outer_ttl o a b : Allows outer (add_ttl o a b).
Proof. done. Qed.
#[export] Instance outer_event x : Allows outer (add_event x).
Proof. done. Qed.

Lemma outer_history w w' : outer w w' -> history w' = history w.
Proof. unfold history. by intros [_ ->]. Qed.

Lemma outer_feeders n w w' : outer w w' -> Feeders n w -> Feeders n w'.
Proof.
  intros [_ Hp] [H1 H2 H3 H4].
  split; unfold feeders, submission in *; rewrite ?Hp; try done; intros *; rewrite Hp; auto.
Qed.

(** ** Frames of the invariant *)

Lemma oconfig_frames : frames (ooff OConf) config_valid.
Proof.
  intros w w' Hf Hc c. rewrite Hf by (unfold ooff; cbn; tauto). apply Hc.
Qed.

Lemma unguarded_frames : frames (ooff OGuard) unguarded.
Proof.
  intros w w' Hf. unfold unguarded. by rewrite Hf by (unfold ooff; cbn; tauto).
Qed.

Lemma feeders_frame n w w' : pframe (ooff OFeeders) w w' -> Feeders n w -> Feeders n w'.
Proof.
  intros Hf [H1 H2 H3 H4].
  assert (Hl : feeders w' = feeders w) by (unfold feeders; by rewrite Hf by (unfold ooff; cbn; tauto)).
  assert (Hs : forall a, submission w' a = submission w a)
    by (intros a; unfold submission; by rewrite Hf by (unfold ooff; cbn; tauto)).
  split; rewrite ?Hl; try done; intros *; rewrite Hs; [apply H3|apply H4].
Qed.

Lemma history_frame w w' : pframe (ooff OHistory) w w' -> history w' = history w.
Proof. intros Hf. unfold history. by rewrite Hf by (unfold ooff; cbn; tauto). Qed.

Lemma pairs_frame n w w' : pframe (ooff OPairs) w w' -> Pairs n w -> Pairs n w'.
Proof.
  intros Hf [H1 H2 H3 H4].
  split; intros *; rewrite Hf by (unfold ooff; cbn; tauto); eauto.
Qed.

Lemma feeders_mono n n' w : Feeders n w -> n <= n' -> Feeders n' w.
Proof.
  intros [H1 H2 H3 H4] Hle. split; try done. intros a d Hd. specialize (H4 a d Hd). lia.
Qed.

Lemma pairs_mono n n' w : Pairs n w -> n <= n' -> Pairs n' w.
Proof.
  intros [H1 H2 H3 H4] Hle. split; try done; intros b q a d Hd.
  - specialize (H3 b q a d Hd). lia.
  - specialize (H4 b q a d Hd). lia.
Qed.

End Invariant.
