(* ===== verification/OracleKeep.v ===== *)
(** * TwapOracle: the effect of the storage helpers

    What writing, renewing and removing entries leaves in the feeders, the
    submissions and the history; removing a feeder and dropping the price cache
    keep the invariant of the feeders. *)

From stdpp Require Import base numbers list option strings sets sorting.
From Stdlib Require Import ZArith Lia String.
From S2P Require Import Prelude Host Ttl Pause Rbac Frame Admins OracleData OracleMedian.
From S2P Require Import OracleOps OracleSystem OracleState.
Import OracleError.

#[local] Open Scope Z_scope.
#[local] Open Scope sf_scope.

Section Keep.
Context {T : Type} `{FC : FeedClient T}.
Abbreviation OM := (M OKey.data_key T OEvent.oracle_event oracle_error).
Abbreviation OWorld := (World OKey.data_key T OEvent.oracle_event).
Implicit Types (w : OWorld) (a : Address).

(** ** Persistent entries *)

Lemma persist_put_eq k v w : w_persist (put_persist k v w) k = v.
Proof. apply put_eq. Qed.

Lemma persist_put_ne k k' v w : k <> k' -> w_persist (put_persist k v w) k' = w_persist w k'.
Proof. apply put_ne. Qed.

Lemma bump_run k env w :
  is_Some (w_persist w k) ->
  bump_persistent (K := OKey.data_key) (X := OEvent.oracle_event) (E := oracle_error) k env w =
    ROk tt (add_ttl (Some k) MIN_TTL_LEDGERS EXTEND_TTL_LEDGERS w).
Proof. intros [v Hv]. unfold bump_persistent, extend_ttl_persistent. by rewrite Hv. Qed.

Lemma bump_ok k env w u w' :
  bump_persistent (K := OKey.data_key) (X := OEvent.oracle_event) (E := oracle_error) k env w =
    ROk u w' -> w_store w' = w_store w /\ w_persist w' = w_persist w.
Proof.
  unfold bump_persistent, extend_ttl_persistent. destruct (is_some _); [|done]. by intros [= _ <-].
Qed.

(** Writing an entry and renewing it. *)
Lemma pset_bump_run k (v : key_val k) env w :
  (do! pset k v; bump_persistent (K := OKey.data_key) (X := OEvent.oracle_event) (E := oracle_error) k)
    env w = ROk tt (add_ttl (Some k) MIN_TTL_LEDGERS EXTEND_TTL_LEDGERS (put_persist k (Some v) w)).
Proof.
  erewrite bind_run by reflexivity. apply bump_run. rewrite persist_put_eq. by eexists.
Qed.

Lemma tracked_spec a l : tracked a l = true <-> a ∈ l.
Proof.
  unfold tracked. rewrite existsb_exists. setoid_rewrite addr_eqb_true.
  setoid_rewrite <- list_elem_of_In. naive_solver.
Qed.

Lemma without_absent a l : a ∉ l -> without a l = l.
Proof.
  intros Ha. unfold without. apply forallb_filter_id, forallb_forall. intros x Hx%list_elem_of_In.
  apply negb_true_iff, addr_eqb_false. by intros ->.
Qed.

(** Reads of the parts after a write. *)
Lemma submission_put a v w : submission (put_persist (OKey.Submission a) v w) a = v.
Proof. exact (persist_put_eq (OKey.Submission a) v w). Qed.
Lemma submission_put_ne k v w a :
  k <> OKey.Submission a -> submission (put_persist k v w) a = submission w a.
Proof. intros Hk. exact (persist_put_ne k (OKey.Submission a) v w Hk). Qed.
Lemma feeders_put v w : feeders (put_persist OKey.Submitters v w) = default [] v.
Proof. unfold feeders. by rewrite (persist_put_eq OKey.Submitters). Qed.
Lemma feeders_put_ne k v w : k <> OKey.Submitters -> feeders (put_persist k v w) = feeders w.
Proof. intros Hk. unfold feeders. by rewrite (persist_put_ne k). Qed.
Lemma history_put v w : history (put_persist OKey.PriceObservations v w) = default [] v.
Proof. unfold history. by rewrite (persist_put_eq OKey.PriceObservations). Qed.
Lemma history_put_ne k v w : k <> OKey.PriceObservations -> history (put_persist k v w) = history w.
Proof. intros Hk. unfold history. by rewrite (persist_put_ne k). Qed.
Lemma submission_ttl k x y w a : submission (add_ttl k x y w) a = submission w a.
Proof. done. Qed.
Lemma feeders_ttl k x y w : feeders (add_ttl k x y w) = feeders w.
Proof. done. Qed.
Lemma history_ttl k x y w : history (add_ttl k x y w) = history w.
Proof. done. Qed.
Lemma submission_store k v w a : submission (put k v w) a = submission w a.
Proof. done. Qed.
Lemma feeders_store k v w : feeders (put k v w) = feeders w.
Proof. done. Qed.
Lemma history_store k v w : history (put k v w) = history w.
Proof. done. Qed.

Lemma submitters_run env w : submitters env w = ROk (feeders w) w.
Proof. done. Qed.

Lemma latest_run l o env w : exists o', latest_submission l o env w = ROk o' w.
Proof.
  revert o. induction l as [|x l IH]; intros o; cbn [latest_submission]; [by eexists|].
  erewrite bind_run by reflexivity. apply IH.
Qed.

End Keep.

(** Evaluate the parts after a chain of writes. *)
Ltac parts :=
  repeat first
    [ rewrite submission_ttl | rewrite feeders_ttl | rewrite history_ttl
    | rewrite submission_store | rewrite feeders_store | rewrite history_store
    | rewrite submission_put | rewrite feeders_put | rewrite history_put
    | rewrite submission_put_ne by congruence | rewrite feeders_put_ne by congruence
    | rewrite history_put_ne by congruence ].

Section Feeders.
Context {T : Type} `{FC : FeedClient T}.
Abbreviation OM := (M OKey.data_key T OEvent.oracle_event oracle_error).
Abbreviation OWorld := (World OKey.data_key T OEvent.oracle_event).
Implicit Types (w : OWorld) (a : Address).

(** ** Removing feeders *)

Lemma remove_submitter_run a env w :
  exists w', remove_submitter a env w = ROk tt w' /\
    feeders w' = without a (feeders w) /\
    (forall b, submission w' b = if decide (b = a) then None else submission w b).
Proof.
  unfold remove_submitter. erewrite bind_run by reflexivity.
  set (w1 := put_persist (OKey.Submission a) None w).
  assert (Hs1 : forall b, submission w1 b = if decide (b = a) then None else submission w b).
  { intros b. unfold w1. destruct (decide (b = a)) as [->|Hb]; by parts. }
  assert (Hf1 : feeders w1 = feeders w) by (unfold w1; by parts).
  erewrite bind_run by apply submitters_run. rewrite Hf1.
  destruct (tracked a (feeders w)) eqn:Ht.
  - destruct (without a (feeders w)) as [|x l] eqn:Hw.
    + erewrite bind_run by reflexivity. eexists. split; [reflexivity|].
      split; [by parts|]. intros b. parts. apply Hs1.
    + rewrite <- Hw. clear Hw. erewrite bind_run by reflexivity.
      erewrite bind_run by (apply bump_run; eexists; apply (persist_put_eq OKey.Submitters)).
      match goal with |- context [bind _ _ env ?w2] =>
        destruct (latest_run (without a (feeders w)) None env w2) as [o Ho] end.
      erewrite bind_run by exact Ho.
      destruct o; (eexists; split; [reflexivity|]; parts; split; [done|]; intros b; parts; apply Hs1).
  - exists w1. split; [done|]. split; [|done]. rewrite Hf1. symmetry. apply without_absent.
    intros Ha%tracked_spec. congruence.
Qed.

Lemma removed_feeders n a w w' :
  feeders w' = without a (feeders w) ->
  (forall b, submission w' b = if decide (b = a) then None else submission w b) ->
  Feeders n w -> Feeders n w'.
Proof.
  intros Hf Hs [H1 H2 H3 H4]. split; rewrite ?Hf.
  - by apply without_nodup.
  - unfold without. pose proof (filter_length_le (fun m => negb (addr_eqb m a)) (feeders w)). lia.
  - intros b. rewrite without_spec, Hs, H3. destruct (decide (b = a)) as [->|Hb]; [|naive_solver].
    split; [naive_solver|by intros [? ?]].
  - intros b d. rewrite Hs. destruct (decide (b = a)); [done|]. apply H4.
Qed.

#[export] Instance keeps_remove_feeder n a : Keeps (stable (Feeders (T := T) n)) (remove_submitter a).
Proof.
  intros env w. destruct (remove_submitter_run a env w) as (w' & -> & Hf & Hs).
  intros HF. by eapply (removed_feeders n a).
Qed.

(** ** Dropping the price cache *)

Lemma remove_submissions_run l env w :
  exists w', remove_submissions l env w = ROk tt w' /\ w_store w' = w_store w /\
    forall k, w_persist w' k =
      match k with
      | OKey.Submission a => if bool_decide (a ∈ l) then None else w_persist w (OKey.Submission a)
      | k => w_persist w k
      end.
Proof.
  revert w. induction l as [|x l IH]; intros w; cbn [remove_submissions].
  - exists w. split; [done|]. split; [done|]. by intros [].
  - erewrite bind_run by reflexivity.
    destruct (IH (put_persist (OKey.Submission x) None w)) as (w' & -> & Hs & Hp).
    exists w'. split; [done|]. split; [done|]. intros k. rewrite Hp.
    destruct k; try (refine (persist_put_ne _ _ _ _ _); congruence).
    change (w_persist (put_persist (OKey.Submission x) None w) (OKey.Submission feeder))
      with (submission (put_persist (OKey.Submission x) None w) feeder).
    destruct (decide (x = feeder)) as [->|Hne].
    + rewrite submission_put, (bool_decide_eq_true_2 (feeder ∈ feeder :: l)) by set_solver.
      by case_bool_decide.
    + rewrite submission_put_ne by congruence.
      by rewrite (bool_decide_ext (feeder ∈ x :: l) (feeder ∈ l)) by set_solver.
Qed.

Lemma clear_prices_run env w :
  exists w', clear_prices env w = ROk tt w' /\
    frame (fun k => k = OKey.Price) w w' /\ w_store w' OKey.Price = None /\
    feeders w' = [] /\ history w' = [] /\
    (forall a, submission w' a = if bool_decide (a ∈ feeders w) then None else submission w a).
Proof.
  unfold clear_prices. erewrite bind_run by reflexivity.
  set (w0 := put OKey.Price None w). erewrite bind_run by apply submitters_run.
  change (feeders w0) with (feeders w).
  destruct (remove_submissions_run (feeders w) env w0) as (w1 & H1 & Hs1 & Hp1).
  erewrite bind_run by exact H1. erewrite bind_run by reflexivity.
  eexists. split; [reflexivity|]. split_and!; [| |by parts..|].
  - intros k Hk. change (w_store w1 k = w_store w k). rewrite Hs1. unfold w0.
    apply put_store_ne. by intros <-.
  - change (w_store w1 OKey.Price = None). rewrite Hs1. exact (put_store_eq OKey.Price None w).
  - intros a. parts. exact (Hp1 (OKey.Submission a)).
Qed.

Lemma empty_history : History [].
Proof. split; [done|constructor|constructor]. Qed.

#[export] Instance keeps_clear_feeders n : Keeps (stable (Feeders (T := T) n)) clear_prices.
Proof.
  intros env w. destruct (clear_prices_run env w) as (w' & -> & _ & _ & Hf & _ & Hs).
  intros [H1 H2 H3 H4]. split; rewrite ?Hf.
  - constructor.
  - done.
  - intros a. rewrite Hs, elem_of_nil. case_bool_decide as Ha.
    + split; [done|by intros [? ?]].
    + rewrite <- H3. tauto.
  - intros a d. rewrite Hs. case_bool_decide; [done|]. apply H4.
Qed.

#[export] Instance keeps_clear_history : Keeps (stable (fun w : OWorld => History (history w))) clear_prices.
Proof.
  intros env w. destruct (clear_prices_run env w) as (w' & -> & _ & _ & _ & Hh & _).
  intros _. rewrite Hh. apply empty_history.
Qed.

End Feeders.
