(* ===== verification/OraclePrice.v ===== *)
(** * TwapOracle: what the price computations return

    The loops over the feeders and over the history as functions of the world,
    the median of the fresh submissions, and the time-weighted average against
    its reference definition: the sum of price times duration over the sum of
    the durations.  On a history in order of time the checked arithmetic never
    fails, and the average stays within the prices it is made of. *)

From stdpp Require Import base numbers list option strings sets sorting.
From Stdlib Require Import ZArith Lia String.
From S2P Require Import Prelude Host Ttl Pause Rbac Frame OracleData OracleMedian.
From S2P Require Import OracleOps OracleSystem OracleState OracleKeep.
Import OracleError.

#[local] Open Scope Z_scope.
#[local] Open Scope sf_scope.

(** ** Reference definitions *)

(** Fresh at a time: young enough, and not zero. *)
Definition fresh (now staleness : Z) (d : PriceData) : bool :=
  (sat_u64 (now - updated_at d) <=? staleness) && negb (price d =? 0).

(** The price and the time each observation of a history counts for: until the
    next one, and no longer than the staleness bound. *)
Fixpoint spans (now staleness : Z) (l : list PriceObservation) : list (Z * Z) :=
  match l with
  | [] => []
  | o :: rest =>
      let next := match rest with o' :: _ => po_timestamp o' | [] => now end in
      (po_price o,
       Z.max 0 (Z.min (Z.min next now) (po_timestamp o + staleness) - po_timestamp o))
      :: spans now staleness rest
  end.

Definition total_duration (l : list (Z * Z)) : Z := foldr (fun x s => snd x + s) 0 l.
Definition weighted_sum (l : list (Z * Z)) : Z := foldr (fun x s => fst x * snd x + s) 0 l.

(** The time-weighted average, where any time has passed. *)
Definition weighted_average (l : list (Z * Z)) : option Z :=
  if total_duration l =? 0 then None else Some (weighted_sum l / total_duration l).

(** The most recent [count] observations. *)
Definition recent (count : Z) (l : list PriceObservation) : list PriceObservation :=
  drop (List.length l - Z.to_nat count) l.

Definition twap_of (now staleness count : Z) (l : list PriceObservation) : option Z :=
  weighted_average (spans now staleness (recent count l)).

(** ** The average *)

Lemma spans_nonneg now s l : Forall (fun x => 0 <= snd x) (spans now s l).
Proof. induction l as [|o l IH]; constructor; [cbn; lia|done]. Qed.

Lemma spans_prices now s l x : x ∈ spans now s l -> exists o, o ∈ l /\ fst x = po_price o.
Proof.
  revert x. induction l as [|o l IH]; intros x; cbn; [by intros ?%elem_of_nil|].
  rewrite elem_of_cons. intros [->|Hx].
  - exists o. split; [set_solver|done].
  - destruct (IH x Hx) as (o' & ? & ?). exists o'. split; [set_solver|done].
Qed.

Lemma total_nonneg l : Forall (fun x => 0 <= snd x) l -> 0 <= total_duration l.
Proof.
  induction 1 as [|x l Hx _ IH]; [done|].
  change (total_duration (x :: l)) with (snd x + total_duration l). lia.
Qed.

Lemma weighted_bounds lo hi l :
  Forall (fun x => 0 <= snd x) l -> Forall (fun x => lo <= fst x <= hi) l ->
  lo * total_duration l <= weighted_sum l <= hi * total_duration l.
Proof.
  intros H1 H2. induction H1 as [|x l Hx H1 IH]; [cbn; lia|].
  apply Forall_cons in H2 as [Hp H2]. specialize (IH H2).
  change (total_duration (x :: l)) with (snd x + total_duration l).
  change (weighted_sum (x :: l)) with (fst x * snd x + weighted_sum l).
  assert (lo * snd x <= fst x * snd x <= hi * snd x) by nia. lia.
Qed.

(** Prices between two bounds average between them. *)
Lemma average_bounds lo hi l p :
  Forall (fun x => 0 <= snd x) l -> Forall (fun x => lo <= fst x <= hi) l ->
  weighted_average l = Some p -> lo <= p <= hi.
Proof.
  intros H1 H2. unfold weighted_average. pose proof (total_nonneg l H1).
  pose proof (weighted_bounds lo hi l H1 H2).
  destruct (Z.eqb_spec (total_duration l) 0) as [|Hne]; [done|]. intros [= <-].
  split; [apply Z.div_le_lower_bound; lia|apply Z.div_le_upper_bound; lia].
Qed.

(** In order of time, the durations add up to no more than the time since the
    first observation. *)
Lemma total_bound now s l :
  StronglySorted later l ->
  total_duration (spans now s l) <=
    match l with [] => 0 | o :: _ => Z.max 0 (now - po_timestamp o) end.
Proof.
  induction l as [|o l IH]; [done|]. intros [Hs Hl]%StronglySorted_inv. specialize (IH Hs).
  cbn [spans total_duration foldr snd]. fold (total_duration (spans now s l)).
  destruct l as [|o' l]; cbn [spans total_duration foldr] in *; [lia|].
  apply Forall_cons in Hl as [Hl _]. unfold later in Hl. lia.
Qed.

Lemma drop_sorted {A} (R : relation A) n (l : list A) : StronglySorted R l -> StronglySorted R (drop n l).
Proof. intros H. rewrite <- (take_drop n l) in H. by apply StronglySorted_app in H as (_ & _ & ?). Qed.

Lemma history_drop n l : History l -> History (drop n l).
Proof.
  intros [H1 H2 H3]. split.
  - rewrite length_drop. lia.
  - by apply drop_sorted.
  - by apply Forall_drop.
Qed.

Lemma history_total now s l :
  History l -> U64 now -> 0 <= total_duration (spans now s l) <= u64_max.
Proof.
  intros [_ Hs Ht] Hn. split; [apply total_nonneg, spans_nonneg|].
  pose proof (total_bound now s l Hs). destruct l as [|o l]; [mlia|].
  apply Forall_cons in Ht as [[_ Ho] _]. unfold U64 in *. lia.
Qed.

Lemma history_weighted now s l :
  History l -> U64 now -> 0 <= weighted_sum (spans now s l) <= u64_max * u64_max.
Proof.
  intros Hh Hn. pose proof (history_total now s l Hh Hn).
  assert (Hp : Forall (fun x => 0 <= fst x <= u64_max) (spans now s l)).
  { apply Forall_forall. intros x (o & Ho & ->)%spans_prices.
    destruct Hh as [_ _ Ht]. rewrite Forall_forall in Ht. specialize (Ht o Ho). lia. }
  pose proof (weighted_bounds 0 u64_max _ (spans_nonneg now s l) Hp). nia.
Qed.

Section Prices.
Context {T : Type} `{FC : FeedClient T}.
Abbreviation OM := (M OKey.data_key T OEvent.oracle_event oracle_error).
Abbreviation OWorld := (World OKey.data_key T OEvent.oracle_event).
Implicit Types (w : OWorld) (a : Address).

(** ** The loop of [calculate_twap] *)

Lemma checked_run (fits : Z -> bool) z (e : oracle_error) env w :
  fits z = true ->
  ok_or (K := OKey.data_key) (T := T) (X := OEvent.oracle_event) (checked fits z) e env w = ROk z w.
Proof. intros H. unfold checked. by rewrite H. Qed.

Lemma span_eq now s o next :
  U64 now -> 0 <= s -> U64 (po_timestamp o) ->
  sat_u64 (Z.min (Z.min next now) (sat_u64 (po_timestamp o + s)) - po_timestamp o) =
  Z.max 0 (Z.min (Z.min next now) (po_timestamp o + s) - po_timestamp o).
Proof. mlia. Qed.

Lemma weigh_run obs now s env w n : forall i p d,
  n = (List.length obs - i)%nat -> History obs -> U64 now -> 0 <= s -> 0 <= p -> 0 <= d ->
  p + weighted_sum (spans now s (drop i obs)) <= u128_max ->
  d + total_duration (spans now s (drop i obs)) <= u64_max ->
  weigh (T := T) obs now s n i p d env w =
    ROk (p + weighted_sum (spans now s (drop i obs)), d + total_duration (spans now s (drop i obs))) w.
Proof.
  induction n as [|n IH]; intros i p d Hn Hh Hnow Hs Hp Hd Hbp Hbd; cbn [weigh].
  - rewrite drop_ge by lia. cbn. by rewrite !Z.add_0_r.
  - destruct (lookup_lt_is_Some_2 obs i) as [o Ho]; [lia|]. rewrite Ho. erewrite bind_run by reflexivity.
    assert (Hty : 0 < po_price o <= u64_max /\ U64 (po_timestamp o)).
    { destruct Hh as [_ _ Ht]. by apply (Forall_lookup_1 _ _ _ _ Ht Ho). }
    rewrite (drop_S obs o i Ho) in Hbp, Hbd |- *.
    assert (Hnext : (match obs !! S i with Some o' => po_timestamp o' | None => now end) =
                    match drop (S i) obs with o' :: _ => po_timestamp o' | [] => now end).
    { destruct (obs !! S i) as [o'|] eqn:Ho'; [by rewrite (drop_S obs o' (S i) Ho')|].
      apply lookup_ge_None_1 in Ho'. by rewrite drop_ge. }
    rewrite Hnext, span_eq by tauto. set (next := match drop (S i) obs with _ :: _ => _ | [] => _ end) in *.
    set (dur := Z.max 0 _).
    pose proof (history_total now s _ (history_drop (S i) obs Hh) Hnow).
    pose proof (history_weighted now s _ (history_drop (S i) obs Hh) Hnow).
    change (weighted_sum (spans now s (o :: drop (S i) obs)))
      with (po_price o * dur + weighted_sum (spans now s (drop (S i) obs))) in *.
    change (total_duration (spans now s (o :: drop (S i) obs)))
      with (dur + total_duration (spans now s (drop (S i) obs))) in *.
    assert (0 <= dur) by (unfold dur; lia). assert (0 <= po_price o * dur) by nia.
    erewrite bind_run by (apply checked_run, in_range_spec; lia).
    erewrite bind_run by (apply checked_run, in_range_spec; lia).
    erewrite bind_run by (apply checked_run, in_range_spec; lia).
    rewrite IH; [by rewrite !Z.add_assoc|lia|done..|lia|lia|lia|lia].
Qed.

(** The average of a history is its reference definition: the overflow checks
    never fire. *)
Lemma calculate_run count s env w :
  History (history w) -> U64 (timestamp env) -> 0 <= s -> 0 < count <= MAX_TWAP_OBSERVATIONS ->
  calculate_twap count s env w =
    match twap_of (timestamp env) s count (history w) with
    | Some p => ROk p w
    | None => RErr NoPriceAvailable w
    end.
Proof.
  intros Hh Hnow Hs Hc. unfold calculate_twap. erewrite bind_run by reflexivity.
  fold (history w). rewrite bind_throw_if. unfold twap_of, recent.
  destruct (Z.eqb_spec (Z.of_nat (List.length (history w))) 0) as [Hz|Hz].
  { destruct (history w); [done|cbn in Hz; lia]. }
  erewrite bind_run by reflexivity.
  set (first := (List.length (history w) - Z.to_nat count)%nat).
  assert (Hbd : Z.of_nat (List.length (history w)) <= 32) by apply Hh.
  assert (Z.to_nat (sat_u32 (Z.of_nat (List.length (history w)) - count)) = first) as ->.
  { unfold first, MAX_TWAP_OBSERVATIONS in *. mlia. }
  pose proof (history_total (timestamp env) s _ (history_drop first _ Hh) Hnow).
  pose proof (history_weighted (timestamp env) s _ (history_drop first _ Hh) Hnow) as Hw.
  erewrite bind_run by (apply weigh_run; [done|done|done|done|done|done| |lia];
    rewrite Z.add_0_l; unfold u64_max, u128_max in *; lia).
  rewrite !Z.add_0_l, bind_throw_if. unfold weighted_average.
  destruct (Z.eqb_spec (total_duration (spans (timestamp env) s (drop first (history w)))) 0)
    as [|Hne]; [done|].
  rewrite bind_throw_if. destruct (Z.ltb_spec u64_max
    (weighted_sum (spans (timestamp env) s (drop first (history w))) /
     total_duration (spans (timestamp env) s (drop first (history w))))) as [Hlt|]; [|done].
  exfalso. assert (Hp : Forall (fun x => 0 <= fst x <= u64_max)
    (spans (timestamp env) s (drop first (history w)))).
  { apply Forall_forall. intros x (o & Ho & ->)%spans_prices.
    destruct (history_drop first _ Hh) as [_ _ Ht]. rewrite Forall_forall in Ht.
    specialize (Ht o Ho). lia. }
  pose proof (average_bounds 0 u64_max _ _ (spans_nonneg _ _ _) Hp
    (ltac:(unfold weighted_average; by rewrite (proj2 (Z.eqb_neq _ _) Hne)))). lia.
Qed.

(** ** The loops over the feeders *)

Definition fresh_prices (w : OWorld) (now s : Z) : list Z :=
  omap (fun a => match submission w a with
                 | Some d => if fresh now s d then Some (price d) else None
                 | None => None
                 end) (feeders w).

Definition any_submission (w : OWorld) : bool :=
  existsb (fun a => is_some (submission w a)) (feeders w).

Lemma collect_fresh_run l now s acc b env w :
  collect_fresh l now s acc b env w =
    ROk (acc ++ omap (fun a => match submission w a with
                 | Some d => if fresh now s d then Some (price d) else None
                 | None => None
                 end) l,
         b || existsb (fun a => is_some (submission w a)) l) w.
Proof.
  revert acc b. induction l as [|x l IH]; intros acc b; cbn [collect_fresh omap list_omap existsb].
  - by rewrite app_nil_r, orb_false_r.
  - erewrite bind_run by reflexivity. fold (submission w x).
    destruct (submission w x) as [d|]; cbn [is_some].
    + fold (fresh now s d). destruct (fresh now s d); rewrite IH, orb_true_r; cbn;
        [by rewrite <- app_assoc|done].
    + rewrite IH. cbn. done.
Qed.

Lemma fresh_prices_positive n w now s :
  Feeders n w -> Forall (fun x => 0 < x <= u64_max) (fresh_prices w now s).
Proof.
  intros HF. apply Forall_forall. intros x Hx. unfold fresh_prices in Hx.
  apply list_elem_of_omap in Hx as (a & _ & Ha).
  destruct (submission w a) as [d|] eqn:Hd; [|done]. destruct (fresh now s d); [|done].
  injection Ha as <-. by apply (fe_submission n w HF a).
Qed.

(** The median of values in a range. *)
Lemma median_in_range lo hi l m : Forall (fun x => lo <= x <= hi) l -> median l = Some m -> lo <= m <= hi.
Proof.
  intros Hf Hm. destruct (decide (l = [])) as [->|Hne]; [done|].
  destruct (median_spec l Hne) as (m' & s & Hp & Hs & Hmed & Hr). rewrite Hr in Hm.
  injection Hm as ->. eapply median_majority; try done.
  assert (inside lo hi l = List.length l) as ->.
  { clear -Hf. unfold inside. induction Hf as [|x l Hx Hf IH]; [done|].
    rewrite filter_cons_True by done. cbn. by rewrite IH. }
  destruct l; [done|cbn; lia].
Qed.

(** What a submission records: the median of the fresh submissions, or its own
    price when there is no configuration. *)
Definition current_of (w : OWorld) (p now : Z) : Z :=
  match w_store w OKey.Config with
  | None => p
  | Some c =>
      match fresh_prices w now (max_staleness c) with
      | [] => p
      | l => default p (median l)
      end
  end.

Lemma current_run n p now env w :
  Feeders n w -> 0 < p <= u64_max ->
  current_submission_median p now env w = ROk (current_of w p now) w /\
  0 < current_of w p now <= u64_max.
Proof.
  intros HF Hp. unfold current_submission_median, current_of. erewrite bind_run by reflexivity.
  destruct (w_store w OKey.Config) as [c|]; [|done].
  erewrite bind_run by apply submitters_run. erewrite bind_run by apply collect_fresh_run.
  cbn [fst app]. fold (fresh_prices w now (max_staleness c)).
  pose proof (fresh_prices_positive n w now (max_staleness c) HF) as Hpos.
  destruct (fresh_prices w now (max_staleness c)) as [|x l]; [done|].
  destruct (median_spec (x :: l) ltac:(done)) as (m & s & _ & _ & _ & Hm). rewrite Hm.
  split; [done|]. change (default p (Some m)) with m. assert (1 <= m <= u64_max); [|lia].
  eapply median_in_range; [|exact Hm]. eapply Forall_impl; [exact Hpos|]. cbv beta. intros; lia.
Qed.

(** ** Recording an observation *)

(** The history with one more observation: it replaces one of the same time,
    and displaces the oldest of a full history. *)
Definition pushed (p ts : Z) (l : list PriceObservation) : list PriceObservation :=
  let o := mkPriceObservation p ts in
  let append := (if Z.of_nat (List.length l) =? MAX_TWAP_OBSERVATIONS then drop 1 l else l) ++ [o] in
  match last l with
  | Some latest => if po_timestamp latest =? ts then <[(List.length l - 1)%nat := o]> l else append
  | None => append
  end.

(** Whether the latest observation is later than a time. *)
Definition ahead (ts : Z) (l : list PriceObservation) : bool :=
  match last l with Some latest => ts <? po_timestamp latest | None => false end.

Lemma record_run p ts env w :
  record_price_observation p ts env w =
    if ahead ts (history w) then RErr StalePriceFeed w
    else ROk tt (add_ttl (Some OKey.PriceObservations) MIN_TTL_LEDGERS EXTEND_TTL_LEDGERS
                   (put_persist OKey.PriceObservations (Some (pushed p ts (history w))) w)).
Proof.
  unfold record_price_observation. erewrite bind_run by reflexivity. fold (history w).
  unfold ahead, pushed. destruct (last (history w)) as [o|].
  - rewrite bind_throw_if. destruct (ts <? po_timestamp o); [done|].
    destruct (po_timestamp o =? ts); apply (pset_bump_run OKey.PriceObservations).
  - apply (pset_bump_run OKey.PriceObservations).
Qed.

Lemma snoc_cases {A} (l : list A) : l = [] \/ exists l0 x, l = l0 ++ [x].
Proof. destruct l as [|x l _] using rev_ind; [by left|right; eauto]. Qed.

Lemma pushed_history p ts l :
  History l -> 0 < p <= u64_max -> U64 ts -> ahead ts l = false -> History (pushed p ts l).
Proof.
  intros Hh Hp Hts Ha. unfold pushed, ahead in *.
  destruct (snoc_cases l) as [->|(l0 & o & ->)].
  { cbn. split; [done| |]; repeat constructor; cbn; unfold U64 in *; lia. }
  rewrite last_snoc in *. apply Z.ltb_ge in Ha.
  pose proof Hh as [Hb Hs Ht]. pose proof Hs as (Hle & Hs0 & _)%StronglySorted_app.
  apply Forall_app in Ht as [Ht0 Ht1].
  rewrite length_app in Hb |- *. cbn [List.length] in Hb |- *.
  set (x := mkPriceObservation p ts).
  assert (Htx : Forall (fun o => 0 < po_price o <= u64_max /\ U64 (po_timestamp o)) [x])
    by (constructor; [split; done|constructor]).
  destruct (Z.eqb_spec (po_timestamp o) ts) as [Heq|Hne].
  - replace (List.length l0 + 1 - 1)%nat with (List.length l0) by lia.
    rewrite insert_app_r_alt, Nat.sub_diag by done. split.
    + rewrite length_app. cbn. lia.
    + apply StronglySorted_app_2; [|done|repeat constructor].
      intros a b Hin ->%list_elem_of_singleton. unfold later. cbn. rewrite <- Heq.
      apply (Hle a o Hin). set_solver.
    + by apply Forall_app.
  - set (k := if Z.of_nat (List.length l0 + 1) =? MAX_TWAP_OBSERVATIONS then 1%nat else 0%nat).
    assert ((if Z.of_nat (List.length l0 + 1) =? MAX_TWAP_OBSERVATIONS then drop 1 (l0 ++ [o])
             else l0 ++ [o]) = drop k (l0 ++ [o])) as ->.
    { unfold k. by destruct (Z.of_nat (List.length l0 + 1) =? MAX_TWAP_OBSERVATIONS). }
    destruct (history_drop k _ Hh) as [Hb' Hs' Ht']. split.
    + rewrite length_app, length_drop, length_app. cbn. unfold k.
      destruct (Z.eqb_spec (Z.of_nat (List.length l0 + 1)) MAX_TWAP_OBSERVATIONS); lia.
    + apply StronglySorted_app_2; [|done|repeat constructor].
      intros a b Hin ->%list_elem_of_singleton. unfold later. cbn.
      assert (Hin' : a ∈ l0 ++ [o]).
      { rewrite <- (take_drop k (l0 ++ [o])). set_solver. }
      apply elem_of_app in Hin' as [H0|Ho]; [|apply list_elem_of_singleton in Ho; subst a; lia].
      specialize (Hle a o H0 ltac:(set_solver)). unfold later in Hle. lia.
    + by apply Forall_app.
Qed.

(** The latest observation is the one just recorded. *)
Lemma pushed_last p ts l : last (pushed p ts l) = Some (mkPriceObservation p ts).
Proof.
  unfold pushed. destruct (snoc_cases l) as [->|(l0 & o & ->)]; [done|].
  rewrite last_snoc. destruct (po_timestamp o =? ts); [|apply last_snoc].
  rewrite length_app. cbn. rewrite insert_app_r_alt by lia.
  replace (List.length l0 + 1 - 1 - List.length l0)%nat with O by lia. cbn. apply last_snoc.
Qed.

End Prices.
