(* ===== verification/OracleSubmit.v ===== *)
(** * TwapOracle: accepting a price

    What a successful submission requires and what it leaves. *)

From stdpp Require Import base numbers list option strings sets sorting.
From Stdlib Require Import ZArith Lia String.
From S2P Require Import Prelude Host Ttl Pause Rbac Frame OracleData OracleMedian.
From S2P Require Import OracleOps OracleSystem OracleState OracleKeep OraclePrice.
Import OracleError.

#[local] Open Scope Z_scope.
#[local] Open Scope sf_scope.

Section Submit.
Context {T : Type} `{FC : FeedClient T}.
Abbreviation OM := (M OKey.data_key T OEvent.oracle_event oracle_error).
Abbreviation OWorld := (World OKey.data_key T OEvent.oracle_event).
Implicit Types (w : OWorld) (a : Address).

(** ** Reading the pause *)

(** Only the pause cell may have changed. *)
Record pause_read w w' : Prop := {
  pr_store k : k <> OKey.Paused -> w_store w' k = w_store w k;
  pr_persist : w_persist w' = w_persist w
}.

#[export] Instance pause_read_preorder : PreOrder pause_read.
Proof.
  split; [done|]. intros w1 w2 w3 [S1 P1] [S2 P2]. split; [|congruence].
  intros k Hk. by rewrite S2, S1.
Qed.
#[export] Instance pause_read_put v : Allows pause_read (put OKey.Paused v).
Proof. intros w. split; [|done]. intros k Hk. by apply put_store_ne. Qed.

Lemma onot_paused_ok env w u w' : require_not_paused env w = ROk u w' -> pause_read w w'.
Proof. exact (keeps_ok pause_read require_not_paused env w u w'). Qed.

Lemma pause_read_holds w w' r now a : pause_read w w' -> holds w' r now a = holds w r now a.
Proof. intros [Hs _]. apply holds_frame, Hs. congruence. Qed.

Lemma pause_read_parts w w' :
  pause_read w w' -> feeders w' = feeders w /\ history w' = history w /\
  (forall a, submission w' a = submission w a) /\
  w_store w' OKey.Config = w_store w OKey.Config /\ w_store w' OKey.Price = w_store w OKey.Price.
Proof.
  intros [Hs Hp]. unfold feeders, history, submission. rewrite Hp.
  split_and!; try done; apply Hs; congruence.
Qed.

(** ** The checks *)

Lemma reject_if_ok (c : bool) a p r e env w u w' :
  (if c then reject a p r e else ret tt) env w = ROk u w' -> c = false /\ w' = w.
Proof. destruct c; [done|]. by intros [= _ <-]. Qed.

(** The change against the last accepted price, in basis points. *)
Definition deviation_of (p : Z) (last : option PriceData) : option Z :=
  match last with
  | Some l => if 0 <? price l then Some (abs_diff p (price l) * 10000 / price l) else None
  | None => None
  end.

Lemma deviation_ok p last env w d w' :
  last_price_deviation p last env w = ROk d w' -> w' = w /\ d = deviation_of p last.
Proof.
  unfold last_price_deviation, deviation_of. destruct last as [l|]; [|by intros [= <- <-]].
  destruct (0 <? price l); [|by intros [= <- <-]].
  intros H. apply bind_ok in H as (x & w1 & Hx & H). apply ok_or_ok in Hx as [Hx ->].
  injection H as <- <-. split; [done|]. do 2 f_equal. symmetry. by apply checked_Some in Hx as [_ ->].
Qed.

(** What a configured oracle checks. *)
Record Acceptable (w : OWorld) a p now (c : OracleConfig) : Prop := {
  ac_ceiling : max_price c <> 0 -> p <= max_price c;
  ac_deviation n : w_store w OKey.MaxDeviationBps = Some n -> 0 < n ->
    exceeds (deviation_of p (w_store w OKey.Price)) n = false;
  ac_interval d : submission w a = Some d -> 0 < min_submit_interval c ->
    min_submit_interval c <= sat_u64 (now - updated_at d)
}.

Lemma check_configured_ok a p now c env w u w' :
  check_configured a p now (deviation_of p (w_store w OKey.Price)) c env w = ROk u w' ->
  w' = w /\ Acceptable w a p now c.
Proof.
  unfold check_configured. intros H.
  apply bind_ok in H as (u1 & w1 & Hr & H). apply reject_if_ok in Hr as [H1 ->].
  apply bind_ok in H as (st & w1 & Hr & H). injection Hr as <- <-.
  apply bind_ok in H as (u2 & w1 & Hr & H). apply reject_if_ok in Hr as [H2 ->].
  assert (Hi : w' = w /\ forall d, submission w a = Some d -> 0 < min_submit_interval c ->
    min_submit_interval c <= sat_u64 (now - updated_at d)).
  { destruct (Z.ltb_spec 0 (min_submit_interval c)) as [Hlt|Hge].
    - apply bind_ok in H as (sub & w1 & Hr & H). injection Hr as <- <-. unfold submission.
      destruct (w_persist w (OKey.Submission a)) as [l|].
      + apply reject_if_ok in H as [Hlt' ->]. split; [done|]. intros d [= <-] _. by apply Z.ltb_ge.
      + injection H as _ <-. done.
    - injection H as _ <-. split; [done|]. intros. lia. }
  destruct Hi as [-> Hi]. split; [done|]. split; [| |done].
  - intros Hm. apply andb_false_iff in H1 as [H1|H1]; [|by apply Z.ltb_ge].
    apply negb_false_iff, Z.eqb_eq in H1. done.
  - intros n Hn Hpos. rewrite Hn in H2. cbn in H2.
    apply andb_false_iff in H2 as [H2|H2]; [|done]. apply Z.ltb_ge in H2. lia.
Qed.

Lemma add_submitter_ok a env w u w' :
  add_submitter a env w = ROk u w' ->
  (a ∉ feeders w -> Z.of_nat (List.length (feeders w)) < MAX_SUBMITTERS) /\
  feeders w' = (if decide (a ∈ feeders w) then feeders w else feeders w ++ [a]) /\
  (forall k, k <> OKey.Submitters -> w_persist w' k = w_persist w k) /\
  w_store w' = w_store w.
Proof.
  unfold add_submitter. erewrite bind_run by apply submitters_run.
  destruct (tracked a (feeders w)) eqn:Ht.
  - intros H. apply bump_ok in H as [Hs Hp]. apply tracked_spec in Ht.
    split; [done|]. split; [|by rewrite Hp]. unfold feeders. rewrite Hp. by rewrite decide_True.
  - assert (Ha : a ∉ feeders w) by (intros Ha%tracked_spec; congruence).
    rewrite bind_throw_if. destruct (Z.leb_spec MAX_SUBMITTERS (Z.of_nat (List.length (feeders w))))
      as [|Hlt]; [done|].
    rewrite (pset_bump_run OKey.Submitters). intros [= _ <-]. split; [done|].
    split; [parts; by rewrite decide_False|]. split; [|done]. intros k Hk.
    exact (persist_put_ne OKey.Submitters k _ w (not_eq_sym Hk)).
Qed.

(** ** An accepted submission *)

(** The part of [submit_price] after the checks. *)
Lemma submit_tail_ok a p env w u w' :
  (do! bump_instance;
   do! sset OKey.Price (mkPriceData p (timestamp env));
   do! pset (OKey.Submission a) (mkPriceData p (timestamp env));
   do! bump_persistent (OKey.Submission a);
   do! add_submitter a;
   let! m := current_submission_median p (timestamp env) in
   do! record_price_observation m (timestamp env);
   publish (OEvent.priced a p (timestamp env))) env w = ROk u w' ->
  (a ∉ feeders w -> Z.of_nat (List.length (feeders w)) < MAX_SUBMITTERS) /\
  w_store w' = store_put OKey.Price (Some (mkPriceData p (timestamp env))) (w_store w) /\
  (forall b, submission w' b =
     if decide (b = a) then Some (mkPriceData p (timestamp env)) else submission w b) /\
  feeders w' = (if decide (a ∈ feeders w) then feeders w else feeders w ++ [a]) /\
  exists m w1, current_submission_median p (timestamp env) env w1 = ROk m w1 /\
    feeders w1 = feeders w' /\ (forall b, submission w1 b = submission w' b) /\
    w_store w1 = w_store w' /\ ahead (timestamp env) (history w) = false /\
    history w' = pushed m (timestamp env) (history w).
Proof.
  intros H. do 3 (apply bind_ok in H as (? & ? & Hu & H); injection Hu as _ <-).
  apply bind_ok in H as (? & w1 & Hu & H). apply bump_ok in Hu as [Bs Bp].
  apply bind_ok in H as (? & w2 & Hu & H). apply add_submitter_ok in Hu as (Hroom & Af & Ap & As).
  apply bind_ok in H as (m & w3 & Hm & H). pose proof (reads _ _ _ _ _ Hm) as ->.
  apply bind_ok in H as (? & w3 & Hu & H). injection H as _ <-.
  rewrite record_run in Hu. destruct (ahead _ _) eqn:Hahead; [done|]. injection Hu as _ <-.
  set (d := mkPriceData p (timestamp env)) in *.
  assert (Hs : forall b, submission w2 b = if decide (b = a) then Some d else submission w b).
  { intros b. unfold submission. rewrite Ap by congruence. rewrite Bp.
    change (submission (put_persist (OKey.Submission a) (Some d) w) b =
            if decide (b = a) then Some d else submission w b).
    destruct (decide (b = a)) as [->|Hb]; by parts. }
  assert (Hf : feeders w1 = feeders w).
  { unfold feeders. rewrite Bp. exact (feeders_put_ne (OKey.Submission a) (Some d) w ltac:(congruence)). }
  assert (Hh : history w2 = history w).
  { unfold history. rewrite Ap, Bp by congruence.
    exact (history_put_ne (OKey.Submission a) (Some d) w ltac:(congruence)). }
  rewrite Hf in *. rewrite Hh in *. split; [done|]. split.
  { change (w_store w2 = store_put OKey.Price (Some d) (w_store w)). by rewrite As, Bs. }
  split; [intros b; parts; apply Hs|]. split; [parts; exact Af|].
  exists m, w2. split; [exact Hm|]. split_and!; [by parts|intros; by parts|done|done|by parts].
Qed.

Record Submitted (env : Env) w a p w' : Prop := {
  sb_auth : authorized env a = true;
  sb_role : holds w OracleRole.PriceFeeder (timestamp env) a = true;
  sb_nonzero : p <> 0;
  sb_sane : exceeds (deviation_of p (w_store w OKey.Price)) 5000 = false;
  sb_checks c : w_store w OKey.Config = Some c -> Acceptable w a p (timestamp env) c;
  sb_room : a ∉ feeders w -> Z.of_nat (List.length (feeders w)) < MAX_SUBMITTERS;
  sb_price : w_store w' OKey.Price = Some (mkPriceData p (timestamp env));
  sb_submission b : submission w' b =
    if decide (b = a) then Some (mkPriceData p (timestamp env)) else submission w b;
  sb_feeders : feeders w' = if decide (a ∈ feeders w) then feeders w else feeders w ++ [a];
  sb_store k : k <> OKey.Paused -> k <> OKey.Price -> w_store w' k = w_store w k
}.

(** The observation it records is the median of the fresh submissions. *)
Lemma submit_price_ok a p env w u w' :
  submit_price a p env w = ROk u w' ->
  Submitted env w a p w' /\
  exists m w1, current_submission_median p (timestamp env) env w1 = ROk m w1 /\
    feeders w1 = feeders w' /\ (forall b, submission w1 b = submission w' b) /\
    w_store w1 = w_store w' /\ ahead (timestamp env) (history w) = false /\
    history w' = pushed m (timestamp env) (history w).
Proof.
  unfold submit_price. intros H.
  apply bind_ok in H as (r & w1 & Hr & H). apply attempt_ok in Hr.
  apply bind_ok in H as (? & w2 & Hu & H). destruct r as [e|?]; [done|]. injection Hu as _ <-.
  apply onot_paused_ok in Hr as Hp.
  apply bind_ok in H as (r & w2 & Hr' & H). apply attempt_ok in Hr'.
  apply bind_ok in H as (? & w3 & Hu & H). destruct r as [e|?]; [done|]. injection Hu as _ <-.
  apply orequire_role_ok in Hr' as (-> & Ha & Hh). rewrite (pause_read_holds _ _ _ _ _ Hp) in Hh.
  destruct (pause_read_parts _ _ Hp) as (Pf & Ph & Psub & Pc & Pp).
  apply bind_ok in H as (? & w3 & Hu & H). apply reject_if_ok in Hu as [Hz ->].
  do 2 (apply bind_ok in H as (? & w3 & Hu & H); injection Hu as <- <-).
  apply bind_ok in H as (d & w3 & Hu & H). apply deviation_ok in Hu as [-> ->].
  apply bind_ok in H as (? & w3 & Hu & H). apply reject_if_ok in Hu as [Hd ->].
  apply bind_ok in H as (st & w3 & Hu & H). injection Hu as <- <-.
  apply bind_ok in H as (? & w3 & Hu & H).
  assert (Hc : w3 = w1 /\ forall c, w_store w OKey.Config = Some c ->
                 Acceptable w1 a p (timestamp env) c).
  { rewrite <- Pc. destruct (w_store w1 OKey.Config) as [c|].
    - apply check_configured_ok in Hu as [-> Hacc]. split; [done|]. by intros c' [= <-].
    - by injection Hu as _ <-. }
  clear Hu. destruct Hc as [-> Hc].
  apply submit_tail_ok in H as (Hroom & Hs & Hsub & Hf & Hm).
  rewrite Pf in *. rewrite Ph in *. rewrite Pp in *. split; [|exact Hm].
  split; try done.
  - by apply Z.eqb_neq in Hz.
  - intros c Hcf. destruct (Hc c Hcf) as [A1 A2 A3]. split; [done| |].
    + intros n Hn. rewrite <- Pp. apply A2. by rewrite (pr_store _ _ Hp).
    + intros dd Hdd. apply A3. by rewrite Psub.
  - rewrite Hs. exact (put_eq OKey.Price (Some (mkPriceData p (timestamp env))) (w_store w1)).
  - intros b. rewrite Hsub. by rewrite Psub.
  - intros k Hk1 Hk2. rewrite Hs.
    rewrite (put_ne OKey.Price k) by congruence. by apply (pr_store _ _ Hp).
Qed.

End Submit.
