(* ===== verification/OracleRead.v ===== *)
(** * TwapOracle: reading a price

    The re-entrancy guard, the failover between external feeds, and the price
    reads: what they may write, and exactly what they answer when the oracle
    has no external feed. *)

From stdpp Require Import base numbers list option strings sets sorting.
From Stdlib Require Import ZArith Lia String.
From S2P Require Import Prelude Host Ttl Pause Rbac Frame OracleData OracleMedian.
From S2P Require Import OracleOps OracleSystem OracleState OracleKeep OraclePrice.
Import OracleError.

#[local] Open Scope Z_scope.
#[local] Open Scope sf_scope.

Section Read.
Context {T : Type} `{FC : FeedClient T}.
Abbreviation OM := (M OKey.data_key T OEvent.oracle_event oracle_error).
Abbreviation OWorld := (World OKey.data_key T OEvent.oracle_event).
Abbreviation OOutcome := (Outcome OKey.data_key T OEvent.oracle_event oracle_error).
Implicit Types (w : OWorld) (a : Address).

(** ** The re-entrancy guard *)

(** An outcome with the guard released. *)
Definition released {A} (o : OOutcome A) : OOutcome A :=
  match o with
  | ROk a w => ROk a (put OKey.OLock (Some 0) w)
  | RErr e w => RErr e (put OKey.OLock (Some 0) w)
  | RTrap t => RTrap t
  end.

(** A free guard lets the body run with the guard held, and frees it whatever
    the body returns. *)
Lemma guard_run {A} (f : OM A) `{HK : !Keeps (frame (fun k => k <> OKey.OLock)) f} env w :
  unguarded w -> with_guard f env w = released (f env (put OKey.OLock (Some 1) w)).
Proof.
  intros Hu. unfold unguarded in Hu. unfold with_guard. erewrite bind_run by reflexivity.
  rewrite Hu. rewrite bind_throw_if. change (MAX_REENTRANCY_DEPTH <=? 0) with false. cbv beta iota.
  erewrite bind_run by reflexivity. erewrite bind_run by reflexivity.
  assert (Hl : w_store (put OKey.OLock (Some 1) w) OKey.OLock = Some 1)
    by exact (put_eq OKey.OLock (Some 1) (w_store w)).
  assert (Hget : forall w1, frame (fun k => k <> OKey.OLock) (put OKey.OLock (Some 1) w) w1 ->
            sget (E := oracle_error) OKey.OLock env w1 = ROk (Some (1 : key_val OKey.OLock)) w1).
  { intros w1 Hf. unfold sget. f_equal. rewrite (Hf OKey.OLock); [exact Hl|tauto]. }
  change (0 + 1) with 1. pose proof (HK env (put OKey.OLock (Some 1) w)) as Hk.
  set (w0 := put OKey.OLock _ w) in *. destruct (f env w0) as [r w1|e w1|t] eqn:Hf.
  - erewrite bind_run by (unfold attempt; rewrite Hf; reflexivity).
    by erewrite bind_run by exact (Hget w1 Hk).
  - erewrite bind_run by (unfold attempt; rewrite Hf; reflexivity).
    by erewrite bind_run by exact (Hget w1 Hk).
  - by erewrite bind_trap by (unfold attempt; rewrite Hf; reflexivity).
Qed.

(** ** The feeds *)

(** A price of machine width, at a time of machine width. *)
Definition priced (d : PriceData) : Prop := 0 < price d <= u64_max /\ U64 (updated_at d).

Context `{FL : !FeedLaws T}.

Lemma query_ok n feed s env w d w' :
  Feeders n w -> n <= u64_max -> U64 (timestamp env) ->
  query_oracle_feed feed s env w = ROk d w' -> priced d /\ outer w w'.
Proof.
  intros HF Hn Ht H. split; [|exact (keeps_ok outer _ env w d w' H)].
  unfold query_oracle_feed in H.
  do 2 (apply bind_ok in H as (? & ? & Hu & H); injection Hu as <- <-).
  destruct (w_persist w (OKey.Submission feed)) as [l|] eqn:Hl.
  - apply bind_ok in H as (? & ? & Hu & H). apply throw_if_ok in Hu as [_ ->].
    apply bind_ok in H as (? & ? & Hu & H). apply throw_if_ok in Hu as [_ ->]. injection H as <- _.
    destruct (fe_submission n w HF feed l Hl) as [Hp Hu]. split; [done|mlia].
  - apply bind_ok in H as (? & ? & Hu & H). injection Hu as <- <-.
    destruct (addr_eqb _ _); [done|]. unfold query_external in H.
    apply bind_ok in H as (r & w1 & Hr & H). unfold try_feed in Hr.
    assert (Hlatest : query_latest feed (timestamp env) s env w1 = ROk d w' -> priced d).
    { unfold query_latest. intros Hq. apply bind_ok in Hq as (r' & w2 & Hr' & Hq).
      unfold try_feed in Hr'. destruct (feed_latest_price _ _ _) as [[d' t']|] eqn:Hf.
      - injection Hr' as <- _. destruct (0 <? price d') eqn:Hp; [|done]. cbn in Hq.
        destruct (_ || _); [|done]. injection Hq as <- _.
        apply feed_latest_range in Hf as [Hf1 Hf2]. apply Z.ltb_lt in Hp. split; [mlia|done].
      - by injection Hr' as <- _. }
    destruct (feed_get_twap_price _ _ _) as [[p t']|] eqn:Hf; injection Hr as <- <-; [|auto].
    apply feed_twap_range in Hf.
    destruct (Z.ltb_spec 0 p); [|auto]. injection H as <- _. split; [cbn; mlia|done].
Qed.

Lemma fallback_ok n o s e env w d w' :
  Feeders n w -> n <= u64_max -> U64 (timestamp env) ->
  query_fallback o s e env w = ROk d w' -> priced d.
Proof.
  intros HF Hn Ht H. unfold query_fallback in H. destruct o as [f|]; [|done].
  apply bind_ok in H as (r & w1 & Hr & H). apply attempt_ok in Hr. destruct r as [e'|d']; [done|].
  injection H as <- _. by apply (query_ok n) in Hr as [? _].
Qed.

(** The resolved price has its machine width, and the contract's own storage is
    as it was. *)
Lemma resolve_ok n s env w d w' :
  Feeders n w -> n <= u64_max -> U64 (timestamp env) ->
  resolve_oracle_with_failover s env w = ROk d w' -> priced d /\ outer w w'.
Proof.
  intros HF Hn Ht H. split; [|exact (keeps_ok outer _ env w d w' H)].
  unfold resolve_oracle_with_failover in H.
  do 2 (apply bind_ok in H as (? & ? & Hu & H); injection Hu as <- <-).
  destruct (w_store w OKey.PrimaryOracle) as [f|]; [|by apply (fallback_ok n) in H].
  apply bind_ok in H as (r & w1 & Hr & H). apply attempt_ok in Hr. destruct r as [e'|d'].
  - pose proof (keeps (R := outer) (m := query_oracle_feed f s) env w) as Ho. rewrite Hr in Ho.
    refine (fallback_ok n _ _ _ _ _ _ _ _ Hn Ht H). by apply (outer_feeders n w).
  - injection H as <- _. by apply (query_ok n) in Hr as [? _].
Qed.

(** ** What the reads write *)

(** The feeders and the history are as they should be. *)
Definition Priced (n : Z) w : Prop := Feeders n w /\ History (history w).

Lemma outer_priced n w w' : outer w w' -> Priced n w -> Priced n w'.
Proof.
  intros Ho [HF HH]. split; [by apply (outer_feeders n w)|]. by rewrite (outer_history _ _ Ho).
Qed.

Lemma record_priced n p ts env w u w' :
  Priced n w -> 0 < p <= u64_max -> U64 ts ->
  record_price_observation p ts env w = ROk u w' -> Priced n w'.
Proof.
  intros [HF HH] Hp Hts H. rewrite record_run in H. destruct (ahead _ _) eqn:Ha; [done|].
  injection H as _ <-. split; [|parts; by apply pushed_history].
  eapply feeders_frame; [|exact HF]. intros k Hk.
  refine (persist_put_ne _ _ _ _ _). intros <-. by apply Hk.
Qed.

Lemma failover_priced n c s (rest : OM Z) env w p w' :
  n <= u64_max -> U64 (timestamp env) -> Priced n w ->
  (forall w1, Priced n w1 -> rest env w1 = ROk p w' -> Priced n w') ->
  failover_or c s rest env w = ROk p w' -> Priced n w'.
Proof.
  intros Hn Ht HP Hrest H. unfold failover_or in H.
  apply bind_ok in H as (r & w1 & Hr & H). apply attempt_ok in Hr. destruct r as [e|d].
  - apply (Hrest w1); [|done]. eapply outer_priced; [|exact HP].
    pose proof (keeps (R := outer) (m := resolve_oracle_with_failover s) env w) as Ho.
    by rewrite Hr in Ho.
  - pose proof HP as [HF _]. apply (resolve_ok n) in Hr as [[Hp Hu] Ho]; try done.
    unfold record_and_calculate_twap in H. apply bind_ok in H as (u & w2 & Hu' & H).
    apply (record_priced n) in Hu'; [|by apply (outer_priced n w)|done..].
    by rewrite (reads _ env _ _ _ H).
Qed.

Lemma submitters_priced n c k env w p w' :
  n <= u64_max -> U64 (timestamp env) -> Priced n w ->
  twap_from_submitters c k env w = ROk p w' -> Priced n w'.
Proof.
  intros Hn Ht HP H. unfold twap_from_submitters in H.
  do 2 (apply bind_ok in H as (? & ? & Hu & H); injection Hu as <- <-).
  apply bind_ok in H as ([l b] & w1 & Hu & H). pose proof (reads _ _ _ _ _ Hu) as ->.
  assert (Hthrow : forall e w1, Priced n w1 -> throw (A := Z) e env w1 = ROk p w' -> Priced n w') by done.
  destruct l as [|x l]; [by apply (failover_priced n) in H; auto|].
  destruct (_ <? _); [by apply (failover_priced n) in H; auto|].
  by rewrite (reads _ env _ _ _ H).
Qed.

Lemma twap_inner_priced n k env w p w' :
  n <= u64_max -> U64 (timestamp env) -> Priced n w ->
  get_twap_price_inner k env w = ROk p w' -> Priced n w'.
Proof.
  intros Hn Ht HP H. unfold get_twap_price_inner in H.
  apply bind_ok in H as (? & ? & Hu & H). apply throw_if_ok in Hu as [_ ->].
  apply bind_ok in H as (? & ? & Hu & H). injection Hu as <- <-.
  apply bind_ok in H as (c & ? & Hu & H). apply ok_or_ok in Hu as [Hc ->].
  apply bind_ok in H as (b & ? & Hu & H). pose proof (reads _ _ _ _ _ Hu) as ->.
  destruct b; [|by apply (submitters_priced n) in H].
  apply (failover_priced n) in H; try done. intros w1 HP1 H1. by apply (submitters_priced n) in H1.
Qed.

(** ** What a price read answers without external feeds *)

(** A price, or the reason there is none. *)
Definition twap_answer w (now count : Z) : oracle_error + Z :=
  if (count =? 0) || (MAX_TWAP_OBSERVATIONS <? count) then inl InvalidObservationCount
  else match w_store w OKey.Config with
       | None => inl OracleNotConfigured
       | Some c =>
           let fresh := fresh_prices w now (max_staleness c) in
           match fresh with
           | [] => inl (if any_submission w then OracleStalePrice else NoPriceAvailable)
           | _ =>
               if Z.of_nat (List.length fresh) <? min_submitters c then inl InsufficientQuorum
               else match twap_of now (max_staleness c) count (history w) with
                    | Some p => inr p
                    | None => inr (default 0 (median fresh))
                    end
           end
       end.

(** The outcome an answer is, in a world. *)
Definition outcome_of {A} (r : oracle_error + A) w : OOutcome A :=
  match r with inr a => ROk a w | inl e => RErr e w end.

(** There is no external feed. *)
Definition feedless w : Prop :=
  w_store w OKey.PrimaryOracle = None /\ w_store w OKey.FallbackOracle = None.

Lemma feedless_resolve s env w :
  feedless w -> resolve_oracle_with_failover s env w = RErr NoPriceAvailable w.
Proof.
  intros [Hp Hf]. unfold resolve_oracle_with_failover.
  do 2 erewrite bind_run by reflexivity. by rewrite Hp, Hf.
Qed.

Lemma feedless_failover c s rest env w : feedless w -> failover_or c s rest env w = rest env w.
Proof.
  intros Hw. unfold failover_or.
  by erewrite bind_run by (unfold attempt; rewrite feedless_resolve by done; reflexivity).
Qed.

Lemma feedless_has env w : feedless w -> has_feeds env w = ROk false w.
Proof.
  intros [Hp Hf]. unfold has_feeds. erewrite bind_run by reflexivity.
  rewrite Hp. cbn. unfold shas. by rewrite Hf.
Qed.

Lemma twap_or_run c s rest env w :
  History (history w) -> U64 (timestamp env) -> 0 <= s -> 0 < c <= MAX_TWAP_OBSERVATIONS ->
  twap_or c s rest env w =
    match twap_of (timestamp env) s c (history w) with
    | Some p => ROk p w
    | None => rest env w
    end.
Proof.
  intros Hh Ht Hs Hc. unfold twap_or.
  destruct (twap_of (timestamp env) s c (history w)) as [p|] eqn:Hp;
    by erewrite bind_run by (unfold attempt; rewrite calculate_run by done; rewrite Hp; reflexivity).
Qed.

Lemma twap_inner_run n k env w :
  Priced n w -> config_valid w -> feedless w -> U64 (timestamp env) -> U32 k ->
  get_twap_price_inner k env w = outcome_of (twap_answer w (timestamp env) k) w.
Proof.
  intros [HF HH] Hcv Hw Ht Hk. unfold get_twap_price_inner, twap_answer. rewrite bind_throw_if.
  destruct ((k =? 0) || (MAX_TWAP_OBSERVATIONS <? k)) eqn:Hr; [done|].
  apply orb_false_iff in Hr as [Hr1 Hr2]. apply Z.eqb_neq in Hr1. apply Z.ltb_ge in Hr2.
  erewrite bind_run by reflexivity.
  destruct (w_store w OKey.Config) as [c|] eqn:Hc; [|done]. erewrite bind_run by reflexivity.
  destruct (Hcv c Hc) as [_ _ Hs _].
  erewrite bind_run by by apply feedless_has. unfold twap_from_submitters.
  erewrite bind_run by apply submitters_run. erewrite bind_run by reflexivity.
  erewrite bind_run by apply collect_fresh_run. cbv beta iota. rewrite !orb_false_l.
  change ([] ++ ?l) with l. fold (fresh_prices w (timestamp env) (max_staleness c)).
  fold (any_submission w).
  destruct (fresh_prices w (timestamp env) (max_staleness c)) as [|x l] eqn:Hl.
  { by rewrite feedless_failover. }
  destruct (_ <? _); [by rewrite feedless_failover|].
  rewrite twap_or_run by (done || mlia).
  destruct (twap_of _ _ _ _) as [p|]; [done|].
  destruct (median_spec (x :: l) ltac:(done)) as (m & ? & _ & _ & _ & Hm). by rewrite Hm.
Qed.

End Read.
