(* ===== verification/OracleAdmin.v ===== *)
(** * TwapOracle: configuration, roles and administrators

    Every call keeps the stored configuration valid, the role cells typed and
    the roster of administrators inhabited. *)

From stdpp Require Import base numbers list option strings gmap.
From Stdlib Require Import ZArith Lia String.
From S2P Require Import Prelude Host Ttl Pause Rbac Frame Admins OracleData OracleMedian.
From S2P Require Import OracleOps OracleSystem OracleState OracleKeep.
Import OracleError.

#[local] Open Scope Z_scope.
#[local] Open Scope sf_scope.

Abbreviation admin_role := (OKey.Role OracleRole.Admin).
Abbreviation oadministered :=
  (administered admin_role OKey.AdminCount (OKey.RoleMembers OracleRole.Admin)).

Section Admin.
Context {T : Type} `{FC : FeedClient T}.
Abbreviation OM := (M OKey.data_key T OEvent.oracle_event oracle_error).
Abbreviation OWorld := (World OKey.data_key T OEvent.oracle_event).
Implicit Types (w : OWorld).

(** ** Configuration *)

(** The configuration a world has after storing one. *)
Lemma store_config_ok a c env w u w' :
  typed_config c -> store_oracle_config a c env w = ROk u w' ->
  ValidOracleConfig c /\ w_store w' OKey.Config = Some c.
Proof.
  intros Ht H. unfold store_oracle_config in H.
  apply bind_ok in H as (? & ? & Hu & H). apply throw_if_ok in Hu as [Hd ->].
  apply bind_ok in H as (? & ? & Hu & H). apply throw_if_ok in Hu as [Hs ->].
  apply bind_ok in H as (? & ? & Hu & H). apply throw_if_ok in Hu as [Hq ->].
  apply bind_ok in H as (? & ? & _ & H). apply bind_ok in H as (? & ? & _ & H).
  apply bind_ok in H as (? & ? & _ & H). apply bind_ok in H as (? & w1 & Hu & H).
  injection Hu as _ <-. injection H as _ <-.
  split; [|match goal with |- w_store (_ (_ _ _ ?x)) _ = _ => exact (put_store_eq OKey.Config (Some c) x) end].
  apply Z.ltb_ge in Hd. apply Z.eqb_neq in Hs. apply orb_false_iff in Hq as [Hq1 Hq2].
  apply Z.eqb_neq in Hq1. apply Z.ltb_ge in Hq2.
  destruct Ht as (? & ? & ? & ? & ? & ?).
  split; [unfold typed_config; cbn; tauto|lia|mlia|mlia].
Qed.

Lemma updated_typed u c :
  typed_config c -> oracle_typed (UpdateOracleConfig (Account 0) u) -> typed_config (updated_config u c).
Proof.
  intros Hc (H1 & H2 & H3 & H4 & H5 & H6 & _). destruct Hc as (? & ? & ? & ? & ? & ?).
  unfold typed_config, updated_config. cbn.
  destruct u as [[] [] [] [] [] [] ? ?]; cbn in *; tauto.
Qed.

Lemma onot_paused_config env w u w' :
  require_not_paused env w = ROk u w' -> w_store w' OKey.Config = w_store w OKey.Config.
Proof.
  intros H. refine (keeps_ok (frame (fun k => k = OKey.Paused)) _ _ _ _ _ H OKey.Config _).
  congruence.
Qed.

Lemma exec_config (c : oracle_call) env w u w' :
  config_valid w -> oracle_typed c -> oracle_exec c env w = ROk u w' -> config_valid w'.
Proof.
  intros Hv Ht H. destruct (owrites c OConf) eqn:Hw.
  2: { pose proof (exec_frame_config c Hw) as Hk.
       exact (oconfig_frames _ _ (keeps_ok (Keeps0 := Hk) _ _ _ _ _ _ H) Hv). }
  destruct c; try discriminate Hw; cbn [oracle_exec] in H.
  - unfold configure_oracle in H. apply bind_ok in H as (? & ? & Hr & H).
    apply store_config_ok in H as [Hc Hs]; [|exact Ht]. intros c' Hc'. congruence.
  - unfold update_oracle_config in H. apply bind_ok in H as (? & ? & Hr & H).
    apply orequire_or_ok in Hr as [-> _].
    apply bind_ok in H as (c & w1 & Hc & H). unfold oracle_config in Hc.
    apply bind_ok in Hc as (? & ? & Hu & Hc). injection Hu as <- <-. apply ok_or_ok in Hc as [Hc ->].
    apply bind_ok in H as (? & w1 & Hs & H).
    apply store_config_ok in Hs as [Hval Hs]; [|by apply updated_typed; [apply (Hv c)|]].
    assert (Hfin : w_store w' OKey.Config = w_store w1 OKey.Config).
    { refine (keeps_ok (frame (ooff OConf)) _ _ _ _ _ H OKey.Config _). unfold ooff. cbn. tauto. }
    intros c' Hc'. congruence.
  - unfold set_max_staleness_seconds in H. apply bind_ok in H as (? & w1 & Hp & H).
    apply onot_paused_config in Hp. apply bind_ok in H as (? & ? & Hr & H).
    apply orequire_or_ok in Hr as [-> _].
    apply bind_ok in H as (? & ? & Hu & H). apply throw_if_ok in Hu as [Hs ->].
    apply Z.eqb_neq in Hs. apply bind_ok in H as (? & ? & Hu & H). injection Hu as _ <-.
    apply bind_ok in H as (? & ? & Hu & H). injection Hu as _ <-.
    apply bind_ok in H as (o & ? & Hu & H). injection Hu as <- <-.
    match type of H with context [store_put ?k ?v ?s OKey.Config] =>
      assert (Hc1 : store_put k v s OKey.Config = w_store w OKey.Config) end.
    { rewrite <- Hp. refine (put_ne OKey.MaxStalenessSeconds _ _ _ _). congruence. }
    rewrite Hc1 in H. destruct (w_store w OKey.Config) as [c|] eqn:Hc.
    + injection H as _ <-. intros c' Hc'.
      rewrite (put_store_eq OKey.Config) in Hc'. injection Hc' as <-.
      destruct (Hv c Hc) as [(? & ? & ? & ? & ? & ?) Hd _ Hq]. cbn in Ht.
      split; cbn; [unfold typed_config; cbn; tauto|done|mlia|done].
    + injection H as _ <-. intros c' Hc'. exfalso.
      pose proof (eq_trans (eq_sym Hc1) Hc'). discriminate.
Qed.

(** ** Typed role cells *)

(** Every key but the role cells. *)
Definition not_role (k : OKey.data_key) : Prop :=
  match k with OKey.Role _ _ => False | _ => True end.

#[local] Hint Extern 1 (InFrame not_role _) => exact I : typeclass_instances.

Lemma roles_frames : frames not_role (roles_typed (T := T)).
Proof. intros w w' Hf H r a b. rewrite Hf by (cbn; tauto). apply H. Qed.

#[local] Hint Extern 2 (Allows (stable roles_typed) _) =>
  (apply (stable_allows not_role); [apply roles_frames | apply _]) : typeclass_instances.

Lemma roles_put_grant r a g :
  Allows (stable (roles_typed (T := T))) (put (OKey.Role r a) (Some (RoleGrant g))).
Proof.
  intros w H r' a' b Hb. destruct (decide (OKey.Role r a = OKey.Role r' a')) as [[= <- <-]|Hne].
  - rewrite (put_store_eq (OKey.Role r a)) in Hb. discriminate Hb.
  - rewrite put_store_ne in Hb by done. exact (H r' a' b Hb).
Qed.

Lemma roles_put_none r a : Allows (stable (roles_typed (T := T))) (put (OKey.Role r a) None).
Proof.
  intros w H r' a' b Hb. destruct (decide (OKey.Role r a = OKey.Role r' a')) as [[= <- <-]|Hne].
  - rewrite (put_store_eq (OKey.Role r a)) in Hb. discriminate Hb.
  - rewrite put_store_ne in Hb by done. exact (H r' a' b Hb).
Qed.

#[local] Hint Resolve roles_put_grant roles_put_none : typeclass_instances.

#[local] Instance typed_grant r a e :
  Keeps (stable (roles_typed (T := T))) (grant_role_with_expiration_inner r a e).
Proof.
  unfold grant_role_with_expiration_inner, grant_with_expiration, admin_count, role_members, sset_as.
  cbn [into_val oracle_role_assignment]. solve_keeps.
Qed.

#[local] Instance typed_grant_inner r a : Keeps (stable (roles_typed (T := T))) (grant_role_inner r a).
Proof. exact (typed_grant r a None). Qed.

#[local] Instance typed_revoke r a : Keeps (stable (roles_typed (T := T))) (revoke_role_inner r a).
Proof.
  unfold revoke_role_inner, Rbac.revoke, revoke_with_event, admin_count, Rbac.role_members, sset_as.
  solve_keeps.
Qed.

Lemma exec_roles c : Keeps (stable (roles_typed (T := T))) (oracle_exec c).
Proof. destruct c; solve_oracle. Qed.

Lemma init_roles a : Keeps (stable (roles_typed (T := T))) (initialize a).
Proof. unfold initialize. solve_keeps. Qed.

(** ** Administrators *)

Lemma oadmin_spare :
  spares_roster admin_role OKey.AdminCount (OKey.RoleMembers OracleRole.Admin) (ooff OAdmins).
Proof. unfold spares_roster, ooff. cbn. tauto. Qed.

Lemma oadmin_frames : frames (ooff OAdmins) (oadministered : OWorld -> Prop).
Proof. apply admin_frames, oadmin_spare. Qed.

Lemma other_role r : r <> OracleRole.Admin -> is_admin r = false.
Proof. intros H. by apply bool_decide_eq_false. Qed.

#[local] Instance admin_grant_exp r a e :
  (r = OracleRole.Admin -> e = None) ->
  Keeps (stable (oadministered : OWorld -> Prop)) (grant_role_with_expiration_inner r a e).
Proof.
  intros He. destruct (decide (r = OracleRole.Admin)) as [->|Hr].
  - rewrite He by done. exact (keeps_admin_grant (E := oracle_error) admin_role _ _ a).
  - apply (stable_keeps (ooff OAdmins)); [apply oadmin_frames|].
    pose proof (other_role r Hr) as Hw. destruct r; [done|apply _..].
Qed.

#[local] Instance admin_grant_inner r a : Keeps (stable (oadministered : OWorld -> Prop)) (grant_role_inner r a).
Proof. by apply (admin_grant_exp r a None). Qed.

#[local] Instance admin_revoke_inner r a : Keeps (stable (oadministered : OWorld -> Prop)) (revoke_role_inner r a).
Proof.
  destruct (decide (r = OracleRole.Admin)) as [->|Hr].
  - unfold revoke_role_inner. apply keeps_bind; [apply _|apply keeps_map_err|].
    + exact (keeps_admin_revoke admin_role _ _ a).
    + intros b. rewrite andb_false_r. apply _.
  - apply (stable_keeps (ooff OAdmins)); [apply oadmin_frames|].
    pose proof (other_role r Hr) as Hw. destruct r; [done|apply _..].
Qed.

#[local] Hint Extern 2 (Allows (stable oadministered) _) =>
  (apply (stable_allows (ooff OAdmins)); [apply oadmin_frames | apply _]) : typeclass_instances.

(** No call of the oracle loses the administrators. *)
Lemma exec_oadministered c : Keeps (stable (oadministered : OWorld -> Prop)) (oracle_exec c).
Proof.
  destruct (owrites c OAdmins) eqn:Hw;
    [|apply (stable_keeps (ooff OAdmins)); [apply oadmin_frames|by apply exec_frame_admins]].
  destruct c; try discriminate Hw; clear Hw; [solve_oracle| |solve_oracle..].
  unfold_oracle. apply keeps_bind; [apply _..|intros _]. apply keeps_bind; [apply _..|intros now].
  apply keeps_guard; [apply _|]. intros Hg. apply keeps_bind; [apply _..|intros _].
  apply keeps_bind; [apply _| |solve_keeps]. apply admin_grant_exp. intros ->.
  apply orb_false_iff in Hg as [Hg _]. by destruct expires_at.
Qed.

Lemma init_oadministered env admin w0 w :
  (forall k, w_store w0 k = None) -> initialize admin env w0 = ROk tt w -> oadministered w.
Proof.
  intros Hs H. unfold initialize in H.
  apply bind_ok in H as (? & ? & Hu & H). injection Hu as <- <-.
  apply bind_ok in H as (? & ? & Hu & H). apply throw_if_ok in Hu as [_ ->].
  do 2 (apply bind_ok in H as (? & ? & Hu & H); injection Hu as _ <-).
  apply bind_ok in H as (b & w1 & Hg & H). injection H as <-.
  match type of Hg with _ _ ?x = _ => set (w2 := x) in * end.
  assert (Hf : forall k, k <> OKey.Admin -> w_store w2 k = None).
  { intros k Hk. unfold w2. rewrite put_store_ne by congruence. apply Hs. }
  refine (first_admin admin_role _ _ w2 admin env b w1 _ _ _ Hg); intros; apply Hf; congruence.
Qed.

End Admin.
