(* ===== verification/OracleReach.v ===== *)
(** * TwapOracle: the invariant

    The invariant of a deployed oracle, and that every call keeps it. *)

From stdpp Require Import base numbers list option strings sets sorting.
From Stdlib Require Import ZArith Lia String.
From S2P Require Import Prelude Host Ttl Pause Rbac Frame Admins OracleData OracleMedian.
From S2P Require Import OracleOps OracleSystem OracleState OracleKeep OraclePrice OracleSubmit.
From S2P Require Import OracleRead OracleAdmin.
Import OracleError.

#[local] Open Scope Z_scope.
#[local] Open Scope sf_scope.

Section Reach.
Context {T : Type} `{FC : FeedClient T}.
Abbreviation OM := (M OKey.data_key T OEvent.oracle_event oracle_error).
Abbreviation OWorld := (World OKey.data_key T OEvent.oracle_event).
Implicit Types (w : OWorld) (c : oracle_call) (a : Address).

(** ** The pair feeds *)

(** A list of reporters of a pair. *)
Definition reporters_ok (l : list Address) : Prop :=
  l <> [] /\ NoDup l /\ Z.of_nat (List.length l) <= MAX_PAIR_REPORTERS.

Lemma active_run l r act seen env w res w' :
  active_reporters l r act seen env w = ROk res w' ->
  exists act', act' `sublist_of` l /\ fst res = act ++ act' /\
    snd res = seen || existsb (fun x => addr_eqb x r) act'.
Proof.
  revert act seen w. induction l as [|x l IH]; intros act seen w H; cbn [active_reporters] in H.
  - injection H as <- _. exists []. cbn. by rewrite app_nil_r, orb_false_r.
  - apply bind_ok in H as (held & w1 & _ & H). destruct held.
    + apply IH in H as (act' & Hs & H1 & H2). exists (x :: act').
      split; [by constructor|]. rewrite H1, H2, <- app_assoc, <- orb_assoc. done.
    + apply IH in H as (act' & Hs & H1 & H2). exists act'. split; [by constructor|done].
Qed.

Lemma with_reporter_ok l r env w res w' :
  NoDup l -> Z.of_nat (List.length l) <= MAX_PAIR_REPORTERS ->
  with_reporter l r env w = ROk res w' -> reporters_ok res.
Proof.
  intros Hnd Hlen H. unfold with_reporter in H. apply bind_ok in H as ([act seen] & w1 & Ha & H).
  apply active_run in Ha as (act' & Hs & H1 & H2). cbn in H1, H2. subst act seen.
  pose proof (sublist_length _ _ Hs). pose proof (sublist_NoDup _ _ Hnd Hs) as Hnd'.
  destruct (existsb _ act') eqn:He.
  - injection H as <- _. apply existsb_exists in He as (x & Hx & _).
    split_and!; [by intros ->|done|lia].
  - apply bind_ok in H as (? & ? & Hu & H). apply throw_if_ok in Hu as [Hle ->].
    injection H as <- _. apply Z.leb_gt in Hle. split_and!.
    + by destruct act'.
    + apply NoDup_app. split_and!; [done| |repeat constructor; by intros ?%elem_of_nil].
      intros y Hy ->%list_elem_of_singleton.
      assert (existsb (fun z => addr_eqb z r) act' = true); [|congruence].
      apply existsb_exists. exists r. split; [by apply list_elem_of_In|by apply addr_eqb_true].
    + rewrite length_app. cbn. lia.
Qed.

Lemma add_reporter_ok b q r env w u w' :
  (forall l, w_persist w (OKey.PairReporters b q) = Some l -> reporters_ok l) ->
  add_pair_reporter b q r env w = ROk u w' ->
  exists l, reporters_ok l /\ (w_persist w (OKey.PairReporters b q) = None -> l = [r]) /\
    w_persist w' = store_put (OKey.PairReporters b q) (Some l) (w_persist w).
Proof.
  intros Hok H. unfold add_pair_reporter in H. cbv zeta in H.
  apply bind_ok in H as (o & ? & Hu & H). injection Hu as <- <-.
  apply bind_ok in H as (l & w1 & Hu & H). pose proof (reads _ _ _ _ _ Hu) as ->.
  apply bind_ok in H as (? & w1 & Hs & H). injection Hs as _ <-. apply bump_ok in H as [_ ->].
  exists l. destruct (w_persist w (OKey.PairReporters b q)) as [l0|] eqn:Hl.
  - destruct (Hok l0 eq_refl) as (_ & ? & ?).
    split; [by apply (with_reporter_ok l0 r env w l w)|done].
  - split; [by apply (with_reporter_ok [] r env w l w); [constructor| |]|].
    split; [|done]. intros _. by injection Hu.
Qed.

Lemma add_symbol_reporter_ok b q r env w u w' :
  (forall l, w_persist w (OKey.PairSymbolReporters b q) = Some l -> reporters_ok l) ->
  add_symbol_pair_reporter b q r env w = ROk u w' ->
  exists l, reporters_ok l /\
    w_persist w' = store_put (OKey.PairSymbolReporters b q) (Some l) (w_persist w).
Proof.
  intros Hok H. unfold add_symbol_pair_reporter in H. cbv zeta in H.
  apply bind_ok in H as (o & ? & Hu & H). injection Hu as <- <-.
  apply bind_ok in H as (l & w1 & Hu & H). pose proof (reads _ _ _ _ _ Hu) as ->.
  apply bind_ok in H as (? & w1 & Hs & H). injection Hs as _ <-. apply bump_ok in H as [_ ->].
  exists l. split; [|done]. destruct (w_persist w (OKey.PairSymbolReporters b q)) as [l0|] eqn:Hl.
  - destruct (Hok l0 eq_refl) as (_ & ? & ?). by apply (with_reporter_ok l0 r env w l w).
  - by apply (with_reporter_ok [] r env w l w); [constructor| |].
Qed.

(** What a call of [set_price] writes. *)
Lemma set_price_ok n a b q p env w u w' :
  Pairs n w -> set_price a b q p env w = ROk u w' ->
  p <> 0 /\ exists l, reporters_ok l /\
    (w_persist w (OKey.PairReporters b q) = None -> l = [a]) /\
    w_persist w' = store_put (OKey.PairSubmission b q a) (Some (mkPairPriceData p (timestamp env)))
                     (store_put (OKey.PairReporters b q) (Some l) (w_persist w)).
Proof.
  intros HP H. unfold set_price in H.
  apply bind_ok in H as (? & w1 & Hu & H). apply onot_paused_ok in Hu as [_ Hp].
  apply bind_ok in H as (? & ? & Hu & H). apply orequire_or_ok in Hu as (-> & _).
  apply bind_ok in H as (? & ? & Hu & H). apply throw_if_ok in Hu as [Hz ->].
  apply Z.eqb_neq in Hz. apply bind_ok in H as (? & ? & Hu & H). injection Hu as _ <-.
  apply bind_ok in H as (? & w2 & Hu & H). apply add_reporter_ok in Hu as (l & Hl & Hone & Hp2);
    [|cbn; rewrite Hp; apply HP].
  apply bind_ok in H as (? & ? & Hu & H). injection Hu as <- <-.
  apply bind_ok in H as (? & ? & Hu & H). injection Hu as _ <-.
  apply bind_ok in H as (? & w3 & Hu & H). apply bump_ok in Hu as [_ Hp3]. injection H as _ <-.
  split; [done|]. exists l. split; [done|].
  split; [rewrite <- Hp; exact Hone|].
  change (w_persist w3 = store_put (OKey.PairSubmission b q a)
    (Some (mkPairPriceData p (timestamp env))) (store_put (OKey.PairReporters b q) (Some l) (w_persist w))).
  rewrite Hp3, <- Hp. change (w_persist w1) with (w_persist (add_ttl None MIN_TTL_LEDGERS EXTEND_TTL_LEDGERS w1)).
  by rewrite <- Hp2.
Qed.

Lemma set_price_symbol_ok n a b q p env w u w' :
  Pairs n w -> set_price_symbol a b q p env w = ROk u w' ->
  p <> 0 /\ exists l, reporters_ok l /\
    w_persist w' = store_put (OKey.PairSymbolSubmission b q a) (Some (mkPairPriceData p (timestamp env)))
                     (store_put (OKey.PairSymbolReporters b q) (Some l) (w_persist w)).
Proof.
  intros HP H. unfold set_price_symbol in H.
  apply bind_ok in H as (? & w1 & Hu & H). apply onot_paused_ok in Hu as [_ Hp].
  apply bind_ok in H as (? & ? & Hu & H). apply orequire_or_ok in Hu as (-> & _).
  apply bind_ok in H as (? & ? & Hu & H). apply throw_if_ok in Hu as [Hz ->].
  apply Z.eqb_neq in Hz. apply bind_ok in H as (? & ? & Hu & H). injection Hu as _ <-.
  apply bind_ok in H as (? & w2 & Hu & H). apply add_symbol_reporter_ok in Hu as (l & Hl & Hp2);
    [|cbn; rewrite Hp; apply HP].
  apply bind_ok in H as (? & ? & Hu & H). injection Hu as <- <-.
  apply bind_ok in H as (? & ? & Hu & H). injection Hu as _ <-.
  apply bind_ok in H as (? & w3 & Hu & H). apply bump_ok in Hu as [_ Hp3]. injection H as _ <-.
  split; [done|]. exists l. split; [done|].
  change (w_persist w3 = store_put (OKey.PairSymbolSubmission b q a)
    (Some (mkPairPriceData p (timestamp env))) (store_put (OKey.PairSymbolReporters b q) (Some l) (w_persist w))).
  rewrite Hp3, <- Hp. change (w_persist w1) with (w_persist (add_ttl None MIN_TTL_LEDGERS EXTEND_TTL_LEDGERS w1)).
  by rewrite <- Hp2.
Qed.

(** A key read in a store with two more entries. *)
Ltac read_puts := repeat first [ rewrite put_ne by congruence | rewrite put_eq ].

Lemma exec_pairs n c env w u w' :
  Pairs n w -> oracle_typed c -> n <= timestamp env -> U64 (timestamp env) ->
  oracle_exec c env w = ROk u w' -> Pairs (timestamp env) w'.
Proof.
  intros HP Ht Hn Hnow H. destruct (owrites c OPairs) eqn:Hw.
  2: { pose proof (exec_frame_pairs c Hw) as Hk. eapply pairs_mono; [|exact Hn].
       exact (pairs_frame n _ _ (keeps_ok (Keeps0 := Hk) _ _ _ _ _ _ H) HP). }
  pose proof (pairs_mono n _ w HP Hn) as [P1 P2 P3 P4].
  destruct c; try discriminate Hw; cbn [oracle_exec oracle_typed] in H, Ht.
  - apply (set_price_ok n) in H as (Hz & l & Hl & _ & Hp); [|done].
    split; intros b q x; rewrite Hp.
    + rewrite put_ne by congruence.
      destruct (decide (OKey.PairReporters base quote = OKey.PairReporters b q)) as [[= <- <-]|Hne].
      * rewrite (put_eq (OKey.PairReporters base quote)). by intros [= <-].
      * rewrite put_ne by done. apply P1.
    + read_puts. apply P2.
    + destruct (decide (OKey.PairSubmission base quote caller = OKey.PairSubmission b q x))
        as [[= <- <- <-]|Hne].
      * rewrite (put_eq (OKey.PairSubmission base quote caller)). intros d [= <-]. cbn. mlia.
      * rewrite !put_ne by congruence. apply P3.
    + read_puts. apply P4.
  - apply (set_price_symbol_ok n) in H as (Hz & l & Hl & Hp); [|done].
    split; intros b q x; rewrite Hp.
    + read_puts. apply P1.
    + rewrite put_ne by congruence.
      destruct (decide (OKey.PairSymbolReporters base quote = OKey.PairSymbolReporters b q)) as [[= <- <-]|Hne].
      * rewrite (put_eq (OKey.PairSymbolReporters base quote)). by intros [= <-].
      * rewrite put_ne by done. apply P2.
    + read_puts. apply P3.
    + destruct (decide (OKey.PairSymbolSubmission base quote caller = OKey.PairSymbolSubmission b q x))
        as [[= <- <- <-]|Hne].
      * rewrite (put_eq (OKey.PairSymbolSubmission base quote caller)). intros d [= <-]. cbn. mlia.
      * rewrite !put_ne by congruence. apply P4.
Qed.

(** ** The feeders and the history *)

Lemma history_pframes w w' :
  pframe (ooff OHistory) w w' -> History (history w) -> History (history w').
Proof. intros Hf. by rewrite (history_frame _ _ Hf). Qed.

Definition sound_history w : Prop := History (history w).

#[local] Hint Extern 2 (Allows (stable (Feeders ?n)) _) =>
  (apply (pstable_allows (ooff OFeeders)); [exact (feeders_frame n) | apply _]) : typeclass_instances.
#[local] Hint Extern 2 (Allows (stable sound_history) _) =>
  (apply (pstable_allows (ooff OHistory)); [exact history_pframes | apply _]) : typeclass_instances.
#[local] Instance history_clear : Keeps (stable sound_history) clear_prices.
Proof. exact keeps_clear_history. Qed.

Ltac solve_clearing :=
  unfold configure_oracle, update_oracle_config, store_oracle_config, revoke_role, purge_submitter;
  solve_keeps.

Lemma feeders_keeps n c :
  owrites c OFeeders = true ->
  (exists a p, c = SubmitPrice a p) \/ Keeps (stable (Feeders (T := T) n)) (oracle_exec c).
Proof.
  intros Hw. destruct c; try discriminate Hw; clear Hw; cbn [oracle_exec];
    [left; eauto|right; solve_clearing..].
Qed.

(** A submission tracks its feeder. *)
Lemma submitted_feeders n env w a p w' :
  Feeders n w -> n <= timestamp env -> U64 (timestamp env) -> U64 p ->
  Submitted env w a p w' -> Feeders (timestamp env) w'.
Proof.
  intros [H1 H2 H3 H4] Hn Ht Hp S. pose proof (sb_nonzero _ _ _ _ _ S).
  split; rewrite ?(sb_feeders _ _ _ _ _ S).
  - destruct (decide (a ∈ feeders w)) as [|Ha]; [done|]. apply NoDup_app. split_and!; [done| |].
    + by intros x Hx ->%list_elem_of_singleton.
    + repeat constructor. by intros ?%elem_of_nil.
  - destruct (decide (a ∈ feeders w)) as [|Ha]; [done|]. rewrite length_app. cbn.
    pose proof (sb_room _ _ _ _ _ S Ha). lia.
  - intros b. rewrite (sb_submission _ _ _ _ _ S). destruct (decide (b = a)) as [->|Hb].
    + split; [by eexists|]. intros _. destruct (decide (a ∈ feeders w)); set_solver.
    + rewrite <- H3. destruct (decide (a ∈ feeders w)); set_solver.
  - intros b d. rewrite (sb_submission _ _ _ _ _ S). destruct (decide (b = a)) as [->|Hb].
    + intros [= <-]. cbn. mlia.
    + intros Hd. specialize (H4 b d Hd). lia.
Qed.

Lemma exec_feeders n c env w u w' :
  Feeders n w -> oracle_typed c -> n <= timestamp env -> U64 (timestamp env) ->
  oracle_exec c env w = ROk u w' -> Feeders (timestamp env) w'.
Proof.
  intros HF Ht Hn Hnow H. destruct (owrites c OFeeders) eqn:Hw.
  2: { pose proof (exec_frame_feeders c Hw) as Hk. eapply feeders_mono; [|exact Hn].
       exact (feeders_frame n _ _ (keeps_ok (Keeps0 := Hk) _ _ _ _ _ _ H) HF). }
  destruct (feeders_keeps n c Hw) as [(a & p & ->)|Hk].
  - apply submit_price_ok in H as [S _]. by apply (submitted_feeders n env w a p).
  - eapply feeders_mono; [|exact Hn]. exact (keeps_ok (Keeps0 := Hk) _ _ _ _ _ _ H HF).
Qed.

(** ** The guard *)

(** A guarded read runs its body with the guard held, and frees it. *)
Lemma guarded_ok {A} (f : OM A) `{!Keeps (frame (fun k => k <> OKey.OLock)) f} env w r w' :
  unguarded w -> with_guard f env w = ROk r w' ->
  exists w1, f env (put OKey.OLock (Some 1) w) = ROk r w1 /\ w' = put OKey.OLock (Some 0) w1.
Proof.
  intros Hu H. rewrite guard_run in H by done.
  destruct (f env _) as [r1 w1|e w1|t]; [|done..]. injection H as <- <-. by eexists.
Qed.

(** The body of a guarded call. *)
Lemma exec_guarded c env w u w' :
  owrites c OGuard = true -> unguarded w -> oracle_exec c env w = ROk u w' ->
  exists w1, w' = put OKey.OLock (Some 0) w1 /\
    ((exists k p, oracle_typed c -> U32 k /\
        get_twap_price_inner k env (put OKey.OLock (Some 1) w) = ROk p w1) \/
     outer (put OKey.OLock (Some 1) w) w1).
Proof.
  intros Hw Hu H. destruct c; try discriminate Hw; clear Hw; cbn [oracle_exec oracle_typed] in *;
    apply bind_ok in H as (r & w1 & H & Hr); injection Hr as _ <-.
  - apply (guarded_ok _) in H as (w2 & H & ->); [|done]. exists w2. split; [done|].
    left. exists MAX_TWAP_OBSERVATIONS, r. done.
  - apply (guarded_ok _) in H as (w2 & H & ->); [|done]. exists w2. split; [done|].
    left. by exists observation_count, r.
  - apply (guarded_ok _) in H as (w2 & H & ->); [|done]. exists w2. split; [done|].
    apply bind_ok in H as (s & w3 & Hs & H). pose proof (reads _ _ _ _ _ Hs) as ->.
    apply bind_ok in H as (b & w3 & Hb & H). pose proof (reads _ _ _ _ _ Hb) as ->.
    destruct b.
    + right. by apply (keeps_ok outer _ _ _ _ _ H).
    + left. exists MAX_TWAP_OBSERVATIONS, r. done.
  - apply (guarded_ok _) in H as (w2 & H & ->); [|done]. exists w2. split; [done|].
    unfold calculate_fiat_stream_payout_inner in H. apply bind_ok in H as (p & w3 & Hp & H).
    pose proof (reads _ _ _ _ _ H) as ->. left. by exists MAX_TWAP_OBSERVATIONS, p.
Qed.

Lemma exec_unguarded c env w u w' :
  unguarded w -> oracle_exec c env w = ROk u w' -> unguarded w'.
Proof.
  intros Hu H. destruct (owrites c OGuard) eqn:Hw.
  - destruct (exec_guarded c env w u w' Hw Hu H) as (w1 & -> & _). unfold unguarded.
    by rewrite (put_store_eq OKey.OLock).
  - pose proof (exec_frame_guard c Hw) as Hk.
    exact (unguarded_frames _ _ (keeps_ok (Keeps0 := Hk) _ _ _ _ _ _ H) Hu).
Qed.

(** ** The history *)

Context `{FL : !FeedLaws T}.

Lemma history_keeps c :
  owrites c OHistory = true -> owrites c OGuard = false ->
  (exists a p, c = SubmitPrice a p) \/ Keeps (stable sound_history) (oracle_exec c).
Proof.
  intros Hw Hg. destruct c; try discriminate Hw; try discriminate Hg; clear Hw Hg; cbn [oracle_exec];
    [left; eauto|right; solve_clearing..].
Qed.

Lemma exec_history n c env w u w' :
  Feeders n w -> sound_history w -> unguarded w ->
  oracle_typed c -> n <= timestamp env -> U64 (timestamp env) ->
  oracle_exec c env w = ROk u w' -> sound_history w'.
Proof.
  intros HF HH Hu Ht Hn Hnow H. destruct (owrites c OHistory) eqn:Hw.
  2: { pose proof (exec_frame_history c Hw) as Hk.
       exact (history_pframes _ _ (keeps_ok (Keeps0 := Hk) _ _ _ _ _ _ H) HH). }
  destruct (owrites c OGuard) eqn:Hg.
  - destruct (exec_guarded c env w u w' Hg Hu H) as (w1 & -> & Hb).
    change (sound_history w1). assert (HP : Priced n (put OKey.OLock (Some 1) w))
      by (split; [refine (feeders_frame n w _ _ HF); by intros k Hk|exact HH]).
    destruct Hb as [(k & p & Hk)|Ho].
    + destruct (Hk Ht) as [_ Hrun]. assert (Hnu : n <= u64_max) by mlia.
      by destruct (twap_inner_priced n k env _ p w1 Hnu Hnow HP Hrun).
    + by destruct (outer_priced n _ _ Ho HP).
  - destruct (history_keeps c Hw Hg) as [(a & p & ->)|Hk].
    + apply submit_price_ok in H as [S (m & w1 & Hm & Hf & Hsub & _ & Ha & Hh)].
      pose proof (submitted_feeders n env w a p w' HF Hn Hnow Ht S) as [F1 F2 F3 F4].
      assert (HF1 : Feeders (timestamp env) w1).
      { split; rewrite ?Hf; try done; intros *; rewrite Hsub; [apply F3|apply F4]. }
      pose proof (sb_nonzero _ _ _ _ _ S). cbn in Ht.
      destruct (current_run (timestamp env) p (timestamp env) env w1 HF1 ltac:(mlia)) as [Hc Hr].
      rewrite Hm in Hc. injection Hc as ->. unfold sound_history. rewrite Hh.
      by apply pushed_history.
    + exact (keeps_ok (Keeps0 := Hk) _ _ _ _ _ _ H HH).
Qed.

(** ** The invariant *)

(** What is true of a deployed oracle at a time. *)
Record OracleOK (n : Z) w : Prop := {
  ok_admins : oadministered w;
  ok_config : config_valid w;
  ok_roles : roles_typed w;
  ok_guard : unguarded w;
  ok_feeders : Feeders n w;
  ok_history : sound_history w;
  ok_pairs : Pairs n w
}.

Lemma exec_ok n c env w u w' :
  OracleOK n w -> oracle_typed c -> n <= timestamp env -> U64 (timestamp env) ->
  oracle_exec c env w = ROk u w' -> OracleOK (timestamp env) w'.
Proof.
  intros [H1 H2 H3 H4 H5 H6 H7] Ht Hn Hnow H. split.
  - exact (keeps_ok (Keeps0 := exec_oadministered c) _ _ _ _ _ _ H H1).
  - by apply (exec_config c env w u w').
  - exact (keeps_ok (Keeps0 := exec_roles c) _ _ _ _ _ _ H H3).
  - by apply (exec_unguarded c env w u w').
  - by apply (exec_feeders n c env w u w').
  - by apply (exec_history n c env w u w').
  - by apply (exec_pairs n c env w u w').
Qed.

Lemma ok_mono n n' w : OracleOK n w -> n <= n' -> OracleOK n' w.
Proof.
  intros [] ?. split; try done; [by eapply feeders_mono|by eapply pairs_mono].
Qed.

(** A store without entries. *)
Definition blank w : Prop := (forall k, w_store w k = None) /\ (forall k, w_persist w k = None).

Lemma blank_parts n w : blank w -> config_valid w /\ roles_typed w /\ unguarded w /\
  Feeders n w /\ sound_history w /\ Pairs n w.
Proof.
  intros [Hs Hp]. split_and!.
  - intros c. by rewrite Hs.
  - intros r a b. by rewrite Hs.
  - unfold unguarded. by rewrite Hs.
  - split; unfold feeders, submission; rewrite ?Hp; try (intros *; rewrite ?Hp); try done.
    + constructor.
    + cbn. rewrite elem_of_nil. split; [done|by intros [? ?]].
  - unfold sound_history, history. rewrite Hp. apply empty_history.
  - split; intros *; by rewrite Hp.
Qed.

End Reach.
