(* ===== verification/OracleProps.v ===== *)
(** * TwapOracle: the properties of a deployed oracle

    The worlds a deployed oracle can reach, and what holds in all of them: the
    state, the administrators, the price reads and the payouts. *)

From stdpp Require Import base numbers list option strings sets sorting.
From Stdlib Require Import ZArith Lia String.
From S2P Require Import Prelude Host Ttl Pause Rbac Frame Admins OracleData OracleMedian.
From S2P Require Import OracleOps OracleSystem OracleState OracleKeep OraclePrice OracleSubmit.
From S2P Require Import OracleRead OracleAdmin OracleReach.
Import OracleError.

#[local] Open Scope Z_scope.
#[local] Open Scope sf_scope.

Section Props.
Context {T : Type} `{FC : FeedClient T}.
Abbreviation OM := (M OKey.data_key T OEvent.oracle_event oracle_error).
Abbreviation OWorld := (World OKey.data_key T OEvent.oracle_event).
Implicit Types (w : OWorld) (a : Address).

(** ** Reachable worlds

    [reachable n w]: [w] is a world of an oracle that has been deployed and
    called, the last time at the timestamp [n].  Every call is an invocation,
    which the host rolls back when it fails; ledger time does not run back; and
    the contracts the oracle calls may change on their own. *)

Inductive reachable : Z -> OWorld -> Prop :=
| reach_init env w0 admin w :
    blank w0 -> U64 (timestamp env) ->
    initialize admin env w0 = ROk tt w -> reachable (timestamp env) w
| reach_call n w env c r w' :
    reachable n w -> n <= timestamp env -> U64 (timestamp env) -> oracle_typed c ->
    invoke (oracle_exec c) env w = (r, w') -> reachable (timestamp env) w'
| reach_feeds n w feeds : reachable n w -> reachable n (set_tokens feeds w).

Lemma tokens_ok n w t : OracleOK n w -> OracleOK n (set_tokens t w).
Proof.
  intros [H1 H2 H3 H4 [] H6 []]. split; try done. by apply administered_tokens.
Qed.

Lemma init_ok env admin w0 w :
  blank w0 -> initialize admin env w0 = ROk tt w -> OracleOK (timestamp env) w.
Proof.
  intros Hb H. destruct (blank_parts (timestamp env) w0 Hb) as (H2 & H3 & H4 & H5 & H6 & H7).
  assert (HC : Keeps (frame (ooff OConf)) (initialize (T := T) admin))
    by (unfold initialize; solve_keeps).
  assert (HG : Keeps (frame (ooff OGuard)) (initialize (T := T) admin))
    by (unfold initialize; solve_keeps).
  assert (HP : forall p, Keeps (pframe (ooff p)) (initialize (T := T) admin))
    by (intros p; unfold initialize; solve_keeps).
  split.
  - apply (init_oadministered env admin w0); [apply Hb|done].
  - exact (oconfig_frames _ _ (keeps_ok (Keeps0 := HC) _ _ _ _ _ _ H) H2).
  - exact (keeps_ok (Keeps0 := init_roles admin) _ _ _ _ _ _ H H3).
  - exact (unguarded_frames _ _ (keeps_ok (Keeps0 := HG) _ _ _ _ _ _ H) H4).
  - exact (feeders_frame _ _ _ (keeps_ok (Keeps0 := HP OFeeders) _ _ _ _ _ _ H) H5).
  - exact (history_pframes _ _ (keeps_ok (Keeps0 := HP OHistory) _ _ _ _ _ _ H) H6).
  - exact (pairs_frame _ _ _ (keeps_ok (Keeps0 := HP OPairs) _ _ _ _ _ _ H) H7).
Qed.

Context `{FL : !FeedLaws T}.

Lemma reachable_ok n w : reachable n w -> OracleOK n w.
Proof.
  induction 1 as [|n w env c r w' Hr IH Hle Ht Hty Hi|]; [by eapply init_ok| |by apply tokens_ok].
  unfold invoke in Hi. destruct (oracle_exec c env w) as [[] w1|e w1|tr] eqn:Hx;
    injection Hi as _ <-; [by eapply exec_ok|by eapply ok_mono..].
Qed.

(** ** The state *)

(** C16 The state of a deployed oracle is always well formed. At most
    [MAX_SUBMITTERS] feeders are tracked, once each, and exactly those with a
    submission; every submission is a positive price that is not in the future;
    the history has at most [MAX_TWAP_OBSERVATIONS] positive prices in strict
    order of time; a stored configuration is valid; no pair has more than
    [MAX_PAIR_REPORTERS] reporters, and its reports are positive prices of the
    past; and between calls the re-entrancy guard is free. *)
Theorem oracle_state_well_formed n w :
  reachable n w ->
  Feeders n w /\ History (history w) /\
  (forall c, w_store w OKey.Config = Some c -> ValidOracleConfig c) /\ Pairs n w /\
  default 0 (w_store w OKey.OLock) = 0.
Proof. intros H. by destruct (reachable_ok n w H). Qed.

(** The oracle can never lose its administrators. In every world it can
    reach there is a list of administrators, without repetition and never empty,
    which is exactly what the role checks answer, at any ledger time. *)
Theorem oracle_keeps_administrators n w :
  reachable n w ->
  exists admins, admins <> [] /\ NoDup admins /\ forall env,
    (forall a, has_role OracleRole.Admin a env w = ROk (bool_decide (a ∈ admins)) w) /\
    role_members OracleRole.Admin env w = ROk admins w.
Proof.
  intros H. pose proof (ok_admins _ _ (reachable_ok _ _ H)) as HA.
  destruct (roster_answers (E := oracle_error) admin_role _ _ w HA) as (admins & Hne & Hnd & Ha).
  exists admins. split_and!; [done..|]. intros env. destruct (Ha env) as (_ & Hh & Hm).
  split; [exact Hh|]. unfold role_members. erewrite bind_run by exact Hm.
  assert (Hgo : forall l acc, (forall a, a ∈ l -> a ∈ admins) ->
    active_members OracleRole.Admin l acc env w = ROk (acc ++ l) w).
  { induction l as [|x l IH]; intros acc Hl; cbn [active_members]; [by rewrite app_nil_r|].
    erewrite bind_run by exact (Hh x). rewrite bool_decide_eq_true_2 by (apply Hl; set_solver).
    rewrite IH by (intros; apply Hl; set_solver). by rewrite <- app_assoc. }
  by apply Hgo.
Qed.

(** ** Reading the price *)

(** Holding the guard changes nothing a read looks at. *)
Lemma held_answer w now k : twap_answer (put OKey.OLock (Some 1) w) now k = twap_answer w now k.
Proof. done. Qed.

Lemma held_priced n w : OracleOK n w -> Priced n (put OKey.OLock (Some 1) w).
Proof.
  intros H. split; [|exact (ok_history _ _ H)].
  refine (feeders_frame n w _ _ (ok_feeders _ _ H)). by intros k Hk.
Qed.

Lemma held_config w : config_valid w -> config_valid (put OKey.OLock (Some 1) w).
Proof. exact (fun H => H). Qed.

Lemma held_feedless w : feedless w -> feedless (put OKey.OLock (Some 1) w).
Proof. exact (fun H => H). Qed.

(** A guarded read of the world: the guard is back where it was. *)
Definition after_read w : OWorld := put OKey.OLock (Some 0) (put OKey.OLock (Some 1) w).

Lemma read_run n k env w :
  OracleOK n w -> feedless w -> U64 (timestamp env) -> U32 k ->
  get_twap_price_for_observations k env w =
    outcome_of (twap_answer w (timestamp env) k) (after_read w).
Proof.
  intros HO Hw Ht Hk. unfold get_twap_price_for_observations.
  rewrite (guard_run _ env w (ok_guard _ _ HO)).
  rewrite (twap_inner_run n) by (done || by apply held_priced || by apply held_feedless ||
    apply held_config, HO).
  rewrite held_answer. by destruct (twap_answer w (timestamp env) k).
Qed.

(** What the time-weighted price of an oracle without external feeds is, on
    every branch. It is refused for an observation count out of range, without a
    configuration, when no submission is fresh (stale, or none at all) and
    when fewer feeders than the quorum are fresh; otherwise it is the
    duration-weighted average of the recent history, or the median of the fresh
    submissions when the history spans no time. No checked operation overflows,
    and the read changes nothing but the guard it takes and frees. *)
Theorem twap_price_is_exact n w env k :
  reachable n w -> feedless w -> U64 (timestamp env) -> U32 k ->
  get_twap_price_for_observations k env w =
    match twap_answer w (timestamp env) k with
    | inr p => ROk p (after_read w)
    | inl e => RErr e (after_read w)
    end.
Proof.
  intros Hr Hw Ht Hk. rewrite (read_run n) by (done || by apply reachable_ok).
  by destruct (twap_answer w (timestamp env) k).
Qed.

(** Whether a range holds more than half of some prices. *)
Definition majority_within (lo hi : Z) (l : list Z) : Prop :=
  (List.length l < 2 * inside lo hi l)%nat.

Lemma fits_prices n w now s : Feeders n w -> fits u64_max (fresh_prices w now s).
Proof.
  intros HF. eapply Forall_impl; [exact (fresh_prices_positive n w now s HF)|].
  cbv beta. intros; lia.
Qed.

Lemma recent_elem k l o : o ∈ recent k l -> o ∈ l.
Proof. unfold recent. intros Ho. rewrite <- (take_drop (List.length l - Z.to_nat k) l). set_solver. Qed.

(** ** The range of answers *)

Lemma answer_range n w now k p :
  OracleOK n w -> twap_answer w now k = inr p -> 0 <= p <= u64_max.
Proof.
  intros HO. unfold twap_answer. destruct (_ || _); [done|].
  destruct (w_store w OKey.Config) as [c|]; [|done]. cbv zeta.
  pose proof (fits_prices n w now (max_staleness c) (ok_feeders _ _ HO)) as Hf.
  destruct (fresh_prices w now (max_staleness c)) as [|x l]; [done|].
  destruct (_ <? _); [done|]. destruct (twap_of _ _ _ _) as [q|] eqn:Hq; intros H; injection H as <-.
  - eapply average_bounds; [apply (spans_nonneg now (max_staleness c))| |exact Hq].
    apply Forall_forall. intros y (o & Hin%recent_elem & ->)%spans_prices.
    destruct (ok_history _ _ HO) as [_ _ Ht]. rewrite Forall_forall in Ht. specialize (Ht o Hin). lia.
  - destruct (median_spec (x :: l) ltac:(done)) as (m & s & _ & _ & _ & Hrun).
    rewrite Hrun. by apply (median_in_range 0 u64_max (x :: l)).
Qed.

End Props.
