(* ===== verification/OracleFeeds.v ===== *)
(** * TwapOracle: reading a price with external feeds

    What each feed offers, which feed a read takes its price from, and what the
    time-weighted price is when feeds are configured: the first offer is
    recorded in the history and averaged with it; without an offer the
    feeders' submissions decide. *)

From stdpp Require Import base numbers list option strings sets sorting.
From Stdlib Require Import ZArith Lia String.
From S2P Require Import Prelude Host Ttl Pause Rbac Frame OracleData OracleMedian.
From S2P Require Import OracleOps OracleSystem OracleState OracleKeep OraclePrice OracleRead.
From S2P Require Import OracleReach OracleProps.
Import OracleError.

#[local] Open Scope Z_scope.
#[local] Open Scope sf_scope.

Section Feeds.
Context {T : Type} `{FC : FeedClient T}.
Abbreviation OM := (M OKey.data_key T OEvent.oracle_event oracle_error).
Abbreviation OWorld := (World OKey.data_key T OEvent.oracle_event).
Abbreviation OOutcome := (Outcome OKey.data_key T OEvent.oracle_event oracle_error).
Implicit Types (w : OWorld) (a : Address) (t : T).

(** ** What a feed offers *)

(** The feeds of an oracle, in the order they are asked. *)
Definition feeds_of w : list Address :=
  option_list (w_store w OKey.PrimaryOracle) ++ option_list (w_store w OKey.FallbackOracle).

(** Not too old; a bound of 0 is no bound. *)
Definition in_time (s now : Z) (d : PriceData) : bool :=
  (s =? 0) || (sat_u64 (now - updated_at d) <=? s).

(** The prices the endpoints of an external feed offer: an average counts as of
    now, the latest price as of its own time. *)
Definition average_offer (env : Env) t a : option PriceData * T :=
  match feed_get_twap_price env t a with
  | Some (p, t') => (if 0 <? p then Some (mkPriceData p (timestamp env)) else None, t')
  | None => (None, t)
  end.

Definition latest_offer (s : Z) (env : Env) t a : option PriceData * T :=
  match feed_latest_price env t a with
  | Some (d, t') => (if (0 <? price d) && in_time s (timestamp env) d then Some d else None, t')
  | None => (None, t)
  end.

(** The first of two offers. *)
Definition or_else (r : option PriceData * T) (next : T -> option PriceData * T)
  : option PriceData * T :=
  match r with (Some d, t) => (Some d, t) | (None, t) => next t end.

(** What a feed offers: a feeder its own submission, another contract its
    endpoints in turn, the oracle itself nothing. *)
Definition offer (s : Z) (env : Env) w t a : option PriceData * T :=
  match submission w a with
  | Some d => (if negb (price d =? 0) && in_time s (timestamp env) d then Some d else None, t)
  | None =>
      if addr_eqb a (current_contract env) then (None, t)
      else or_else (average_offer env t a) (fun t' => latest_offer s env t' a)
  end.

(** The first offer of some feeds, asked in order. *)
Fixpoint first_offer (s : Z) (env : Env) w (l : list Address) t : option PriceData * T :=
  match l with
  | [] => (None, t)
  | a :: rest => or_else (offer s env w t a) (fun t' => first_offer s env w rest t')
  end.

(** Only the stored submissions matter. *)
Lemma first_offer_outer s env w w' l t :
  w_persist w' = w_persist w -> first_offer s env w' l t = first_offer s env w l t.
Proof.
  intros Hp. revert t. induction l as [|a l IH]; intros t; cbn [first_offer]; [done|].
  assert (offer s env w' t a = offer s env w t a) as ->
    by (unfold offer, submission; by rewrite Hp).
  destruct (offer _ _ _ _ _) as [[d|] t']; cbn; [done|apply IH].
Qed.

(** What the oracle asks: all its feeds. *)
Definition offered (s : Z) (env : Env) w : option PriceData * T :=
  first_offer s env w (feeds_of w) (w_tokens w).

(** ** The computations find these offers *)

(** A result that is the offer, or some error. *)
Definition offers w (o : OOutcome PriceData) (r : option PriceData * T) : Prop :=
  match r with
  | (Some d, t) => o = ROk d (set_tokens t w)
  | (None, t) => exists e, o = RErr e (set_tokens t w)
  end.

Lemma tokens_same w : set_tokens (w_tokens w) w = w.
Proof. by destruct w. Qed.

Lemma offers_none w e : offers w (RErr e w) (None, w_tokens w).
Proof. exists e. by rewrite tokens_same. Qed.

Lemma offers_some w d : offers w (ROk d w) (Some d, w_tokens w).
Proof. cbn. by rewrite tokens_same. Qed.

Lemma latest_offers s a env w :
  offers w (query_latest a (timestamp env) s env w) (latest_offer s env (w_tokens w) a).
Proof.
  unfold query_latest, latest_offer.
  destruct (feed_latest_price env (w_tokens w) a) as [[d t']|] eqn:Hf.
  - erewrite bind_run by (unfold try_feed; rewrite Hf; reflexivity).
    cbv beta iota. unfold in_time.
    destruct ((0 <? price d) && _); [done|by eexists].
  - erewrite bind_run by (unfold try_feed; rewrite Hf; reflexivity).
    apply offers_none.
Qed.

Lemma external_offers s a env w :
  offers w (query_external a (timestamp env) s env w)
    (or_else (average_offer env (w_tokens w) a) (fun t' => latest_offer s env t' a)).
Proof.
  unfold query_external, average_offer.
  destruct (feed_get_twap_price env (w_tokens w) a) as [[p t']|] eqn:Hf.
  - erewrite bind_run by (unfold try_feed; rewrite Hf; reflexivity).
    cbv beta iota. destruct (0 <? p); [done|]. cbn [or_else].
    exact (latest_offers s a env (set_tokens t' w)).
  - erewrite bind_run by (unfold try_feed; rewrite Hf; reflexivity). apply latest_offers.
Qed.

Lemma query_offers s a env w :
  0 <= s -> offers w (query_oracle_feed a s env w) (offer s env w (w_tokens w) a).
Proof.
  intros Hs. unfold query_oracle_feed, offer, submission.
  do 2 erewrite bind_run by reflexivity.
  destruct (w_persist w (OKey.Submission a)) as [d|].
  - rewrite !bind_throw_if. unfold in_time. destruct (price d =? 0); [apply offers_none|].
    cbn [negb andb]. destruct (Z.eqb_spec s 0) as [->|Hne]; cbn [orb]; [apply offers_some|].
    destruct (Z.ltb_spec 0 s); [|lia]. cbn [andb].
    destruct (Z.ltb_spec s (sat_u64 (timestamp env - updated_at d)));
      destruct (Z.leb_spec (sat_u64 (timestamp env - updated_at d)) s); try lia;
      [apply offers_none|apply offers_some].
  - erewrite bind_run by reflexivity.
    destruct (addr_eqb a _); [apply offers_none|apply external_offers].
Qed.

(** Asking once more after a feed without an offer. *)
Lemma attempt_offers {A} (m : OM PriceData) (f : oracle_error + PriceData -> OM A) env w r :
  offers w (m env w) r ->
  match r with
  | (Some d, t) => bind (attempt m) f env w = f (inr d) env (set_tokens t w)
  | (None, t) => exists e, bind (attempt m) f env w = f (inl e) env (set_tokens t w)
  end.
Proof.
  destruct r as [[d|] t]; cbn.
  - intros H. by erewrite bind_run by (unfold attempt; rewrite H; reflexivity).
  - intros [e H]. exists e. by erewrite bind_run by (unfold attempt; rewrite H; reflexivity).
Qed.

Lemma offers_tokens w t o r : offers (set_tokens t w) o r -> offers w o r.
Proof. by destruct r as [[d|] t']. Qed.

Lemma fallback_offers s e env w :
  0 <= s ->
  offers w (query_fallback (w_store w OKey.FallbackOracle) s e env w)
    (first_offer s env w (option_list (w_store w OKey.FallbackOracle)) (w_tokens w)).
Proof.
  intros Hs. unfold query_fallback.
  destruct (w_store w OKey.FallbackOracle) as [a|]; unfold option_list; cbn [option_rect first_offer].
  - pose proof (attempt_offers (query_oracle_feed a s)
      (fun r => match r with inr data => ret data | inl _ => throw e end) env w _
      (query_offers s a env w Hs)) as H.
    destruct (offer _ _ _ _ _) as [[d|] t]; cbn [or_else]; cbn in H.
    + by rewrite H.
    + destruct H as [e' ->]. by exists e.
  - apply offers_none.
Qed.

(** The failover of the code is the first offer. *)
Lemma resolve_offers s env w :
  0 <= s -> offers w (resolve_oracle_with_failover s env w) (offered s env w).
Proof.
  intros Hs. unfold resolve_oracle_with_failover, offered, feeds_of.
  do 2 erewrite bind_run by reflexivity.
  destruct (w_store w OKey.PrimaryOracle) as [a|]; unfold option_list; cbn [option_rect app first_offer].
  - match goal with |- context [bind (attempt ?m) ?f _ _] =>
      pose proof (attempt_offers m f env w _ (query_offers s a env w Hs)) as H end.
    destruct (offer _ _ _ _ _) as [[d|] t]; cbn [or_else]; cbn in H.
    + by rewrite H.
    + destruct H as [e ->]. apply (offers_tokens w t).
      rewrite <- (first_offer_outer s env w (set_tokens t w)) by done.
      exact (fallback_offers s e env (set_tokens t w) Hs).
  - by apply fallback_offers.
Qed.

(** ** The time-weighted price *)

(** The price averaged with an offer: the offer enters the history, unless the
    history is ahead of it. *)
Definition averaged (count s : Z) (d : PriceData) (env : Env) w : OOutcome Z :=
  if ahead (updated_at d) (history w) then RErr StalePriceFeed w
  else
    let h := pushed (price d) (updated_at d) (history w) in
    ROk (default (price d) (twap_of (timestamp env) s count h))
      (add_ttl (Some OKey.PriceObservations) MIN_TTL_LEDGERS EXTEND_TTL_LEDGERS
         (put_persist OKey.PriceObservations (Some h) w)).

(** An offer is averaged; without one, something else happens. *)
Definition averaged_or (count s : Z) (env : Env) w (rest : T -> OOutcome Z) : OOutcome Z :=
  match offered s env w with
  | (Some d, t) => averaged count s d env (set_tokens t w)
  | (None, t) => rest t
  end.

(** The time-weighted price of an oracle with any feeds. The feeds come before
    the feeders; when neither has a price, the feeds are asked once more. *)
Definition twap_reading (count : Z) (env : Env) w : OOutcome Z :=
  if (count =? 0) || (MAX_TWAP_OBSERVATIONS <? count) then RErr InvalidObservationCount w
  else match w_store w OKey.Config with
       | None => RErr OracleNotConfigured w
       | Some c =>
           let s := max_staleness c in
           averaged_or count s env w (fun t =>
             match twap_answer w (timestamp env) count with
             | inr p => ROk p (set_tokens t w)
             | inl e => averaged_or count s env (set_tokens t w) (fun t' => RErr e (set_tokens t' w))
             end)
       end.

Lemma averaged_run count s d env w :
  History (history w) -> priced d -> U64 (timestamp env) -> 0 <= s ->
  0 < count <= MAX_TWAP_OBSERVATIONS ->
  record_and_calculate_twap (price d) (updated_at d) count s env w = averaged count s d env w.
Proof.
  intros Hh [Hp Hu] Ht Hs Hc. unfold record_and_calculate_twap, averaged.
  pose proof (record_run (price d) (updated_at d) env w) as Hr.
  destruct (ahead _ _) eqn:Ha; [by erewrite bind_err by exact Hr|].
  erewrite bind_run by exact Hr. set (w1 := add_ttl _ _ _ _) in *.
  assert (Hh1 : history w1 = pushed (price d) (updated_at d) (history w)) by (unfold w1; parts; reflexivity).
  rewrite twap_or_run; [|rewrite Hh1; by apply pushed_history|done..]. rewrite Hh1.
  by destruct (twap_of _ _ _ _).
Qed.

Context `{FL : !FeedLaws T}.

(** Offers have their machine width. *)
Lemma offered_priced n s env w d t :
  Feeders n w -> n <= u64_max -> U64 (timestamp env) -> 0 <= s ->
  offered s env w = (Some d, t) -> priced d.
Proof.
  intros HF Hn Ht Hs Ho. pose proof (resolve_offers s env w Hs) as H. rewrite Ho in H.
  by apply (resolve_ok n) in H as [? _].
Qed.

Lemma failover_run n count s (rest : OM Z) env w :
  Priced n w -> n <= u64_max -> U64 (timestamp env) -> 0 <= s ->
  0 < count <= MAX_TWAP_OBSERVATIONS ->
  failover_or count s rest env w =
    averaged_or count s env w (fun t => rest env (set_tokens t w)).
Proof.
  intros [HF HH] Hn Ht Hs Hc. unfold failover_or, averaged_or.
  pose proof (attempt_offers (resolve_oracle_with_failover s)
    (fun r => match r with
              | inr data => record_and_calculate_twap (price data) (updated_at data) count s
              | inl _ => rest
              end) env w _ (resolve_offers s env w Hs)) as H.
  pose proof (offered_priced n s env w) as Hp.
  destruct (offered s env w) as [[d|] t].
  - rewrite H. apply averaged_run; try done. by apply (Hp d t).
  - by destruct H as [e ->].
Qed.

(** Without feeds nothing is asked. *)
Lemma feedless_reading count s env w rest :
  has_feeds env w = ROk false w -> averaged_or count s env w rest = rest (w_tokens w).
Proof.
  unfold has_feeds, averaged_or, offered, feeds_of. erewrite bind_run by reflexivity.
  destruct (w_store w OKey.PrimaryOracle); [done|]. unfold shas. cbn [is_some].
  destruct (w_store w OKey.FallbackOracle); [done|]. done.
Qed.

(** The feeders' part of a read. *)
Lemma submitters_reading n c k env w :
  Priced n w -> n <= u64_max -> config_valid w -> U64 (timestamp env) ->
  w_store w OKey.Config = Some c -> 0 < k <= MAX_TWAP_OBSERVATIONS ->
  twap_from_submitters c k env w =
    match twap_answer w (timestamp env) k with
    | inr p => ROk p w
    | inl e => averaged_or k (max_staleness c) env w (fun t => RErr e (set_tokens t w))
    end.
Proof.
  intros HP Hn Hcv Ht Hc Hk. pose proof HP as [HF HH]. destruct (Hcv c Hc) as [_ _ Hs _].
  unfold twap_answer. destruct ((k =? 0) || (MAX_TWAP_OBSERVATIONS <? k)) eqn:Hr.
  { apply orb_true_iff in Hr as [?%Z.eqb_eq|?%Z.ltb_lt]; lia. }
  rewrite Hc. unfold twap_from_submitters.
  erewrite bind_run by apply submitters_run. erewrite bind_run by reflexivity.
  erewrite bind_run by apply collect_fresh_run. cbv beta iota. rewrite !orb_false_l.
  change ([] ++ ?l) with l. fold (fresh_prices w (timestamp env) (max_staleness c)).
  fold (any_submission w).
  destruct (fresh_prices w (timestamp env) (max_staleness c)) as [|x l] eqn:Hl.
  { by rewrite (failover_run n) by (done || lia). }
  destruct (_ <? min_submitters c); [by rewrite (failover_run n) by (done || lia)|].
  rewrite twap_or_run by (done || lia).
  destruct (twap_of _ _ _ _) as [p|]; [done|].
  destruct (median_spec (x :: l) ltac:(done)) as (m & ? & _ & _ & _ & Hm). by rewrite Hm.
Qed.

Lemma reachable_time n w : reachable n w -> U64 n.
Proof. by induction 1. Qed.

Lemma answer_tokens w t now k : twap_answer (set_tokens t w) now k = twap_answer w now k.
Proof. done. Qed.

Lemma twap_inner_reading n k env w :
  Priced n w -> n <= u64_max -> config_valid w -> U64 (timestamp env) -> U32 k ->
  get_twap_price_inner k env w = twap_reading k env w.
Proof.
  intros HP Hn Hcv Ht Hk. unfold get_twap_price_inner, twap_reading. rewrite bind_throw_if.
  destruct ((k =? 0) || (MAX_TWAP_OBSERVATIONS <? k)) eqn:Hr; [done|].
  apply orb_false_iff in Hr as [Hr1 Hr2]. apply Z.eqb_neq in Hr1. apply Z.ltb_ge in Hr2.
  assert (Hk' : 0 < k <= MAX_TWAP_OBSERVATIONS) by mlia.
  erewrite bind_run by reflexivity.
  destruct (w_store w OKey.Config) as [c|] eqn:Hc; [|done]. erewrite bind_run by reflexivity.
  destruct (Hcv c Hc) as [_ _ Hs _]. cbv zeta.
  assert (Hrest : forall t, twap_from_submitters c k env (set_tokens t w) =
    match twap_answer w (timestamp env) k with
    | inr p => ROk p (set_tokens t w)
    | inl e => averaged_or k (max_staleness c) env (set_tokens t w) (fun t' => RErr e (set_tokens t' w))
    end).
  { intros t. rewrite (submitters_reading n) by (done || by apply (outer_priced n w)).
    rewrite answer_tokens. by destruct (twap_answer w (timestamp env) k). }
  destruct (has_feeds env w) as [[] w1|e w1|tr] eqn:Hb.
  - pose proof (reads has_feeds _ _ _ _ Hb) as ->. erewrite bind_run by exact Hb.
    cbv beta iota. rewrite (failover_run n) by (done || lia). unfold averaged_or at 1 2.
    destruct (offered _ env w) as [[d|] t]; [done|]. apply Hrest.
  - pose proof (reads has_feeds _ _ _ _ Hb) as ->. erewrite bind_run by exact Hb.
    rewrite (feedless_reading k _ env w) by exact Hb. rewrite <- Hrest. by rewrite tokens_same.
  - unfold has_feeds in Hb. erewrite bind_run in Hb by reflexivity.
    by destruct (is_some (w_store w OKey.PrimaryOracle)).
  - unfold has_feeds in Hb. erewrite bind_run in Hb by reflexivity.
    by destruct (is_some (w_store w OKey.PrimaryOracle)).
Qed.

(** C6 What the time-weighted price of an oracle is, on every branch and with any
    external feeds. The feeds are asked in order, primary first: a feeder offers
    its own submission if it is fresh, another contract its average, or its
    latest price if that is fresh. The first offer is recorded in the history
    (refused if the history is ahead of it) and the duration-weighted average of
    the history is the answer, or the offer itself when the history spans no
    time. Without an offer the fresh submissions decide, as for an oracle
    without feeds, and if they yield no price the feeds are asked a second time
    before the read fails with the submissions' error. No checked operation
    overflows; besides the history and the contracts asked, nothing changes but
    the guard that is taken and freed. (Against the source's comments: a feed's
    offer answers whatever the number of fresh submissions, so the quorum and
    the staleness of the feeders only bind a read without an offer, and the
    read, which the source calls read-only, writes the offer to the history,
    during a pause too; [offer_answers_without_quorum] is such a read.) *)
Theorem twap_price_with_feeds_is_exact n w env k :
  reachable n w -> U64 (timestamp env) -> U32 k ->
  get_twap_price_for_observations k env w =
    released (twap_reading k env (put OKey.OLock (Some 1) w)).
Proof.
  intros Hr Ht Hk. pose proof (reachable_ok n w Hr) as HO. pose proof (reachable_time n w Hr) as Hn.
  unfold get_twap_price_for_observations. rewrite (guard_run _ env w (ok_guard _ _ HO)).
  rewrite (twap_inner_reading n); [done|by apply held_priced|apply Hn|apply held_config, HO|done..].
Qed.

(** ** Payouts *)

Lemma history_average now s k h p :
  History h -> twap_of now s k h = Some p -> 0 <= p <= u64_max.
Proof.
  intros [_ _ Ht] Hp. unfold twap_of in Hp.
  eapply average_bounds; [apply (spans_nonneg now s)| |exact Hp].
  apply Forall_forall. intros y (o & Hin%recent_elem & ->)%spans_prices.
  rewrite Forall_forall in Ht. specialize (Ht o Hin). lia.
Qed.

Lemma averaged_range count s d env w p w1 :
  History (history w) -> priced d -> averaged count s d env w = ROk p w1 ->
  0 <= p <= u64_max /\ w_store w1 = w_store w.
Proof.
  intros Hh [Hp Hu] H. unfold averaged in H. destruct (ahead _ _) eqn:Ha; [done|]. injection H as <- <-.
  split; [|done]. destruct (twap_of _ _ _ _) as [q|] eqn:Hq; [|cbn; lia].
  eapply history_average; [|exact Hq]. by apply pushed_history.
Qed.

Lemma averaged_or_range n count s env w rest p w1 :
  Priced n w -> n <= u64_max -> U64 (timestamp env) -> 0 <= s ->
  (forall t, rest t = ROk p w1 -> 0 <= p <= u64_max /\ w_store w1 = w_store w) ->
  averaged_or count s env w rest = ROk p w1 -> 0 <= p <= u64_max /\ w_store w1 = w_store w.
Proof.
  intros [HF HH] Hn Ht Hs Hr H. unfold averaged_or in H.
  pose proof (offered_priced n s env w) as Hp. destruct (offered s env w) as [[d|] t]; [|by eapply Hr].
  apply averaged_range in H; [done..|]. by apply (Hp d t).
Qed.

(** A price that is read has 64 bits, and the configuration is as it was. *)
Lemma reading_range n k env w p w1 :
  OracleOK n w -> n <= u64_max -> U64 (timestamp env) ->
  twap_reading k env (put OKey.OLock (Some 1) w) = ROk p w1 ->
  0 <= p <= u64_max /\ w_store w1 = w_store (put OKey.OLock (Some 1) w).
Proof.
  intros HO Hn Ht. pose proof (held_priced n w HO) as HP.
  pose proof (held_config w (ok_config _ _ HO)) as Hcv.
  pose proof (held_answer w (timestamp env) k) as Hans.
  set (w0 := put OKey.OLock _ w) in *. intros H. unfold twap_reading in H.
  destruct (_ || _); [done|]. destruct (w_store w0 OKey.Config) as [c|] eqn:Hc; [|done].
  cbv zeta in H. destruct (Hcv c Hc) as [_ _ Hs _].
  revert H. apply (averaged_or_range n); [done..|lia|]. intros t. rewrite Hans.
  destruct (twap_answer w (timestamp env) k) as [e|q] eqn:Ha.
  - intros H. apply (averaged_or_range n) in H; [exact H|by apply (outer_priced n w0)|done..|lia|done].
  - intros [= <- <-]. split; [by apply (answer_range n w (timestamp env) k)|done].
Qed.
(** ** Bounds on the price *)

(** An observation enters, and none of the older ones comes back. *)
Lemma recent_pushed k p ts l o :
  o ∈ recent k (pushed p ts l) -> o = mkPriceObservation p ts \/ o ∈ recent k l.
Proof.
  unfold recent. rewrite !list_elem_of_lookup. intros [i Hi]. rewrite lookup_drop in Hi.
  set (new := mkPriceObservation p ts) in *.
  assert (Happ : forall l', l' = l \/ l' = drop 1 l ->
    (l' ++ [new]) !! (List.length (l' ++ [new]) - Z.to_nat k + i)%nat = Some o ->
    o = new \/ exists j, drop (List.length l - Z.to_nat k) l !! j = Some o).
  { intros l' Hl' H. rewrite length_app in H. cbn [List.length] in H.
    apply lookup_app_Some in H as [H|[_ H]].
    - right. destruct Hl' as [->| ->].
      + exists (List.length l + 1 - Z.to_nat k + i - (List.length l - Z.to_nat k))%nat.
        rewrite lookup_drop, <- H. f_equal. lia.
      + rewrite length_drop, lookup_drop in H.
        exists (1 + (List.length l - 1 + 1 - Z.to_nat k + i) - (List.length l - Z.to_nat k))%nat.
        rewrite lookup_drop, <- H. f_equal. lia.
    - left. by apply list_lookup_singleton_Some in H as [_ <-]. }
  unfold pushed in Hi. cbv zeta in Hi. fold new in Hi. destruct (last l) as [latest|].
  - destruct (_ =? ts).
    + rewrite length_insert in Hi. rewrite list_lookup_insert_Some in Hi.
      destruct Hi as [(_ & <- & _)|[_ Hi]]; [by left|]. right. exists i. by rewrite lookup_drop.
    + destruct (_ =? MAX_TWAP_OBSERVATIONS);
      [by apply (Happ (drop 1 l)); [right|]|by apply (Happ l); [left|]].
  - destruct (_ =? MAX_TWAP_OBSERVATIONS);
      [by apply (Happ (drop 1 l)); [right|]|by apply (Happ l); [left|]].
Qed.

(** A price the feeds can offer during a read: to the first question, or to
    the second when the first was in vain. *)
Definition may_offer (s : Z) (env : Env) w (d : PriceData) : Prop :=
  exists t t', (t = w_tokens w \/ offered s env w = (None, t)) /\
               offered s env (set_tokens t w) = (Some d, t').

(** The guard is nothing the feeds are asked about. *)
Lemma held_offered s env w : offered s env (put OKey.OLock (Some 1) w) = offered s env w.
Proof.
  unfold offered. assert (feeds_of (put OKey.OLock (Some 1) w) = feeds_of w) as -> by reflexivity.
  by apply first_offer_outer.
Qed.

Lemma averaged_bounded k s d env w lo hi p w1 :
  (forall o, o ∈ recent k (history w) -> lo <= po_price o <= hi) -> lo <= price d <= hi ->
  averaged k s d env w = ROk p w1 -> lo <= p <= hi.
Proof.
  intros Ho Hd H. unfold averaged in H. destruct (ahead _ _); [done|]. injection H as <- _.
  destruct (twap_of _ _ _ _) as [q|] eqn:Hq; [|exact Hd]. cbn [default].
  unfold twap_of in Hq. eapply average_bounds; [apply (spans_nonneg (timestamp env) s)| |exact Hq].
  apply Forall_forall. intros x (o & Hin & ->)%spans_prices.
  by apply recent_pushed in Hin as [->|Hin]; [|apply Ho].
Qed.

Lemma averaged_or_bounded k s env w rest lo hi p w1 :
  (forall o, o ∈ recent k (history w) -> lo <= po_price o <= hi) ->
  (forall d t, offered s env w = (Some d, t) -> lo <= price d <= hi) ->
  (forall t, offered s env w = (None, t) -> rest t = ROk p w1 -> lo <= p <= hi) ->
  averaged_or k s env w rest = ROk p w1 -> lo <= p <= hi.
Proof.
  intros Ho Hd Hr H. unfold averaged_or in H.
  destruct (offered s env w) as [[d|] t]; [|by apply (Hr t)].
  apply averaged_bounded with (lo := lo) (hi := hi) in H; [exact H|exact Ho|by apply (Hd d t)].
Qed.

Lemma answer_bounded n w now k p lo hi c :
  Feeders n w -> (forall o, o ∈ recent k (history w) -> lo <= po_price o <= hi) ->
  w_store w OKey.Config = Some c ->
  (let l := fresh_prices w now (max_staleness c) in l = [] \/ majority_within lo hi l) ->
  twap_answer w now k = inr p -> lo <= p <= hi.
Proof.
  intros HF Ho Hc Hm H. unfold twap_answer in H. destruct (_ || _); [done|].
  rewrite Hc in H. cbv zeta in H, Hm.
  destruct (fresh_prices w now (max_staleness c)) as [|x l] eqn:Hl; [done|].
  destruct Hm as [?|Hm]; [done|].
  destruct (_ <? _); [done|]. destruct (twap_of _ _ _ _) as [q|] eqn:Hq; injection H as Hp.
  - unfold twap_of in Hq. subst q. eapply average_bounds; [apply spans_nonneg| |exact Hq].
    apply Forall_forall. intros y (o & Hin & ->)%spans_prices. by apply Ho.
  - destruct (median_spec (x :: l) ltac:(done)) as (m & s & Hperm & Hs & Hmed & Hrun).
    rewrite Hrun in Hp. cbn in Hp. subst m. by eapply median_majority.
Qed.

(** C22 The price stays where the market is, with any external feeds. Whatever the
    read answers lies in every range that holds the prices of all observations
    it averages, every price its feeds can offer during the read, and more than
    half of the fresh submissions, if there are any: one extreme submission
    moves nothing. *)
Theorem twap_price_is_bounded n w env k p w' lo hi :
  reachable n w -> U64 (timestamp env) -> U32 k ->
  get_twap_price_for_observations k env w = ROk p w' ->
  (forall o, o ∈ recent k (history w) -> lo <= po_price o <= hi) ->
  (forall c, w_store w OKey.Config = Some c ->
     (forall d, may_offer (max_staleness c) env w d -> lo <= price d <= hi) /\
     let l := fresh_prices w (timestamp env) (max_staleness c) in
     l = [] \/ majority_within lo hi l) ->
  lo <= p <= hi.
Proof.
  intros Hr Ht Hk H Ho Hc. pose proof (reachable_ok n w Hr) as HO.
  pose proof (reachable_time n w Hr) as [_ Hn]. unfold get_twap_price_for_observations in H.
  rewrite (guard_run _ env w (ok_guard _ _ HO)) in H.
  rewrite (twap_inner_reading n) in H;
    [|by apply held_priced|apply Hn|apply held_config, HO|done..].
  destruct (twap_reading k env _) as [q w1|e w1|tr] eqn:Hq; [|done..]. injection H as -> _.
  change (forall o, o ∈ recent k (history (put OKey.OLock (Some 1) w)) -> lo <= po_price o <= hi) in Ho.
  unfold twap_reading in Hq. destruct (_ || _); [done|].
  assert (Hst : w_store (put OKey.OLock (Some 1) w) OKey.Config = w_store w OKey.Config) by reflexivity.
  rewrite Hst in Hq.
  destruct (w_store w OKey.Config) as [c|] eqn:Hcf; [|done]. cbv zeta in Hq.
  destruct (Hc c eq_refl) as [Hoff Hm]. pose proof (held_answer w (timestamp env) k) as Hans.
  assert (Hfirst : forall d t, offered (max_staleness c) env (put OKey.OLock (Some 1) w) = (Some d, t) ->
    lo <= price d <= hi).
  { intros d t Hd. rewrite held_offered in Hd. apply Hoff. exists (w_tokens w), t.
    split; [by left|]. by rewrite tokens_same. }
  assert (Hsecond : forall t d t', offered (max_staleness c) env (put OKey.OLock (Some 1) w) = (None, t) ->
    offered (max_staleness c) env (set_tokens t (put OKey.OLock (Some 1) w)) = (Some d, t') ->
    lo <= price d <= hi).
  { intros t d t' H1 H2. rewrite held_offered in H1. apply Hoff. exists t, t'. split; [by right|].
    by rewrite <- (held_offered _ _ (set_tokens t w)). }
  set (w0 := put OKey.OLock _ w) in *.
  revert Hq. apply averaged_or_bounded; [exact Ho|exact Hfirst|]. intros t Hnone. rewrite Hans.
  destruct (twap_answer w (timestamp env) k) as [e|q] eqn:Ha.
  - apply averaged_or_bounded; [exact Ho|intros d t2; by apply (Hsecond t)|done].
  - intros [= <- <-]. exact (answer_bounded n w _ k q lo hi c (ok_feeders _ _ HO) Ho Hcf Hm Ha).
Qed.

(** ** Payout values *)

(** The value of an amount at a price, in the configured decimals; it must fit
    64 bits. *)
Definition payout_value (amount : Z) (c : OracleConfig) (o : OOutcome Z) : OOutcome Z :=
  match o with
  | ROk p w =>
      let value := amount * p / 10 ^ decimals c in
      if value <=? u64_max then ROk value w else RErr ArithmeticOverflow w
  | RErr e w => RErr e w
  | RTrap t => RTrap t
  end.

(** C35 A fiat payout is exact, with any external feeds. It is the token amount
    times the time-weighted price that a read gives at that moment, divided by
    ten to the configured decimals and rounded down; an answer beyond 64 bits
    is refused as an overflow, and without a price it fails for the price's
    reason. No intermediate product overflows. (The documentation calls the
    function read-only and has it fail without a recent submission; the price
    read it makes is that of [get_twap_price], so with feeds it records the
    offer in the history, which is part of the outcome here, and answers
    without any submission.) *)
Theorem payout_with_feeds_is_exact n w env amount c :
  reachable n w -> U64 (timestamp env) -> U64 amount ->
  w_store w OKey.Config = Some c ->
  calculate_fiat_stream_payout amount env w =
    released (payout_value amount c (twap_reading MAX_TWAP_OBSERVATIONS env (put OKey.OLock (Some 1) w))).
Proof.
  intros Hr Ht Ham Hc. pose proof (reachable_ok n w Hr) as HO.
  pose proof (reachable_time n w Hr) as [_ Hn]. unfold calculate_fiat_stream_payout.
  rewrite (guard_run _ env w (ok_guard _ _ HO)). f_equal.
  pose proof (reading_range n MAX_TWAP_OBSERVATIONS env w) as Hrange.
  pose proof (twap_inner_reading n MAX_TWAP_OBSERVATIONS env (put OKey.OLock (Some 1) w)
    (held_priced n w HO) Hn (held_config w (ok_config _ _ HO)) Ht ltac:(done)) as Hrun.
  assert (Hc0 : w_store (put OKey.OLock (Some 1) w) OKey.Config = Some c) by exact Hc.
  set (w0 := put OKey.OLock _ w) in *. unfold calculate_fiat_stream_payout_inner, payout_value.
  destruct (twap_reading MAX_TWAP_OBSERVATIONS env w0) as [p w1|e w1|tr] eqn:Ha.
  - erewrite bind_run by exact Hrun. destruct (Hrange p w1 HO Hn Ht eq_refl) as [Hp Hst].
    erewrite bind_run by reflexivity. rewrite Hst, Hc0. erewrite bind_run by reflexivity.
    destruct (ok_config _ _ HO c Hc) as [(Hd0 & _) Hd _ _].
    assert (H10 : 0 < 10 ^ decimals c <= 10 ^ 19).
    { split; [apply Z.pow_pos_nonneg; mlia|apply Z.pow_le_mono_r; lia]. }
    erewrite bind_run by (apply checked_run, in_range_spec; unfold u128_max; lia).
    assert (0 <= amount * p <= u64_max * u64_max) by (unfold U64 in Ham; nia).
    erewrite bind_run by (apply checked_run, in_range_spec; unfold u64_max, u128_max in *; lia).
    unfold checked_div. rewrite (proj2 (Z.eqb_neq _ _)) by lia. erewrite bind_run by reflexivity.
    rewrite bind_throw_if. cbv zeta.
    destruct (Z.ltb_spec u64_max (amount * p / 10 ^ decimals c));
      destruct (Z.leb_spec (amount * p / 10 ^ decimals c) u64_max); done || lia.
  - by erewrite bind_err by exact Hrun.
  - by erewrite bind_trap by exact Hrun.
Qed.

End Feeds.
