(* ===== verification/OracleOutside.v ===== *)
(** * TwapOracle: what a call does outside the contract

    An oracle calls nobody but its feeds: a call keeps what the answers of the
    feeds keep, and over two models of the feeds that answer alike it does the
    same. *)

From stdpp Require Import base numbers list option strings gmap.
From Stdlib Require Import ZArith Lia String.
From S2P Require Import Prelude Host Ttl Pause Rbac Frame Safe.
From S2P Require Import OracleData OracleMedian OracleOps OracleSystem.
Import OracleError.

#[local] Open Scope Z_scope.
#[local] Open Scope sf_scope.

Section Congruence.
Context {T : Type} (FC1 FC2 : FeedClient T) (env : Env) (P : T -> Prop).
Abbreviation OM := (M OKey.data_key T OEvent.oracle_event oracle_error).

(** The two models answer alike where [P] holds, and keep it. *)
Context (Haverage : forall t f, P t ->
  feed_get_twap_price (FeedClient := FC1) env t f = feed_get_twap_price (FeedClient := FC2) env t f).
Context (Hlatest : forall t f, P t ->
  feed_latest_price (FeedClient := FC1) env t f = feed_latest_price (FeedClient := FC2) env t f).
Context (Kaverage : forall t f p t',
  feed_get_twap_price (FeedClient := FC2) env t f = Some (p, t') -> P t -> P t').
Context (Klatest : forall t f d t',
  feed_latest_price (FeedClient := FC2) env t f = Some (d, t') -> P t -> P t').

Lemma same_try {A} (c1 c2 : Env -> T -> option (A * T)) :
  (forall t, P t -> c1 env t = c2 env t) ->
  (forall t a t', c2 env t = Some (a, t') -> P t -> P t') ->
  Same env P ((fun e => try_feed (c1 e) e) : OM _) (fun e => try_feed (c2 e) e).
Proof.
  intros Hc Hk w HP. unfold try_feed. rewrite Hc by done.
  destruct (c2 env (w_tokens w)) as [[a t']|] eqn:Ht; (split; [done|]); [|exact HP].
  exact (Hk _ _ _ Ht HP).
Qed.

Lemma same_query_latest f n s :
  Same env P (query_latest (FC := FC1) f n s : OM _) (query_latest (FC := FC2) f n s).
Proof.
  unfold query_latest. apply same_bind; [|solve_same].
  by apply (same_try (fun e t => feed_latest_price (FeedClient := FC1) e t f)
    (fun e t => feed_latest_price (FeedClient := FC2) e t f)); eauto.
Qed.

Lemma same_query_external f n s :
  Same env P (query_external (FC := FC1) f n s : OM _) (query_external (FC := FC2) f n s).
Proof.
  pose proof (same_query_latest f n s). unfold query_external. apply same_bind; [|solve_same; done].
  by apply (same_try (fun e t => feed_get_twap_price (FeedClient := FC1) e t f)
    (fun e t => feed_get_twap_price (FeedClient := FC2) e t f)); eauto.
Qed.

Lemma same_query f s :
  Same env P (query_oracle_feed (FC := FC1) f s : OM _) (query_oracle_feed (FC := FC2) f s).
Proof.
  unfold query_oracle_feed. solve_same; apply same_query_external.
Qed.

Lemma same_resolve s :
  Same env P (resolve_oracle_with_failover (FC := FC1) s : OM _)
    (resolve_oracle_with_failover (FC := FC2) s).
Proof.
  unfold resolve_oracle_with_failover, query_fallback. solve_same; apply same_query.
Qed.

Lemma same_failover c s (m1 m2 : OM Z) :
  Same env P m1 m2 ->
  Same env P (failover_or (FC := FC1) c s m1) (failover_or (FC := FC2) c s m2).
Proof. intros Hm. unfold failover_or. solve_same; [apply same_resolve|done]. Qed.

Lemma same_submitters c k :
  Same env P (twap_from_submitters (FC := FC1) c k : OM _) (twap_from_submitters (FC := FC2) c k).
Proof. unfold twap_from_submitters. solve_same; apply same_failover; solve_same. Qed.

Lemma same_twap_inner k :
  Same env P (get_twap_price_inner (FC := FC1) k : OM _) (get_twap_price_inner (FC := FC2) k).
Proof.
  unfold get_twap_price_inner. solve_same; [apply same_failover|]; apply same_submitters.
Qed.

Lemma same_guard {A} (m1 m2 : OM A) :
  Same env P m1 m2 -> Same env P (with_guard m1) (with_guard m2).
Proof. intros Hm. unfold with_guard. solve_same; done. Qed.

(** The two endpoints an oracle serves to others. *)
Lemma same_twap_price :
  Same env P (get_twap_price (FC := FC1) : OM _) (get_twap_price (FC := FC2)).
Proof. apply same_guard, same_twap_inner. Qed.

Lemma same_latest_price :
  Same env P (latest_price (FC := FC1) : OM _) (latest_price (FC := FC2)).
Proof. unfold latest_price. solve_same; apply same_resolve. Qed.

(** Every call does the same over both models. *)
Lemma same_exec c : Same env P (oracle_exec (FC := FC1) c : OM _) (oracle_exec (FC := FC2) c).
Proof.
  destruct c; cbn [oracle_exec]; unfold drop_result;
    try (solve [apply same_refl, safe_keeps; solve_oracle]);
    apply same_bind; try (intros ?; solve_same).
  - apply same_twap_price.
  - apply same_guard, same_twap_inner.
  - apply same_guard. solve_same; [apply same_resolve|apply same_twap_inner].
  - apply same_latest_price.
  - apply same_guard. unfold calculate_fiat_stream_payout_inner. solve_same. apply same_twap_inner.
Qed.

End Congruence.

(** ** Safety *)

(** A call of an oracle keeps what the answers of its feeds keep. *)
Lemma oracle_exec_safe {T} `{FC : FeedClient T} env (P : T -> Prop) c :
  (forall t f p t', feed_get_twap_price env t f = Some (p, t') -> P t -> P t') ->
  (forall t f d t', feed_latest_price env t f = Some (d, t') -> P t -> P t') ->
  Safe env P (oracle_exec c).
Proof. intros H1 H2. eapply same_safe, (same_exec FC FC); done. Qed.
