(* ===== verification/OracleNet.v ===== *)
(** * TwapOracle: oracles that feed each other

    The feeds of an oracle may be other oracles, with feeds of their own.  Here
    any number of oracles answer each other's queries: a query runs the
    oracle that is asked, which queries its own feeds in turn.  The host
    refuses a call back into a contract that is running, so the recursion ends;
    every oracle stays in a state reachable on its own. *)

From stdpp Require Import base numbers list option strings gmap.
From Stdlib Require Import ZArith Lia String.
From S2P Require Import Prelude Host Ttl Pause Rbac Frame Safe.
From S2P Require Import OracleData OracleMedian OracleOps OracleSystem OracleReach OracleProps OracleOutside.
Import OracleError.

#[local] Open Scope Z_scope.
#[local] Open Scope sf_scope.

Abbreviation OStore := (World OKey.data_key unit OEvent.oracle_event).

(** The oracles, and those that are running. *)
Record ONet := mkONet {
  on_oracles : gmap Address OStore;
  on_stack : list Address
}.

Abbreviation NM := (M OKey.data_key ONet OEvent.oracle_event oracle_error).

Definition push (a : Address) (n : ONet) : ONet := mkONet (on_oracles n) (a :: on_stack n).

(** A call of the oracle at [a]: refused while it is running, rolled back when
    it fails. *)
Definition call_oracle {A} (m : NM A) (env : Env) (a : Address) (n : ONet) : option (A * ONet) :=
  if bool_decide (a ∈ on_stack n) then None
  else match on_oracles n !! a with
       | None => None
       | Some ow =>
           match m env (rebase (push a n) ow) with
           | ROk x ow' =>
               Some (x, mkONet (<[a := rebase tt ow']> (on_oracles (w_tokens ow'))) (on_stack n))
           | _ => None
           end
       end.

(** What the contract asked by [env] runs under. *)
Definition asked (env : Env) (a : Address) : Env :=
  mkEnv (timestamp env) (sequence env) a (fun b => addr_eqb b (current_contract env)).

(** An answer arrives if it has the width of its type. *)
Definition received {A} (fits : A -> bool) (r : option (A * ONet)) : option (A * ONet) :=
  match r with Some (x, n) => if fits x then Some (x, n) else None | None => None end.

Definition price_fits (d : PriceData) : bool := in_u64 (price d) && in_u64 (updated_at d).

(** The endpoints of the oracles, when their own queries are answered by [FC]. *)
Definition endpoints (FC : FeedClient ONet) : FeedClient ONet := {|
  feed_get_twap_price env n a := received in_u64 (call_oracle get_twap_price (asked env a) a n);
  feed_latest_price env n a := received price_fits (call_oracle latest_price (asked env a) a n)
|}.

(** Queries nested at most [depth] deep. *)
Fixpoint feeds_to (depth : nat) : FeedClient ONet :=
  match depth with
  | O => {| feed_get_twap_price _ _ _ := None; feed_latest_price _ _ _ := None |}
  | S depth' => endpoints (feeds_to depth')
  end.

(** Queries nested as deep as there are oracles. *)
#[export] Instance net_feeds : FeedClient ONet := {|
  feed_get_twap_price env n a :=
    feed_get_twap_price (FeedClient := feeds_to (S (size (on_oracles n)))) env n a;
  feed_latest_price env n a :=
    feed_latest_price (FeedClient := feeds_to (S (size (on_oracles n)))) env n a
|}.

Lemma price_fits_ok d : price_fits d = true -> U64 (price d) /\ U64 (updated_at d).
Proof. unfold price_fits, in_u64. intros [H1 H2]%andb_true_iff. by rewrite !in_range_spec in *. Qed.

Lemma received_some {A} (fits : A -> bool) r x n :
  received fits r = Some (x, n) -> fits x = true /\ r = Some (x, n).
Proof. destruct r as [[y m]|]; cbn; [|done]. destruct (fits y) eqn:Hf; [|done]. by intros [= -> ->]. Qed.

#[export] Instance net_feed_laws : FeedLaws ONet.
Proof.
  constructor; intros * H; apply received_some in H as [H _].
  - unfold in_u64 in H. by rewrite in_range_spec in H.
  - by apply price_fits_ok.
Qed.

(** ** The recursion ends *)

(** The oracles and the stack stay the same. *)
Definition shape (n n' : ONet) : Prop :=
  dom (on_oracles n') = dom (on_oracles n) /\ on_stack n' = on_stack n.

(** The oracles that are not running. *)
Definition idle (n : ONet) : gset Address := dom (on_oracles n) ∖ list_to_set (on_stack n).
Definition free (n : ONet) : nat := size (idle n).

Lemma shape_free n n' : shape n n' -> free n' = free n.
Proof. intros [H1 H2]. unfold free, idle. by rewrite H1, H2. Qed.

Lemma push_free a n : a ∉ on_stack n -> is_Some (on_oracles n !! a) -> (free (push a n) < free n)%nat.
Proof.
  intros Ha Hin. apply elem_of_dom in Hin. unfold free. apply subset_size. unfold idle.
  cbn [on_oracles on_stack push list_to_set]. set_solver.
Qed.

Lemma free_size n : (free n <= size (on_oracles n))%nat.
Proof.
  unfold free. rewrite <- (size_dom (on_oracles n)). apply subseteq_size. unfold idle. set_solver.
Qed.

(** A call keeps the shape when its queries do. *)
Lemma call_shape {A} (FC : FeedClient ONet) (m : NM A) env a n x n' :
  (forall P : ONet -> Prop,
    (forall t f p t', feed_get_twap_price (FeedClient := FC) env t f = Some (p, t') -> P t -> P t') ->
    (forall t f d t', feed_latest_price (FeedClient := FC) env t f = Some (d, t') -> P t -> P t') ->
    Safe env P m) ->
  (forall t f p t', feed_get_twap_price (FeedClient := FC) env t f = Some (p, t') -> shape t t') ->
  (forall t f d t', feed_latest_price (FeedClient := FC) env t f = Some (d, t') -> shape t t') ->
  call_oracle m env a n = Some (x, n') -> shape n n'.
Proof.
  intros Hm H1 H2 H. unfold call_oracle in H. case_bool_decide; [done|].
  destruct (on_oracles n !! a) as [ow|] eqn:Ha; [|done].
  destruct (m env _) as [y ow'| |] eqn:Hr; [|done..]. injection H as <- <-.
  assert (HS : Safe env (shape (push a n)) m).
  { apply Hm; intros * Hf [Hd Hs].
    - destruct (H1 _ _ _ _ Hf) as [Hd' Hs']. split; congruence.
    - destruct (H2 _ _ _ _ Hf) as [Hd' Hs']. split; congruence. }
  destruct (safe_ok env _ _ (Safe0 := HS) _ _ _ Hr ltac:(done)) as [Hd Hs].
  split; [|done]. cbn [on_oracles]. rewrite dom_insert_L, Hd. cbn [push on_oracles].
  apply elem_of_dom_2 in Ha. set_solver.
Qed.

Lemma twap_safe (FC : FeedClient ONet) env (P : ONet -> Prop) :
  (forall t f p t', feed_get_twap_price (FeedClient := FC) env t f = Some (p, t') -> P t -> P t') ->
  (forall t f d t', feed_latest_price (FeedClient := FC) env t f = Some (d, t') -> P t -> P t') ->
  Safe env P (get_twap_price (FC := FC) : NM _).
Proof. intros H1 H2. eapply same_safe, (same_twap_price FC FC); done. Qed.

Lemma latest_safe (FC : FeedClient ONet) env (P : ONet -> Prop) :
  (forall t f p t', feed_get_twap_price (FeedClient := FC) env t f = Some (p, t') -> P t -> P t') ->
  (forall t f d t', feed_latest_price (FeedClient := FC) env t f = Some (d, t') -> P t -> P t') ->
  Safe env P (latest_price (FC := FC) : NM _).
Proof. intros H1 H2. eapply same_safe, (same_latest_price FC FC); done. Qed.

(** Answers of either endpoint. *)
Definition keeps_shape (FC : FeedClient ONet) : Prop :=
  (forall env t f p t', feed_get_twap_price (FeedClient := FC) env t f = Some (p, t') -> shape t t') /\
  (forall env t f d t', feed_latest_price (FeedClient := FC) env t f = Some (d, t') -> shape t t').

Lemma depth_shape depth : keeps_shape (feeds_to depth).
Proof.
  induction depth as [|depth [IH1 IH2]]; [done|]. split; intros * H; apply received_some in H as [_ H].
  - eapply (call_shape (feeds_to depth)); [by apply twap_safe|by apply IH1|by apply IH2|exact H].
  - eapply (call_shape (feeds_to depth)); [by apply latest_safe|by apply IH1|by apply IH2|exact H].
Qed.

(** Two models that answer alike where at most [k] oracles are idle. *)
Definition alike (k : nat) (FC1 FC2 : FeedClient ONet) : Prop :=
  forall env n a, (free n < k)%nat ->
  feed_get_twap_price (FeedClient := FC1) env n a = feed_get_twap_price (FeedClient := FC2) env n a /\
  feed_latest_price (FeedClient := FC1) env n a = feed_latest_price (FeedClient := FC2) env n a.

(** Their calls do the same one level up. *)
Lemma call_alike {A} k (FC1 FC2 : FeedClient ONet) (m : FeedClient ONet -> NM A) env a n :
  (forall P : ONet -> Prop,
    (forall t f, P t -> feed_get_twap_price (FeedClient := FC1) env t f =
                        feed_get_twap_price (FeedClient := FC2) env t f) ->
    (forall t f, P t -> feed_latest_price (FeedClient := FC1) env t f =
                        feed_latest_price (FeedClient := FC2) env t f) ->
    (forall t f p t', feed_get_twap_price (FeedClient := FC2) env t f = Some (p, t') -> P t -> P t') ->
    (forall t f d t', feed_latest_price (FeedClient := FC2) env t f = Some (d, t') -> P t -> P t') ->
    Same env P (m FC1) (m FC2)) ->
  alike k FC1 FC2 -> keeps_shape FC2 -> (free n <= k)%nat ->
  call_oracle (m FC1) env a n = call_oracle (m FC2) env a n.
Proof.
  intros Hm Hal [K1 K2] Hk. unfold call_oracle. case_bool_decide as Hst; [done|].
  destruct (on_oracles n !! a) as [ow|] eqn:Ha; [|done].
  assert (Hf : (free (push a n) < k)%nat) by (pose proof (push_free a n Hst ltac:(by eexists)); lia).
  assert (HS : Same env (shape (push a n)) (m FC1) (m FC2)).
  { apply Hm.
    - intros t f Ht. apply Hal. by rewrite (shape_free _ _ Ht).
    - intros t f Ht. apply Hal. by rewrite (shape_free _ _ Ht).
    - intros * Hp [Hd Hs]. destruct (K1 _ _ _ _ _ Hp) as [Hd' Hs']. split; congruence.
    - intros * Hp [Hd Hs]. destruct (K2 _ _ _ _ _ Hp) as [Hd' Hs']. split; congruence. }
  by rewrite (same_run env _ _ _ (Same0 := HS)).
Qed.

Lemma endpoints_alike k FC1 FC2 :
  alike k FC1 FC2 -> keeps_shape FC2 -> alike (S k) (endpoints FC1) (endpoints FC2).
Proof.
  intros Hal HK env n a Hf. cbn [feed_get_twap_price feed_latest_price endpoints]. split; f_equal.
  - apply (call_alike k FC1 FC2 (fun FC => get_twap_price (FC := FC))); [|done|done|lia].
    intros P H1 H2 H3 H4. by apply same_twap_price.
  - apply (call_alike k FC1 FC2 (fun FC => latest_price (FC := FC))); [|done|done|lia].
    intros P H1 H2 H3 H4. by apply same_latest_price.
Qed.

(** Any two depths beyond the number of idle oracles answer alike. *)
Lemma depths_alike k d1 d2 : (k <= d1)%nat -> (k <= d2)%nat -> alike k (feeds_to d1) (feeds_to d2).
Proof.
  revert d1 d2. induction k as [|k IH]; intros d1 d2 H1 H2; [intros env n a Hf; lia|].
  destruct d1 as [|d1]; [lia|]. destruct d2 as [|d2]; [lia|].
  apply endpoints_alike; [apply IH; lia|apply depth_shape].
Qed.

Lemma net_depth k d : (k <= d)%nat -> alike k net_feeds (feeds_to d).
Proof.
  intros Hd env n a Hf. pose proof (free_size n).
  pose proof (depths_alike (S (free n)) (S (size (on_oracles n))) d ltac:(lia) ltac:(lia) env n a
    ltac:(lia)) as [E1 E2].
  unfold net_feeds. cbn [feed_get_twap_price feed_latest_price]. split; [exact E1|exact E2].
Qed.

Lemma net_shape : keeps_shape net_feeds.
Proof.
  split; intros env t f x t' H; unfold net_feeds in H;
    cbn [feed_get_twap_price feed_latest_price] in H;
    destruct (depth_shape (S (size (on_oracles t)))) as [K1 K2].
  - exact (K1 _ _ _ _ _ H).
  - exact (K2 _ _ _ _ _ H).
Qed.

(** The feeds of the oracles are the endpoints over themselves. *)
Lemma net_unfold env n a :
  feed_get_twap_price env n a = feed_get_twap_price (FeedClient := endpoints net_feeds) env n a /\
  feed_latest_price env n a = feed_latest_price (FeedClient := endpoints net_feeds) env n a.
Proof.
  destruct (net_depth (S (free n)) (S (free n)) ltac:(done) env n a ltac:(lia)) as [E1 E2].
  destruct (endpoints_alike (free n) net_feeds (feeds_to (free n)) (net_depth _ _ ltac:(done))
    (depth_shape _) env n a ltac:(lia)) as [F1 F2].
  split; [exact (eq_trans E1 (eq_sym F1))|exact (eq_trans E2 (eq_sym F2))].
Qed.

(** C39 Queries between oracles always come to an end. However the feeds of the
    oracles refer to each other, in a line or in circles, a query of an
    oracle is exactly one call of it in which its own queries are answered in
    the same way: nesting them as deep as there are oracles is enough, and any
    greater depth gives the same answers and leaves the same states. *)
Theorem feed_queries_terminate env n a depth :
  (size (on_oracles n) < depth)%nat ->
  feed_get_twap_price (FeedClient := feeds_to depth) env n a = feed_get_twap_price env n a /\
  feed_latest_price (FeedClient := feeds_to depth) env n a = feed_latest_price env n a /\
  feed_get_twap_price env n a = received in_u64 (call_oracle get_twap_price (asked env a) a n) /\
  feed_latest_price env n a = received price_fits (call_oracle latest_price (asked env a) a n).
Proof.
  intros Hd. pose proof (free_size n).
  destruct (net_depth depth depth ltac:(done) env n a ltac:(lia)) as [E1 E2].
  destruct (net_unfold env n a) as [H1 H2].
  split_and!; [exact (eq_sym E1)|exact (eq_sym E2)|exact H1|exact H2].
Qed.

(** ** The oracles compose *)

(** Every oracle is in a state reachable on its own, last called at [now] or
    before. *)
Definition oracles_ok (now : Z) (n : ONet) : Prop :=
  forall a ow, on_oracles n !! a = Some ow ->
  exists s, s <= now /\ forall n' : ONet, reachable s (rebase n' ow).

Lemma oracles_later now now' n : oracles_ok now n -> now <= now' -> oracles_ok now' n.
Proof. intros H Hle a ow Ha. destruct (H a ow Ha) as (s & Hs & Hr). exists s. split; [lia|done]. Qed.

(** A call keeps the oracles in order when its queries do. *)
Lemma oracle_call_sound env a c n n' :
  U64 (timestamp env) -> oracle_typed c ->
  (forall t f p t', shape (push a n) t -> feed_get_twap_price env t f = Some (p, t') ->
     oracles_ok (timestamp env) t -> oracles_ok (timestamp env) t') ->
  (forall t f d t', shape (push a n) t -> feed_latest_price env t f = Some (d, t') ->
     oracles_ok (timestamp env) t -> oracles_ok (timestamp env) t') ->
  call_oracle (oracle_exec c) env a n = Some (tt, n') ->
  oracles_ok (timestamp env) n -> oracles_ok (timestamp env) n'.
Proof.
  intros Hu Hty H1 H2 H Hok. unfold call_oracle in H. case_bool_decide; [done|].
  destruct (on_oracles n !! a) as [ow|] eqn:Ha; [|done].
  destruct (oracle_exec c env _) as [[] ow'| |] eqn:Hr; [|done..]. injection H as <-.
  destruct net_shape as [K1 K2].
  assert (HS : Safe env (fun t => shape (push a n) t /\ oracles_ok (timestamp env) t) (oracle_exec c)).
  { apply oracle_exec_safe; intros * Hf [[Hd Hs] Ht].
    - split; [destruct (K1 _ _ _ _ _ Hf) as [Hd' Hs']; split; congruence|by eapply (H1 t)].
    - split; [destruct (K2 _ _ _ _ _ Hf) as [Hd' Hs']; split; congruence|by eapply (H2 t)]. }
  destruct (safe_ok env _ _ (Safe0 := HS) _ _ _ Hr (conj (conj eq_refl eq_refl) Hok)) as [_ Hok'].
  intros b ow2. cbn [on_oracles]. rewrite lookup_insert. case_decide as Hab; [|apply Hok'].
  intros [= <-]. exists (timestamp env). split; [lia|]. intros n2.
  change (reachable (timestamp env) (set_tokens n2 ow')). apply reach_feeds.
  destruct (Hok a ow Ha) as (s & Hs & Hre).
  eapply (reach_call s _ env c (Returned tt)); [apply (Hre (push a n))|done..|].
  unfold invoke. by rewrite Hr.
Qed.

(** A query is a call. *)
Lemma twap_as_call env a (n : ONet) p n' :
  call_oracle get_twap_price env a n = Some (p, n') ->
  call_oracle (oracle_exec GetTwapPrice) env a n = Some (tt, n').
Proof.
  unfold call_oracle. cbn [oracle_exec]. unfold drop_result, bind. case_bool_decide; [done|].
  destruct (on_oracles n !! a) as [ow|]; [|done].
  destruct (get_twap_price env _); [|done..]. by intros [= _ <-].
Qed.

Lemma latest_as_call env a (n : ONet) d n' :
  call_oracle latest_price env a n = Some (d, n') ->
  call_oracle (oracle_exec LatestPrice) env a n = Some (tt, n').
Proof.
  unfold call_oracle. cbn [oracle_exec]. unfold drop_result, bind. case_bool_decide; [done|].
  destruct (on_oracles n !! a) as [ow|]; [|done].
  destruct (latest_price env _); [|done..]. by intros [= _ <-].
Qed.

(** Queries keep the oracles in order, however deep they nest. *)
Lemma queries_sound k env n a :
  (free n < k)%nat -> U64 (timestamp env) -> oracles_ok (timestamp env) n ->
  (forall p n', feed_get_twap_price env n a = Some (p, n') -> oracles_ok (timestamp env) n') /\
  (forall d n', feed_latest_price env n a = Some (d, n') -> oracles_ok (timestamp env) n').
Proof.
  revert env n a. induction k as [|k IH]; intros env n a Hk Hu Hok; [lia|].
  destruct (net_unfold env n a) as [E1 E2]. rewrite E1, E2.
  cbn [feed_get_twap_price feed_latest_price endpoints].
  assert (Hcall : forall c n', oracle_typed c ->
    call_oracle (oracle_exec c) (asked env a) a n = Some (tt, n') -> oracles_ok (timestamp env) n').
  { intros c n' Hc H. assert (Hfree : forall t, shape (push a n) t -> (free t < k)%nat).
    { intros t Ht. rewrite (shape_free _ _ Ht). unfold call_oracle in H.
      case_bool_decide as Hst; [done|]. destruct (on_oracles n !! a) as [ow|] eqn:Ha; [|done].
      pose proof (push_free a n Hst ltac:(by eexists)). lia. }
    eapply (oracle_call_sound (asked env a) a c n n'); [exact Hu|exact Hc| | |exact H|exact Hok].
    - intros t f p t' Hsh Hf Ht. by apply (IH (asked env a) t f (Hfree t Hsh) Hu Ht) in Hf.
    - intros t f d t' Hsh Hf Ht. by apply (IH (asked env a) t f (Hfree t Hsh) Hu Ht) in Hf. }
  split; intros x n' H; apply received_some in H as [_ H].
  - apply (Hcall GetTwapPrice n' I). by eapply twap_as_call.
  - apply (Hcall LatestPrice n' I). by eapply latest_as_call.
Qed.

Definition no_oracle : OStore := mkWorld empty_store empty_store empty_store tt [] [].

(** The states of the oracles, indexed by the time of the last invocation: any
    oracle is deployed or called, by anyone; no oracle is running between
    invocations. *)
Inductive onet_reach : Z -> ONet -> Prop :=
| onet_start t : onet_reach t (mkONet ∅ [])
| onet_deploy t n admin env a ow :
    onet_reach t n -> t <= timestamp env -> U64 (timestamp env) ->
    current_contract env = a -> on_oracles n !! a = None ->
    initialize admin env (rebase n no_oracle) = ROk tt ow ->
    onet_reach (timestamp env) (mkONet (<[a := rebase tt ow]> (on_oracles n)) [])
| onet_call t n c env a n' :
    onet_reach t n -> t <= timestamp env -> U64 (timestamp env) -> oracle_typed c ->
    current_contract env = a -> call_oracle (oracle_exec c) env a n = Some (tt, n') ->
    onet_reach (timestamp env) n'.

Lemma reach_oracles now n : onet_reach now n -> oracles_ok now n.
Proof.
  induction 1 as [t|t n admin env b w Hr IH Ht Hu Hb Hn Hi|t n c env b n' Hr IH Ht Hu Hty Hb H].
  - intros b w. cbn [on_oracles]. by rewrite lookup_empty.
  - intros c w'. cbn [on_oracles]. rewrite lookup_insert. case_decide.
    + intros [= <-]. exists (timestamp env). split; [lia|]. intros n2.
      change (reachable (timestamp env) (set_tokens n2 w)). apply reach_feeds.
      by eapply (reach_init env (rebase n no_oracle) admin).
    + intros Hc. destruct (IH c w' Hc) as (s & Hs & Hre). exists s. split; [lia|done].
  - pose proof (oracles_later _ _ _ IH Ht) as Hok.
    eapply (oracle_call_sound env b c n n'); [exact Hu|exact Hty| | |exact H|exact Hok].
    + intros t0 f p t' _ Hf H0. by apply (queries_sound (S (free t0)) env t0 f ltac:(lia) Hu H0) in Hf.
    + intros t0 f d t' _ Hf H0. by apply (queries_sound (S (free t0)) env t0 f ltac:(lia) Hu H0) in Hf.
Qed.

(** C7 The oracles compose. Whatever calls are made of any of them, by anyone,
    with feeds that refer to each other in any way, every oracle is in a state
    reachable on its own, as seen over any answers of its feeds: what its
    theorems assume of the feeds is met by the other oracles. *)
Theorem oracles_compose now n a ow :
  onet_reach now n -> on_oracles n !! a = Some ow ->
  exists s, s <= now /\ forall n' : ONet, reachable s (rebase n' ow) /\ OracleOK s (rebase n' ow).
Proof.
  intros Hr Ha. destruct (reach_oracles now n Hr a ow Ha) as (s & Hs & Hre).
  exists s. split; [exact Hs|]. intros n'. split; [apply Hre|by apply reachable_ok].
Qed.
