(* ===== verification/OracleSafety.v ===== *)
(** * TwapOracle: submissions, revocations and price health

    What an accepted submission, a revocation and a change of scale leave, and
    the agreement of the health report with the price. *)

From stdpp Require Import base numbers list option strings sets sorting.
From Stdlib Require Import ZArith Lia String.
From S2P Require Import Prelude Host Ttl Pause Rbac Frame Admins OracleData OracleMedian.
From S2P Require Import OracleOps OracleSystem OracleState OracleKeep OraclePrice OracleSubmit.
From S2P Require Import OracleRead OracleAdmin OracleReach OracleProps.
Import OracleError.

#[local] Open Scope Z_scope.
#[local] Open Scope sf_scope.

Section Safety.
Context {T : Type} `{FC : FeedClient T} `{FL : !FeedLaws T}.
Abbreviation OM := (M OKey.data_key T OEvent.oracle_event oracle_error).
Abbreviation OWorld := (World OKey.data_key T OEvent.oracle_event).
Implicit Types (w : OWorld) (a : Address).

(** ** Submissions *)

Lemma fresh_prices_ext w w' now s :
  feeders w' = feeders w -> (forall a, submission w' a = submission w a) ->
  fresh_prices w' now s = fresh_prices w now s.
Proof.
  intros Hf Hs. unfold fresh_prices. rewrite Hf. apply list_omap_ext.
  apply Forall2_same_length_lookup_2; [done|]. intros i x y Hx Hy.
  assert (x = y) as -> by congruence. by rewrite Hs.
Qed.

(** C18 A submission is gated and recorded exactly. One that is accepted is
    signed by an account holding an unexpired feeder role; its price is not
    zero, within half of the last accepted price, and within the configured
    ceiling, deviation and interval; there is room for a new feeder. It leaves
    the price as the last one and as the feeder's submission, every other
    submission alone, the feeder tracked, and one observation of this moment:
    the median of the submissions then fresh, never a single feeder's price
    when others are fresh. *)
Theorem submission_is_gated n w env caller p u w' :
  reachable n w -> n <= timestamp env -> U64 (timestamp env) -> U64 p ->
  submit_price caller p env w = ROk u w' ->
  authorized env caller = true /\
  holds w OracleRole.PriceFeeder (timestamp env) caller = true /\
  p <> 0 /\
  (forall l, w_store w OKey.Price = Some l -> 0 < price l ->
     Z.abs (p - price l) * 10000 / price l <= 5000) /\
  (forall c, w_store w OKey.Config = Some c -> Acceptable w caller p (timestamp env) c) /\
  (caller ∉ feeders w -> Z.of_nat (List.length (feeders w)) < MAX_SUBMITTERS) /\
  w_store w' OKey.Price = Some (mkPriceData p (timestamp env)) /\
  (forall b, submission w' b =
     if decide (b = caller) then Some (mkPriceData p (timestamp env)) else submission w b) /\
  feeders w' = (if decide (caller ∈ feeders w) then feeders w else feeders w ++ [caller]) /\
  history w' = pushed (current_of w' p (timestamp env)) (timestamp env) (history w) /\
  last (history w') = Some (mkPriceObservation (current_of w' p (timestamp env)) (timestamp env)).
Proof.
  intros Hr Hn Ht Hp H. pose proof (reachable_ok n w Hr) as HO.
  apply submit_price_ok in H as [S (m & w1 & Hm & Hf & Hsub & Hst & Ha & Hh)].
  pose proof (submitted_feeders n env w caller p w' (ok_feeders _ _ HO) Hn Ht Hp S) as [F1 F2 F3 F4].
  assert (HF1 : Feeders (timestamp env) w1).
  { split; rewrite ?Hf; try done; intros *; rewrite Hsub; [apply F3|apply F4]. }
  pose proof (sb_nonzero _ _ _ _ _ S) as Hz.
  destruct (current_run (timestamp env) p (timestamp env) env w1 HF1 ltac:(mlia)) as [Hc Hrg].
  rewrite Hm in Hc. injection Hc as Hc.
  assert (Hcur : current_of w1 p (timestamp env) = current_of w' p (timestamp env)).
  { unfold current_of. rewrite Hst. destruct (w_store w' OKey.Config) as [c|]; [|done].
    by rewrite (fresh_prices_ext w' w1). }
  rewrite <- Hcur, <- Hc. pose proof S as []. split_and!; try done.
  - intros l Hl Hpos. rewrite Hl in sb_sane. unfold deviation_of in sb_sane.
    destruct (Z.ltb_spec 0 (price l)); [by apply Z.ltb_ge in sb_sane|lia].
  - rewrite Hh. apply pushed_last.
Qed.

(** ** Revocation *)

Lemma revoke_persist r a env w b w' k :
  Rbac.revoke (OKey.Role r a) OKey.AdminCount (OKey.RoleMembers r) (is_admin r) a env w = ROk b w' ->
  w_persist w' k = w_persist w k.
Proof.
  intros H. refine (keeps_ok (pframe (fun _ => False)) _ _ _ _ _ H k _). tauto.
Qed.

(** Revoking an assignment removes it. *)
Lemma revoke_assigned r a g env w b w' :
  w_store w (OKey.Role r a) = Some (RoleGrant g) ->
  Rbac.revoke (OKey.Role r a) OKey.AdminCount (OKey.RoleMembers r) (is_admin r) a env w = ROk b w' ->
  b = true /\ w_store w' (OKey.Role r a) = None.
Proof.
  intros Hg H. unfold Rbac.revoke, revoke_with_event in H.
  apply bind_ok in H as (act & w1 & Hu & H). apply role_read_ok in Hu as [-> ->].
  apply bind_ok in H as (o & w1 & Hu & H). apply sget_as_ok in Hu as (-> & -> & _).
  apply bind_ok in H as (now & w1 & Hu & H). injection Hu as <- <-.
  destruct (negb _ && negb _) eqn:Hc.
  { exfalso. apply andb_true_iff in Hc as [H1 H2]. unfold holds in H1. rewrite Hg in H1, H2.
    cbn in H1, H2. unfold active in H1.
    destruct (expires_at g) as [e|]; [|done]. cbn in H2.
    destruct (Z.ltb_spec (timestamp env) e); destruct (Z.leb_spec e (timestamp env)); done || lia. }
  apply bind_ok in H as (? & w2 & _ & H). apply bind_ok in H as (? & w3 & Hu & H).
  injection Hu as _ <-.
  assert (Hb : b = true).
  { apply bind_ok in H as (? & ? & _ & H). apply bind_ok in H as (? & ? & _ & H).
    apply bind_ok in H as (? & ? & _ & H). by injection H as <- _. }
  split; [done|]. transitivity (w_store (put (OKey.Role r a) None w2) (OKey.Role r a));
    [|exact (put_store_eq (OKey.Role r a) None w2)].
  refine (keeps_ok (frame (fun k => k = OKey.RoleMembers r)) _ _ _ _ _ H (OKey.Role r a) _). congruence.
Qed.

(** A revoked feeder is forgotten. After the revocation of a granted feeder
    role the account holds the role at no time, has no submission and is not
    tracked, so no later price counts it; every other feeder keeps its place
    and its submission. *)
Theorem revoked_feeder_is_forgotten n w env caller a g u w' :
  reachable n w -> w_store w (OKey.Role OracleRole.PriceFeeder a) = Some (RoleGrant g) ->
  revoke_role caller OracleRole.PriceFeeder a env w = ROk u w' ->
  authorized env caller = true /\
  (forall now, holds w' OracleRole.PriceFeeder now a = false) /\
  submission w' a = None /\ a ∉ feeders w' /\
  feeders w' = without a (feeders w) /\
  (forall b, b <> a -> submission w' b = submission w b) /\
  forall now s, fresh_prices w' now s =
    omap (fun b => match submission w b with
                   | Some d => if fresh now s d then Some (price d) else None
                   | None => None
                   end) (without a (feeders w)).
Proof.
  intros Hr Hg H. unfold revoke_role in H.
  apply bind_ok in H as (? & ? & Hu & H). apply orequire_or_ok in Hu as (-> & Ha & _).
  apply bind_ok in H as (? & ? & Hu & H). injection Hu as _ <-.
  apply bind_ok in H as (r & w1 & Hu & H). unfold revoke_role_inner in Hu.
  apply bind_ok in Hu as (b & w2 & Hrev & Hu). apply map_err_ok in Hrev.
  pose proof (fun k => revoke_persist _ _ _ _ _ _ k Hrev) as Hp.
  apply (revoke_assigned _ _ g) in Hrev as [-> Hnone]; [|exact Hg].
  apply bind_ok in Hu as (? & w3 & Hrem & Hu). injection Hu as <- <-. injection H as _ <-.
  destruct (remove_submitter_run a env w2) as (w4 & Hrun & Hf & Hs).
  pose proof (eq_trans (eq_sym Hrun) Hrem) as Heq.
  injection Heq as _ ->. clear Hrem.
  assert (Hf2 : feeders w2 = feeders w) by (unfold feeders; by rewrite Hp).
  assert (Hs2 : forall x, submission w2 x = submission w x) by (intros y; unfold submission; by rewrite Hp).
  assert (Hsub : forall x, x <> a -> submission w3 x = submission w x).
  { intros y Hy. rewrite Hs, decide_False by done. apply Hs2. }
  assert (Hnot : a ∉ feeders w3) by (rewrite Hf, without_spec; tauto).
  assert (Hrole : w_store w3 (OKey.Role OracleRole.PriceFeeder a) = None).
  { rewrite <- Hnone. refine (keeps_ok (frame (fun k => k = OKey.Price)) _ _ _ _ _ Hrun _ _). congruence. }
  split_and!.
  - done.
  - intros now. rewrite (holds_frame w3) by done. unfold holds. by rewrite Hrole.
  - change (submission w3 a = None). by rewrite Hs, decide_True.
  - exact Hnot.
  - change (feeders w3 = without a (feeders w)). by rewrite Hf, Hf2.
  - exact Hsub.
  - intros now s. unfold fresh_prices.
    change (feeders (add_event _ w3)) with (feeders w3). rewrite Hf, Hf2.
    apply list_omap_ext, Forall2_same_length_lookup_2; [done|]. intros i y z Hy Hz.
    assert (y = z) as <- by congruence.
    change (submission (add_event _ w3) y) with (submission w3 y). rewrite Hsub; [done|].
    apply list_elem_of_lookup_2 in Hy. rewrite without_spec in Hy. tauto.
Qed.

(** ** Reconfiguration *)

Lemma store_config_clears caller c c0 env w u w' :
  w_store w OKey.Config = Some c0 -> decimals c0 <> decimals c \/ asset_peg c0 <> asset_peg c ->
  store_oracle_config caller c env w = ROk u w' ->
  w_store w' OKey.Config = Some c /\ w_store w' OKey.Price = None /\
  feeders w' = [] /\ history w' = [] /\
  (forall a, submission w' a = if bool_decide (a ∈ feeders w) then None else submission w a).
Proof.
  intros Hc Hd H. unfold store_oracle_config in H.
  do 3 (apply bind_ok in H as (? & ? & Hu & H); apply throw_if_ok in Hu as [_ ->]).
  apply bind_ok in H as (? & ? & Hu & H). injection Hu as _ <-.
  apply bind_ok in H as (o & w1 & Hu & H). injection Hu as <- <-.
  apply bind_ok in H as (? & w1 & Hu & H). rewrite Hc in Hu.
  assert (negb (decimals c0 =? decimals c) || negb (asset_peg c0 =? asset_peg c) = true) as Hb.
  { destruct (Z.eqb_spec (decimals c0) (decimals c)); [|done].
    destruct (Z.eqb_spec (asset_peg c0) (asset_peg c)); [|done]. tauto. }
  rewrite Hb in Hu.
  destruct (clear_prices_run env (add_ttl None MIN_TTL_LEDGERS EXTEND_TTL_LEDGERS w))
    as (w2 & Hrun & _ & Hp & Hf & Hh & Hs).
  pose proof (eq_trans (eq_sym Hrun) Hu) as Heq. injection Heq as _ ->.
  apply bind_ok in H as (? & w2 & Hu' & H). injection Hu' as _ <-. injection H as _ <-.
  split_and!; [exact (put_store_eq OKey.Config (Some c) w1)| |exact Hf|exact Hh|exact Hs].
  transitivity (w_store w1 OKey.Price); [|exact Hp].
  refine (put_store_ne OKey.Config OKey.Price _ w1 _). congruence.
Qed.

(** Prices never change their scale. Storing a configuration with other
    decimals or another peg drops every price of the old scale: the last price,
    every feeder's submission, the roster of feeders and the history. Until a
    feeder submits again the price is unavailable, whatever the time. *)
Theorem reconfiguration_clears_prices n w env caller c c0 u w' :
  reachable n w -> w_store w OKey.Config = Some c0 ->
  decimals c0 <> decimals c \/ asset_peg c0 <> asset_peg c ->
  configure_oracle caller c env w = ROk u w' ->
  w_store w' OKey.Config = Some c /\ w_store w' OKey.Price = None /\
  feeders w' = [] /\ history w' = [] /\ (forall a, submission w' a = None) /\
  forall now k, 0 < k <= MAX_TWAP_OBSERVATIONS -> twap_answer w' now k = inl NoPriceAvailable.
Proof.
  intros Hr Hc Hd H. pose proof (ok_feeders _ _ (reachable_ok n w Hr)) as HF.
  unfold configure_oracle in H. apply bind_ok in H as (? & ? & Hu & H).
  apply orequire_or_ok in Hu as (-> & _).
  destruct (store_config_clears _ _ _ _ _ _ _ Hc Hd H) as (H1 & H2 & H3 & H4 & H5).
  split_and!; try done.
  - intros a. rewrite H5. case_bool_decide as Ha; [done|].
    destruct (submission w a) as [d|] eqn:Hs; [|done]. destruct Ha. apply (fe_tracked n w HF).
    by eexists.
  - intros now k Hk. unfold twap_answer. rewrite (proj2 (Z.eqb_neq k 0)) by lia.
    rewrite (proj2 (Z.ltb_ge MAX_TWAP_OBSERVATIONS k)) by lia. rewrite H1. cbv zeta.
    unfold fresh_prices, any_submission. by rewrite H3.
Qed.

(** ** Price health *)

(** The ages of the fresh submissions. *)
Definition fresh_ages w (now s : Z) : list Z :=
  omap (fun a => match submission w a with
                 | Some d => if fresh now s d then Some (sat_u64 (now - updated_at d)) else None
                 | None => None
                 end) (feeders w).

(** What the ages collected so far say, and one more age. *)
Definition step_ages (g : Ages) (age : Z) : Ages :=
  if ag_count g =? 0 then mkAges (ag_count g + 1) age age
  else mkAges (ag_count g + 1) (Z.min (ag_newest g) age) (Z.max (ag_oldest g) age).

Lemma collect_ages_run l now s g b env w :
  0 <= ag_count g -> ag_count g + Z.of_nat (List.length l) <= u32_max ->
  collect_ages l now s g b env w =
    ROk (fold_left step_ages (omap (fun a => match submission w a with
                 | Some d => if fresh now s d then Some (sat_u64 (now - updated_at d)) else None
                 | None => None
                 end) l) g,
         b || existsb (fun a => is_some (submission w a)) l) w.
Proof.
  revert g b. induction l as [|x l IH]; intros g b Hg Hl; cbn [collect_ages omap list_omap existsb].
  - by rewrite orb_false_r.
  - cbn [List.length] in Hl. erewrite bind_run by reflexivity. fold (submission w x).
    destruct (submission w x) as [d|]; cbn [is_some]; [|rewrite IH by lia; done].
    fold (fresh now s d). destruct (fresh now s d); [|rewrite IH, orb_true_r by lia; done].
    erewrite bind_run by (apply u32_op_run; mlia). cbn [fold_left].
    change (if ag_count g =? 0 then mkAges (ag_count g + 1) (sat_u64 (now - updated_at d)) (sat_u64 (now - updated_at d))
      else mkAges (ag_count g + 1) (Z.min (ag_newest g) (sat_u64 (now - updated_at d)))
             (Z.max (ag_oldest g) (sat_u64 (now - updated_at d))))
      with (step_ages g (sat_u64 (now - updated_at d))).
    rewrite IH, orb_true_r; [done|unfold step_ages; case_match; cbn; lia..].
Qed.

(** The count, the least and the greatest of the ages. *)
Lemma fold_ages l : forall g,
  0 <= ag_count g ->
  ag_count (fold_left step_ages l g) = ag_count g + Z.of_nat (List.length l) /\
  (0 < ag_count g -> ag_newest (fold_left step_ages l g) <= ag_newest g /\
                     ag_oldest g <= ag_oldest (fold_left step_ages l g)) /\
  Forall (fun x => ag_newest (fold_left step_ages l g) <= x <= ag_oldest (fold_left step_ages l g)) l.
Proof.
  induction l as [|x l IH]; intros g Hg; cbn [fold_left List.length].
  - split_and!; [lia|lia|constructor].
  - assert (Hc : ag_count (step_ages g x) = ag_count g + 1) by (unfold step_ages; by case_match).
    destruct (IH (step_ages g x)) as (H1 & H2 & H3); [lia|]. specialize (H2 ltac:(lia)).
    assert (Hs : ag_newest (step_ages g x) <= x <= ag_oldest (step_ages g x) /\
      (0 < ag_count g -> ag_newest (step_ages g x) <= ag_newest g /\ ag_oldest g <= ag_oldest (step_ages g x))).
    { unfold step_ages. destruct (Z.eqb_spec (ag_count g) 0); cbn; lia. }
    split_and!; [lia|intros Hpos; lia|]. constructor; [lia|done].
Qed.

Lemma omap_length_same {A B C} (f : A -> option B) (g : A -> option C) l :
  (forall x, is_some (f x) = is_some (g x)) ->
  List.length (omap f l) = List.length (omap g l).
Proof.
  intros H. induction l as [|x l IH]; [done|]. cbn. specialize (H x).
  destruct (f x), (g x); try discriminate H; cbn; by rewrite IH.
Qed.

Lemma ages_length w now s :
  List.length (fresh_ages w now s) = List.length (fresh_prices w now s).
Proof.
  apply omap_length_same. intros a. destruct (submission w a) as [d|]; [|done]. by destruct (fresh _ _ _).
Qed.

Lemma status_run n w env c :
  OracleOK n w -> w_store w OKey.Config = Some c ->
  let ages := fold_left step_ages (fresh_ages w (timestamp env) (max_staleness c)) (mkAges 0 0 0) in
  price_status env w =
    if any_submission w
    then ROk (mkPriceStatus (ag_count ages) (min_submitters c) (ag_newest ages) (ag_oldest ages)
                (ag_count ages =? 0)) w
    else RErr NoPriceAvailable w.
Proof.
  intros HO Hc. pose proof (fe_bounded _ _ (ok_feeders _ _ HO)) as Hb.
  unfold price_status, load_price_status. erewrite bind_run by reflexivity. rewrite Hc.
  erewrite bind_run by reflexivity. erewrite bind_run by apply submitters_run.
  erewrite bind_run by reflexivity.
  erewrite bind_run by (apply collect_ages_run; cbn; unfold MAX_SUBMITTERS in *; mlia).
  cbv beta iota. rewrite orb_false_l, bind_throw_if. fold (any_submission w).
  by destruct (any_submission w).
Qed.

(** C29 The health report agrees with the price read. For a configured oracle
    without external feeds, in the same world and ledger: [price_status]
    counts the feeders with a fresh submission and bounds their ages; and
    [get_twap_price_for_observations] is refused as stale exactly when the
    report is stale, refused for want of a quorum exactly when it is not and
    the count is below the quorum, answers exactly when the count reaches the
    quorum, and finds no price exactly when there is no report. *)
Theorem price_status_agrees n w env c k :
  reachable n w -> feedless w -> U64 (timestamp env) -> 0 < k <= MAX_TWAP_OBSERVATIONS ->
  w_store w OKey.Config = Some c ->
  match price_status env w with
  | ROk st w1 =>
      w1 = w /\
      fresh_submitter_count st =
        Z.of_nat (List.length (fresh_prices w (timestamp env) (max_staleness c))) /\
      Forall (fun age => newest_age st <= age <= oldest_fresh_age st)
        (fresh_ages w (timestamp env) (max_staleness c)) /\
      st_min_submitters st = min_submitters c /\
      match get_twap_price_for_observations k env w with
      | RErr OracleStalePrice _ => stale st = true
      | RErr InsufficientQuorum _ =>
          stale st = false /\ fresh_submitter_count st < st_min_submitters st
      | ROk p _ => stale st = false /\ st_min_submitters st <= fresh_submitter_count st
      | _ => False
      end
  | RErr e w1 => w1 = w /\ e = NoPriceAvailable /\
      exists w2, get_twap_price_for_observations k env w = RErr NoPriceAvailable w2
  | RTrap _ => False
  end.
Proof.
  intros Hr Hw Ht Hk Hc. pose proof (reachable_ok n w Hr) as HO.
  rewrite (status_run n w env c HO Hc). cbv zeta.
  rewrite (read_run n) by (done || unfold MAX_TWAP_OBSERVATIONS in *; mlia).
  pose proof (ages_length w (timestamp env) (max_staleness c)) as Hlen.
  destruct (fold_ages (fresh_ages w (timestamp env) (max_staleness c)) (mkAges 0 0 0) ltac:(done))
    as (H1 & _ & H3). rewrite Hlen in H1. cbn [ag_count] in H1.
  unfold twap_answer. rewrite (proj2 (Z.eqb_neq k 0)) by lia.
  rewrite (proj2 (Z.ltb_ge MAX_TWAP_OBSERVATIONS k)) by lia. rewrite Hc. cbn [orb]. cbv zeta.
  destruct (any_submission w) eqn:Hany.
  - split; [done|]. split; [exact H1|]. split; [exact H3|]. split; [done|].
    cbn [stale fresh_submitter_count st_min_submitters].
    rewrite H1. destruct (fresh_prices w (timestamp env) (max_staleness c)) as [|x l] eqn:Hl; [done|].
    destruct (Z.ltb_spec (Z.of_nat (List.length (x :: l))) (min_submitters c)) as [Hq|Hq];
      [|destruct (twap_of _ _ _ _)]; (split; [apply Z.eqb_neq; cbn; lia|lia]).
  - split; [done|]. split; [done|].
    destruct (fresh_prices w (timestamp env) (max_staleness c)) as [|x l] eqn:Hl; [by eexists|].
    exfalso. assert (Hx : x ∈ fresh_prices w (timestamp env) (max_staleness c)) by (rewrite Hl; set_solver).
    unfold fresh_prices in Hx. apply list_elem_of_omap in Hx as (a & Ha & Hx).
    assert (any_submission w = true); [|congruence]. apply existsb_exists. exists a.
    split; [by apply list_elem_of_In|]. by destruct (submission w a).
Qed.

End Safety.
