(* ===== verification/OraclePairs.v ===== *)
(** * TwapOracle: pair prices

    What a pair read answers: the median of the fresh reports of the reporters
    still authorized, or the reciprocal of the reverse pair's. *)

From stdpp Require Import base numbers list option strings sets sorting.
From Stdlib Require Import ZArith Lia String.
From S2P Require Import Prelude Host Ttl Pause Rbac Frame Admins OracleData OracleMedian.
From S2P Require Import OracleOps OracleSystem OracleState OracleKeep OraclePrice OracleSubmit.
From S2P Require Import OracleRead OracleAdmin OracleReach OracleProps.
Import OracleError.

#[local] Open Scope Z_scope.
#[local] Open Scope sf_scope.

Section Pairs.
Context {T : Type} `{FC : FeedClient T} `{FL : !FeedLaws T}.
Abbreviation OM := (M OKey.data_key T OEvent.oracle_event oracle_error).
Abbreviation OWorld := (World OKey.data_key T OEvent.oracle_event).
Implicit Types (w : OWorld) (a : Address).

(** An account may report pair prices at a time. *)
Definition reports w (now : Z) a : bool :=
  holds w OracleRole.PriceFeeder now a || holds w OracleRole.Admin now a.

Lemma reporter_run a env w :
  roles_typed w -> is_authorized_pair_reporter a env w = ROk (reports w (timestamp env) a) w.
Proof.
  intros Ht. unfold is_authorized_pair_reporter, reports, has_role.
  erewrite bind_run by by apply role_read.
  destruct (holds w OracleRole.PriceFeeder (timestamp env) a); [done|]. by apply role_read.
Qed.

(** The reports of the authorized reporters, and the fresh prices of those. *)
Definition authorized_reports w (now : Z) (report : Address -> option PairPriceData)
    (l : list Address) : list PairPriceData :=
  omap (fun a => if reports w now a then report a else None) l.

Definition fresh_reports (now heartbeat : Z) (l : list PairPriceData) : list Z :=
  pp_price <$> List.filter (fun d => sat_u64 (now - pp_updated_at d) <=? heartbeat) l.

Definition is_nil {A} (l : list A) : bool := match l with [] => true | _ => false end.

Lemma collect_reports_run (report : Address -> option PairPriceData) (read : Address -> OM (option PairPriceData))
    heartbeat env w l :
  roles_typed w -> (forall a, read a env w = ROk (report a) w) -> forall acc saw,
  collect_reports read (timestamp env) heartbeat l acc saw env w =
    ROk (acc ++ fresh_reports (timestamp env) heartbeat (authorized_reports w (timestamp env) report l),
         saw || negb (is_nil (authorized_reports w (timestamp env) report l))) w.
Proof.
  intros Ht Hread. induction l as [|x l IH]; intros acc saw; cbn [collect_reports].
  - by rewrite app_nil_r, orb_false_r.
  - erewrite bind_run by by apply reporter_run.
    change (authorized_reports w (timestamp env) report (x :: l)) with
      (match (if reports w (timestamp env) x then report x else None) with
       | Some d => d :: authorized_reports w (timestamp env) report l
       | None => authorized_reports w (timestamp env) report l
       end).
    destruct (reports w (timestamp env) x); [|apply IH].
    erewrite bind_run by apply Hread. destruct (report x) as [d|]; [|apply IH].
    rewrite IH.
    unfold fresh_reports. cbn [List.filter]. destruct (_ <=? heartbeat);
      rewrite orb_true_r; [by rewrite <- app_assoc|done].
Qed.

(** What an aggregation answers. *)
Definition aggregate_answer (now heartbeat : Z) (l : list PairPriceData) : oracle_error + Z :=
  match fresh_reports now heartbeat l with
  | [] => inl (if is_nil l then PriceNotFound else OracleStalePrice)
  | fresh => inr (default 0 (median_u128 fresh))
  end.

Lemma aggregate_run (report : Address -> option PairPriceData) (read : Address -> OM (option PairPriceData))
    heartbeat env w l :
  roles_typed w -> (forall a, read a env w = ROk (report a) w) ->
  (forall a d, report a = Some d -> 0 < pp_price d <= u128_max) ->
  aggregate_reports read heartbeat l env w =
    outcome_of (aggregate_answer (timestamp env) heartbeat
                  (authorized_reports w (timestamp env) report l)) w.
Proof.
  intros Ht Hread Hpos. unfold aggregate_reports. erewrite bind_run by reflexivity.
  erewrite bind_run by by apply (collect_reports_run report). cbv beta iota.
  change ([] ++ ?x) with x. rewrite orb_false_l. unfold aggregate_answer.
  assert (Hfit : fits u128_max (fresh_reports (timestamp env) heartbeat
    (authorized_reports w (timestamp env) report l))).
  { apply Forall_fmap, Forall_forall. intros d Hd. apply list_elem_of_In, filter_In in Hd as [Hd _].
    apply list_elem_of_In, list_elem_of_omap in Hd as (a & _ & Ha).
    destruct (reports _ _ _); [|done]. specialize (Hpos a d Ha). cbn. lia. }
  destruct (fresh_reports _ _ _) as [|x f] eqn:Hf.
  - by destruct (is_nil _).
  - destruct (median_u128_spec (x :: f) ltac:(done) Hfit) as (m & ? & _ & _ & _ & Hm). by rewrite Hm.
Qed.

(** The heartbeat of an asset. *)
Definition heartbeat_of w (asset : Address) : Z :=
  match w_persist w (OKey.AssetOracleConfig asset) with
  | Some c => heartbeat_timeout_seconds c
  | None =>
      let global :=
        match w_store w OKey.Config with
        | Some c => max_staleness c
        | None => default 0 (w_store w OKey.MaxStalenessSeconds)
        end in
      if 0 <? global then global else PAIR_REPORT_FRESHNESS_SECS
  end.

Lemma heartbeat_run asset env w : asset_heartbeat_secs asset env w = ROk (heartbeat_of w asset) w.
Proof.
  unfold asset_heartbeat_secs, heartbeat_of. erewrite bind_run by reflexivity.
  destruct (w_persist w (OKey.AssetOracleConfig asset)); [done|].
  unfold max_staleness_seconds, bind, sget. by destruct (w_store w OKey.Config) as [c|].
Qed.

(** ** The answers *)

(** What the feed of a pair answers at a time. *)
Definition pair_answer w (now : Z) (base quote : Address) : oracle_error + Z :=
  match default [] (w_persist w (OKey.PairReporters base quote)) with
  | [] => match w_store w (OKey.PairPrice base quote) with
          | Some p => inr p
          | None => inl PriceNotFound
          end
  | l => aggregate_answer now (heartbeat_of w base)
           (authorized_reports w now (fun a => w_persist w (OKey.PairSubmission base quote a)) l)
  end.

Lemma pair_run n base quote env w :
  OracleOK n w ->
  aggregate_pair_price base quote env w = outcome_of (pair_answer w (timestamp env) base quote) w.
Proof.
  intros HO. unfold aggregate_pair_price, pair_answer. erewrite bind_run by apply heartbeat_run.
  erewrite bind_run by reflexivity.
  destruct (default [] (w_persist w (OKey.PairReporters base quote))) as [|x l].
  - erewrite bind_run by reflexivity. by destruct (w_store w (OKey.PairPrice base quote)).
  - apply (aggregate_run (fun a => w_persist w (OKey.PairSubmission base quote a)));
      [apply HO|done|]. intros a d Hd. by apply (pa_report _ _ (ok_pairs _ _ HO) base quote a).
Qed.

(** C24 A pair price is the median of the fresh reports of the authorized
    reporters. [get_price] answers for a pair the median of the reports no older
    than the base asset's heartbeat, counting only reporters who still hold the
    feeder or the admin role; without a fresh one it is stale or not found;
    and a pair without reporters answers its legacy price. The inverted read
    answers the direct price when there is one and otherwise the floor of the
    reciprocal of the reverse one; it reports a stale pair as stale. (The
    heartbeat is the one configured for the base asset, else the oracle's
    [max_staleness], and fifteen minutes only where neither is set; comments of
    the source say that reports older than fifteen minutes never count, see
    [old_pair_report_counts].) *)
Theorem pair_price_is_median n w env base quote :
  reachable n w ->
  get_price base quote env w = outcome_of (pair_answer w (timestamp env) base quote) w /\
  get_price_inverted base quote env w =
    outcome_of
      match pair_answer w (timestamp env) base quote, pair_answer w (timestamp env) quote base with
      | inr p, _ => inr p
      | inl (PriceNotFound | OracleStalePrice), inr q =>
          if q =? 0 then inl InvalidPrice else inr (PRICE_PRECISION * PRICE_PRECISION / q)
      | inl PriceNotFound, inl OracleStalePrice | inl OracleStalePrice, inl _ => inl OracleStalePrice
      | inl PriceNotFound, inl _ => inl PriceNotFound
      | inl e, _ => inl e
      end w.
Proof.
  intros Hr. pose proof (reachable_ok n w Hr) as HO. split; [by apply (pair_run n)|].
  unfold get_price_inverted, price_or_reciprocal.
  assert (Hrev : forall b q, attempt (E2 := oracle_error) (aggregate_pair_price b q) env w =
    ROk (pair_answer w (timestamp env) b q) w).
  { intros b q. unfold attempt. rewrite (pair_run n) by done. by destruct (pair_answer _ _ _ _). }
  erewrite bind_run by apply Hrev.
  destruct (pair_answer w (timestamp env) base quote) as [[]|p]; try done;
    (erewrite bind_run by apply Hrev;
     destruct (pair_answer w (timestamp env) quote base) as [[]|q]; try done;
     rewrite bind_throw_if; unfold checked_div; destruct (Z.eqb_spec q 0); [done|];
     erewrite bind_run by reflexivity; done).
Qed.

(** C36 What a reporter sets is what a reader gets. On a pair nobody has
    reported, an accepted [set_price] makes [get_price] answer exactly that
    price, for as long as the base asset's heartbeat lasts and the reporter
    keeps the role. (That is the configured heartbeat or [max_staleness], which
    may be longer or shorter than the fifteen minutes of the source's
    comments.) *)
Theorem set_price_roundtrip n w env caller base quote p u w' env' :
  reachable n w -> n <= timestamp env -> U64 (timestamp env) -> 0 <= p <= u128_max ->
  w_persist w (OKey.PairReporters base quote) = None ->
  set_price caller base quote p env w = ROk u w' ->
  reports w' (timestamp env') caller = true ->
  timestamp env <= timestamp env' <= u64_max ->
  timestamp env' - timestamp env <= heartbeat_of w' base ->
  get_price base quote env' w' = ROk p w'.
Proof.
  intros Hr Hn Ht Hp Hnone H Hrep Hle Hhb. pose proof (reachable_ok n w Hr) as HO.
  assert (HO' : OracleOK (timestamp env) w').
  { apply (exec_ok n (SetPrice caller base quote p) env w u); done. }
  unfold get_price. rewrite (pair_run (timestamp env)) by done.
  apply (set_price_ok n) in H as (Hz & l & _ & Hl & Hpers); [|apply HO].
  rewrite (Hl Hnone) in Hpers. unfold pair_answer.
  assert (H1 : w_persist w' (OKey.PairReporters base quote) = Some [caller]).
  { rewrite Hpers, put_ne by congruence. exact (put_eq (OKey.PairReporters base quote) (Some [caller]) _). }
  assert (H2 : w_persist w' (OKey.PairSubmission base quote caller) =
               Some (mkPairPriceData p (timestamp env))).
  { rewrite Hpers. exact (put_eq (OKey.PairSubmission base quote caller) _ _). }
  rewrite H1. change (default [] (Some [caller])) with [caller].
  unfold authorized_reports. cbn [omap list_omap]. rewrite Hrep, H2.
  unfold aggregate_answer, fresh_reports. cbn [List.filter pp_updated_at].
  rewrite (proj2 (Z.leb_le _ _)) by mlia. done.
Qed.

End Pairs.
