(* ===== verification/OracleExample.v ===== *)
(** * TwapOracle: a concrete oracle

    An oracle with three feeders and one external feed, walked through its
    configuration, three submissions, a revocation, a pair report and a change
    of scale, on which the oracle's theorems are exercised; and behaviours of
    the price reads and rejections that the source does not mean. *)

From stdpp Require Import base numbers list option strings sets sorting.
From Stdlib Require Import ZArith Lia String.
From S2P Require Import Prelude Host Ttl Pause Rbac Frame Admins OracleData OracleMedian.
From S2P Require Import OracleOps OracleSystem OracleState OracleKeep OraclePrice OracleSubmit.
From S2P Require Import OracleRead OracleAdmin OracleReach OracleProps OracleFeeds OracleSafety OraclePairs.
Import OracleError.

#[local] Open Scope Z_scope.
#[local] Open Scope string_scope.

Definition chief : Address := Account 51.
Definition feeder1 : Address := Account 52.
Definition feeder2 : Address := Account 53.
Definition feeder3 : Address := Account 54.
Definition oracle : Address := Contract 60.
Definition feed : Address := Contract 61.
Definition xlm : Address := Contract 62.
Definition usd : Address := Contract 63.

(** External feeds: the latest price each one answers, if it is of machine
    width; none answers a time-weighted price. *)
Definition Feeds : Type := list (Address * PriceData).

Definition quoted (t : Feeds) (f : Address) : option PriceData :=
  match List.find (fun x => addr_eqb (fst x) f) t with
  | Some (_, d) => if in_u64 (price d) && in_u64 (updated_at d) then Some d else None
  | None => None
  end.

#[export] Instance ex_feeds : FeedClient Feeds := {|
  feed_get_twap_price _ _ _ := None;
  feed_latest_price _ t f := match quoted t f with Some d => Some (d, t) | None => None end
|}.

#[export] Instance ex_feed_laws : FeedLaws Feeds.
Proof.
  constructor; [done|]. intros env t f d t' H. cbn in H. unfold quoted in H.
  destruct (List.find _ t) as [[a d']|]; [|done].
  destruct (in_u64 (price d') && in_u64 (updated_at d')) eqn:Hu; [|done]. injection H as <- _.
  apply andb_true_iff in Hu as [H1 H2]. unfold in_u64 in H1, H2.
  by rewrite !in_range_spec in *.
Qed.

Abbreviation OWorld := (World OKey.data_key Feeds OEvent.oracle_event).

(** At time [t], signed by everyone. *)
Definition oracle_env (t : Z) : Env := mkEnv t t oracle (fun _ => true).

Definition oracle_blank : OWorld :=
  mkWorld (fun _ => None) (fun _ => None) (fun _ => None) [] [] [].

Definition oracle_after (c : oracle_call) (t : Z) (w : OWorld) : OWorld :=
  (invoke (oracle_exec c) (oracle_env t) w).2.

Definition oracle_answer {A} (m : M OKey.data_key Feeds OEvent.oracle_event oracle_error A)
    (t : Z) (w : OWorld) : Reply oracle_error A := (invoke m (oracle_env t) w).1.

Lemma oracle_ran (c : oracle_call) t w :
  oracle_answer (oracle_exec c) t w = Returned tt ->
  oracle_exec c (oracle_env t) w = ROk tt (oracle_after c t w).
Proof.
  unfold oracle_answer, oracle_after, invoke. destruct (oracle_exec c (oracle_env t) w) as [[]| |];
    cbn; congruence.
Qed.

(** ** The scenario *)

Definition ex_config : OracleConfig := mkOracleConfig 7 0 3600 0 0 2.
Definition rescaled : OracleConfig := mkOracleConfig 8 0 3600 0 0 2.

Definition oracle_deployed : OWorld := (invoke (initialize chief) (oracle_env 1000) oracle_blank).2.
Definition oracle_configured : OWorld :=
  oracle_after (ConfigureOracle chief ex_config) 1001 oracle_deployed.
Definition oracle_staffed : OWorld :=
  oracle_after (OGrantRole chief OracleRole.PriceFeeder feeder3) 1004
    (oracle_after (OGrantRole chief OracleRole.PriceFeeder feeder2) 1003
      (oracle_after (OGrantRole chief OracleRole.PriceFeeder feeder1) 1002 oracle_configured)).
Definition oracle_priced : OWorld :=
  oracle_after (SubmitPrice feeder2 110) 1020
    (oracle_after (SubmitPrice feeder1 100) 1010 oracle_staffed).
Definition oracle_full : OWorld := oracle_after (SubmitPrice feeder3 150) 1030 oracle_priced.
Definition oracle_revoked : OWorld :=
  oracle_after (ORevokeRole chief OracleRole.PriceFeeder feeder3) 1040 oracle_full.
Definition oracle_rescaled : OWorld := oracle_after (ConfigureOracle chief rescaled) 1040 oracle_full.
Definition oracle_paired : OWorld := oracle_after (SetPrice feeder1 xlm usd 42) 1040 oracle_full.

Lemma oracle_reach_deployed : reachable 1000 oracle_deployed.
Proof.
  apply (reach_init (oracle_env 1000) oracle_blank chief); [by split|cbn; mlia|]. reflexivity.
Qed.

Lemma oracle_reach_after t t' c w :
  reachable t w -> t <= t' -> U64 t' -> oracle_typed c -> reachable t' (oracle_after c t' w).
Proof.
  intros Hr Hle Hu Ht.
  apply (reach_call t w (oracle_env t') c (invoke (oracle_exec c) (oracle_env t') w).1); try done.
  unfold oracle_after. by destruct (invoke _ _ _).
Qed.

Ltac oracle_step t :=
  apply (oracle_reach_after t); [|lia|mlia|cbn; unfold typed_config; cbn; repeat split; mlia].

Lemma oracle_reach_staffed : reachable 1004 oracle_staffed.
Proof. oracle_step 1003. oracle_step 1002. oracle_step 1001. oracle_step 1000. apply oracle_reach_deployed. Qed.

Lemma oracle_reach_priced : reachable 1020 oracle_priced.
Proof. oracle_step 1010. oracle_step 1004. apply oracle_reach_staffed. Qed.

Lemma oracle_reach_full : reachable 1030 oracle_full.
Proof. oracle_step 1020. apply oracle_reach_priced. Qed.

Lemma oracle_feedless : feedless oracle_full.
Proof. split; vm_compute; reflexivity. Qed.

(** ** The theorems at these worlds *)

Lemma median_resists_minority_witness :
  exists m, median [100; 900; 110] = Some m /\ 100 <= m <= 110.
Proof.
  destruct (median_resists_minority 100 110 [100; 900; 110]) as [H _]; [|exact H].
  vm_compute. lia.
Defined.

Lemma oracle_state_well_formed_witness :
  NoDup (feeders oracle_full) /\ List.length (history oracle_full) = 3%nat /\
  default 0 (w_store oracle_full OKey.OLock) = 0.
Proof.
  destruct (oracle_state_well_formed 1030 oracle_full oracle_reach_full) as ([H1 _ _ _] & _ & _ & _ & H2).
  split; [exact H1|]. split; [vm_compute; reflexivity|exact H2].
Defined.

Lemma oracle_keeps_administrators_witness :
  exists admins : list Address, admins <> [] /\
    role_members OracleRole.Admin (oracle_env 9000) oracle_full = ROk admins oracle_full.
Proof.
  destruct (oracle_keeps_administrators 1030 oracle_full oracle_reach_full)
    as (admins & Hne & _ & H).
  exists admins. split; [exact Hne|apply (H (oracle_env 9000))].
Defined.

Lemma twap_price_is_exact_witness :
  get_twap_price_for_observations 32 (oracle_env 1040) oracle_full = ROk 105 (after_read oracle_full).
Proof.
  pose proof (twap_price_is_exact 1030 oracle_full (oracle_env 1040) 32 oracle_reach_full
    oracle_feedless ltac:(cbn; mlia) ltac:(mlia)) as H.
  assert (Ha : twap_answer oracle_full (timestamp (oracle_env 1040)) 32 = inr 105) by (vm_compute; reflexivity).
  rewrite Ha in H. exact H.
Defined.

Lemma price_status_agrees_witness :
  match price_status (oracle_env 1040) oracle_full with
  | ROk st w1 => w1 = oracle_full /\ fresh_submitter_count st = 3
  | _ => False
  end.
Proof.
  pose proof (price_status_agrees 1030 oracle_full (oracle_env 1040) ex_config 32
    oracle_reach_full oracle_feedless ltac:(cbn; mlia) ltac:(unfold MAX_TWAP_OBSERVATIONS; lia)
    ltac:(vm_compute; reflexivity)) as H.
  destruct (price_status (oracle_env 1040) oracle_full) as [st w1|e w1|t].
  - destruct H as (-> & Hc & _). split; [reflexivity|]. rewrite Hc. vm_compute. reflexivity.
  - destruct H as (_ & _ & (w2 & H)). vm_compute in H. discriminate H.
  - exact H.
Defined.

Lemma oracle_run_submit :
  submit_price feeder3 150 (oracle_env 1030) oracle_priced = ROk tt oracle_full.
Proof. refine (oracle_ran (SubmitPrice feeder3 150) 1030 oracle_priced _). vm_compute. reflexivity. Qed.

Lemma submission_is_gated_witness :
  holds oracle_priced OracleRole.PriceFeeder 1030 feeder3 = true /\
  last (history oracle_full) =
    Some (mkPriceObservation (current_of oracle_full 150 1030) 1030).
Proof.
  destruct (submission_is_gated 1020 oracle_priced (oracle_env 1030) feeder3 150 tt oracle_full
    oracle_reach_priced ltac:(cbn; lia) ltac:(cbn; mlia) ltac:(mlia) oracle_run_submit)
    as (_ & H & _ & _ & _ & _ & _ & _ & _ & _ & Hl).
  split; [exact H|exact Hl].
Defined.

Lemma oracle_run_revoke :
  revoke_role chief OracleRole.PriceFeeder feeder3 (oracle_env 1040) oracle_full = ROk tt oracle_revoked.
Proof.
  refine (oracle_ran (ORevokeRole chief OracleRole.PriceFeeder feeder3) 1040 oracle_full _).
  vm_compute. reflexivity.
Qed.

Lemma revoked_feeder_is_forgotten_witness :
  submission oracle_full feeder3 <> None /\ submission oracle_revoked feeder3 = None.
Proof.
  split; [vm_compute; discriminate|].
  apply (revoked_feeder_is_forgotten 1030 oracle_full (oracle_env 1040) chief feeder3
    (mkRoleAssignment None) tt oracle_revoked oracle_reach_full); [vm_compute; reflexivity|].
  exact oracle_run_revoke.
Defined.

Lemma oracle_run_rescale :
  configure_oracle chief rescaled (oracle_env 1040) oracle_full = ROk tt oracle_rescaled.
Proof.
  refine (oracle_ran (ConfigureOracle chief rescaled) 1040 oracle_full _). vm_compute. reflexivity.
Qed.

Lemma reconfiguration_clears_prices_witness :
  feeders oracle_full <> [] /\ feeders oracle_rescaled = [].
Proof.
  split; [vm_compute; discriminate|].
  apply (reconfiguration_clears_prices 1030 oracle_full (oracle_env 1040) chief rescaled ex_config tt
    oracle_rescaled oracle_reach_full); [vm_compute; reflexivity|left; cbn; lia|exact oracle_run_rescale].
Defined.

Lemma oracle_reach_paired : reachable 1040 oracle_paired.
Proof. oracle_step 1030. apply oracle_reach_full. Qed.

Lemma pair_price_is_median_witness :
  get_price xlm usd (oracle_env 1100) oracle_paired = ROk 42 oracle_paired.
Proof.
  destruct (pair_price_is_median 1040 oracle_paired (oracle_env 1100) xlm usd oracle_reach_paired)
    as [H _].
  etransitivity; [exact H|].
  assert (Ha : pair_answer oracle_paired (timestamp (oracle_env 1100)) xlm usd = inr 42)
    by (vm_compute; reflexivity).
  rewrite Ha. reflexivity.
Defined.

Lemma oracle_run_pair :
  set_price feeder1 xlm usd 42 (oracle_env 1040) oracle_full = ROk tt oracle_paired.
Proof.
  refine (oracle_ran (SetPrice feeder1 xlm usd 42) 1040 oracle_full _). vm_compute. reflexivity.
Qed.

Lemma set_price_roundtrip_witness :
  get_price xlm usd (oracle_env 1100) oracle_paired = ROk 42 oracle_paired.
Proof.
  refine (set_price_roundtrip 1030 oracle_full (oracle_env 1040) feeder1 xlm usd 42 tt oracle_paired
    (oracle_env 1100) oracle_reach_full _ _ _ _ oracle_run_pair _ _ _).
  - cbn. lia.
  - cbn. mlia.
  - mlia.
  - vm_compute. reflexivity.
  - vm_compute. reflexivity.
  - cbn. mlia.
  - assert (Hh : heartbeat_of oracle_paired xlm = 3600) by (vm_compute; reflexivity).
    rewrite Hh. cbn. lia.
Defined.

(** ** Behaviours the source does not mean *)

(** A pair report of almost an hour ago still makes the price: the window is
    the oracle's [max_staleness], not fifteen minutes. *)
Lemma old_pair_report_counts :
  get_price xlm usd (oracle_env 4640) oracle_paired = ROk 42 oracle_paired /\
  4640 - 1040 = 4 * PAIR_REPORT_FRESHNESS_SECS.
Proof. split; vm_compute; reflexivity. Qed.

(** A rejected submission publishes its reason and then fails, so the host
    discards the event with the rest: nobody ever sees it. *)
Lemma rejections_are_never_seen caller p env (w : OWorld) e w1 :
  submit_price caller p env w = RErr e w1 ->
  (invoke (submit_price caller p) env w).2 = w.
Proof. intros H. unfold invoke. by rewrite H. Qed.

Lemma rejection_example :
  exists w1, submit_price feeder1 0 (oracle_env 1040) oracle_full = RErr InvalidPrice w1 /\
    List.length (w_events w1) = S (List.length (w_events oracle_full)) /\
    (invoke (submit_price feeder1 0) (oracle_env 1040) oracle_full).2 = oracle_full.
Proof. eexists. split; [vm_compute; reflexivity|]. split; vm_compute; reflexivity. Qed.

(** With a feeder as the primary oracle, its submission is read at its own time:
    once another feeder has submitted later, every time-weighted read fails as
    stale although all submissions are fresh. *)
Definition oracle_primary : OWorld :=
  oracle_after (SetPrimaryOracle chief feeder1) 1035 oracle_full.

Lemma fresh_primary_is_refused :
  oracle_answer get_twap_price 1040 oracle_full = Returned 105 /\
  oracle_answer get_twap_price 1040 oracle_primary = Failed StalePriceFeed.
Proof. split; vm_compute; reflexivity. Qed.

(** An external feed dated in the future is accepted as fresh, its time enters
    the history, and from then on no feeder can submit. *)
Definition oracle_future : OWorld :=
  oracle_after GetTwapPrice 1040
    (set_tokens [(feed, mkPriceData 100 5000)]
      (oracle_after (SetPrimaryOracle chief feed) 1035 oracle_full)).

Lemma future_feed_blocks_submissions :
  oracle_answer (submit_price feeder1 110) 1050 oracle_full = Returned tt /\
  oracle_answer (submit_price feeder1 110) 1050 oracle_future = Failed StalePriceFeed.
Proof. split; vm_compute; reflexivity. Qed.

(** The reciprocal of a reverse price above the squared precision is zero, the
    price [set_price] refuses. *)
Definition oracle_huge : OWorld :=
  oracle_after (SetPrice feeder1 usd xlm (20000000000000000)) 1040 oracle_full.

Lemma reciprocal_can_be_zero :
  oracle_answer (get_price_inverted xlm usd) 1050 oracle_huge = Returned 0.
Proof. vm_compute. reflexivity. Qed.

(** A feeder whose role has expired cannot submit, but what it has submitted
    keeps counting until it is stale. *)
Definition oracle_expired : OWorld :=
  oracle_after (SubmitPrice feeder3 150) 1030
    (oracle_after (OGrantRoleWithExpiration chief OracleRole.PriceFeeder feeder3 (Some 1035)) 1025
       oracle_priced).

Lemma expired_feeder_still_counts :
  oracle_answer (submit_price feeder3 140) 1040 oracle_expired = Failed NotAuthorized /\
  fresh_prices oracle_expired 1040 3600 = [100; 110; 150].
Proof. split; vm_compute; reflexivity. Qed.
