(* ===== verification/OracleNetExample.v ===== *)
(** * TwapOracle: two oracles that feed each other

    Two oracles name each other as primary feed.  A query of either ends, each
    stays in a state reachable on its own, and the price of the one with
    feeders reaches the one without. *)

From stdpp Require Import base numbers list option strings gmap.
From Stdlib Require Import ZArith Lia String.
From S2P Require Import Prelude Host Ttl Pause Rbac Frame Safe.
From S2P Require Import OracleData OracleMedian OracleOps OracleSystem OracleState OraclePrice OracleRead.
From S2P Require Import OracleReach OracleProps OracleFeeds OracleNet.
Import OracleError.

#[local] Open Scope Z_scope.

Definition chief : Address := Account 51.
Definition feeder1 : Address := Account 52.
Definition upper : Address := Contract 71.
Definition lower : Address := Contract 72.

Definition net_env (t : Z) (a : Address) : Env := mkEnv t t a (fun _ => true).

Definition deployed (a : Address) (t : Z) (n : ONet) : ONet :=
  match initialize chief (net_env t a) (rebase n no_oracle) with
  | ROk _ ow => mkONet (<[a := rebase tt ow]> (on_oracles n)) []
  | _ => n
  end.

Definition called (a : Address) (c : oracle_call) (t : Z) (n : ONet) : ONet :=
  default n (snd <$> call_oracle (oracle_exec c) (net_env t a) a n).

Definition net_config : OracleConfig := mkOracleConfig 7 0 3600 0 0 1.

Definition net_start : ONet := mkONet ∅ [].
Definition net_deployed : ONet := deployed lower 100 (deployed upper 100 net_start).
Definition net_configured : ONet :=
  called lower (ConfigureOracle chief net_config) 101
    (called upper (ConfigureOracle chief net_config) 101 net_deployed).
(** The lower oracle has a feeder, and each has the other as primary feed. *)
Definition net_linked : ONet :=
  called lower (SetPrimaryOracle chief upper) 103
    (called upper (SetPrimaryOracle chief lower) 103
      (called lower (OGrantRole chief OracleRole.PriceFeeder feeder1) 102 net_configured)).
Definition net_priced : ONet :=
  called lower (SubmitPrice feeder1 600) 120 (called lower (SubmitPrice feeder1 500) 110 net_linked).

Definition price_at (a : Address) (t : Z) (n : ONet) : option Z :=
  fst <$> call_oracle get_twap_price (net_env t a) a n.

(** ** Reachability *)

Lemma reach_deployed a t t' n :
  onet_reach t n -> t <= t' -> U64 t' -> on_oracles n !! a = None ->
  match initialize chief (net_env t' a) (rebase n no_oracle) with ROk tt _ => true | _ => false end = true ->
  onet_reach t' (deployed a t' n).
Proof.
  intros Hr Ht Hu Ha Hok. unfold deployed.
  destruct (initialize chief (net_env t' a) (rebase n no_oracle)) as [[] ow| |] eqn:H; [|done..].
  by apply (onet_deploy t n chief (net_env t' a) a ow).
Qed.

Lemma reach_called a c t t' n :
  onet_reach t n -> t <= t' -> U64 t' -> oracle_typed c ->
  is_some (call_oracle (oracle_exec c) (net_env t' a) a n) = true -> onet_reach t' (called a c t' n).
Proof.
  intros Hr Ht Hu Hty. unfold called.
  destruct (call_oracle _ _ _ _) as [[[] n']|] eqn:H; cbn; [intros _|done].
  by apply (onet_call t n c (net_env t' a) a).
Qed.

#[local] Ltac runs t :=
  apply (reach_called _ _ t);
    [|lia|mlia|cbn; unfold typed_config; cbn; repeat split; mlia|vm_compute; reflexivity].

Lemma reach_net_deployed : onet_reach 100 net_deployed.
Proof.
  apply (reach_deployed lower 100); [|lia|mlia|vm_compute; reflexivity..].
  apply (reach_deployed upper 100); [apply onet_start|lia|mlia|vm_compute; reflexivity..].
Qed.

Lemma reach_net_linked : onet_reach 103 net_linked.
Proof. runs 103. runs 102. runs 101. runs 101. runs 100. apply reach_net_deployed. Qed.

Lemma reach_net_priced : onet_reach 120 net_priced.
Proof. runs 110. runs 103. apply reach_net_linked. Qed.

(** ** The theorems at these states *)

(** The storage of the upper oracle, and its world when it is called. *)
Definition upper_store : OStore := default no_oracle (on_oracles net_priced !! upper).
Definition upper_world : World OKey.data_key ONet OEvent.oracle_event :=
  rebase (push upper net_priced) upper_store.

Lemma upper_there : on_oracles net_priced !! upper = Some upper_store.
Proof.
  unfold upper_store. destruct (on_oracles net_priced !! upper) as [ow|] eqn:E; [reflexivity|].
  assert (H : is_some (on_oracles net_priced !! upper) = true) by (vm_compute; reflexivity).
  rewrite E in H. discriminate H.
Qed.

Lemma upper_reachable : exists s, s <= 120 /\ reachable s upper_world.
Proof.
  destruct (reach_oracles 120 net_priced reach_net_priced upper upper_store upper_there) as (s & Hs & H).
  exists s. split; [exact Hs|apply H].
Qed.

Lemma oracles_compose_witness :
  exists s, s <= 120 /\ forall n' : ONet, reachable s (rebase n' upper_store) /\ OracleOK s (rebase n' upper_store).
Proof. exact (oracles_compose 120 net_priced upper upper_store reach_net_priced upper_there). Defined.

Lemma feed_queries_terminate_witness :
  fst <$> feed_get_twap_price (net_env 130 upper) net_priced lower = Some 550 /\
  feed_get_twap_price (FeedClient := feeds_to 9) (net_env 130 upper) net_priced lower =
    feed_get_twap_price (net_env 130 upper) net_priced lower.
Proof.
  split; [vm_compute; reflexivity|].
  refine (proj1 (feed_queries_terminate (net_env 130 upper) net_priced lower 9 _)).
  apply Nat.ltb_lt. vm_compute. reflexivity.
Defined.

(** The price of a read, whatever it leaves. *)
Definition price_read {A} (o : Outcome OKey.data_key ONet OEvent.oracle_event oracle_error A) : option A :=
  match o with ROk p _ => Some p | _ => None end.

(** The lower oracle's average is what the upper one answers. *)
Lemma twap_price_with_feeds_is_exact_witness :
  price_read (get_twap_price_for_observations 32 (net_env 130 upper) upper_world) = Some 550.
Proof.
  destruct upper_reachable as (s & _ & Hr).
  rewrite (twap_price_with_feeds_is_exact s upper_world (net_env 130 upper) 32 Hr ltac:(cbn; mlia) ltac:(mlia)).
  vm_compute. reflexivity.
Defined.

Lemma read_world {A} (o : Outcome OKey.data_key ONet OEvent.oracle_event oracle_error A) p :
  price_read o = Some p -> exists w', o = ROk p w'.
Proof. destruct o as [x w'| |]; cbn; [intros [= ->]; by exists w'|done..]. Qed.

(** The one offer the upper oracle can get is the lower oracle's average. *)
Lemma upper_offer d : may_offer 3600 (net_env 130 upper) upper_world d -> d = mkPriceData 550 130.
Proof.
  assert (H : fst (offered 3600 (net_env 130 upper) upper_world) = Some (mkPriceData 550 130))
    by (vm_compute; reflexivity).
  intros (t & t' & [-> | Hn] & Hd).
  - rewrite tokens_same in Hd. apply (f_equal fst) in Hd. cbn [fst] in Hd. congruence.
  - apply (f_equal fst) in Hn. cbn [fst] in Hn. congruence.
Qed.

Lemma upper_read :
  price_read (get_twap_price_for_observations 32 (net_env 130 upper) upper_world) = Some 550.
Proof. vm_compute. reflexivity. Qed.

Lemma twap_price_is_bounded_witness : 500 <= 550 <= 600.
Proof.
  assert (Ht : U64 (timestamp (net_env 130 upper))) by (cbn; mlia).
  assert (Hk : U32 32) by mlia.
  destruct upper_reachable as (s & _ & Hr).
  destruct (read_world _ _ upper_read) as [w' Hw].
  assert (Hh : recent 32 (history upper_world) = []) by (vm_compute; reflexivity).
  assert (Hc' : w_store upper_world OKey.Config = Some net_config) by (vm_compute; reflexivity).
  refine (twap_price_is_bounded s upper_world (net_env 130 upper) 32 550 w' 500 600 Hr Ht Hk Hw _ _).
  - rewrite Hh. intros o Ho. exact (False_ind _ (proj1 (elem_of_nil o) Ho)).
  - intros c Hc. rewrite Hc' in Hc. injection Hc as <-. split; [|left; vm_compute; reflexivity].
    intros d Hd. rewrite (upper_offer d Hd). cbn [price]. split; discriminate.
Defined.

Lemma payout_with_feeds_is_exact_witness :
  price_read (calculate_fiat_stream_payout 1000000000 (net_env 130 upper) upper_world) = Some 55000.
Proof.
  destruct upper_reachable as (s & _ & Hr).
  rewrite (payout_with_feeds_is_exact s upper_world (net_env 130 upper) 1000000000 net_config Hr
    ltac:(cbn; mlia) ltac:(mlia) ltac:(vm_compute; reflexivity)).
  vm_compute. reflexivity.
Defined.

(** ** Observed behaviour *)

(** The upper oracle has no submission at all and a positive quorum; the offer
    of its feed answers the read, and the read writes it to the history. *)
Lemma offer_answers_without_quorum :
  w_store upper_world OKey.Config = Some net_config /\ 0 < min_submitters net_config /\
  feeders upper_world = [] /\ history upper_world = [] /\
  exists w', get_twap_price_for_observations 32 (net_env 130 upper) upper_world = ROk 550 w' /\
    history w' = [mkPriceObservation 550 130].
Proof.
  split; [vm_compute; reflexivity|]. split; [reflexivity|].
  split; [vm_compute; reflexivity|]. split; [vm_compute; reflexivity|].
  assert (H : match get_twap_price_for_observations 32 (net_env 130 upper) upper_world with
              | ROk p w' => p = 550 /\ history w' = [mkPriceObservation 550 130]
              | _ => False
              end) by (vm_compute; split; reflexivity).
  destruct (get_twap_price_for_observations _ _ _) as [p w'| |]; [|destruct H..].
  destruct H as [-> Hh]. exists w'. split; [reflexivity|exact Hh].
Qed.

(** The circle: each asks the other, the running one refuses, and the lower
    oracle falls back to its feeder; without a submission neither has a price. *)
Example circular_feeds_answer :
  price_at lower 130 net_priced = Some 550 /\ price_at upper 130 net_priced = Some 550 /\
  price_at upper 130 net_linked = None.
Proof. repeat split; vm_compute; reflexivity. Qed.
