(* ===== verification/Chain.v ===== *)
(** * The chain: every contract of the protocol on one ledger

    [Protocol.v] puts the governor and the streams a factory calls on one
    ledger.  Here factories, vaults, governors and streams stand side by side
    with the ledger header: a vault calls the streams, a governor calls the
    factory, a factory deploys, funds and cancels streams and reads the
    governor.  [chain_exec] runs a call of any of them; [chain_reach] are the
    states of the whole protocol. *)

From stdpp Require Import base numbers list option strings gmap.
From Stdlib Require Import ZArith Lia String.
From S2P Require Import Prelude Host Ttl Pause Frame Safe.
From S2P Require Import GovernorData GovernorStore GovernorOps GovernorSystem.
From S2P Require Import VaultData VaultOps VaultSystem.
From S2P Require Import FactoryData FactoryIndex FactoryOps FactorySystem FactoryOutside.
From S2P Require Import StreamData StreamState StreamOps StreamAdmin StreamSystem Protocol.

#[local] Open Scope Z_scope.
#[local] Open Scope sf_scope.
#[local] Existing Instance fac_keys.

Abbreviation FacWorld := (World FacKey.data_key Net FacEvent.fac_event).
Abbreviation VaultWorld := (World VaultKey.data_key Net VaultEvent.vault_event).

(** The ledger header, the tokens with the governors and streams, and the
    factories and vaults.  The worlds of the contracts hold their storage; the
    state of the tokens they contain is that of their last call. *)
Record Chain := mkChain {
  ch_time : Z;
  ch_sequence : Z;
  ch_net : Net;
  ch_factories : gmap Address FacWorld;
  ch_vaults : gmap Address VaultWorld
}.

Definition with_net (n : Net) (c : Chain) : Chain :=
  mkChain (ch_time c) (ch_sequence c) n (ch_factories c) (ch_vaults c).

(** The header a call runs under. *)
Definition at_ledger (env : Env) (c : Chain) : Chain :=
  mkChain (timestamp env) (sequence env) (ch_net c) (ch_factories c) (ch_vaults c).

(** ** Tokens *)

#[export] Instance chain_tokens : TokenClient Chain := {
  tok_balance c := tok_balance (ch_net c);
  tok_transfer c auth tk from to amt :=
    (fun n => with_net n c) <$> tok_transfer (ch_net c) auth tk from to amt
}.

Lemma chain_transfer (c : Chain) auth tk from to amt c' :
  tok_transfer c auth tk from to amt = Some c' ->
  exists n, tok_transfer (ch_net c) auth tk from to amt = Some n /\ c' = with_net n c.
Proof. cbn [tok_transfer chain_tokens]. intros (n & -> & H)%fmap_Some. eauto. Qed.

#[export] Instance chain_token_laws : TokenLaws Chain.
Proof.
  constructor.
  - intros tk a c b. exact (tok_balance_range (T := Net) tk a (ch_net c) b).
  - intros * (n & H & ->)%chain_transfer. by eapply (tok_transfer_amount (T := Net)).
  - intros * (n & H & ->)%chain_transfer. by eapply (tok_transfer_auth (T := Net)).
  - intros * (n & H & ->)%chain_transfer. exact (tok_transfer_balance (T := Net) _ _ _ _ _ _ _ _ _ H).
  - intros * (n & H & ->)%chain_transfer. exact (tok_transfer_other (T := Net) _ _ _ _ _ _ _ _ _ H).
  - intros * (n & H & ->)%chain_transfer. exact (tok_transfer_defined (T := Net) _ _ _ _ _ _ _ _ _ H).
Qed.

(** ** Calls into the contracts *)

(** A call of the factory at [f]. *)
Definition call_factory {A} (m : M FacKey.data_key Net FacEvent.fac_event FacError.fac_error A)
    (env : Env) (f : Address) (c : Chain) : option (A * Chain) :=
  match ch_factories c !! f with
  | None => None
  | Some fw =>
      match m env (set_tokens (ch_net c) fw) with
      | ROk x fw' => Some (x, mkChain (ch_time c) (ch_sequence c) (w_tokens fw')
                               (<[f := fw']> (ch_factories c)) (ch_vaults c))
      | _ => None
      end
  end.

(** What a governor finds when it invokes a factory by name: the factory sees
    the governor as its invoker. *)
#[export] Instance chain_factories : FactoryClient Chain := {
  factory_call c f invoker name :=
    let env := mkEnv (ch_time c) (ch_sequence c) f (fun a => addr_eqb a invoker) in
    if String.eqb name "pause" then snd <$> call_factory FactoryOps.pause env f c
    else if String.eqb name "unpause" then snd <$> call_factory FactoryOps.unpause env f c
    else None
}.

(** The answer of a stream to a query. *)
Definition ask_stream {A} (m : M DataKey.data_key Ledger Event.stream_event Error.stream_error A)
    (c : Chain) (s : Address) : option A :=
  match net_streams (ch_net c) !! s with
  | None => None
  | Some sw =>
      match m (mkEnv (ch_time c) (ch_sequence c) s (fun _ => false))
              (set_tokens (net_ledger (ch_net c)) sw) with
      | ROk x _ => Some x
      | _ => None
      end
  end.

(** What a vault finds when it calls a stream: the queries, and a withdrawal
    that sees the signatures the vault passes on.  The host refuses a call back
    into the caller, and the amount is an [i128]. *)
#[export] Instance chain_streams : StreamClient Chain := {
  stream_recipient c s := ask_stream recipient_view c s;
  stream_withdrawable c s := ask_stream withdrawable_view c s;
  stream_withdraw c auth self s amt :=
    if addr_eqb s self || negb (in_i128 amt) then None
    else (fun r => with_net (snd r) c) <$>
           call_stream (StreamOps.withdraw amt) (mkEnv (ch_time c) (ch_sequence c) s auth) s (ch_net c)
}.

(** A call of the vault at [v]. *)
Definition call_vault {A} (m : M VaultKey.data_key Chain VaultEvent.vault_event VaultError.vault_error A)
    (env : Env) (v : Address) (c : Chain) : option (A * Chain) :=
  match ch_vaults c !! v with
  | None => None
  | Some vw =>
      match m env (rebase c vw) with
      | ROk x vw' =>
          let c' := w_tokens vw' in
          Some (x, mkChain (ch_time c') (ch_sequence c') (ch_net c') (ch_factories c')
                     (<[v := rebase (ch_net c') vw']> (ch_vaults c')))
      | _ => None
      end
  end.

(** A call of the governor at [g]. *)
Definition call_governor {A} (m : M GovKey.data_key Chain GovEvent.gov_event GovError.gov_error A)
    (env : Env) (g : Address) (c : Chain) : option (A * Chain) :=
  match net_governors (ch_net c) !! g with
  | None => None
  | Some gw =>
      match m env (rebase c gw) with
      | ROk x gw' =>
          let c' := w_tokens gw' in
          let n := ch_net c' in
          Some (x, with_net (mkNet (net_ledger n)
                     (<[g := rebase (net_ledger n) gw']> (net_governors n)) (net_streams n)) c')
      | _ => None
      end
  end.

(** ** Calls from outside *)

Inductive chain_call :=
| OnStream (a : Address) (c : StreamSystem.call)
| OnFactory (a : Address) (c : fac_call)
| OnVault (a : Address) (c : vault_call)
| OnGovernor (a : Address) (c : GovernorSystem.call)
| NewStream (a : Address) (args : InitArgs)
| NewFactory (a : Address) (wasm_hash : Z) (governor : Address)
| NewVault (a owner token : Address) (max_limit : Z)
| NewGovernor (a authority fee_recipient factory : Address).

(** The contract that is called. *)
Definition callee (c : chain_call) : Address :=
  match c with
  | OnStream a _ | OnFactory a _ | OnVault a _ | OnGovernor a _ | NewStream a _
  | NewFactory a _ _ | NewVault a _ _ _ | NewGovernor a _ _ _ => a
  end.

(** Arguments have their machine width. *)
Definition chain_typed (c : chain_call) : Prop :=
  match c with
  | OnStream _ c => StreamSystem.typed c
  | OnFactory _ c => fac_typed c /\ fac_wide c
  | OnVault _ c => vault_typed c
  | OnGovernor _ c => GovernorSystem.typed c
  | NewStream _ args => wide_args args
  | _ => True
  end.

Definition blank {K : Type} `{SK : StorageKeys K} {T X : Type} (t : T) : World K T X :=
  mkWorld empty_store empty_store empty_store t [] [].

(** No contract lives at [a]. *)
Definition vacant (a : Address) (c : Chain) : bool :=
  negb (is_some (net_governors (ch_net c) !! a)) && negb (is_some (net_streams (ch_net c) !! a)) &&
  negb (is_some (ch_factories c !! a)) && negb (is_some (ch_vaults c !! a)).

(** One invocation from outside, as the host runs it: [None] when the call
    fails and leaves everything as it was. *)
Definition chain_exec (call : chain_call) (env : Env) (c : Chain) : option Chain :=
  match call with
  | OnStream a k => (fun r => with_net (snd r) c) <$> call_stream (StreamSystem.exec k) env a (ch_net c)
  | OnFactory a k => snd <$> call_factory (fac_exec k) env a c
  | OnVault a k => snd <$> call_vault (vault_exec k) env a c
  | OnGovernor a k => snd <$> call_governor (GovernorSystem.exec k) env a c
  | NewStream a args =>
      if negb (vacant a c) then None
      else
        let n := ch_net c in
        (fun n' => with_net n' c) <$>
          stream_initialize env (mkNet (net_ledger n) (net_governors n)
            (<[a := blank_stream (net_ledger n)]> (net_streams n))) args
  | NewFactory a h g =>
      if negb (vacant a c) then None
      else snd <$> call_factory (FactoryOps.initialize h g) env a
             (mkChain (ch_time c) (ch_sequence c) (ch_net c)
                (<[a := blank (ch_net c)]> (ch_factories c)) (ch_vaults c))
  | NewVault a o tk m =>
      if negb (vacant a c) then None
      else snd <$> call_vault (VaultOps.initialize o tk m) env a
             (mkChain (ch_time c) (ch_sequence c) (ch_net c) (ch_factories c)
                (<[a := blank (ch_net c)]> (ch_vaults c)))
  | NewGovernor a au fr f =>
      if negb (vacant a c) then None
      else
        let n := ch_net c in
        snd <$> call_governor (Governor.initialize au fr f) env a
          (with_net (mkNet (net_ledger n) (<[a := blank (net_ledger n)]> (net_governors n))
             (net_streams n)) c)
  end.

(** Nobody signs for a contract. *)
Definition unsigned (env : Env) (c : Chain) : Prop :=
  forall a, vacant a c = false -> authorized env a = false.

(** The states of the protocol, indexed by the time and the sequence of the
    last invocation: from an empty chain, any contract is deployed or called
    with any signatures of accounts, and in between the token contracts do as
    they please, except to take from the governors. *)
Inductive chain_reach : Z -> Z -> Chain -> Prop :=
| chain_start t s l : chain_reach t s (mkChain t s (mkNet l ∅ ∅) ∅ ∅)
| chain_step t s c call env c' :
    chain_reach t s c -> t <= timestamp env -> s <= sequence env -> U64 (timestamp env) ->
    current_contract env = callee call -> authorized env (callee call) = false ->
    unsigned env c -> chain_typed call ->
    chain_exec call env (at_ledger env c) = Some c' ->
    chain_reach (timestamp env) (sequence env) c'
| chain_ledger t s c l :
    chain_reach t s c ->
    (forall g, is_Some (net_governors (ch_net c) !! g) -> no_loss g (net_ledger (ch_net c)) l) ->
    chain_reach t s (with_net (with_ledger l (ch_net c)) c).
