(* ===== verification/ChainSound.v ===== *)
(** * The chain: every contract stays in the states its theorems are about

    Whatever calls are made, in any order and by anyone, every stream, factory,
    vault and governor of the chain is in a state reachable on its own: the
    assumptions each component makes about the others are discharged by the
    others' code. *)

From stdpp Require Import base numbers list option strings gmap.
From Stdlib Require Import ZArith Lia String.
From S2P Require Import Prelude Host Ttl Pause Frame Safe.
From S2P Require Import GovernorData GovernorStore GovernorOps GovernorSystem.
From S2P Require Import FactoryData FactoryIndex FactoryOps FactorySystem FactoryReach FactoryOutside FactoryProps.
From S2P Require Import VaultData VaultOps VaultSystem VaultProps.
From S2P Require Import StreamData StreamState StreamOps StreamAdmin StreamSystem StreamOutside StreamFacts.
From S2P Require Import StreamSpec StreamRefine StreamSafety Protocol Chain.

#[local] Open Scope Z_scope.
#[local] Open Scope sf_scope.
#[local] Existing Instance fac_keys.

(** ** What every call keeps of the ledger, the streams and the governors *)

Lemma no_loss_closed {T} `{TokenLaws T} (env : Env) (g : Address) (t0 : T) :
  call_auth env g = false -> TransferClosed env (no_loss g t0).
Proof.
  intros Hg t tk from to amt t' Ht HP. transitivity t; [exact HP|].
  eapply no_loss_transfer; [exact Ht|]. intros ->.
  rewrite (tok_transfer_auth _ _ _ _ _ _ _ Ht) in Hg. done.
Qed.

(** Every stream is in a reachable state, last called at [now] or before. *)
Definition streams_ok (now : Z) (n : Net) : Prop :=
  forall a sw, net_streams n !! a = Some sw ->
  exists t, t <= now /\ StreamSystem.reachable (fun _ => True) t sw.

(** No governor lives at the address of a stream. *)
Definition apart (n : Net) : Prop :=
  forall a, is_Some (net_governors n !! a) -> net_streams n !! a = None.

(** A stream of [s] in the token [tk] lives at [a]. *)
Definition party (n : Net) (a s tk : Address) : Prop :=
  exists sw i, net_streams n !! a = Some sw /\ w_store sw DataKey.Config = Some i /\
    sender i = s /\ token i = tk.

(** From [n0] to [n]: the governors are the same, the streams are in order,
    none is gone or has changed its sender or token, and the protected
    addresses [G] have lost nothing. *)
Record Evolves (G : Address -> Prop) (now : Z) (n0 n : Net) : Prop := {
  ev_governors : net_governors n = net_governors n0;
  ev_streams : streams_ok now n;
  ev_apart : apart n;
  ev_spares g : G g -> no_loss g (net_ledger n0) (net_ledger n);
  ev_party a s tk : party n0 a s tk -> party n a s tk
}.

Lemma evolves_refl G now n : streams_ok now n -> apart n -> Evolves G now n n.
Proof. by constructor. Qed.

Lemma streams_ok_later now now' n : streams_ok now n -> now <= now' -> streams_ok now' n.
Proof. intros H Hle a sw Hs. destruct (H a sw Hs) as (t & Ht & Hr). exists t. split; [lia|done]. Qed.

Section Evolve.
Context (G : Address -> Prop) (now : Z) (n0 : Net).
Context (HG : forall g, G g -> is_Some (net_governors n0 !! g)).
Abbreviation P := (Evolves G now n0).

Lemma evolves_transfer env :
  (forall g, G g -> call_auth env g = false) -> TransferClosed env P.
Proof.
  intros Hg n tk from to amt n' Ht HP. apply net_transfer in Ht as (l & Hl & ->).
  destruct HP as [H1 H2 H3 H4 H5]. constructor; try done.
  intros g Hgov. exact (no_loss_closed env g (net_ledger n0) (Hg g Hgov) _ _ _ _ _ _ Hl (H4 g Hgov)).
Qed.

Lemma silent_call env a n g :
  (forall g, G g -> authorized env g = false) -> current_contract env = a -> P n ->
  is_Some (net_streams n !! a) -> G g -> call_auth env g = false.
Proof.
  intros Hs Ha HP [sw Hsw] Hg. unfold call_auth. rewrite (Hs g Hg), orb_false_r.
  apply addr_eqb_false. intros ->. apply HG in Hg. rewrite <- (ev_governors _ _ _ _ HP) in Hg.
  rewrite Ha in Hg. rewrite (ev_apart _ _ _ _ HP a Hg) in Hsw. done.
Qed.

(** The net after a stream at [a] ended in [sw]. *)
Lemma evolves_at (a : Address) (n : Net) (l : Ledger) (sw : StreamWorld) :
  P n -> is_Some (net_streams n !! a) ->
  (forall g, G g -> no_loss g (net_ledger n) l) ->
  (exists t, t <= now /\ StreamSystem.reachable (fun _ => True) t sw) ->
  (forall sw0 i, net_streams n !! a = Some sw0 -> w_store sw0 DataKey.Config = Some i ->
     exists i', w_store sw DataKey.Config = Some i' /\ sender i' = sender i /\ token i' = token i) ->
  P (mkNet l (net_governors n) (<[a := sw]> (net_streams n))).
Proof.
  intros [H1 H2 H3 H4 H5] Ha Hl Hr Hp. constructor; cbn.
  - done.
  - intros b sw'. cbn [net_streams]. rewrite lookup_insert. case_decide; [intros [= <-]; exact Hr|apply H2].
  - intros b Hb. pose proof (H3 b Hb) as Hn. cbn [net_streams]. rewrite lookup_insert. case_decide; [|done].
    subst. rewrite Hn in Ha. by destruct Ha.
  - intros g Hg. transitivity (net_ledger n); [by apply H4|by apply Hl].
  - intros b s tk Hb. destruct (H5 b s tk Hb) as (sw0 & i & Hs & Hi & <- & <-).
    destruct (decide (b = a)) as [->|Hne].
    + destruct (Hp _ _ Hs Hi) as (i' & Hi' & ? & ?). exists sw, i'.
      cbn [net_streams]. by rewrite lookup_insert_eq.
    + exists sw0, i. cbn [net_streams]. by rewrite lookup_insert_ne.
Qed.

(** A call of a stream. *)
Lemma evolves_call c env a n u n' :
  StreamSystem.typed c -> timestamp env = now -> U64 now -> current_contract env = a ->
  (forall g, G g -> authorized env g = false) -> call_stream (StreamSystem.exec c) env a n = Some (u, n') ->
  P n -> P n'.
Proof.
  intros Hty Ht Hu Ha Hs H HP. apply call_stream_ok in H as (sw & sw' & Hsw & Hm & ->).
  assert (Hin : is_Some (net_streams n !! a)) by eauto.
  apply evolves_at; [exact HP|exact Hin| | |].
  - intros g Hg. pose proof (silent_call env a n g Hs Ha HP Hin Hg) as Hg'.
    pose proof (stream_exec_safe env (no_loss g (net_ledger n))
      (HC := no_loss_closed env g (net_ledger n) Hg') c) as Hsafe.
    exact (safe_ok env _ _ (Safe0 := Hsafe) _ _ _ Hm ltac:(reflexivity)).
  - destruct (ev_streams _ _ _ _ HP a sw Hsw) as (t & Hle & Hr). exists now. split; [lia|].
    rewrite <- Ht. destruct u.
    eapply (reach_call (T := Ledger) _ t (set_tokens (net_ledger n) sw) env c (Returned tt)); try done.
    + by apply reach_tokens.
    + lia.
    + by rewrite Ht.
    + unfold invoke. by rewrite Hm.
  - intros sw0 i Hs0 Hi. rewrite Hsw in Hs0. injection Hs0 as <-.
    destruct (ev_streams _ _ _ _ HP a sw Hsw) as (t & Hle & Hr).
    destruct (reach_good _ _ _ Hr) as (j & HG' & _).
    rewrite (good_record _ _ _ HG') in Hi. injection Hi as ->.
    assert (HG2 : Good t (set_tokens (net_ledger n) sw) i) by (destruct HG'; by constructor).
    destruct (good_step t _ i env c u sw' HG2) as (i' & HG3 & Hst & _); [lia|by rewrite Ht|done|exact Hm|].
    destruct (astep_parties _ _ _ _ Hst) as (Hse & Hto & _). exists i'.
    split; [apply HG3|]. split; [exact Hse|exact Hto].
Qed.

(** The deployment of an initialized stream at a free address. *)
Lemma evolves_new env a n args n' :
  net_streams n !! a = None -> net_governors n !! a = None -> wide_args args ->
  timestamp env = now -> U64 now -> current_contract env = a ->
  stream_initialize env (mkNet (net_ledger n) (net_governors n)
    (<[a := blank_stream (net_ledger n)]> (net_streams n))) args = Some n' ->
  P n -> P n'.
Proof.
  intros Hfree Hgov (Hr & Hst & Hen) Ht Hu Ha Hi HP.
  cbn [stream_initialize net_network] in Hi. apply fmap_Some in Hi as ([[] n1] & Hi & ->).
  rewrite Ha in Hi. apply call_stream_ok in Hi as (sw & sw' & Hsw & Hm & ->).
  cbn [net_streams net_ledger net_governors snd] in *. rewrite lookup_insert_eq in Hsw.
  injection Hsw as <-.
  assert (Htk : w_tokens sw' = net_ledger n).
  { assert (Hk : same_tokens (set_tokens (net_ledger n) (blank_stream (net_ledger n))) sw')
      by exact (keeps_ok (Keeps0 := keeps_initialize _ _ _ _ _ _ _ _ _ _) _ _ _ _ _ _ Hm). exact Hk. }
  rewrite Htk, insert_insert_eq. destruct HP as [H1 H2 H3 H4 H5]. constructor; cbn.
  - done.
  - intros b sw2. cbn [net_streams]. rewrite lookup_insert. case_decide; [intros [= <-]|apply H2].
    exists now. split; [lia|]. rewrite <- Ht.
    eapply reach_init; [..|exact Hm]; try done. by rewrite Ht.
  - intros b Hb. cbn [net_streams net_governors] in *. rewrite lookup_insert_ne; [by apply H3|]. intros ->.
    rewrite Hgov in Hb. by destruct Hb.
  - done.
  - intros b s tk Hb. destruct (H5 b s tk Hb) as (sw0 & i & Hs & H). exists sw0, i.
    cbn [net_streams]. rewrite lookup_insert_ne; [done|]. intros ->. by rewrite Hfree in Hs.
Qed.

(** The factory's deployments and cancellations. *)
Lemma evolves_deploy env n h salt a n1 args n2 :
  timestamp env = now -> U64 now ->
  deploy_contract n (current_contract env) salt h = Some (a, n1) -> wide_args args ->
  stream_initialize (callee_env env a) n1 args = Some n2 -> P n -> P n2.
Proof.
  intros Ht Hu Hd Hw Hi HP. cbn [deploy_contract net_network] in Hd.
  destruct (net_streams n !! _) eqn:Hs; [done|]. destruct (net_governors n !! _) eqn:Hg; [done|].
  injection Hd as <- <-. exact (evolves_new (callee_env env _) _ _ _ _ Hs Hg Hw Ht Hu eq_refl Hi HP).
Qed.

Lemma evolves_cancel env n s sender n' :
  timestamp env = now -> U64 now ->
  (forall g, G g -> call_auth env g = false) ->
  stream_cancel (callee_env env s) n sender = Some n' -> P n -> P n'.
Proof.
  intros Ht Hu Hg Hc HP. cbn [stream_cancel net_network] in Hc.
  apply fmap_Some in Hc as ([u n1] & Hc & ->).
  eapply (evolves_call (Cancel sender)); [..|exact Hc|exact HP]; done.
Qed.

End Evolve.

(** ** Sound states of the chain *)

(** Every contract is in a state reachable on its own, the governors in [B]
    apart. *)
Record SoundBut (B : Address -> Prop) (now seq : Z) (c : Chain) : Prop := {
  so_streams : streams_ok now (ch_net c);
  so_apart : apart (ch_net c);
  so_alone g : is_Some (net_governors (ch_net c) !! g) ->
    ch_factories c !! g = None /\ ch_vaults c !! g = None;
  so_factories f fw : ch_factories c !! f = Some fw -> fac_reach f false fw;
  so_vaults v vw : ch_vaults c !! v = Some vw ->
    exists t, t <= now /\ forall c', vault_reachable v t (rebase (T' := Chain) c' vw);
  so_governors g gw : ~ B g -> net_governors (ch_net c) !! g = Some gw ->
    exists s, s <= seq /\ GovernorSystem.reachable g s (rebase c gw)
}.

Definition Sound : Z -> Z -> Chain -> Prop := SoundBut (fun _ => False).

(** The governors of the chain that are not in [B]. *)
Definition other_governor (B : Address -> Prop) (c : Chain) (g : Address) : Prop :=
  is_Some (net_governors (ch_net c) !! g) /\ ~ B g.

(** The storage of a contract as seen later is what matters. *)
Lemma rebase_twice {K} `{StorageKeys K} {T1 T2 T3 X} (t2 : T2) (t3 : T3) (w : World K T1 X) :
  rebase t3 (rebase t2 w) = rebase t3 w.
Proof. done. Qed.

(** A governor whose balances did not shrink is still in a reachable state. *)
Lemma governor_later (g : Address) (s : Z) (c c' : Chain) (gw : GovWorld) :
  GovernorSystem.reachable g s (rebase c gw) ->
  no_loss g (net_ledger (ch_net c)) (net_ledger (ch_net c')) ->
  GovernorSystem.reachable g s (rebase c' gw).
Proof.
  intros Hr Hl. change (rebase c' gw) with (set_tokens c' (rebase c gw)).
  by apply GovernorSystem.reach_tokens.
Qed.

(** From [c0] to [c], as a contract other than a governor runs. *)
Record ChainEvolves (G : Address -> Prop) (now : Z) (c0 c : Chain) : Prop := {
  ce_net : Evolves G now (ch_net c0) (ch_net c);
  ce_time : ch_time c = ch_time c0;
  ce_sequence : ch_sequence c = ch_sequence c0;
  ce_vaults : ch_vaults c = ch_vaults c0;
  ce_factories f fw : ch_factories c !! f = Some fw -> fac_reach f false fw;
  ce_logs f fw : ch_factories c !! f = Some fw ->
    exists fw0, ch_factories c0 !! f = Some fw0 /\ created fw = created fw0
}.

Lemma sound_evolves B G now seq c : SoundBut B now seq c -> ChainEvolves G now c c.
Proof. intros [H1 H2 H3 H4 H5 H6]. constructor; eauto. by apply evolves_refl. Qed.

Lemma ce_same G now c0 c f :
  ChainEvolves G now c0 c -> ch_factories c0 !! f = None -> ch_factories c !! f = None.
Proof.
  intros H Hf. destruct (ch_factories c !! f) as [fw|] eqn:Hfw; [|done].
  destruct (ce_logs _ _ _ _ H f fw Hfw) as (fw0 & H0 & _). by rewrite Hf in H0.
Qed.

Section Steps.
Context (G : Address -> Prop) (now : Z) (c0 : Chain).
Context (HG : forall g, G g -> is_Some (net_governors (ch_net c0) !! g)).
Abbreviation P := (ChainEvolves G now c0).

Lemma chain_evolves_net n c : Evolves G now (ch_net c0) n -> P c -> P (with_net n c).
Proof. intros Hn [H1 H2 H3 H4 H5 H6]. by constructor. Qed.

Lemma chain_evolves_transfer env :
  (forall g, G g -> call_auth env g = false) -> TransferClosed env P.
Proof.
  intros Hg c tk from to amt c' Ht HP. apply chain_transfer in Ht as (n & Hn & ->).
  apply chain_evolves_net; [|exact HP].
  exact (evolves_transfer G now (ch_net c0) env Hg _ _ _ _ _ _ Hn (ce_net _ _ _ _ HP)).
Qed.

(** What a stream withdrawal is to the stream. *)
Lemma withdraw_as_call amt env s n r n' :
  call_stream (StreamOps.withdraw amt) env s n = Some (r, n') ->
  call_stream (StreamSystem.exec (StreamSystem.Withdraw amt)) env s n = Some (tt, n').
Proof.
  unfold call_stream. destruct (net_streams n !! s) as [sw|]; [|done]. cbn [StreamSystem.exec].
  intros H. unfold bind. destruct (StreamOps.withdraw amt env _) as [x sw'| |]; [|done..].
  by injection H as _ <-.
Qed.

(** A withdrawal by a vault. *)
Lemma chain_evolves_withdraw env c s amt c' :
  ch_time c0 = now -> U64 now -> (forall g, G g -> call_auth env g = false) ->
  stream_withdraw c (call_auth env) (current_contract env) s amt = Some c' -> P c -> P c'.
Proof.
  intros Ht Hu Hg H HP. cbn [stream_withdraw chain_streams] in H.
  destruct (addr_eqb s (current_contract env)); [done|]. cbn [orb] in H.
  destruct (in_i128 amt) eqn:Ha; [|done]. apply fmap_Some in H as ([r n] & H & ->).
  apply chain_evolves_net; [|exact HP]. apply withdraw_as_call in H.
  eapply (evolves_call G now (ch_net c0) HG (StreamSystem.Withdraw amt)
    (mkEnv (ch_time c) (ch_sequence c) s (call_auth env)) s); [..|exact H|apply HP]; try done.
  - by apply in_range_spec.
  - cbn. by rewrite (ce_time _ _ _ _ HP).
Qed.

(** A factory halted or resumed by a governor. *)
Lemma chain_evolves_factory env f name c c' :
  factory_call c f (current_contract env) name = Some c' -> P c -> P c'.
Proof.
  intros H HP.
  assert (Hrun : exists k e fw fw', (k = FPause \/ k = FUnpause) /\ current_contract e = f /\
            ch_factories c !! f = Some fw /\ fac_exec k e (set_tokens (ch_net c) fw) = ROk tt fw' /\
            c' = mkChain (ch_time c) (ch_sequence c) (w_tokens fw') (<[f := fw']> (ch_factories c))
                   (ch_vaults c)).
  { cbn [factory_call chain_factories] in H. unfold call_factory in H.
    destruct (ch_factories c !! f) as [fw|]; [|by repeat case_match].
    destruct (String.eqb name "pause"); [|destruct (String.eqb name "unpause"); [|done]].
    - destruct (FactoryOps.pause _ _) as [[] fw'| |] eqn:Hm; [|done..]. injection H as <-.
      exists FPause. eexists _, fw, fw'. split_and!; [by left| |done|exact Hm|done]. done.
    - destruct (FactoryOps.unpause _ _) as [[] fw'| |] eqn:Hm; [|done..]. injection H as <-.
      exists FUnpause. eexists _, fw, fw'. split_and!; [by right| |done|exact Hm|done]. done. }
  destruct Hrun as (k & e & fw & fw' & Hk & He & Hfw & Hm & ->).
  assert (Htk : w_tokens fw' = ch_net c).
  { assert (Hkeep : Keeps (same_tokens (T := Net)) (fac_exec k)) by (destruct Hk as [-> | ->]; solve_fac).
    exact (keeps_ok same_tokens _ _ _ _ _ Hm). }
  destruct HP as [H1 H2 H3 H4 H5 H6]. constructor; cbn [ch_net ch_time ch_sequence ch_vaults ch_factories].
  - by rewrite Htk.
  - done.
  - done.
  - done.
  - intros f' w'. rewrite lookup_insert. case_decide; [intros [= <-]; subst|apply H5].
    eapply (fr_call _ false k e (ch_net c) fw); [by apply H5|done| |done|exact Hm].
    by destruct Hk as [-> | ->].
  - intros f' w'. rewrite lookup_insert. case_decide; [intros [= <-]; subst|apply H6].
    destruct (H6 _ _ Hfw) as (fw0 & H0 & Hc). exists fw0. split; [done|]. rewrite <- Hc.
    assert (Hkeep : Keeps (same_log (T := Net)) (fac_exec k)) by (destruct Hk as [-> | ->]; solve_fac).
    exact (keeps_ok same_log _ _ _ _ _ Hm).
Qed.

End Steps.

Lemma sound_chain B now seq c0 c :
  SoundBut B now seq c0 -> ChainEvolves (other_governor B c0) now c0 c -> SoundBut B now seq c.
Proof.
  intros [H1 H2 H3 H4 H5 H6] [[E1 E2 E3 E4 E5] F1 F2 F3 F4 F5]. constructor; try done.
  - intros g Hg. rewrite E1 in Hg. destruct (H3 g Hg) as [Hf Hv]. rewrite F3. split; [|done].
    destruct (ch_factories c !! g) as [fw|] eqn:Hfw; [|done].
    destruct (F5 g fw Hfw) as (fw0 & H0 & _). by rewrite Hf in H0.
  - intros v vw Hv. rewrite F3 in Hv. by apply H5.
  - intros g gw HB Hg. rewrite E1 in Hg. destruct (H6 g gw HB Hg) as (s & Hs & Hr).
    exists s. split; [done|]. eapply governor_later; [exact Hr|]. apply E4. by split; [eexists|].
Qed.

Lemma sound_net B now seq c n :
  SoundBut B now seq c -> Evolves (other_governor B c) now (ch_net c) n ->
  SoundBut B now seq (with_net n c).
Proof.
  intros HS Hn. eapply sound_chain; [exact HS|].
  apply chain_evolves_net; [exact Hn|]. by eapply sound_evolves.
Qed.

Lemma sound_put_factory B now seq c f fw :
  SoundBut B now seq c -> net_governors (ch_net c) !! f = None -> fac_reach f false fw ->
  SoundBut B now seq (mkChain (ch_time c) (ch_sequence c) (ch_net c) (<[f := fw]> (ch_factories c))
                        (ch_vaults c)).
Proof.
  intros [H1 H2 H3 H4 H5 H6] Hf Hr. constructor; cbn [ch_net ch_factories ch_vaults]; try done.
  - intros g Hg. rewrite lookup_insert_ne; [by apply H3|]. intros ->. rewrite Hf in Hg.
    by destruct Hg.
  - intros f' fw'. rewrite lookup_insert. case_decide; [intros [= <-]; by subst|apply H4].
  - intros g gw HB Hg. destruct (H6 g gw HB Hg) as (s & Hs & Hg'). exists s. split; [done|].
    by eapply governor_later.
Qed.

Lemma sound_put_vault B now seq c v vw t :
  SoundBut B now seq c -> net_governors (ch_net c) !! v = None -> t <= now ->
  (forall c', vault_reachable v t (rebase (T' := Chain) c' vw)) ->
  SoundBut B now seq (mkChain (ch_time c) (ch_sequence c) (ch_net c) (ch_factories c)
                        (<[v := vw]> (ch_vaults c))).
Proof.
  intros [H1 H2 H3 H4 H5 H6] Hv Ht Hr. constructor; cbn [ch_net ch_factories ch_vaults]; try done.
  - intros g Hg. rewrite lookup_insert_ne; [by apply H3|]. intros ->. rewrite Hv in Hg.
    by destruct Hg.
  - intros v' vw'. rewrite lookup_insert. case_decide; [intros [= <-]; subst; by exists t|apply H5].
  - intros g gw HB Hg. destruct (H6 g gw HB Hg) as (s & Hs & Hg'). exists s. split; [done|].
    by eapply governor_later.
Qed.

(** The state with the storage of the governor at [g] replaced. *)
Definition put_governor (g : Address) (gw : GovWorld) (c : Chain) : Chain :=
  with_net (mkNet (net_ledger (ch_net c)) (<[g := gw]> (net_governors (ch_net c)))
              (net_streams (ch_net c))) c.

Lemma sound_put_governor (now seq : Z) (c : Chain) (g : Address) (gw : GovWorld) (s : Z) :
  SoundBut (fun a => a = g) now seq c -> net_streams (ch_net c) !! g = None ->
  ch_factories c !! g = None -> ch_vaults c !! g = None ->
  s <= seq -> GovernorSystem.reachable g s (rebase c gw) ->
  Sound now seq (put_governor g gw c).
Proof.
  intros [H1 H2 H3 H4 H5 H6] Hst Hf Hv Hs Hr.
  constructor; cbn [ch_net ch_factories ch_vaults put_governor with_net]; try done.
  - intros a Ha. cbn [net_governors net_streams] in *. destruct (decide (a = g)) as [->|]; [done|].
    rewrite lookup_insert_ne in Ha by congruence. by apply H2.
  - intros a Ha. cbn [net_governors] in *. destruct (decide (a = g)) as [->|]; [done|].
    rewrite lookup_insert_ne in Ha by congruence. by apply H3.
  - intros a gw' _. cbn [net_governors]. rewrite lookup_insert. case_decide.
    + intros [= <-]. subst. exists s. split; [done|]. by eapply governor_later.
    + intros Ha. destruct (H6 a gw' ltac:(congruence) Ha) as (s' & Hs' & Hg').
      exists s'. split; [done|]. by eapply governor_later.
Qed.

(** ** The calls *)

Lemma sound_at env now seq c :
  Sound now seq c -> now <= timestamp env -> seq <= sequence env ->
  Sound (timestamp env) (sequence env) (at_ledger env c).
Proof.
  intros [H1 H2 H3 H4 H5 H6] Hn Hs. constructor; try done.
  - by eapply streams_ok_later.
  - intros v vw Hv. destruct (H5 v vw Hv) as (t & Ht & Hr). exists t. split; [lia|done].
  - intros g gw HB Hg. destruct (H6 g gw HB Hg) as (s & Hle & Hr). exists s. split; [lia|].
    by eapply governor_later.
Qed.

(** An address where a contract lives. *)
Lemma vacant_governor a c : vacant a c = true -> net_governors (ch_net c) !! a = None.
Proof. unfold vacant. intros H. breflect. by destruct (net_governors _ !! a). Qed.
Lemma vacant_stream a c : vacant a c = true -> net_streams (ch_net c) !! a = None.
Proof. unfold vacant. intros H. breflect. by destruct (net_streams _ !! a). Qed.
Lemma vacant_factory a c : vacant a c = true -> ch_factories c !! a = None.
Proof. unfold vacant. intros H. breflect. by destruct (ch_factories c !! a). Qed.
Lemma vacant_vault a c : vacant a c = true -> ch_vaults c !! a = None.
Proof. unfold vacant. intros H. breflect. by destruct (ch_vaults c !! a). Qed.

Lemma occupied_governor g c : is_Some (net_governors (ch_net c) !! g) -> vacant g c = false.
Proof. intros [gw Hg]. unfold vacant. by rewrite Hg. Qed.

(** What is never lost: the streams with their parties, and the log of every
    factory but the callee. *)
Record Grows (own : Address -> Prop) (c c' : Chain) : Prop := {
  gw_party a s tk : party (ch_net c) a s tk -> party (ch_net c') a s tk;
  gw_logs f fw : ~ own f -> ch_factories c' !! f = Some fw ->
    exists fw0, ch_factories c !! f = Some fw0 /\ created fw = created fw0
}.

(** The factory a call runs. *)
Definition own_factory (k : chain_call) (f : Address) : Prop :=
  match k with OnFactory a _ | NewFactory a _ _ => f = a | _ => False end.

Lemma evolves_grows G now own c c' :
  ChainEvolves G now c c' -> Grows own c c'.
Proof.
  intros H. constructor; [apply (ev_party _ _ _ _ (ce_net _ _ _ _ H))|].
  intros f fw _. apply (ce_logs _ _ _ _ H).
Qed.

Lemma net_grows G now own c n : Evolves G now (ch_net c) n -> Grows own c (with_net n c).
Proof. intros H. constructor; [apply (ev_party _ _ _ _ H)|eauto]. Qed.

Section Calls.
Context (env : Env) (c : Chain).
Abbreviation now := (timestamp env).
Abbreviation seq := (sequence env).
Context (HS : Sound now seq c) (Ht : ch_time c = now) (Hu : U64 now).
Context (Hself : authorized env (current_contract env) = false) (Hun : unsigned env c).

Lemma governors_unsigned g : is_Some (net_governors (ch_net c) !! g) -> authorized env g = false.
Proof. intros Hg. by apply Hun, occupied_governor. Qed.

(** No governor but the callee signs anything in the call. *)
Lemma governor_silent g :
  is_Some (net_governors (ch_net c) !! g) -> g <> current_contract env -> call_auth env g = false.
Proof.
  intros Hg Hne. unfold call_auth. rewrite governors_unsigned by done.
  by rewrite (proj2 (addr_eqb_false _ _) Hne).
Qed.

Lemma on_stream k c' :
  chain_exec (OnStream (current_contract env) k) env c = Some c' -> StreamSystem.typed k ->
  Sound now seq c' /\ Grows (fun _ => False) c c'.
Proof.
  intros H Hk. cbn [chain_exec] in H. apply fmap_Some in H as ([u n] & H & ->).
  assert (Hn : Evolves (other_governor (fun _ => False) c) now (ch_net c) n).
  { eapply evolves_call; [| | | | | |exact H|]; try done.
    - by intros g [Hg _].
    - intros g [Hg _]. by apply governors_unsigned.
    - apply evolves_refl; apply HS. }
  split; [by apply sound_net|by eapply net_grows].
Qed.

Lemma on_factory k c' :
  chain_exec (OnFactory (current_contract env) k) env c = Some c' -> fac_typed k -> fac_wide k ->
  Sound now seq c' /\ Grows (fun f => f = current_contract env) c c'.
Proof.
  set (f := current_contract env). intros H Hk Hw. cbn [chain_exec] in H.
  unfold call_factory in H. destruct (ch_factories c !! f) as [fw|] eqn:Hfw; [|done].
  destruct (fac_exec k env _) as [u fw'| |] eqn:Hm; [|done..]. injection H as <-.
  assert (Hf : net_governors (ch_net c) !! f = None).
  { destruct (net_governors _ !! f) eqn:Hg; [|done].
    destruct (so_alone _ _ _ _ HS f) as [Hx _]; [by rewrite Hg|]. by rewrite Hfw in Hx. }
  assert (Hsil : forall g, is_Some (net_governors (ch_net c) !! g) -> call_auth env g = false).
  { intros g Hg. apply governor_silent; [done|]. intros ->. fold f in Hg. rewrite Hf in Hg. by destruct Hg. }
  assert (Hn : Evolves (other_governor (fun _ => False) c) now (ch_net c) (w_tokens fw')).
  { assert (HG : forall g, other_governor (fun _ => False) c g -> is_Some (net_governors (ch_net c) !! g))
      by by intros g [Hg _].
    pose proof (factory_exec_safe env (Evolves (other_governor (fun _ => False) c) now (ch_net c))
      (HC := evolves_transfer _ _ _ env (fun g Hg => Hsil g (HG g Hg)))
      (fun n h salt a n1 args n2 => evolves_deploy _ _ _ env n h salt a n1 args n2 eq_refl Hu)
      (fun n s sender n' => evolves_cancel _ _ _ HG env n s sender n' eq_refl Hu
         (fun g Hg => Hsil g (HG g Hg))) k Hw) as Hsafe.
    refine (safe_ok env _ _ (Safe0 := Hsafe) _ _ _ Hm _). apply evolves_refl; apply HS. }
  split.
  2:{ constructor; [apply (ev_party _ _ _ _ Hn)|]. intros f' fw2 Hne. cbn [ch_factories].
      rewrite lookup_insert_ne by (intros <-; by apply Hne). eauto. }
  change (Sound now seq (mkChain (ch_time (with_net (w_tokens fw') c))
    (ch_sequence (with_net (w_tokens fw') c)) (ch_net (with_net (w_tokens fw') c))
    (<[f := fw']> (ch_factories (with_net (w_tokens fw') c))) (ch_vaults (with_net (w_tokens fw') c)))).
  apply sound_put_factory; [by apply sound_net|cbn; by rewrite (ev_governors _ _ _ _ Hn)|].
  destruct u. eapply (fr_call f false k env (ch_net c) fw); try done. by apply HS.
Qed.

Lemma on_vault k c' :
  chain_exec (OnVault (current_contract env) k) env c = Some c' -> vault_typed k ->
  Sound now seq c' /\ Grows (fun _ => False) c c'.
Proof.
  set (v := current_contract env). intros H Hk. cbn [chain_exec] in H.
  unfold call_vault in H. destruct (ch_vaults c !! v) as [vw|] eqn:Hvw; [|done].
  destruct (vault_exec k env _) as [u vw'| |] eqn:Hm; [|done..]. injection H as <-.
  set (c1 := w_tokens vw') in *.
  assert (Hv : net_governors (ch_net c) !! v = None).
  { destruct (net_governors _ !! v) eqn:Hg; [|done].
    destruct (so_alone _ _ _ _ HS v) as [_ Hx]; [by rewrite Hg|]. by rewrite Hvw in Hx. }
  assert (Hsil : forall g, other_governor (fun _ => False) c g -> call_auth env g = false).
  { intros g [Hg _]. apply governor_silent; [done|]. intros ->. fold v in Hg. rewrite Hv in Hg.
    by destruct Hg. }
  assert (Hn : ChainEvolves (other_governor (fun _ => False) c) now c c1).
  { pose proof (vault_exec_safe env (ChainEvolves (other_governor (fun _ => False) c) now c)
      (HC := chain_evolves_transfer _ _ _ env Hsil)
      (fun d s amt d' H => chain_evolves_withdraw _ now c (fun g Hg => proj1 Hg) env d s amt d' Ht Hu Hsil H)
      k) as Hsafe.
    refine (safe_ok env _ _ (Safe0 := Hsafe) _ _ _ Hm _). by eapply sound_evolves. }
  split; [|destruct (evolves_grows _ _ (fun _ => False) _ _ Hn); by constructor].
  apply sound_put_vault with (t := now); [by eapply sound_chain| |lia|].
  - by rewrite (ev_governors _ _ _ _ (ce_net _ _ _ _ Hn)).
  - intros c2. change (rebase c2 (rebase (ch_net c1) vw')) with (set_tokens c2 vw').
    apply vr_tokens. destruct u. destruct (so_vaults _ _ _ _ HS v vw Hvw) as (t & Hle & Hr).
    eapply (vr_call v t (rebase c vw) env k (Returned tt)); try done.
    unfold invoke. by rewrite Hm.
Qed.

(** The states a governor's call goes through, seen from the others. *)
Lemma governor_evolves k gw u gw' :
  net_governors (ch_net c) !! current_contract env = Some gw ->
  GovernorSystem.exec k env (rebase c gw) = ROk u gw' ->
  ChainEvolves (other_governor (fun a => a = current_contract env) c) now c (w_tokens gw').
Proof.
  intros Hg Hm. set (G := other_governor (fun a => a = current_contract env) c).
  assert (Hsil : forall g, G g -> call_auth env g = false).
  { intros g [Hx Hne]. by apply governor_silent. }
  pose proof (governor_exec_safe env (ChainEvolves G now c)
    (HC := chain_evolves_transfer _ _ _ env Hsil)
    (fun d f name d' H => chain_evolves_factory _ _ _ env f name d d' H) k) as Hsafe.
  refine (safe_ok env _ _ (Safe0 := Hsafe) _ _ _ Hm _). by eapply sound_evolves.
Qed.

Lemma but_self (B : Address -> Prop) : SoundBut B now seq c.
Proof. destruct HS as [H1 H2 H3 H4 H5 H6]. constructor; try done. intros g gw _ Hg. exact (H6 g gw (fun x => x) Hg). Qed.

Lemma on_governor k c' :
  chain_exec (OnGovernor (current_contract env) k) env c = Some c' -> GovernorSystem.typed k ->
  Sound now seq c' /\ Grows (fun _ => False) c c'.
Proof.
  set (g := current_contract env). intros H Hk. cbn [chain_exec] in H.
  unfold call_governor in H. destruct (net_governors (ch_net c) !! g) as [gw|] eqn:Hgw; [|done].
  destruct (GovernorSystem.exec k env _) as [u gw'| |] eqn:Hm; [|done..]. injection H as <-.
  pose proof (governor_evolves k gw u gw' Hgw Hm) as Hn. set (c1 := w_tokens gw') in *.
  split; [|destruct (evolves_grows _ _ (fun _ => False) _ _ Hn); by constructor].
  pose proof (but_self (fun a => a = g)) as HB.
  pose proof (sound_chain _ _ _ _ _ HB Hn) as H1.
  destruct (so_alone _ _ _ _ HS g) as [Hf Hv]; [by rewrite Hgw|].
  refine (sound_put_governor now seq c1 g (rebase (net_ledger (ch_net c1)) gw') seq H1 _ _ _ _ _).
  - apply (so_apart _ _ _ _ H1). by rewrite (ev_governors _ _ _ _ (ce_net _ _ _ _ Hn)), Hgw.
  - by apply (ce_same _ _ _ _ _ Hn).
  - by rewrite (ce_vaults _ _ _ _ Hn).
  - lia.
  - change (GovernorSystem.reachable g seq (set_tokens c1 gw')).
    apply GovernorSystem.reach_tokens; [|apply (no_loss_preorder (T := Chain))].
    destruct u. destruct (so_governors _ _ _ _ HS g gw (fun x => x) Hgw) as (s & Hle & Hr).
    eapply (GovernorSystem.reach_call g s (rebase c gw) env k (Returned tt)); try done.
    unfold invoke. by rewrite Hm.
Qed.

Lemma new_stream args c' :
  chain_exec (NewStream (current_contract env) args) env c = Some c' -> wide_args args ->
  Sound now seq c' /\ Grows (fun _ => False) c c'.
Proof.
  intros H Hw. cbn [chain_exec] in H. destruct (vacant _ c) eqn:Hvac; [|done]. cbn [negb] in H.
  apply fmap_Some in H as (n & H & ->).
  assert (Hn : Evolves (other_governor (fun _ => False) c) now (ch_net c) n).
  { eapply evolves_new; [by apply vacant_stream|by apply vacant_governor|exact Hw| | | |exact H|];
      try done. apply evolves_refl; apply HS. }
  split; [by apply sound_net|by eapply net_grows].
Qed.

Lemma new_factory h g c' :
  chain_exec (NewFactory (current_contract env) h g) env c = Some c' ->
  Sound now seq c' /\ Grows (fun f => f = current_contract env) c c'.
Proof.
  set (f := current_contract env). intros H. cbn [chain_exec] in H.
  destruct (vacant _ c) eqn:Hvac; [|done]. cbn [negb] in H.
  unfold call_factory in H. cbn [ch_factories ch_net ch_time ch_sequence ch_vaults] in H.
  rewrite lookup_insert_eq in H.
  destruct (FactoryOps.initialize h g env _) as [u fw| |] eqn:Hm; [|done..]. injection H as <-.
  assert (Htk : w_tokens fw = ch_net c).
  { assert (Hk : Keeps (same_tokens (T := Net)) (fac_exec (FInitialize h g))) by solve_fac.
    exact (keeps_ok same_tokens _ _ _ _ _ Hm). }
  rewrite Htk, insert_insert_eq. split.
  2:{ constructor; [done|]. intros f' fw2 Hne. cbn [ch_factories].
      rewrite lookup_insert_ne by (intros <-; by apply Hne). eauto. }
  apply sound_put_factory; [exact HS|by apply vacant_governor|].
  destruct u. exact (fr_init f false env (ch_net c) h g fw eq_refl Hm).
Qed.

Lemma new_vault o tk m c' :
  chain_exec (NewVault (current_contract env) o tk m) env c = Some c' ->
  Sound now seq c' /\ Grows (fun _ => False) c c'.
Proof.
  set (v := current_contract env). intros H. cbn [chain_exec] in H.
  destruct (vacant _ c) eqn:Hvac; [|done]. cbn [negb] in H.
  unfold call_vault in H. cbn [ch_factories ch_net ch_time ch_sequence ch_vaults] in H.
  rewrite lookup_insert_eq in H.
  destruct (VaultOps.initialize o tk m env _) as [u vw| |] eqn:Hm; [|done..]. injection H as <-.
  assert (Htk : w_tokens vw = mkChain (ch_time c) (ch_sequence c) (ch_net c) (ch_factories c)
                                (<[v := blank (ch_net c)]> (ch_vaults c))).
  { assert (Hk : Keeps (same_tokens (T := Chain)) (VaultOps.initialize o tk m))
      by (unfold VaultOps.initialize; solve_keeps).
    exact (keeps_ok same_tokens _ _ _ _ _ Hm). }
  rewrite Htk. cbn [ch_factories ch_net ch_time ch_sequence ch_vaults]. rewrite insert_insert_eq.
  split; [|constructor; eauto].
  apply sound_put_vault with (t := now); [exact HS|by apply vacant_governor|lia|].
  intros c2. change (rebase c2 (rebase (ch_net c) vw)) with (set_tokens c2 vw). apply vr_tokens.
  destruct u. eapply (vr_init v env _ o tk m); [|done|exact Hm]. done.
Qed.

Lemma new_governor au fr f c' :
  chain_exec (NewGovernor (current_contract env) au fr f) env c = Some c' ->
  Sound now seq c' /\ Grows (fun _ => False) c c'.
Proof.
  set (g := current_contract env). intros H. cbn [chain_exec] in H.
  destruct (vacant _ c) eqn:Hvac; [|done]. cbn [negb] in H.
  pose proof (vacant_governor _ _ Hvac) as Hfree.
  unfold call_governor in H. cbn [ch_net with_net net_governors] in H.
  rewrite lookup_insert_eq in H.
  set (c1 := with_net _ c) in *.
  destruct (Governor.initialize au fr f env _) as [u gw| |] eqn:Hm; [|done..]. injection H as <-.
  assert (Htk : w_tokens gw = c1).
  { assert (Hk : Keeps (same_tokens (T := Chain)) (Governor.initialize au fr f))
      by (unfold Governor.initialize; solve_keeps).
    exact (keeps_ok same_tokens _ _ _ _ _ Hm). }
  rewrite Htk. split; [|constructor; eauto].
  refine (sound_put_governor now seq c1 g (rebase (net_ledger (ch_net c1)) gw) seq _ _ _ _ _ _).
  - destruct HS as [H1 H2 H3 H4 H5 H6]. constructor; try done.
    + intros a Ha. cbn [ch_net c1 with_net net_governors net_streams] in *.
      destruct (decide (a = g)) as [->|]; [by apply vacant_stream|].
      rewrite lookup_insert_ne in Ha by congruence. by apply H2.
    + intros a Ha. cbn [ch_net c1 with_net net_governors ch_factories ch_vaults] in *.
      destruct (decide (a = g)) as [->|]; [split; [by apply vacant_factory|by apply vacant_vault]|].
      rewrite lookup_insert_ne in Ha by congruence. by apply H3.
    + intros a gw' Hne Ha. cbn [ch_net c1 with_net net_governors] in Ha.
      rewrite lookup_insert_ne in Ha by congruence.
      destruct (H6 a gw' (fun x => x) Ha) as (s & Hle & Hr). exists s. split; [done|].
      by eapply governor_later.
  - exact (vacant_stream _ _ Hvac).
  - exact (vacant_factory _ _ Hvac).
  - exact (vacant_vault _ _ Hvac).
  - lia.
  - change (GovernorSystem.reachable g seq (set_tokens c1 gw)).
    apply GovernorSystem.reach_tokens; [|rewrite Htk; apply (no_loss_preorder (T := Chain))].
    destruct u. eapply (GovernorSystem.reach_init g env _ au fr f); [|done|exact Hm]. done.
Qed.

(** Every call leaves a sound chain sound. *)
Lemma call_sound call c' :
  callee call = current_contract env -> chain_typed call -> chain_exec call env c = Some c' ->
  Sound now seq c' /\ Grows (own_factory call) c c'.
Proof.
  intros Hc Hty H. destruct call; cbn [callee] in Hc; subst; cbn [chain_typed] in Hty.
  - by eapply on_stream.
  - destruct Hty. by eapply on_factory.
  - by eapply on_vault.
  - by eapply on_governor.
  - by eapply new_stream.
  - by eapply new_factory.
  - by eapply new_vault.
  - by eapply new_governor.
Qed.

End Calls.

Lemma reach_is_sound t s c : chain_reach t s c -> Sound t s c.
Proof.
  induction 1 as [t s l|t s c call env c' Hr IH Ht Hs Hu Hc Hself Hun Hty H|t s c l Hr IH Hl].
  - constructor; cbn; intros *; rewrite ?lookup_empty; done || (by intros [? ?]).
  - rewrite <- Hc in Hself.
    eapply (call_sound env (at_ledger env c)); [by eapply sound_at|done|done|done|done|done|done|exact H].
  - apply sound_net; [exact IH|]. destruct IH as [H1 H2 H3 H4 H5 H6]. constructor; try done.
    intros g [Hg _]. by apply Hl.
Qed.

(** C2 The contracts compose. Whatever calls the outside world makes of the
    streams, factories, vaults and governors of the chain, in any order and
    with any signatures, through each other or directly, every one of them is
    in a state reachable on its own: the assumptions its theorems make about
    the contracts it calls and about the tokens it holds are met by the code of
    the others. *)
Theorem contracts_compose now seq c :
  chain_reach now seq c ->
  (forall a sw, net_streams (ch_net c) !! a = Some sw ->
     exists t, t <= now /\ forall l, StreamSystem.reachable (fun _ => True) t (set_tokens l sw)) /\
  (forall f fw, ch_factories c !! f = Some fw -> fac_reach f false fw) /\
  (forall v vw, ch_vaults c !! v = Some vw ->
     exists t, t <= now /\ vault_reachable v t (rebase c vw)) /\
  (forall g gw, net_governors (ch_net c) !! g = Some gw ->
     exists s, s <= seq /\ GovernorSystem.reachable g s (rebase c gw)).
Proof.
  intros H. destruct (reach_is_sound _ _ _ H) as [H1 _ _ H4 H5 H6]. split_and!.
  - intros a sw Hs. destruct (H1 a sw Hs) as (t & Ht & Hr). exists t. split; [done|].
    intros l. by apply reach_tokens.
  - exact H4.
  - intros v vw Hv. destruct (H5 v vw Hv) as (t & Ht & Hr). by exists t.
  - intros g gw Hg. exact (H6 g gw (fun x => x) Hg).
Qed.
