(* ===== verification/ChainPay.v ===== *)
(** * The chain: a vault withdraws from real streams

    What [vault_batch_withdraw] pays when the streams it calls are the streams
    of this repository: each stream's own withdrawal rules decide, and the
    ledger moves by exactly the sum of what they pay. *)

From stdpp Require Import base numbers list option strings gmap.
From Stdlib Require Import ZArith Lia String.
From S2P Require Import Prelude Host Ttl Pause Frame Safe.
From S2P Require Import GovernorOps GovernorSystem.
From S2P Require Import VaultData VaultOps VaultSystem VaultFunds VaultSafety.
From S2P Require Import StreamData StreamState StreamMath StreamOps StreamAdmin StreamFacts StreamSpec.
From S2P Require Import StreamRefine StreamSystem StreamMoney StreamOutside.
From S2P Require Import Protocol Chain ChainSound.

#[local] Open Scope Z_scope.
#[local] Open Scope sf_scope.

(** ** What the vault assumes of the streams holds of them *)

#[export] Instance chain_stream_laws : StreamLaws Chain.
Proof.
  constructor. intros c auth self s amt c' tk b' H Hb. cbn [stream_withdraw chain_streams] in H.
  destruct (addr_eqb s self) eqn:Hs; [done|]. apply addr_eqb_false in Hs.
  destruct (in_i128 amt); [|done]. apply fmap_Some in H as ([r n] & H & ->).
  apply call_stream_ok in H as (sw & sw' & _ & Hm & ->).
  set (env := mkEnv _ _ s auth) in Hm.
  assert (Hsafe : Safe env (no_loss self (net_ledger (ch_net c)))
    (StreamOps.withdraw amt : M _ Ledger _ _ _)) by (apply withdraw_spares_others; exact (not_eq_sym Hs)).
  exact (safe_ok env _ _ (Safe0 := Hsafe) _ _ _ Hm ltac:(reflexivity) tk b' Hb).
Qed.

(** ** One withdrawal *)

(** What the stream in [sw] owes at [now]. *)
Definition owes (now : Z) (sw : StreamWorld) (i : StreamInfo) : Z :=
  if is_cancelled i then 0 else owed_at (view i sw) now.

(** What a stream was asked for and what it paid. *)
Record payment := mkPayment {
  pm_stream : Address;
  pm_world : StreamWorld;
  pm_record : StreamInfo;
  pm_offered : Z;
  pm_paid : Z
}.

(** What the payments move, for each token and address. *)
Definition pm_effect (tk a : Address) (p : payment) : Z :=
  if addr_eqb (token (pm_record p)) tk
  then payout_credit (pm_world p) (pm_record p) (pm_paid p) a - at_addr (pm_stream p) (pm_paid p) a
  else 0.

Fixpoint pm_effects (tk a : Address) (l : list payment) : Z :=
  match l with [] => 0 | p :: rest => pm_effect tk a p + pm_effects tk a rest end.

(** From [c] to [c'], the stream [s] paid [p] to [r]: no more than it owed, all
    of it if it held enough, with [r]'s signature, and booked it: what it still
    owes is what it could not pay. *)
Record settles (now : Z) (auth : Address -> bool) (r : Address) (c c' : Chain) (s : Address)
    (p : payment) : Prop := {
  st_stream : pm_stream p = s;
  st_before : net_streams (ch_net c) !! s = Some (pm_world p);
  st_record : w_store (pm_world p) DataKey.Config = Some (pm_record p);
  st_recipient : recipient (pm_record p) = r;
  st_offered : pm_offered p = owes now (pm_world p) (pm_record p);
  st_range : 0 <= pm_paid p <= pm_offered p;
  st_funded b : tok_balance c (token (pm_record p)) s = Some b -> pm_offered p <= b ->
    pm_paid p = pm_offered p;
  st_signed : 0 < pm_offered p -> auth r = true;
  st_after : exists sw' n, net_streams (ch_net c') !! s = Some sw' /\
    let i' := with_event_sequence n
                (with_withdrawn (withdrawn (pm_record p) + pm_paid p) (pm_record p)) in
    w_store sw' DataKey.Config = Some i' /\ owes now sw' i' = pm_offered p - pm_paid p
}.

(** What the rest of the chain sees of payments [l] by the streams [ids]. *)
Record elsewhere (ids : list Address) (l : list payment) (c c' : Chain) : Prop := {
  el_streams s : s ∉ ids -> net_streams (ch_net c') !! s = net_streams (ch_net c) !! s;
  el_governors : net_governors (ch_net c') = net_governors (ch_net c);
  el_factories : ch_factories c' = ch_factories c;
  el_vaults : ch_vaults c' = ch_vaults c;
  el_time : ch_time c' = ch_time c;
  el_balance tk a b : tok_balance c tk a = Some b ->
    tok_balance c' tk a = Some (b + pm_effects tk a l)
}.

(** A stream of [r] that owes [amt]. *)
Definition owing (now : Z) (r : Address) (c : Chain) (s : Address) (amt : Z) : Prop :=
  exists sw i, net_streams (ch_net c) !! s = Some sw /\ w_store sw DataKey.Config = Some i /\
    Inv now (view i sw) /\ recipient i = r /\ amt = owes now sw i.

Lemma owes_nonneg now sw i : 0 <= owes now sw i.
Proof. unfold owes, owed_at. destruct (is_cancelled i); lia. Qed.

Lemma credit_nonneg (w : StreamWorld) i amt a : split_ok w -> 0 <= amt -> 0 <= payout_credit w i amt a.
Proof.
  intros Hs Ha. unfold payout_credit, secondary_share, split_ok in *.
  destruct (w_store w DataKey.SplitConfig) as [sp|].
  - pose proof (secondary_share_bound sp amt Ha Hs). unfold at_addr.
    repeat destruct (addr_eqb _ _); lia.
  - unfold at_addr. destruct (addr_eqb _ _); lia.
Qed.

Lemma same_record i : with_event_sequence (event_sequence i) (with_withdrawn (withdrawn i + 0) i) = i.
Proof. destruct i. unfold with_event_sequence, with_withdrawn. cbn. by rewrite Z.add_0_r. Qed.

(** What is owed once a payment is booked. *)
Lemma owed_booked (now : Z) (sw sw' : StreamWorld) (i : StreamInfo) (n x : Z) :
  view i sw' = view i sw ->
  owed_at (view (with_event_sequence n (with_withdrawn (withdrawn i + x) i)) sw') now =
  Z.max (accrued_at (view i sw) now - withdrawn i - x) 0.
Proof.
  intros [= Hcp Hcl Hsp]. unfold owed_at, accrued_at, view.
  cbn [a_info a_cp a_cliff withdrawn with_event_sequence with_withdrawn].
  rewrite Hcp, Hcl, Z.sub_add_distr. done.
Qed.

(** A stream that owes nothing is not called. *)
Lemma settles_idle now auth r c s :
  owing now r c s 0 -> exists p, settles now auth r c c s p /\ (forall tk a, pm_effect tk a p = 0) /\
    pm_offered p = 0.
Proof.
  intros (sw & i & Hs & Hi & HI & Hr & H0). exists (mkPayment s sw i 0 0). split; [|split; [|done]].
  - constructor; cbn; try done. exists sw, (event_sequence i).
    rewrite same_record, <- H0. split_and!; done || lia.
  - intros tk a. unfold pm_effect. cbn. destruct (addr_eqb _ _); [|done].
    rewrite payout_credit_zero. unfold at_addr. by destruct (addr_eqb _ _).
Qed.

(** A stream that owes something pays it, as far as it holds it. *)
Lemma settles_paid now auth v r c s amt c' :
  ch_time c = now -> owing now r c s amt ->
  stream_withdraw c auth v s amt = Some c' ->
  exists p, settles now auth r c c' s p /\ elsewhere [s] [p] c c' /\ pm_offered p = amt /\
    forall a, a <> s -> forall tk, 0 <= pm_effect tk a p.
Proof.
  intros Ht (sw & i & Hs & Hi & HI & Hr & ->) H. cbn [stream_withdraw chain_streams] in H.
  destruct (_ || _); [done|]. apply fmap_Some in H as ([x n] & H & ->).
  apply call_stream_ok in H as (sw0 & sw' & Hs0 & Hm & ->). rewrite Hs in Hs0. injection Hs0 as <-.
  set (env := mkEnv _ _ s auth) in Hm. cbn [snd].
  assert (Hnow : timestamp env = now) by done.
  destruct (withdraw_ok (owes now sw i) env (set_tokens (net_ledger (ch_net c)) sw) x sw' i Hi) as
    (b & Hb & Hx & Hpos & Hau & Hlive & Hmv & (m & Hrec) & _ & Hview); [by rewrite Hnow|exact Hm|].
  cbv zeta in *. change (current_contract env) with s in *. rewrite Hnow in Hx.
  change (view i (set_tokens (net_ledger (ch_net c)) sw)) with (view i sw) in *.
  assert (Ho : owes now sw i = owed_at (view i sw) now) by (unfold owes; by rewrite Hlive).
  rewrite Ho, Z.min_id in Hx. exists (mkPayment s sw i (owes now sw i) x).
  split; [|split; [|split]].
  - constructor; cbn [pm_stream pm_world pm_record pm_offered pm_paid]; try done.
    + rewrite Ho. lia.
    + intros b' Hb'. assert (Some b' = Some b) as [= ->] by (rewrite <- Hb'; exact Hb). rewrite Ho. lia.
    + intros _. by rewrite <- Hr.
    + exists sw', m. split; [apply lookup_insert_eq|]. split; [exact Hrec|].
      unfold owes at 1. change (is_cancelled (with_event_sequence _ _)) with (is_cancelled i).
      rewrite Hlive, (owed_booked _ _ _ _ _ _ Hview), Ho. unfold owed_at in *. cbn [view a_info] in *. lia.
  - constructor; cbn [ch_net with_net net_streams net_governors ch_factories ch_vaults ch_time]; try done.
    + intros s' Hne. apply lookup_insert_ne. set_solver.
    + intros tk a b' Hb'. cbn [pm_effects]. rewrite Z.add_0_r. unfold pm_effect.
      cbn [pm_record pm_world pm_paid pm_stream].
      destruct (addr_eqb (token i) tk) eqn:Hk; [apply addr_eqb_true in Hk as <-|apply addr_eqb_false in Hk].
      * exact (moved_at _ _ _ _ _ _ Hmv Hb').
      * rewrite Z.add_0_r. rewrite <- Hb'. exact (moved_other _ _ _ _ Hmv tk a (not_eq_sym Hk)).
  - done.
  - intros a Hne tk. unfold pm_effect. cbn [pm_record pm_world pm_paid pm_stream].
    destruct (addr_eqb _ _); [|done]. rewrite at_addr_ne by done.
    pose proof (credit_nonneg sw i x a (inv_split_ok _ _ _ HI)). lia.
Qed.

(** ** All of them *)

Lemma Forall2_impl_in {A B} (P Q : A -> B -> Prop) l k :
  Forall2 P l k -> (forall x y, x ∈ l -> P x y -> Q x y) -> Forall2 Q l k.
Proof.
  induction 1 as [|x y l k Hx Hl IH]; intros HPQ; constructor; [|apply IH; intros ? ? ?];
    apply HPQ; try done; set_solver.
Qed.

Lemma elsewhere_refl c : elsewhere [] [] c c.
Proof. constructor; try done. intros tk a b Hb. by rewrite Z.add_0_r. Qed.

Lemma elsewhere_trans ids1 ids2 l1 l2 c1 c2 c3 :
  elsewhere ids1 l1 c1 c2 -> elsewhere ids2 l2 c2 c3 -> elsewhere (ids1 ++ ids2) (l1 ++ l2) c1 c3.
Proof.
  intros [A1 A2 A3 A4 A5 A6] [B1 B2 B3 B4 B5 B6]. constructor; try congruence.
  - intros s Hs. rewrite B1, A1; set_solver.
  - intros tk a b Hb. rewrite (B6 tk a _ (A6 tk a b Hb)). f_equal.
    clear. induction l1; cbn [app pm_effects]; lia.
Qed.

(** A stream is left alone by the payment of another one. *)
Lemma settles_later now auth r c c1 c' s p :
  settles now auth r c c1 s p -> net_streams (ch_net c') !! s = net_streams (ch_net c1) !! s ->
  settles now auth r c c' s p.
Proof. intros [] Hs. constructor; try done. by rewrite Hs. Qed.

Lemma settles_earlier now auth r c c1 c' s s0 p l :
  s <> s0 -> elsewhere [s0] l c c1 -> (forall tk, 0 <= pm_effects tk s l) ->
  settles now auth r c1 c' s p -> settles now auth r c c' s p.
Proof.
  intros Hne HE Hpos [H1 H2 H3 H4 H5 H6 H7 H8 H9]. constructor; try done.
  - rewrite <- (el_streams _ _ _ _ HE); [done|set_solver].
  - intros b Hb Hle. apply (H7 _ (el_balance _ _ _ _ HE _ _ _ Hb)).
    pose proof (Hpos (token (pm_record p))). lia.
Qed.

Lemma owing_later now r c c1 s s0 l amt :
  s <> s0 -> elsewhere [s0] l c c1 -> owing now r c s amt -> owing now r c1 s amt.
Proof.
  intros Hne HE (sw & i & Hs & H). exists sw, i. split; [|done].
  rewrite (el_streams _ _ _ _ HE); [done|set_solver].
Qed.

Lemma settles_all now auth v r ids c amounts c' :
  NoDup ids -> ch_time c = now -> Forall2 (owing now r c) ids amounts ->
  run_withdrawals auth v (positive (zip ids amounts)) c = Some c' ->
  exists l, Forall2 (settles now auth r c c') ids l /\ elsewhere ids l c c' /\
    map pm_offered l = amounts.
Proof.
  intros Hnd Ht HF. revert c Hnd Ht HF c'. revert amounts.
  induction ids as [|s ids IH]; intros amounts c Hnd Ht HF c' H.
  - apply Forall2_nil_inv_l in HF as ->. injection H as <-.
    exists []. split; [constructor|split; [apply elsewhere_refl|done]].
  - apply NoDup_cons in Hnd as [Hs Hnd].
    apply Forall2_cons_inv_l in HF as (amt & rest & Ho & HF & ->).
    assert (Hstep : exists p c1, settles now auth r c c1 s p /\ elsewhere [s] [p] c c1 /\
      pm_offered p = amt /\ (forall a, a <> s -> forall tk, 0 <= pm_effect tk a p) /\
      run_withdrawals auth v (positive (zip ids rest)) c1 = Some c').
    { cbn [zip zip_with positive] in H. destruct (0 <? amt) eqn:Hpos.
      - cbn [run_withdrawals] in H. apply bind_Some in H as (c1 & Hw & H).
        destruct (settles_paid _ _ _ _ _ _ _ _ Ht Ho Hw) as (p & ? & ? & ? & ?). eauto 10.
      - assert (amt = 0) as ->.
        { destruct Ho as (sw & i & _ & _ & _ & _ & ->). pose proof (owes_nonneg now sw i).
          breflect. lia. }
        destruct (settles_idle now auth r c s Ho) as (p & Hp & He & Hoff). exists p, c.
        split_and!; [done| |done| |exact H].
        + constructor; try done. intros tk a b Hb. cbn [pm_effects]. by rewrite He, !Z.add_0_r.
        + intros a _ tk. by rewrite He. }
    destruct Hstep as (p & c1 & Hp & HE & <- & Hpos & Hrun).
    assert (Ht1 : ch_time c1 = now) by (by rewrite (el_time _ _ _ _ HE)).
    assert (HF1 : Forall2 (owing now r c1) ids rest).
    { eapply Forall2_impl_in; [exact HF|]. intros x y Hx Hxy.
      eapply owing_later; [|exact HE|exact Hxy]. intros ->. done. }
    destruct (IH rest c1 Hnd Ht1 HF1 c' Hrun) as (l & Hl & HE' & <-).
    exists (p :: l). split; [|split; [exact (elsewhere_trans [s] ids [p] l _ _ _ HE HE')|done]].
    constructor.
    + eapply settles_later; [exact Hp|]. by apply (el_streams _ _ _ _ HE').
    + eapply Forall2_impl_in; [exact Hl|]. intros x y Hx Hxy.
      eapply settles_earlier; [|exact HE| |exact Hxy]; [intros ->; done|].
      intros tk. cbn [pm_effects]. rewrite Z.add_0_r. apply Hpos. intros ->. done.
Qed.

(** ** The batch *)

Fixpoint offered (l : list payment) : Z :=
  match l with [] => 0 | p :: rest => pm_offered p + offered rest end.
Fixpoint paid (l : list payment) : Z :=
  match l with [] => 0 | p :: rest => pm_paid p + paid rest end.

Lemma paid_le_offered now auth r c c' ids l :
  Forall2 (settles now auth r c c') ids l -> 0 <= paid l <= offered l.
Proof. induction 1 as [|s p ids l Hp Hl IH]; cbn; [lia|]. pose proof (st_range _ _ _ _ _ _ _ Hp). lia. Qed.

Lemma offered_amounts l : total_of (map pm_offered l) = offered l.
Proof. unfold total_of. induction l; cbn in *; lia. Qed.

(** The record behind a stream's answers. *)
Lemma offers_owing now seq c r s amt :
  Sound now seq c -> ch_time c = now -> U64 now -> offers c r s amt -> owing now r c s amt.
Proof.
  intros HS Ht Hu (Hr & Ha & _). cbn [stream_recipient stream_withdrawable chain_streams] in *.
  unfold ask_stream in *. destruct (net_streams (ch_net c) !! s) as [sw|] eqn:Hs; [|done].
  destruct (so_streams _ _ _ _ HS s sw Hs) as (t & Hle & Hre).
  destruct (reach_good _ _ _ Hre) as (i & HG & _). pose proof (good_record _ _ _ HG) as Hi.
  assert (HI : Inv now (view i sw)) by (eapply Inv_time; [exact Hle|]; apply HG).
  set (w := set_tokens _ sw) in *. assert (Hiw : w_store w DataKey.Config = Some i) by exact Hi.
  unfold recipient_view in Hr. rewrite (load_run i) in Hr by done. injection Hr as <-.
  unfold withdrawable_view in Ha. rewrite (load_run i) in Ha by done.
  exists sw, i. split_and!; try done. unfold owes. destruct (is_cancelled i); [by injection Ha as <-|].
  set (env := mkEnv _ _ s _) in Ha.
  pose proof (withdrawable_eval i env w (inv_info _ _ HI)) as He. cbv zeta in He.
  rewrite He in Ha; [|cbn; by rewrite Ht|exact (inv_accrual _ _ HI)].
  match type of Ha with context [if ?b then _ else _] => destruct b eqn:Hb end; [|done].
  injection Ha as <-. apply in_range_spec in Hb. cbn [timestamp env] in *. rewrite Ht in *.
  exact (owed_sat now i w HI Hb).
Qed.

Lemma batch_settles now seq c env v ids r total c' :
  Sound now seq c -> ch_time c = now -> U64 now -> current_contract env = v ->
  call_vault (vault_batch_withdraw ids r) env v c = Some (total, c') ->
  NoDup ids /\ 1 <= Z.of_nat (List.length ids) <= MAX_STREAM_BATCH_WITHDRAWALS /\
  exists l, Forall2 (settles now (call_auth env) r c c') ids l /\ total = offered l /\
    (forall s, s ∉ ids -> net_streams (ch_net c') !! s = net_streams (ch_net c) !! s) /\
    (forall tk a b, tok_balance c tk a = Some b ->
       tok_balance c' tk a = Some (b + pm_effects tk a l)).
Proof.
  intros HS Ht Hu Hv H. unfold call_vault in H. destruct (ch_vaults c !! v) as [vw|]; [|done].
  destruct (vault_batch_withdraw ids r env _) as [x vw'| |] eqn:Hm; [|done..]. injection H as -> <-.
  destruct (stream_batch_withdraws_every_offer ids r env (rebase c vw) total vw' Hm)
    as (Hnd & Hlen & am & HF & -> & Hrun).
  split; [done|]. split; [done|]. change (w_tokens (rebase c vw)) with c in *. rewrite Hv in Hrun.
  destruct (settles_all now (call_auth env) v r ids c am (w_tokens vw') Hnd Ht) as (l & Hl & HE & <-);
    [|exact Hrun|].
  { eapply Forall2_impl; [exact HF|]. intros s a. by eapply offers_owing. }
  exists l. rewrite offered_amounts. split_and!; [|done|apply HE|].
  - eapply Forall2_impl; [exact Hl|]. intros s p Hp. by eapply settles_later.
  - intros tk a b Hb. exact (el_balance _ _ _ _ HE tk a b Hb).
Qed.

(** C3 A vault's batch withdrawal pays what the streams owe. In a chain reached
    by any calls, a batch that goes through named between one and ten distinct
    streams of the recipient and answered the sum of what they owed at that
    moment. Each of them paid out of its own escrow, to its own payout address
    and split, with the recipient's signature, no more than it owed and all of
    it if it held that much, booked the payment and owes from then on what it
    could not pay; the ledger moved by exactly the sum of the payments, so the
    answer never understates them and is exact when every stream is funded; no
    other stream changed. *)
Theorem batch_withdraw_pays_what_streams_owe now seq c env v ids r total c' :
  chain_reach now seq c -> now <= timestamp env -> seq <= sequence env -> U64 (timestamp env) ->
  current_contract env = v ->
  call_vault (vault_batch_withdraw ids r) env v (at_ledger env c) = Some (total, c') ->
  NoDup ids /\ 1 <= Z.of_nat (List.length ids) <= MAX_STREAM_BATCH_WITHDRAWALS /\
  exists l, Forall2 (settles (timestamp env) (call_auth env) r (at_ledger env c) c') ids l /\
    total = offered l /\ 0 <= paid l <= total /\
    ((forall p, p ∈ l -> exists b,
        tok_balance c (token (pm_record p)) (pm_stream p) = Some b /\ pm_offered p <= b) ->
      paid l = total) /\
    (forall s, s ∉ ids -> net_streams (ch_net c') !! s = net_streams (ch_net c) !! s) /\
    (forall tk a b, tok_balance c tk a = Some b ->
       tok_balance c' tk a = Some (b + pm_effects tk a l)).
Proof.
  intros Hr Hn Hs Hu Hv H. apply reach_is_sound in Hr. pose proof (sound_at env _ _ _ Hr Hn Hs) as HS.
  destruct (batch_settles (timestamp env) _ (at_ledger env c) env v ids r total c' HS eq_refl Hu Hv H)
    as (Hnd & Hlen & l & Hl & Htot & Hst & Hbal).
  split; [done|]. split; [done|]. exists l. rewrite Htot.
  split_and!; try done; try (by eapply paid_le_offered).
  intros Hf. clear - Hl Hf. induction Hl as [|s p ids l Hp Hl IH]; [done|]. cbn [paid offered].
  rewrite IH by (intros q Hq; apply Hf; set_solver).
  destruct (Hf p ltac:(set_solver)) as (b & Hb & Hle).
  rewrite (st_stream _ _ _ _ _ _ _ Hp) in Hb. by rewrite (st_funded _ _ _ _ _ _ _ Hp b Hb Hle).
Qed.
