(* ===== verification/ChainHalt.v ===== *)
(** * The chain: a governor halts a real factory

    What [pause_factory] and [unpause_factory] of a governor do to the factory
    it controls, when that factory is the factory of this repository. *)

From stdpp Require Import base numbers list option strings gmap.
From Stdlib Require Import ZArith Lia String.
From S2P Require Import Prelude Host Ttl Pause Rbac Frame Safe.
From S2P Require Import GovernorData GovernorStore GovernorOps GovernorSystem GovernorProposals.
From S2P Require Import FactoryData FactoryIndex FactoryOps FactorySystem FactoryRegistry FactoryReach FactoryProps.
From S2P Require Import Protocol Chain ChainSound.

#[local] Open Scope Z_scope.
#[local] Open Scope sf_scope.
#[local] Existing Instance fac_keys.

(** ** The factory's switch *)

Definition HALT_WINDOW : Z := DEFAULT_MAX_PAUSE_DURATION.

(** [pause] and [unpause], signed by the governor, set the pause cell. *)
Definition switch (on : bool) : M FacKey.data_key Net FacEvent.fac_event FacError.fac_error unit :=
  if on then FactoryOps.pause else FactoryOps.unpause.

Lemma ignore_ok {K} `{StorageKeys K} {T X E1 E2 A} (m : M K T X E1 A) env w u w' :
  ignore_result (E2 := E2) m env w = ROk u w' ->
  (exists a, m env w = ROk a w') \/ (exists e, m env w = RErr e w').
Proof. unfold ignore_result. destruct (m env w); intros [= <- <-]; eauto. Qed.

(** Without a cooldown the flag is always set. *)
Lemma set_flag_ok b env (w : FacWorld) u w' :
  set_paused b env w = ROk u w' -> 
  holds FacKey.Paused w' (Some (PauseRecord
    (mkPauseState b (if b then timestamp env else 0)
       (if b then Some HALT_WINDOW else None)
       (if negb b && is_some (w_store w FacKey.Paused) then Some (timestamp env) else None) None))).
Proof.
  intros H. unfold set_paused in H. apply ignore_ok in H as [[a H]|[e H]].
  - exact (set_paused_with_cooldown_ok FacKey.Paused b None None env w a w' H).
  - exfalso. unfold Pause.set_paused, set_paused_with_duration, set_paused_with_cooldown in H.
    unfold bind, ledger_timestamp, sget_as, convert_val in H.
    destruct (w_store w FacKey.Paused) as [[x|s]|]; cbn in H; try discriminate H.
    + destruct s as [p pa md up cd], b, p, up; cbn in H; discriminate H.
    + destruct b; discriminate H.
Qed.

Lemma fac_holds_eq (w : FacWorld) cell : holds FacKey.Paused w (Some cell) -> w_store w FacKey.Paused = Some cell.
Proof. unfold holds. intros ->. by destruct cell. Qed.

(** What the switch does to the factory. *)
Lemma switch_ok on env (w : FacWorld) w' :
  switch on env w = ROk tt w' ->
  exists g, w_store w FacKey.GovernorAddress = Some g /\ w_store w' FacKey.GovernorAddress = Some g /\
    authorized env g = true /\ halted (T := Net) env w = negb on /\
    (forall env', timestamp env <= timestamp env' ->
       halted env' w' = on && (timestamp env' <? sat_u64 (timestamp env + HALT_WINDOW))) /\
    created w' = created w /\ w_tokens w' = w_tokens w.
Proof.
  intros H.
  assert (Htk : same_tokens (T := Net) w w').
  { assert (Hk : Keeps (same_tokens (T := Net)) (switch on)) by (destruct on; unfold switch; solve_fac).
    exact (keeps_ok same_tokens _ _ _ _ _ H). }
  assert (Hq : quiet w w').
  { assert (Hk : Keeps (quiet (T := Net)) (switch on)).
    { destruct on; unfold switch, FactoryOps.pause, FactoryOps.unpause; solve_keeps. }
    exact (keeps_ok quiet _ _ _ _ _ H). }
  assert (Hfr : frame (fun k => k <> FacKey.GovernorAddress) w w').
  { assert (Hk : Keeps (frame (T := Net) (fun k => k <> FacKey.GovernorAddress)) (switch on)).
    { destruct on; unfold switch, FactoryOps.pause, FactoryOps.unpause; solve_keeps. }
    exact (keeps_ok _ _ _ _ _ _ H). }
  assert (Hbody : exists g (w1 w2 : FacWorld), w_store w FacKey.GovernorAddress = Some g /\ authorized env g = true /\
    halted (T := Net) env w = negb on /\ set_paused on env w1 = ROk tt w2 /\
    w_store w' FacKey.Paused = w_store w2 FacKey.Paused).
  { destruct on; unfold switch, FactoryOps.pause, FactoryOps.unpause in H;
      apply bind_ok in H as (g & w1 & Hg & H); apply governor_ok in Hg as [-> Hg];
      apply bind_ok in H as (u & w1 & Ha & H); apply require_auth_ok in Ha as [Ha ->];
      apply bind_ok in H as (p & w1 & Hp & H);
      apply (is_paused_ok FacKey.Paused _ _ _ _ _ (fac_holds w)) in Hp as [Hp _];
      apply bind_ok in H as (u1 & w2 & Hn & H); apply throw_if_ok in Hn as [Hn ->];
      apply bind_ok in H as (u2 & w2 & _ & H); apply bind_ok in H as (r & w3 & _ & H);
      apply bind_ok in H as ([] & w4 & Hs & H);
      apply bind_ok in H as (t & w5 & Ht & H); injection Ht as _ <-; injection H as <-;
      exists g, w3, w4; split_and!; try done; unfold halted; rewrite <- Hp;
      [done|by apply negb_false_iff in Hn]. }
  destruct Hbody as (g & w1 & w2 & Hg & Ha & Hh & Hs & Hcell). exists g.
  assert (Hg' : w_store w' FacKey.GovernorAddress = Some g).
  { rewrite (Hfr FacKey.GovernorAddress); [exact Hg|]. intros Hx. by apply Hx. }
  split_and!; try done; [|exact (q_created _ _ Hq)].
  intros env' Hle. unfold halted. rewrite Hcell.
  rewrite (fac_holds_eq _ _ (set_flag_ok _ _ _ _ _ Hs)). by destruct on.
Qed.

(** ** The governor's order *)

Section Order.
Context {T : Type} `{TC : TokenClient T} `{FC : FactoryClient T}.
Abbreviation GWorld := (World GovKey.data_key T GovEvent.gov_event).
Implicit Types (w : GWorld).

(** [caller] holds the role or administers. *)
Definition may_act (caller : Address) (r : RoleName.role_name) env w : Prop :=
  Rbac.has_role (E := RbacError) (GovKey.Role RoleName.Admin caller) env w = ROk true w \/
  Rbac.has_role (E := RbacError) (GovKey.Role r caller) env w = ROk true w.

Lemma role_or_admin_ok caller r env w u w' :
  Role.require_role_or_admin caller r env w = ROk u w' ->
  authorized env caller = true /\ may_act caller r env w /\
  w' = add_ttl None MIN_TTL_LEDGERS EXTEND_TTL_LEDGERS w.
Proof.
  unfold Role.require_role_or_admin, map_err. intros H.
  destruct (Rbac.require_role_or_admin _ _ _ _ env w) as [u1 w1|e1 w1|tr] eqn:Hr; [|done..].
  injection H as -> ->. unfold Rbac.require_role_or_admin in Hr.
  apply bind_ok in Hr as (u1 & w1 & Ha & Hr). apply require_auth_ok in Ha as [Ha ->].
  apply bind_ok in Hr as (b & w1 & Hb & Hr). apply has_role_pure in Hb as Heq. subst w1.
  apply bind_ok in Hr as (b' & w1 & Hb' & Hr).
  assert (b' = true /\ w1 = w /\ may_act caller r env w) as (-> & -> & Hm).
  { destruct b.
    - injection Hb' as <- <-. split_and!; [done|done|by left].
    - apply has_role_pure in Hb' as Heq. subst w1. destruct b'; [|done]. split_and!; [done|done|by right]. }
  injection Hr as _ <-. done.
Qed.

Definition order (on : bool) caller : M GovKey.data_key T GovEvent.gov_event GovError.gov_error unit :=
  if on then Governor.pause_factory caller else Governor.unpause_factory caller.

Lemma order_ok on caller env w w' :
  order on caller env w = ROk tt w' ->
  authorized env caller = true /\ may_act caller RoleName.Pauser env w /\
  exists f, w_store w GovKey.FactoryAddress = Some f /\
    factory_call (w_tokens w) f (current_contract env) (if on then "pause" else "unpause")%string =
      Some (w_tokens w').
Proof.
  intros H. destruct on; unfold order, Governor.pause_factory, Governor.unpause_factory in H;
    apply bind_ok in H as (u & w1 & Hr & H); apply role_or_admin_ok in Hr as (Ha & Hm & ->);
    apply bind_ok in H as (o & w1 & Ho & H); injection Ho as <- <-;
    apply bind_ok in H as (f & w1 & Hf & H); apply ok_or_ok in Hf as [Hf ->];
    apply bind_ok in H as (b & w1 & Hb & H); unfold Governor.try_factory in Hb;
    destruct (factory_call _ _ _ _) as [t'|] eqn:Hc; injection Hb as <- <-; try done;
    apply bind_ok in H as (t & w1 & Ht & H); injection Ht as _ <-; injection H as <-;
    (split; [done|]; split; [done|]; exists f; split; [exact Hf|exact Hc]).
Qed.

End Order.

(** What the factory client of the chain runs. *)
Lemma call_switch (on : bool) (c : Chain) (f g : Address) (c' : Chain) :
  factory_call c f g (if on then "pause" else "unpause")%string = Some c' ->
  exists fw fw', ch_factories c !! f = Some fw /\
    switch on (mkEnv (ch_time c) (ch_sequence c) f (fun a => addr_eqb a g))
      (set_tokens (ch_net c) fw) = ROk tt fw' /\
    c' = mkChain (ch_time c) (ch_sequence c) (w_tokens fw') (<[f := fw']> (ch_factories c)) (ch_vaults c).
Proof.
  intros H. cbn [factory_call chain_factories] in H. unfold call_factory in H.
  destruct (ch_factories c !! f) as [fw|]; [|by destruct on]. exists fw.
  destruct on; cbn [String.eqb Ascii.eqb Bool.eqb] in H.
  - destruct (FactoryOps.pause _ _) as [[] fw'| |] eqn:Hm; [|done..]. injection H as <-.
    exists fw'. split_and!; [done|exact Hm|done].
  - destruct (FactoryOps.unpause _ _) as [[] fw'| |] eqn:Hm; [|done..]. injection H as <-.
    exists fw'. split_and!; [done|exact Hm|done].
Qed.

(** ** The whole way *)

(** C14 A factory halts when its governor says so. In a chain reached by any
    calls, an order to halt ([on]) or to resume that goes through was signed by
    an administrator or a pauser of the governor and reached the factory the
    governor is configured with, which obeys this governor. From then on the
    factory is halted exactly until fourteen days have passed, respectively not
    at all; while halted it refuses every creation, single or batched, and
    every upgrade, and what it still does registers no stream. Streams, tokens
    and vaults are untouched by the order. *)
Theorem governor_halts_the_factory now seq c env g on caller c' :
  chain_reach now seq c -> now <= timestamp env -> seq <= sequence env -> U64 (timestamp env) ->
  current_contract env = g ->
  call_governor (order on caller) env g (at_ledger env c) = Some (tt, c') ->
  authorized env caller = true /\
  exists gw f fw, net_governors (ch_net c) !! g = Some gw /\
    may_act caller RoleName.Pauser env (rebase (at_ledger env c) gw) /\
    w_store gw GovKey.FactoryAddress = Some f /\ ch_factories c' !! f = Some fw /\
    w_store fw FacKey.GovernorAddress = Some g /\
    (forall env', timestamp env <= timestamp env' ->
       halted env' fw = on && (timestamp env' <? sat_u64 (timestamp env + HALT_WINDOW))) /\
    (forall k env' u fw', timestamp env <= timestamp env' ->
       on = true -> timestamp env' < sat_u64 (timestamp env + HALT_WINDOW) ->
       fac_exec k env' (set_tokens (ch_net c') fw) = ROk u fw' ->
       allowed_while_paused k = true /\
       match k with FInitialize _ _ => True | _ => created fw' = created fw end) /\
    net_streams (ch_net c') = net_streams (ch_net c) /\
    net_ledger (ch_net c') = net_ledger (ch_net c) /\ ch_vaults c' = ch_vaults c.
Proof.
  intros Hr Hn Hs Hu Hg H. unfold call_governor in H. cbn [ch_net at_ledger] in H.
  destruct (net_governors (ch_net c) !! g) as [gw|] eqn:Hgw; [|done].
  destruct (order on caller env _) as [x gw'| |] eqn:Hm; [|done..]. injection H as -> <-.
  apply order_ok in Hm as (Ha & Hmay & f & Hf & Hc). rewrite Hg in Hc.
  split; [done|]. set (c1 := w_tokens gw') in *. change (w_tokens (rebase (at_ledger env c) gw)) with (at_ledger env c) in Hc.
  pose proof (call_switch on _ f g c1 Hc) as Hsw.
  destruct Hsw as (fw & fw' & Hfw & Hsw & Hc1).
  apply switch_ok in Hsw as (g' & Hg1 & Hg2 & Hau & _ & Hhalt & Hcr & Htk).
  cbn [authorized] in Hau. apply addr_eqb_true in Hau as ->.
  exists gw, f, fw'. cbn [ch_net ch_factories with_net net_streams net_ledger ch_vaults].
  rewrite Hc1. cbn [ch_net ch_factories ch_vaults]. rewrite Htk.
  split_and!; try done; [apply lookup_insert_eq|].
  intros k env' u fw2 Hle Hon Hlt Hk. 
  assert (Hh : halted env' fw' = true) by (rewrite Hhalt, Hon by done; cbn; lia).
  pose proof (paused_factory_creates_nothing k env' (set_tokens _ fw') u fw2 Hh Hk) as Hp. exact Hp.
Qed.
