(* ===== verification/ChainRegistry.v ===== *)
(** * The chain: what a factory's registry lists

    Every stream a factory of the chain ever announced is live at the address
    it was announced at, with the announced sender. *)

From stdpp Require Import base numbers list option strings gmap.
From Stdlib Require Import ZArith Lia String.
From S2P Require Import Prelude Host Ttl Pause Frame Safe GovernorStore.
From S2P Require Import VaultData VaultOps VaultSystem GovernorOps GovernorSystem.
From S2P Require Import FactoryData FactoryIndex FactoryIndexFacts FactoryOps FactorySystem.
From S2P Require Import FactoryRegistry FactoryReach FactoryProps FactoryOutside.
From S2P Require Import StreamData StreamState StreamOps StreamFacts StreamSystem.
From S2P Require Import Protocol Chain ChainSound.

#[local] Open Scope Z_scope.
#[local] Open Scope sf_scope.
#[local] Existing Instance fac_keys.

Abbreviation FM := (M FacKey.data_key Net FacEvent.fac_event FacError.fac_error).

(** Every creation in the log is a live stream of its creator. *)
Definition listed_on (n : Net) (w : FacWorld) : Prop :=
  forall cr, cr ∈ created w -> exists tk, party n (cr_stream cr) (cr_creator cr) tk.
Definition listed (w : FacWorld) : Prop := listed_on (w_tokens w) w.

Section Registry.
Context (G : Address -> Prop) (env : Env).
Abbreviation now := (timestamp env).
Context (Hu : U64 now) (Hsil : forall g, G g -> call_auth env g = false).

(** The state of a factory's call: governors [G] are there, all streams are in
    order, and the log is covered. *)
Record Covered (w : FacWorld) : Prop := {
  cv_governors g : G g -> is_Some (net_governors (w_tokens w) !! g);
  cv_streams : streams_ok now (w_tokens w);
  cv_apart : apart (w_tokens w);
  cv_listed : listed w
}.

(** Computations that announce no stream. *)
Definition evolving {A} (m : FM A) : Prop :=
  forall n, (forall g, G g -> is_Some (net_governors n !! g)) -> Safe env (Evolves G now n) m.

#[local] Instance transfers_evolve n : TransferClosed env (Evolves G now n).
Proof. by apply evolves_transfer. Qed.

Lemma covered_evolves w w' :
  Covered w -> Evolves G now (w_tokens w) (w_tokens w') -> created w' = created w -> Covered w'.
Proof.
  intros [H1 H2 H3 H4] [E1 E2 E3 E4 E5] Hc. constructor; [by rewrite E1|done|done|].
  intros cr. rewrite Hc. intros Hin. destruct (H4 cr Hin) as [tk Hp]. exists tk. by apply E5.
Qed.

Lemma covered_quiet {A} (m : FM A) `{!Keeps same_log m} w r w' :
  evolving m -> m env w = ROk r w' -> Covered w -> Covered w'.
Proof.
  intros Hev H HC. eapply covered_evolves; [exact HC| |exact (keeps_ok same_log _ _ _ _ _ H)].
  refine (safe_ok env _ _ (Safe0 := Hev _ (cv_governors _ HC)) _ _ _ H _).
  apply evolves_refl; apply HC.
Qed.

(** The deployment of a stream. *)
Lemma new_party_at e a n args n' :
  wide_args args -> U64 (timestamp e) -> current_contract e = a ->
  stream_initialize e (mkNet (net_ledger n) (net_governors n)
    (<[a := blank_stream (net_ledger n)]> (net_streams n))) args = Some n' ->
  party n' a (ia_sender args) (ia_token args).
Proof.
  intros (Hr & Hs & He) Ht Ha H. cbn [stream_initialize net_network] in H.
  apply fmap_Some in H as ([[] n1] & H & ->). rewrite Ha in H.
  apply call_stream_ok in H as (sw & sw' & Hsw & Hm & ->).
  cbn [net_streams] in Hsw. rewrite lookup_insert_eq in Hsw. injection Hsw as <-.
  pose proof (initialize_ok (T := Ledger) _ _ _ _ _ _ _ _ _ _ e
    (set_tokens (net_ledger n) (blank_stream (net_ledger n))) _ _
    ltac:(done) Hr Hs He Hm) as (Hc & _).
  exists sw', (init_info (ia_sender args) (ia_recipient args) (ia_token args) (ia_rate_per_sec args)
    (ia_start_time args) (ia_end_time args) (ia_clawback args) (ia_is_regulated_asset args)).
  split; [apply lookup_insert_eq|done].
Qed.

Lemma covered_deploy h i args w a w' :
  wide_args args -> deploy_stream h i args env w = ROk a w' -> Covered w ->
  Covered w' /\ party (w_tokens w') a (ia_sender args) (ia_token args).
Proof.
  intros Hw H HC. assert (Hlog : same_log w w').
  { exact (keeps_ok same_log _ _ _ _ _ H). }
  assert (Hev : Evolves G now (w_tokens w) (w_tokens w')).
  { pose proof (deploy_safe env (Evolves G now (w_tokens w))
      (fun n h salt a n1 args n2 => evolves_deploy G now (w_tokens w) env n h salt a n1 args n2 eq_refl Hu)
      h i args Hw) as Hsafe.
    refine (safe_ok env _ _ (Safe0 := Hsafe) _ _ _ H _). apply evolves_refl; apply HC. }
  split; [by eapply covered_evolves|].
  unfold deploy_stream in H. apply bind_ok in H as (b & w1 & Hb & H). injection Hb as _ <-.
  apply bind_ok in H as (u & w1 & Hb & H). apply throw_if_ok in Hb as [_ ->].
  apply bind_ok in H as (a0 & w1 & Hb & H).
  destruct (deploy_contract _ _ _ _) as [[a1 n1]|] eqn:Hd; [|done]. injection Hb as <- <-.
  apply bind_ok in H as (u1 & w2 & Hb & H). injection Hb as _ <-.
  apply bind_ok in H as (u2 & w2 & Hb & H). injection H as <- <-.
  change (w_tokens (put_persist _ _ _)) with n1 in Hb.
  destruct (stream_initialize _ _ _) as [n2|] eqn:Hi; [|done]. injection Hb as <-.
  cbn [deploy_contract net_network] in Hd. destruct (net_streams (w_tokens w) !! _); [done|].
  destruct (net_governors (w_tokens w) !! _); [done|]. injection Hd as <- <-.
  rewrite <- H. exact (new_party_at (callee_env env _) _ _ _ _ Hw Hu eq_refl Hi).
Qed.

Lemma covered_create cfg at_time s r t d rate a b cl desc w sid w' :
  wide_request rate a b ->
  create_stream_with_config cfg at_time s r t d rate a b cl desc env w = ROk sid w' ->
  Covered w -> Covered w'.
Proof.
  intros Hw H HC. unfold create_stream_with_config in H.
  do 8 (let Hm := fresh in apply bind_ok in H as (? & ? & Hm & H); cbv beta zeta in H;
    apply covered_quiet in Hm;
      [|apply _|intros n Hn; unfold collect_funding, unlock_and_fail; solve_safe|exact HC];
    clear HC; rename Hm into HC).
  apply bind_ok in H as (o & w1 & Ho & H). injection Ho as <- <-.
  match type of H with context [match ?o with Some _ => _ | None => _ end] =>
    destruct o as [h|]; [|by inv_ok] end.
  apply bind_ok in H as (st & w1 & Hd & H).
  destruct (deploy_stream _ _ _ _ _) as [a1 w2|e1 w2|tr] eqn:Hdep in Hd; [|done..].
  injection Hd as -> ->. apply covered_deploy in Hdep as [HC1 Hp]; [|done|exact HC].
  cbn [ia_sender ia_token] in Hp.
  apply bind_ok in H as (u & w2 & Hf & H).
  assert (Hev : Evolves G now (w_tokens w1) (w_tokens w2)).
  { assert (Hs : Safe env (Evolves G now (w_tokens w1)) (fund_stream t st d : FM unit))
      by (unfold fund_stream, unlock_and_fail; solve_safe).
    refine (safe_ok env _ _ (Safe0 := Hs) _ _ _ Hf _). apply evolves_refl; apply HC1. }
  assert (Hlog : same_log w1 w2) by exact (keeps_ok same_log _ _ _ _ _ Hf).
  pose proof (covered_evolves _ _ HC1 Hev Hlog) as HC2.
  apply (ev_party _ _ _ _ Hev) in Hp.
  apply bind_ok in H as (u1 & w3 & Hev2 & H). injection Hev2 as _ <-.
  set (w3 := add_event _ w2) in *.
  assert (HC3 : Covered w3).
  { destruct HC2 as [A1 A2 A3 A4]. constructor; try done. intros cr. unfold w3, created.
    cbn [w_events add_event w_tokens]. rewrite omap_app, elem_of_app. intros [Hin|Hin].
    - by apply A4.
    - cbn in Hin. apply list_elem_of_singleton in Hin as ->. by exists t. }
  do 4 (let Hm := fresh in apply bind_ok in H as (? & ? & Hm & H);
    apply covered_quiet in Hm; [|apply _|intros n Hn; solve_safe|exact HC3];
    clear HC3; rename Hm into HC3).
  by injection H as _ <-.
Qed.


Lemma covered_each cfg l w r w' :
  Forall (fun p => wide_request (sp_rate_per_sec p) (sp_start_time p) (sp_end_time p)) l ->
  create_each cfg l env w = ROk r w' -> Covered w -> Covered w'.
Proof.
  intros Hl. revert w r. induction Hl as [|p l Hp Hl IH]; intros w r H HC; cbn [create_each] in H.
  - by injection H as _ <-.
  - do 2 (let Hm := fresh in apply bind_ok in H as (? & ? & Hm & H);
      apply covered_quiet in Hm; [|apply _|intros n Hn; solve_safe|exact HC]; clear HC; rename Hm into HC).
    apply bind_ok in H as (sid & w1 & Hc & H). apply covered_create in Hc; [|done|done].
    apply bind_ok in H as (ad & w2 & Ha & H). injection Ha as <- <-.
    destruct (w_persist w1 _) as [a|]; [|done].
    apply bind_ok in H as (rest & w2 & Hr & H). injection H as _ <-. by eapply IH.
Qed.

Lemma covered_requests cfg s cl l w r w' :
  Forall (fun q => wide_request (br_rate_per_sec q) (br_start_time q) (br_end_time q)) l ->
  create_requests cfg s cl l env w = ROk r w' -> Covered w -> Covered w'.
Proof.
  intros Hl. revert w r. induction Hl as [|p l Hp Hl IH]; intros w r H HC; cbn [create_requests] in H.
  - by injection H as _ <-.
  - apply bind_ok in H as (? & w1 & Hm & H).
    apply covered_quiet in Hm; [|apply _|intros n Hn; solve_safe|exact HC].
    apply bind_ok in H as (sid & w2 & Hc & H). apply covered_create in Hc; [|done|done].
    apply bind_ok in H as (rest & w3 & Hr & H). injection H as _ <-. by eapply IH.
Qed.

Lemma quiet_prefix {A B} (m : FM A) (f : A -> FM B) w r w' :
  Keeps same_log m -> evolving m -> bind m f env w = ROk r w' -> Covered w ->
  exists a w1, f a env w1 = ROk r w' /\ Covered w1.
Proof.
  intros Hk He H HC. apply bind_ok in H as (a & w1 & Hm & H). exists a, w1. split; [exact H|].
  exact (covered_quiet m w a w1 He Hm HC).
Qed.

(** The calls that announce streams. *)
Definition announces (k : fac_call) : bool :=
  match k with
  | FCreateStream _ _ _ _ _ _ _ _ _ | FBatchCreateStreams _ | FCreateBatchStreams _ _ _ => true
  | _ => false
  end.

Lemma exec_evolving k : fac_wide k -> evolving (fac_exec k).
Proof.
  intros Hw n Hn.
  exact (factory_exec_safe env (Evolves G now n)
    (fun m h salt a n1 args n2 => evolves_deploy G now n env m h salt a n1 args n2 eq_refl Hu)
    (fun m s sender n' => evolves_cancel G now n Hn env m s sender n' eq_refl Hu Hsil) k Hw).
Qed.

Lemma covered_exec k w w' :
  fac_wide k -> fac_exec k env w = ROk tt w' -> Covered w -> Covered w'.
Proof.
  intros Hw H HC. destruct (announces k) eqn:Hk.
  - destruct k; try discriminate Hk; clear Hk; cbn [fac_exec fac_wide] in *;
      apply drop_ok in H as [x H];
      unfold create_stream, batch_create_streams, create_batch_streams in H.
    + do 6 (apply quiet_prefix in H as (? & ? & H & HC'); [|apply _|intros n Hn; solve_safe|exact HC];
        clear HC; rename HC' into HC). by eapply covered_create.
    + do 5 (apply quiet_prefix in H as (? & ? & H & HC'); [|apply _|intros n Hn; solve_safe|exact HC];
        clear HC; rename HC' into HC). by eapply covered_each.
    + do 6 (apply quiet_prefix in H as (? & ? & H & HC'); [|apply _|intros n Hn; solve_safe|exact HC];
        clear HC; rename HC' into HC). by eapply covered_requests.
  - assert (Hl : Keeps same_log (fac_exec k)).
    { destruct k; try discriminate Hk; try (by apply keeps_minor; try apply _); solve_fac. }
    exact (covered_quiet _ _ _ _ (exec_evolving k Hw) H HC).
Qed.

End Registry.

(** ** The registries of the chain *)

Definition registered (c : Chain) : Prop :=
  forall f fw, ch_factories c !! f = Some fw -> listed_on (ch_net c) fw.

Lemma listed_same (c c' : Chain) own (fw fw0 : FacWorld) :
  Grows own c c' -> created fw = created fw0 -> listed_on (ch_net c) fw0 -> listed_on (ch_net c') fw.
Proof.
  intros HG Hc Hl cr. rewrite Hc. intros Hin. destruct (Hl cr Hin) as [tk Hp].
  exists tk. exact (gw_party _ _ _ HG _ _ _ Hp).
Qed.

(** A factory's own call. *)
Lemma listed_call env c k fw fw' :
  Sound (timestamp env) (sequence env) c -> U64 (timestamp env) ->
  authorized env (current_contract env) = false -> unsigned env c -> fac_wide k ->
  ch_factories c !! current_contract env = Some fw -> listed_on (ch_net c) fw ->
  fac_exec k env (set_tokens (ch_net c) fw) = ROk tt fw' -> listed fw'.
Proof.
  intros HS Hu Hself Hun Hw Hfw Hl Hm.
  set (G := other_governor (fun _ => False) c).
  assert (Hsil : forall g, G g -> call_auth env g = false).
  { intros g [Hg _]. apply (governor_silent env c); [done|done|]. intros ->.
    destruct (so_alone _ _ _ _ HS _ Hg) as [Hx _]. by rewrite Hfw in Hx. }
  refine (cv_listed _ _ _ (covered_exec G env Hu Hsil k _ fw' Hw Hm _)).
  constructor; [by intros g [Hg _]|apply HS|apply HS|exact Hl].
Qed.

#[export] Instance own_factory_dec call f : Decision (own_factory call f).
Proof. destruct call; unfold own_factory; apply _. Defined.

Lemma registered_call env c call c' :
  Sound (timestamp env) (sequence env) c -> ch_time c = timestamp env -> U64 (timestamp env) ->
  authorized env (current_contract env) = false -> unsigned env c ->
  callee call = current_contract env -> chain_typed call ->
  chain_exec call env c = Some c' -> registered c -> registered c'.
Proof.
  intros HS Ht Hu Hself Hun Hc Hty H HR f fw' Hf'.
  destruct (call_sound env c HS Ht Hu Hself Hun call c' Hc Hty H) as [_ HG].
  destruct (decide (own_factory call f)) as [Hown|Hown].
  - destruct call; cbn [own_factory] in Hown; try done; cbn [callee] in Hc; subst f;
      cbn [chain_exec chain_typed] in *.
    + unfold call_factory in H. destruct (ch_factories c !! a) as [fw|] eqn:Hfw; [|done].
      destruct (fac_exec _ env _) as [u fw2| |] eqn:Hm; [|done..]. injection H as <-.
      cbn [ch_factories ch_net] in *. rewrite lookup_insert_eq in Hf'. injection Hf' as <-.
      destruct u. subst a. eapply listed_call; [exact HS|done..|by apply Hty|exact Hfw| |exact Hm].
      exact (HR _ _ Hfw).
    + destruct (vacant a c); [|done]. cbn [negb] in H. unfold call_factory in H.
      cbn [ch_factories ch_net] in H. rewrite lookup_insert_eq in H.
      destruct (FactoryOps.initialize _ _ env _) as [u fw2| |] eqn:Hm; [|done..]. injection H as <-.
      cbn [ch_factories ch_net] in *. rewrite lookup_insert_eq in Hf'. injection Hf' as <-.
      assert (Hlog : Keeps (same_log (T := Net)) (fac_exec (FInitialize wasm_hash governor))) by solve_fac.
      pose proof (keeps_ok same_log _ _ _ _ _ Hm) as Hsame. intros cr. rewrite Hsame.
      by intros Hin%elem_of_nil.
  - destruct (gw_logs _ _ _ HG f fw' Hown Hf') as (fw & Hfw & Hsame).
    exact (listed_same _ _ _ _ _ HG Hsame (HR f fw Hfw)).
Qed.

Lemma reach_registered t s c : chain_reach t s c -> registered c.
Proof.
  induction 1 as [t s l|t s c call env c' Hr IH Ht Hs Hu Hc Hself Hun Hty H|t s c l Hr IH Hl].
  - intros f fw. cbn. by rewrite lookup_empty.
  - rewrite <- Hc in Hself. apply reach_is_sound in Hr.
    eapply (registered_call env (at_ledger env c) call); try done. by eapply sound_at.
  - exact IH.
Qed.

(** The announcement [cr] is true of the chain: a stream of its creator, in a
    reachable state, lives at its address. *)
Definition holds_on (now : Z) (c : Chain) (cr : Creation) : Prop :=
  exists sw i t, net_streams (ch_net c) !! cr_stream cr = Some sw /\
    w_store sw DataKey.Config = Some i /\ sender i = cr_creator cr /\
    t <= now /\ StreamSystem.reachable (fun _ => True) t sw.

Lemma announced_holds now seq c f fw cr :
  chain_reach now seq c -> ch_factories c !! f = Some fw -> cr ∈ created fw -> holds_on now c cr.
Proof.
  intros Hr Hf Hin. destruct (reach_registered _ _ _ Hr f fw Hf cr Hin) as (tk & sw & i & Hs & Hi & Hse & _).
  destruct (so_streams _ _ _ _ (reach_is_sound _ _ _ Hr) _ _ Hs) as (t & Hle & Hre).
  by exists sw, i, t.
Qed.

(** What the factory answers is what it stores. *)
Lemma address_answer i env (w : FacWorld) :
  exists w', stream_address i env w = ROk (w_persist w (FacKey.StreamAddr i)) w'.
Proof.
  unfold stream_address, bump_persistent, extend_ttl_persistent, bind, pget.
  destruct (w_persist w (FacKey.StreamAddr i)) eqn:E; cbn [is_some];
    rewrite ?E; eexists; reflexivity.
Qed.

Lemma known_answer a env (w : FacWorld) :
  exists w', is_known_stream a env w = ROk (known w a) w'.
Proof.
  unfold is_known_stream, known, bump_persistent, extend_ttl_persistent, bind, pget.
  destruct (w_persist w (FacKey.IsKnownStream a)) as [[]|] eqn:E; cbn;
    rewrite ?E; cbn; eexists; reflexivity.
Qed.

(** C5 A factory's registry tells the truth about the chain. Whatever calls are
    made of any contract, and as long as the 32-bit indices have room: the
    factory resolves exactly the stream ids it issued, each to the address it
    announced, and calls exactly the announced addresses its streams. A live
    stream is at each of them, in a state the stream theorems are about, and
    its sender is the one the factory announced. *)
Theorem registry_lists_live_streams now seq c f fw env :
  chain_reach now seq c -> ch_factories c !! f = Some fw ->
  llen (created fw) + 201 <= u32_max ->
  let w := set_tokens (ch_net c) fw in
  (forall i, 0 <= i -> exists w',
     stream_address i env w = ROk (cr_stream <$> created fw !! Z.to_nat i) w') /\
  (forall a, exists w',
     is_known_stream a env w = ROk (bool_decide (a ∈ cr_stream <$> created fw)) w') /\
  (forall cr, cr ∈ created fw -> holds_on now c cr).
Proof.
  intros Hr Hf Hsm w.
  pose proof (so_factories _ _ _ _ (reach_is_sound _ _ _ Hr) f fw Hf) as Hfr.
  destruct (reach_sound f false fw Hfr Hsm) as [HR _]. split; [|split].
  - intros i Hi. rewrite <- (rg_addr _ _ _ HR i Hi).
    exact (address_answer i env w).
  - intros a. rewrite <- (rg_known _ _ _ HR a). exact (known_answer a env w).
  - intros cr Hin. by eapply announced_holds.
Qed.
