(* ===== verification/ChainFunds.v ===== *)
(** * The chain: who pays

    A call leaves alone the tokens of a contract that neither signed nor was
    called; so the stakes of a governor and the funds of a vault are safe from
    everybody else's calls. *)

From stdpp Require Import base numbers list option strings gmap.
From Stdlib Require Import ZArith Lia String.
From S2P Require Import Prelude Host Ttl Pause Frame Safe.
From S2P Require Import GovernorData GovernorStore GovernorOps GovernorSystem GovernorProposals.
From S2P Require Import VaultData VaultOps VaultSystem VaultFunds.
From S2P Require Import FactoryData FactoryIndex FactoryOps FactorySystem FactoryOutside FactoryProps.
From S2P Require Import StreamData StreamState StreamOps StreamSystem StreamOutside.
From S2P Require Import Protocol Chain ChainSound ChainPay ChainRegistry.

#[local] Open Scope Z_scope.
#[local] Open Scope sf_scope.
#[local] Existing Instance fac_keys.

Abbreviation FM := (M FacKey.data_key Net FacEvent.fac_event FacError.fac_error).

(** A factory ordered by name moves no tokens, whatever the order. *)
Lemma factory_call_net (c : Chain) f g name c' :
  factory_call c f g name = Some c' -> ch_net c' = ch_net c.
Proof.
  assert (Hstep : forall k e, Keeps (same_tokens (T := Net)) (k : FM unit) ->
    snd <$> call_factory k e f c = Some c' -> ch_net c' = ch_net c).
  { intros k e Hk H. unfold call_factory in H. destruct (ch_factories c !! f) as [fw|]; [|done].
    destruct (k e _) as [u fw'| |] eqn:Hm; [|done..]. injection H as <-.
    exact (keeps_ok same_tokens _ _ _ _ _ Hm). }
  intros H. cbn [factory_call chain_factories] in H.
  destruct (String.eqb name "pause"); [|destruct (String.eqb name "unpause"); [|done]];
    exact (Hstep _ _ _ H).
Qed.

#[export] Instance chain_factory_laws : FactoryLaws Chain.
Proof.
  constructor. intros c f self name c' tk b' H%factory_call_net Hb.
  exists b'. split; [|lia]. cbn [tok_balance chain_tokens] in *. by rewrite <- H.
Qed.

(** ** An address that is not touched *)

(** The deployer of the factories never derives [x]. *)
Definition underived (x : Address) : Prop := forall f salt, x <> contract_id f salt.

(** No stream lives at [x] and, if [x] does not [act], it has lost nothing
    since [n0]. *)
Record Untouched (act : bool) (x : Address) (n0 n : Net) : Prop := {
  un_free : net_streams n !! x = None;
  un_spared : act = false -> no_loss x (net_ledger n0) (net_ledger n)
}.

Lemma untouched_refl act x n : net_streams n !! x = None -> Untouched act x n n.
Proof. by constructor. Qed.

Section Bystander.
Context (act : bool) (x : Address) (n0 : Net).
Abbreviation P := (Untouched act x n0).

Lemma untouched_transfer env : (act = false -> call_auth env x = false) -> TransferClosed env P.
Proof.
  intros Hs n tk from to amt n' Ht [H1 H2]. apply net_transfer in Ht as (l & Hl & ->).
  constructor; [done|]. intros Ha.
  exact (no_loss_closed env x (net_ledger n0) (Hs Ha) _ _ _ _ _ _ Hl (H2 Ha)).
Qed.

(** A call of a stream that [x] does not sign. *)
Lemma untouched_call c env a n u n' :
  (act = false -> authorized env x = false) -> current_contract env = a ->
  call_stream (StreamSystem.exec c) env a n = Some (u, n') -> P n -> P n'.
Proof.
  intros Hs Ha H [H1 H2]. apply call_stream_ok in H as (sw & sw' & Hsw & Hm & ->).
  assert (Hne : x <> a) by (intros ->; by rewrite Hsw in H1).
  constructor; cbn [net_streams net_ledger]; [by rewrite lookup_insert_ne|].
  intros Hact. transitivity (net_ledger n); [by apply H2|].
  assert (Hc : call_auth env x = false).
  { unfold call_auth. rewrite Hs, orb_false_r by done. apply addr_eqb_false. by rewrite Ha. }
  pose proof (stream_exec_safe env (no_loss x (net_ledger n))
    (HC := no_loss_closed env x (net_ledger n) Hc) c) as Hsafe.
  exact (safe_ok env _ _ (Safe0 := Hsafe) _ _ _ Hm ltac:(reflexivity)).
Qed.

(** An initialization, of a stream that is not at [x]. *)
Lemma untouched_initialize env n args n' :
  current_contract env <> x -> stream_initialize env n args = Some n' -> P n -> P n'.
Proof.
  intros Ha Hi [H1 H2]. cbn [stream_initialize net_network] in Hi.
  apply fmap_Some in Hi as ([[] n1] & Hi & ->).
  apply call_stream_ok in Hi as (sw & sw' & Hsw & Hm & ->). cbn [snd].
  constructor; cbn [net_streams net_ledger]; [by rewrite lookup_insert_ne|].
  assert (Htk : same_tokens (set_tokens (net_ledger n) sw) sw')
    by exact (keeps_ok (Keeps0 := keeps_initialize _ _ _ _ _ _ _ _ _ _) _ _ _ _ _ _ Hm).
  unfold same_tokens in Htk. rewrite Htk. exact H2.
Qed.

Lemma untouched_blank n a : a <> x -> P n ->
  P (mkNet (net_ledger n) (net_governors n) (<[a := blank_stream (net_ledger n)]> (net_streams n))).
Proof. intros Ha [H1 H2]. constructor; cbn [net_streams]; [by rewrite lookup_insert_ne|done]. Qed.

Lemma untouched_deploy env n h salt a n1 args n2 :
  underived x ->
  deploy_contract n (current_contract env) salt h = Some (a, n1) ->
  stream_initialize (callee_env env a) n1 args = Some n2 -> P n -> P n2.
Proof.
  intros Hx Hd Hi HP. cbn [deploy_contract net_network] in Hd.
  destruct (net_streams n !! _); [done|]. destruct (net_governors n !! _); [done|].
  injection Hd as <- <-. assert (Hne := Hx (current_contract env) salt).
  eapply untouched_initialize; [|exact Hi|]; [by cbn; congruence|by apply untouched_blank].
Qed.

Lemma untouched_cancel env n s sender n' :
  (act = false -> call_auth env x = false) -> stream_cancel (callee_env env s) n sender = Some n' -> P n -> P n'.
Proof.
  intros Hs Hc HP. cbn [stream_cancel net_network] in Hc.
  apply fmap_Some in Hc as ([u n1] & Hc & ->).
  exact (untouched_call (Cancel sender) (callee_env env s) _ n u n1 Hs eq_refl Hc HP).
Qed.

End Bystander.

(** ** The calls *)

Section Calls.
Context (x : Address) (c : Chain) (env : Env) (Hx : underived x).

(** [x] signed the call, or is the contract that runs. *)
Definition acts : bool := call_auth env x.
Abbreviation Q := (fun c' => Untouched acts x (ch_net c) (ch_net c')).

Lemma chain_untouched_transfer : TransferClosed env Q.
Proof.
  intros d tk from to amt d' Ht HQ. apply chain_transfer in Ht as (n & Hn & ->).
  exact (untouched_transfer acts x (ch_net c) env (fun H => H) _ _ _ _ _ _ Hn HQ).
Qed.

Lemma chain_untouched_withdraw d s amt d' :
  stream_withdraw d (call_auth env) (current_contract env) s amt = Some d' -> Q d -> Q d'.
Proof.
  intros H HQ. cbn [stream_withdraw chain_streams] in H.
  destruct (addr_eqb s _ || _); [done|]. apply fmap_Some in H as ([r n] & H & ->).
  apply withdraw_as_call in H.
  exact (untouched_call acts x (ch_net c) (StreamSystem.Withdraw amt)
    (mkEnv (ch_time d) (ch_sequence d) s (call_auth env)) s _ _ _ (fun H => H) eq_refl H HQ).
Qed.

Lemma chain_untouched_factory d f name d' :
  factory_call d f (current_contract env) name = Some d' -> Q d -> Q d'.
Proof. intros H%factory_call_net HQ. cbn beta in *. by rewrite H. Qed.

(** No call puts a stream at [x], or takes from [x] if it does not act. *)
Lemma call_untouched call c' :
  callee call = current_contract env -> (forall args, call <> NewStream x args) ->
  chain_typed call -> net_streams (ch_net c) !! x = None ->
  chain_exec call env c = Some c' -> Untouched acts x (ch_net c) (ch_net c').
Proof.
  intros Hc Hne Hty Hfree H.
  assert (Hsign : acts = false -> authorized env x = false)
    by by intros [_ Hs]%orb_false_iff.
  pose proof (untouched_refl acts x (ch_net c) Hfree) as H0.
  destruct call; cbn [callee] in *; subst a; cbn [chain_exec chain_typed] in *.
  - apply fmap_Some in H as ([u n] & H & ->).
    exact (untouched_call acts x _ c0 env _ _ _ _ Hsign eq_refl H H0).
  - unfold call_factory in H. destruct (ch_factories c !! _) as [fw|]; [|done].
    destruct (fac_exec c0 env _) as [u fw'| |] eqn:Hm; [|done..]. injection H as <-.
    pose proof (factory_exec_safe env (Untouched acts x (ch_net c))
      (HC := untouched_transfer acts x _ env (fun H => H))
      (fun n h salt a n1 args n2 Hd _ => untouched_deploy acts x _ env n h salt a n1 args n2 Hx Hd)
      (fun n s sender n' => untouched_cancel acts x _ env n s sender n' (fun H => H)) c0 (proj2 Hty)) as Hsafe.
    exact (safe_ok env _ _ (Safe0 := Hsafe) _ _ _ Hm H0).
  - unfold call_vault in H. destruct (ch_vaults c !! _) as [vw|]; [|done].
    destruct (vault_exec c0 env _) as [u vw'| |] eqn:Hm; [|done..]. injection H as <-.
    pose proof (vault_exec_safe env Q (HC := chain_untouched_transfer)
      chain_untouched_withdraw c0) as Hsafe.
    exact (safe_ok env _ _ (Safe0 := Hsafe) _ _ _ Hm H0).
  - unfold call_governor in H. destruct (net_governors (ch_net c) !! _) as [gw|]; [|done].
    destruct (GovernorSystem.exec c0 env _) as [u gw'| |] eqn:Hm; [|done..]. injection H as <-.
    pose proof (governor_exec_safe env Q (HC := chain_untouched_transfer)
      chain_untouched_factory c0) as Hsafe.
    destruct (safe_ok env _ _ (Safe0 := Hsafe) _ _ _ Hm H0) as [H1 H2]. by constructor.
  - destruct (vacant _ c); [|done]. cbn [negb] in H. apply fmap_Some in H as (n & H & ->).
    assert (Ha : current_contract env <> x) by (intros Ha; apply (Hne args); by rewrite Ha).
    eapply untouched_initialize; [exact Ha|exact H|]. by apply untouched_blank.
  - destruct (vacant _ c); [|done]. cbn [negb] in H. unfold call_factory in H.
    destruct (ch_factories _ !! _) as [fw|]; [|done].
    destruct (FactoryOps.initialize _ _ env _) as [u fw'| |] eqn:Hm; [|done..]. injection H as <-.
    assert (Hk : Keeps (same_tokens (T := Net)) (fac_exec (FInitialize wasm_hash governor))) by solve_fac.
    pose proof (keeps_ok same_tokens _ _ _ _ _ Hm) as Htk. unfold same_tokens in Htk.
    cbn [ch_net]. rewrite Htk. exact H0.
  - destruct (vacant _ c); [|done]. cbn [negb] in H. unfold call_vault in H.
    destruct (ch_vaults _ !! _) as [vw|]; [|done].
    destruct (VaultOps.initialize _ _ _ env _) as [u vw'| |] eqn:Hm; [|done..]. injection H as <-.
    assert (Hk : Keeps (same_tokens (T := Chain)) (VaultOps.initialize owner token max_limit))
      by (unfold VaultOps.initialize; solve_keeps).
    pose proof (keeps_ok same_tokens _ _ _ _ _ Hm) as Htk. unfold same_tokens in Htk.
    cbn [ch_net]. rewrite Htk. exact H0.
  - destruct (vacant _ c); [|done]. cbn [negb] in H. unfold call_governor in H.
    destruct (net_governors _ !! _) as [gw|]; [|done].
    destruct (Governor.initialize _ _ _ env _) as [u gw'| |] eqn:Hm; [|done..]. injection H as <-.
    assert (Hk : Keeps (same_tokens (T := Chain)) (Governor.initialize authority fee_recipient factory))
      by (unfold Governor.initialize; solve_keeps).
    pose proof (keeps_ok same_tokens _ _ _ _ _ Hm) as Htk. unfold same_tokens in Htk.
    rewrite Htk. destruct H0 as [H1 H2]. by constructor.
Qed.

End Calls.

(** ** Vaults *)

(** Computations that leave the set of vaults alone. *)
Section Vaults.
Context (c : Chain) (env : Env).
Abbreviation V := (fun d : Chain => ch_vaults d = ch_vaults c).

Lemma transfers_keep_vaults : TransferClosed env V.
Proof. by intros d tk from to amt d' (n & _ & ->)%chain_transfer HV. Qed.

Lemma withdrawals_keep_vaults d s amt d' :
  stream_withdraw d (call_auth env) (current_contract env) s amt = Some d' -> V d -> V d'.
Proof.
  intros H HV. cbn [stream_withdraw chain_streams] in H.
  destruct (addr_eqb s _ || _); [done|]. by apply fmap_Some in H as ([r n] & _ & ->).
Qed.

Lemma factory_calls_keep_vaults d f name d' :
  factory_call d f (current_contract env) name = Some d' -> V d -> V d'.
Proof.
  intros H HV. cbn [factory_call chain_factories] in H. unfold call_factory in H.
  destruct (ch_factories d !! f); [|by repeat case_match].
  repeat (case_match; try done); by injection H as <-.
Qed.

(** A vault after a call was there before, or was just deployed. *)
Lemma vault_there call c' v :
  chain_exec call env c = Some c' -> is_Some (ch_vaults c' !! v) ->
  is_Some (ch_vaults c !! v) \/
  (exists o tk m, call = NewVault v o tk m) /\ vacant v c = true.
Proof.
  intros H Hv. destruct call; cbn [chain_exec] in H.
  - apply fmap_Some in H as ([u n] & _ & ->). by left.
  - left. unfold call_factory in H. destruct (ch_factories c !! _) as [fw|]; [|done].
    destruct (fac_exec c0 env _); [|done..]. by injection H as <-.
  - left. unfold call_vault in H. destruct (ch_vaults c !! a) as [vw|] eqn:Ha; [|done].
    destruct (vault_exec c0 env _) as [u vw'| |] eqn:Hm; [|done..]. injection H as <-.
    cbn [ch_vaults] in Hv. rewrite lookup_insert in Hv. case_decide as Hd; [by subst; rewrite Ha|].
    pose proof (vault_exec_safe env V (HC := transfers_keep_vaults) withdrawals_keep_vaults c0) as Hsafe.
    pose proof (safe_ok env _ _ (Safe0 := Hsafe) _ _ _ Hm eq_refl) as HV. cbn beta in HV.
    by rewrite HV in Hv.
  - left. unfold call_governor in H. destruct (net_governors (ch_net c) !! _) as [gw|]; [|done].
    destruct (GovernorSystem.exec c0 env _) as [u gw'| |] eqn:Hm; [|done..]. injection H as <-.
    pose proof (governor_exec_safe env V (HC := transfers_keep_vaults) factory_calls_keep_vaults c0) as Hsafe.
    pose proof (safe_ok env _ _ (Safe0 := Hsafe) _ _ _ Hm eq_refl) as HV. cbn beta in HV.
    cbn [snd with_net ch_vaults] in Hv. by rewrite HV in Hv.
  - left. destruct (vacant a c); [|done]. by apply fmap_Some in H as (n & _ & ->).
  - left. destruct (vacant a c); [|done]. cbn [negb] in H. unfold call_factory in H.
    destruct (ch_factories _ !! _) as [fw|]; [|done].
    destruct (FactoryOps.initialize _ _ env _); [|done..]. by injection H as <-.
  - destruct (decide (a = v)) as [->|Hne].
    + destruct (vacant v c); [right|done]. eauto 6.
    + left. destruct (vacant a c); [|done]. cbn [negb] in H. unfold call_vault in H.
      cbn [ch_vaults] in H. rewrite lookup_insert_eq in H.
      destruct (VaultOps.initialize _ _ _ env _) as [u vw'| |] eqn:Hm; [|done..]. injection H as <-.
      assert (Hk : Keeps (same_tokens (T := Chain)) (VaultOps.initialize owner token max_limit))
        by (unfold VaultOps.initialize; solve_keeps).
      pose proof (keeps_ok same_tokens _ _ _ _ _ Hm) as Htk. unfold same_tokens in Htk.
      cbn [ch_vaults] in Hv. rewrite lookup_insert_ne in Hv by done. rewrite Htk in Hv.
      cbn in Hv. by rewrite lookup_insert_ne in Hv.
  - left. destruct (vacant a c); [|done]. cbn [negb] in H. unfold call_governor in H.
    destruct (net_governors _ !! _) as [gw|]; [|done].
    destruct (Governor.initialize _ _ _ env _) as [u gw'| |] eqn:Hm; [|done..]. injection H as <-.
    assert (Hk : Keeps (same_tokens (T := Chain)) (Governor.initialize authority fee_recipient factory))
      by (unfold Governor.initialize; solve_keeps).
    pose proof (keeps_ok same_tokens _ _ _ _ _ Hm) as Htk. unfold same_tokens in Htk.
    cbn [snd with_net ch_vaults] in Hv. by rewrite Htk in Hv.
Qed.

End Vaults.

(** No stream lives where a vault does. *)
Lemma vaults_apart t s c v :
  chain_reach t s c -> underived v -> is_Some (ch_vaults c !! v) -> net_streams (ch_net c) !! v = None.
Proof.
  intros Hr Hx. induction Hr as [t s l|t s c call env c' Hr IH Ht Hs Hu Hc Hself Hun Hty H|t s c l Hr IH Hl];
    intros Hv.
  - cbn in Hv. rewrite lookup_empty in Hv. by destruct Hv.
  - assert (Hfree : net_streams (ch_net c) !! v = None /\ forall args, call <> NewStream v args).
    { destruct (vault_there _ _ _ _ _ H Hv) as [Hv0|[(o & tk & m & ->) Hvac]].
      - split; [by apply IH|]. intros args ->. cbn [chain_exec] in H.
        destruct (vacant v _) eqn:Hvac; [|done]. apply vacant_vault in Hvac.
        rewrite Hvac in Hv0. by destruct Hv0.
      - split; [by apply vacant_stream in Hvac|done]. }
    destruct Hfree as [Hfree Hne].
    exact (un_free _ _ _ _ (call_untouched v (at_ledger env c) env Hx call c' (eq_sym Hc) Hne Hty Hfree H)).
  - by apply IH.
Qed.

(** Neither does a factory. *)
Lemma vaults_no_factory t s c v :
  chain_reach t s c -> is_Some (ch_vaults c !! v) -> ch_factories c !! v = None.
Proof.
  induction 1 as [t s l|t s c call env c' Hr IH Ht Hs Hu Hc Hself Hun Hty H|t s c l Hr IH Hl]; intros Hv.
  - done.
  - destruct (ch_factories c' !! v) as [fw'|] eqn:Hf'; [exfalso|done].
    rewrite <- Hc in Hself.
    destruct (call_sound env (at_ledger env c) ltac:(eapply sound_at; [by eapply reach_is_sound|done|done])
      eq_refl Hu Hself Hun call c' (eq_sym Hc) Hty H) as [_ HG].
    assert (Hown : own_factory call v \/ is_Some (ch_factories c !! v)).
    { destruct (decide (own_factory call v)) as [Ho|Ho]; [by left|right].
      destruct (gw_logs _ _ _ HG v fw' Ho Hf') as (fw & Hfw & _). by eexists. }
    destruct (vault_there _ _ _ _ _ H Hv) as [Hv0|[(o & tk & m & ->) Hvac]].
    + destruct Hown as [Ho|Ho]; [|rewrite IH in Ho by done; by destruct Ho].
      destruct call; try done; cbn in Ho; subst a; cbn [chain_exec] in H.
      * unfold call_factory in H. cbn [at_ledger ch_factories] in H. by rewrite IH in H.
      * destruct (vacant v _) eqn:Hvac; [|done]. apply vacant_vault in Hvac.
        cbn in Hvac, Hv0. rewrite Hvac in Hv0. by destruct Hv0.
    + apply vacant_factory in Hvac. cbn in Hvac. destruct Hown as [[]|Ho].
      rewrite Hvac in Ho. by destruct Ho.
  - by apply IH.
Qed.

(** ** Stakes and vault funds *)

(** C15 Stakes are covered on the chain. In every state the protocol can reach,
    whatever streams, factories, vaults and other governors did, every governor
    holds at least the stakes it has recorded, in every token. *)
Theorem stakes_covered_on_chain now seq c g gw tk b :
  chain_reach now seq c -> net_governors (ch_net c) !! g = Some gw ->
  tok_balance c tk g = Some b -> staked (rebase c gw) tk <= b.
Proof.
  intros Hr Hg Hb.
  destruct (so_governors _ _ _ _ (reach_is_sound _ _ _ Hr) g gw (fun x => x) Hg) as (s & _ & Hs).
  destruct (reachable_escrow _ _ _ Hs) as [_ HC]. exact (HC tk b Hb).
Qed.

(** C12 A vault of the chain loses tokens only by its own calls and its owner's
    authority. Whatever invocation goes through, if the vault's balance of some
    token goes down then it was a call of this vault: a withdrawal signed by
    the owner, or by the operator within the limit the owner granted, or a
    migration signed by the owner whose time lock had run out. *)
Theorem vaults_are_safe_on_chain now seq c call env c' v vw tk b b' :
  chain_reach now seq c -> current_contract env = callee call -> chain_typed call ->
  unsigned env c -> authorized env (callee call) = false ->
  chain_exec call env (at_ledger env c) = Some c' ->
  ch_vaults c !! v = Some vw -> underived v ->
  tok_balance c tk v = Some b -> tok_balance c' tk v = Some b' -> b' < b ->
  exists k, call = OnVault v k /\
    outflow_allowed env (rebase (at_ledger env c) vw) k (b - b').
Proof.
  intros Hr Hc Hty Hun Hself H Hv Hx Hb Hb' Hlt.
  assert (Hsv : is_Some (ch_vaults c !! v)) by by eexists.
  pose proof (vaults_apart _ _ _ _ Hr Hx Hsv) as Hns.
  assert (Hg : net_governors (ch_net c) !! v = None).
  { destruct (net_governors _ !! v) eqn:Hg; [|done].
    destruct (so_alone _ _ _ _ (reach_is_sound _ _ _ Hr) v) as [_ Hno]; [by eexists|].
    by rewrite Hv in Hno. }
  assert (Hvac : vacant v (at_ledger env c) = false).
  { unfold vacant. cbn [at_ledger ch_vaults]. rewrite Hv. apply andb_false_r. }
  destruct (decide (callee call = v)) as [Hcv|Hne].
  - destruct call; cbn [callee] in Hcv; subst a; cbn [chain_exec] in H;
      try (rewrite Hvac in H; done).
    + unfold call_stream in H. cbn [at_ledger ch_net] in H. by rewrite Hns in H.
    + unfold call_factory in H. cbn [at_ledger ch_factories] in H.
      by rewrite (vaults_no_factory _ _ _ _ Hr Hsv) in H.
    + exists c0. split; [done|]. unfold call_vault in H. cbn [at_ledger ch_vaults] in H.
      rewrite Hv in H. destruct (vault_exec c0 env _) as [u vw'| |] eqn:Hm; [|done..].
      injection H as <-. cbn [callee] in Hc, Hself. rewrite <- Hc in Hself, Hb, Hb'.
      exact (outflow_needs_authority c0 env _ u vw' tk b b' Hself Hm Hb Hb' Hlt).
    + unfold call_governor in H. cbn [at_ledger ch_net] in H. by rewrite Hg in H.
  - exfalso. assert (Hs : authorized env v = false) by by apply Hun.
    pose proof (call_untouched v (at_ledger env c) env Hx call c' (eq_sym Hc)
      ltac:(by intros args ->) Hty Hns H) as HU.
    assert (Ha : acts v env = false).
    { unfold acts, call_auth. rewrite Hs, orb_false_r. apply addr_eqb_false. congruence. }
    destruct (un_spared _ _ _ _ HU Ha tk b' Hb') as (b0 & Hb0 & Hle).
    assert (He : Some b = Some b0) by (rewrite <- Hb; exact Hb0). injection He as ->. lia.
Qed.
