(* ===== verification/ChainExample.v ===== *)
(** * The chain: a concrete protocol

    Governor, factory and vault are deployed on one ledger, Alice opens a
    stream to Bob through the factory, Bob collects it through the vault, and
    the governor halts the factory.  The theorems on the composition are
    exercised on these states. *)

From stdpp Require Import base numbers list option strings gmap.
From Stdlib Require Import ZArith Lia String.
From S2P Require Import Prelude Host Ttl Pause Frame Safe.
From S2P Require Import GovernorData GovernorStore GovernorOps GovernorSystem GovernorProposals.
From S2P Require Import VaultData VaultOps VaultSystem VaultFunds VaultProps.
From S2P Require Import FactoryData FactoryIndex FactoryOps FactorySystem.
From S2P Require Import FactoryRegistry FactoryReach FactoryProps FactoryOutside.
From S2P Require Import StreamData StreamState StreamOps StreamSystem Protocol.
From S2P Require Import Chain ChainSound ChainPay ChainHalt ChainRegistry ChainFunds.

#[local] Open Scope Z_scope.
#[local] Open Scope sf_scope.
#[local] Existing Instance fac_keys.

Definition alice : Address := Account 1.
Definition bob : Address := Account 2.
Definition admin : Address := Account 11.
Definition treasury : Address := Account 12.
Definition gov : Address := Contract 8.
Definition factory : Address := Contract 9.
(** No deployer derives this address. *)
Definition vault : Address := Contract 0.
Definition usdc : Address := Contract 100.

(** Signed by every account and by no contract. *)
Definition by_accounts (a : Address) : bool :=
  match a with Account _ => true | _ => false end.

Definition chain_env (t : Z) (call : chain_call) : Env := mkEnv t t (callee call) by_accounts.

Definition chain_begin : Chain :=
  mkChain 50 50
    (mkNet (<[(usdc, alice) := 1000000]> (<[(usdc, bob) := 5000]> (<[(usdc, admin) := 700]> ∅))) ∅ ∅)
    ∅ ∅.

Definition chain_after (call : chain_call) (t : Z) (c : Chain) : Chain :=
  default c (chain_exec call (chain_env t call) (at_ledger (chain_env t call) c)).

Definition chain_runs (call : chain_call) (t : Z) (c : Chain) : bool :=
  is_some (chain_exec call (chain_env t call) (at_ledger (chain_env t call) c)).

(** ** The scenario *)

Definition new_governor : chain_call := NewGovernor gov admin treasury factory.
Definition new_factory : chain_call := NewFactory factory 77 gov.
Definition new_vault : chain_call := NewVault vault bob usdc 1000000.
Definition open_call : chain_call :=
  OnFactory factory (FCreateStream alice bob usdc 72000 10 1000 8200 true None).
Definition stream0 : Address := contract_id factory 0.

Definition chain_governed : Chain := chain_after new_governor 100 chain_begin.
Definition chain_factory : Chain := chain_after new_factory 110 chain_governed.
Definition chain_vault : Chain := chain_after new_vault 120 chain_factory.
Definition chain_opened : Chain := chain_after open_call 900 chain_vault.

(** Bob pays into his vault and takes some of it out again; a proposal is
    staked with the governor. *)
Definition deposit_call : chain_call := OnVault vault (VaultSystem.Deposit bob 500).
Definition withdraw_call : chain_call := OnVault vault (VaultSystem.Withdraw bob alice 200).
Definition stake_call : chain_call := OnGovernor gov (GovernorSystem.SetProposalStakeConfig admin usdc 150).
Definition propose_call : chain_call := OnGovernor gov (GovernorSystem.Propose admin 86400).

Definition chain_paid_in : Chain := chain_after deposit_call 910 chain_opened.
Definition chain_paid_out : Chain := chain_after withdraw_call 920 chain_paid_in.
Definition chain_staked : Chain := chain_after stake_call 930 chain_opened.
Definition chain_proposed : Chain := chain_after propose_call 940 chain_staked.

(** ** Reachability *)

(** Where the contracts live. *)
Definition housed (c : Chain) : list Address :=
  (map_to_list (net_governors (ch_net c))).*1 ++ (map_to_list (net_streams (ch_net c))).*1 ++
  (map_to_list (ch_factories c)).*1 ++ (map_to_list (ch_vaults c)).*1.

Lemma lookup_listed {A} (m : gmap Address A) a :
  negb (is_some (m !! a)) = false -> a ∈ (map_to_list m).*1.
Proof.
  intros H. destruct (m !! a) as [x|] eqn:E; [|done].
  apply list_elem_of_fmap. exists (a, x). split; [done|by apply elem_of_map_to_list].
Qed.

Lemma vacant_housed a c : vacant a c = false -> a ∈ housed c.
Proof.
  unfold vacant, housed. rewrite !andb_false_iff, !elem_of_app.
  intros [[[H|H]|H]|H]; apply lookup_listed in H; tauto.
Qed.

Lemma unsigned_by_accounts t call c :
  forallb (fun a => negb (by_accounts a)) (housed c) = true -> unsigned (chain_env t call) c.
Proof.
  intros H a Ha. rewrite forallb_forall in H. apply vacant_housed, list_elem_of_In, H in Ha.
  by apply negb_true_iff in Ha.
Qed.

Lemma chain_reach_after t s c call t' :
  chain_reach t s c -> t <= t' -> s <= t' -> U64 t' -> chain_typed call ->
  by_accounts (callee call) = false ->
  forallb (fun a => negb (by_accounts a)) (housed c) = true ->
  chain_runs call t' c = true -> chain_reach t' t' (chain_after call t' c).
Proof.
  intros Hr Ht Hs Hu Hty Hself Hun Hx.
  apply (chain_step t s c call (chain_env t' call)); try done; [by apply unsigned_by_accounts|].
  unfold chain_runs, chain_after in *.
  by destruct (chain_exec call (chain_env t' call) _).
Qed.

#[local] Ltac runs := try done; vm_compute; reflexivity.

Lemma reach_governed : chain_reach 100 100 chain_governed.
Proof. apply (chain_reach_after 50 50); [apply chain_start|runs..]. Qed.

Lemma reach_factory : chain_reach 110 110 chain_factory.
Proof. apply (chain_reach_after 100 100); [exact reach_governed|runs..]. Qed.

Lemma reach_vault : chain_reach 120 120 chain_vault.
Proof. apply (chain_reach_after 110 110); [exact reach_factory|runs..]. Qed.

Lemma reach_opened : chain_reach 900 900 chain_opened.
Proof.
  apply (chain_reach_after 120 120); [exact reach_vault|done|done|done| |runs..].
  by split.
Qed.

Lemma reach_paid_in : chain_reach 910 910 chain_paid_in.
Proof.
  apply (chain_reach_after 900 900); [exact reach_opened|done|done|done| |runs..]. done.
Qed.

Lemma reach_proposed : chain_reach 940 940 chain_proposed.
Proof.
  apply (chain_reach_after 930 930); [|done|done|done| |runs..]; [|done].
  apply (chain_reach_after 900 900); [exact reach_opened|done|done|done| |runs..]. done.
Qed.

(** Bob collects through the vault; the governor gives the order to halt. *)
Definition collect_env : Env := chain_env 1100 new_vault.
Definition collect (c : Chain) : option (Z * Chain) :=
  call_vault (vault_batch_withdraw [stream0] bob) collect_env vault (at_ledger collect_env c).
Definition collected (c : Chain) : Chain := default c (snd <$> collect c).

Definition halt_env : Env := chain_env 1200 new_governor.
Definition halt (on : bool) (c : Chain) : option (unit * Chain) :=
  call_governor (order on admin) halt_env gov (at_ledger halt_env c).
Definition halted_chain (c : Chain) : Chain := default c (snd <$> halt true c).

Lemma default_ran {A} (r : option (A * Chain)) (c : Chain) (x : A) :
  fst <$> r = Some x -> r = Some (x, default c (snd <$> r)).
Proof. destruct r as [[y c']|]; [|done]. by intros [= ->]. Qed.

Lemma some_at {A} (o : option A) : is_some o = true -> exists x, o = Some x.
Proof. destruct o as [x|]; [by exists x|done]. Qed.

(** ** The theorems at these states *)

Lemma contracts_compose_witness :
  (exists sw t, net_streams (ch_net chain_opened) !! stream0 = Some sw /\ t <= 900 /\
     StreamSystem.reachable (fun _ => True) t sw) /\
  (exists fw, ch_factories chain_opened !! factory = Some fw /\ fac_reach factory false fw) /\
  (exists vw t, ch_vaults chain_opened !! vault = Some vw /\
     vault_reachable vault t (rebase chain_opened vw)) /\
  (exists gw s, net_governors (ch_net chain_opened) !! gov = Some gw /\
     GovernorSystem.reachable gov s (rebase chain_opened gw)).
Proof.
  destruct (contracts_compose 900 900 chain_opened reach_opened) as (H1 & H2 & H3 & H4).
  split_and!.
  - destruct (some_at (net_streams (ch_net chain_opened) !! stream0)) as [sw E]; [vm_compute; reflexivity|].
    destruct (H1 stream0 sw E) as (t & Ht & Hr). exists sw, t. split; [exact E|].
    split; [exact Ht|]. specialize (Hr (w_tokens sw)).
    replace (set_tokens (w_tokens sw) sw) with sw in Hr by (destruct sw; reflexivity). exact Hr.
  - destruct (some_at (ch_factories chain_opened !! factory)) as [fw E]; [vm_compute; reflexivity|].
    exists fw. split; [exact E|exact (H2 factory fw E)].
  - destruct (some_at (ch_vaults chain_opened !! vault)) as [vw E]; [vm_compute; reflexivity|].
    destruct (H3 vault vw E) as (t & _ & Hr). exists vw, t. split; [exact E|exact Hr].
  - destruct (some_at (net_governors (ch_net chain_opened) !! gov)) as [gw E]; [vm_compute; reflexivity|].
    destruct (H4 gov gw E) as (s & _ & Hr). exists gw, s. split; [exact E|exact Hr].
Defined.

Lemma collect_ran : collect chain_opened = Some (1000, collected chain_opened).
Proof. apply default_ran. vm_compute. reflexivity. Qed.

Lemma batch_withdraw_pays_what_streams_owe_witness :
  tok_balance (collected chain_opened) usdc bob = Some 6000 /\
  exists l, 1000 = offered l /\ 0 <= paid l <= 1000.
Proof.
  split; [vm_compute; reflexivity|].
  destruct (batch_withdraw_pays_what_streams_owe 900 900 chain_opened collect_env vault [stream0] bob
    1000 (collected chain_opened) reach_opened) as (_ & _ & l & _ & Ho & Hp & _);
    [done|done|done|done|exact collect_ran|].
  exists l. split; [exact Ho|exact Hp].
Defined.

Lemma halt_ran : halt true chain_opened = Some (tt, halted_chain chain_opened).
Proof. apply default_ran. vm_compute. reflexivity. Qed.

Lemma governor_halts_the_factory_witness :
  exists fw, ch_factories (halted_chain chain_opened) !! factory = Some fw /\
    halted (mkEnv 2000 2000 factory by_accounts) fw = true.
Proof.
  destruct (governor_halts_the_factory 900 900 chain_opened halt_env gov true admin
    (halted_chain chain_opened) reach_opened)
    as (_ & gw & f & fw & Hg & _ & Hf & Hfw & _ & Hh & _);
    [done|done|done|done|exact halt_ran|].
  assert (f = factory) as ->.
  { assert (E : match net_governors (ch_net chain_opened) !! gov with
      | Some gw0 => w_store gw0 GovKey.FactoryAddress = Some factory
      | None => False
      end) by (vm_compute; reflexivity).
    rewrite Hg in E. rewrite Hf in E. by injection E. }
  exists fw. split; [exact Hfw|]. rewrite Hh by done. reflexivity.
Defined.

Lemma registry_lists_live_streams_witness :
  holds_on 900 chain_opened (mkCreation alice bob stream0).
Proof.
  destruct (some_at (ch_factories chain_opened !! factory)) as [fw E]; [vm_compute; reflexivity|].
  assert (Hc : created <$> (ch_factories chain_opened !! factory) = Some [mkCreation alice bob stream0])
    by (vm_compute; reflexivity).
  rewrite E in Hc. cbn [fmap option_fmap option_map] in Hc. injection Hc as Hc.
  destruct (registry_lists_live_streams 900 900 chain_opened factory fw collect_env reach_opened E)
    as (_ & _ & H); [rewrite Hc; vm_compute; discriminate|].
  apply H. rewrite Hc. apply list_elem_of_singleton. reflexivity.
Defined.

Lemma underived_vault : underived vault.
Proof.
  intros f salt H. discriminate H.
Qed.

Lemma stakes_covered_on_chain_witness :
  exists gw, net_governors (ch_net chain_proposed) !! gov = Some gw /\
    staked (rebase chain_proposed gw) usdc = 150 /\ staked (rebase chain_proposed gw) usdc <= 150.
Proof.
  destruct (some_at (net_governors (ch_net chain_proposed) !! gov)) as [gw E]; [vm_compute; reflexivity|].
  exists gw. split; [exact E|]. split.
  - assert (Hs : match net_governors (ch_net chain_proposed) !! gov with
      | Some gw0 => staked (rebase chain_proposed gw0) usdc = 150
      | None => False
      end) by (vm_compute; reflexivity). rewrite E in Hs. exact Hs.
  - apply (stakes_covered_on_chain 940 940 chain_proposed gov gw usdc 150 reach_proposed E).
    vm_compute. reflexivity.
Defined.

Lemma vaults_are_safe_on_chain_witness :
  tok_balance chain_paid_out usdc vault = Some 300 /\
  exists vw, ch_vaults chain_paid_in !! vault = Some vw /\
    outflow_allowed (chain_env 920 withdraw_call)
      (rebase (at_ledger (chain_env 920 withdraw_call) chain_paid_in) vw) (VaultSystem.Withdraw bob alice 200) 200.
Proof.
  split; [vm_compute; reflexivity|].
  destruct (some_at (ch_vaults chain_paid_in !! vault)) as [vw E]; [vm_compute; reflexivity|].
  exists vw. split; [exact E|].
  destruct (vaults_are_safe_on_chain 910 910 chain_paid_in withdraw_call (chain_env 920 withdraw_call)
    chain_paid_out vault vw usdc 500 300 reach_paid_in) as (k & Hk & H);
    [reflexivity|done|apply unsigned_by_accounts; vm_compute; reflexivity|reflexivity
    |vm_compute; reflexivity|exact E|exact underived_vault|vm_compute; reflexivity..|].
  injection Hk as <-. exact H.
Defined.

(** ** Observed behaviour *)

(** The stream's escrow was debited by the token contract behind its back: the
    batch pays what is left and still answers what was owed. *)
Definition drained (c : Chain) : Chain :=
  with_net (with_ledger (<[(usdc, stream0) := 400]> (net_ledger (ch_net c))) (ch_net c)) c.

Theorem underfunded_batch_overstates :
  fst <$> collect (drained chain_opened) = Some 1000 /\
  tok_balance (collected (drained chain_opened)) usdc bob = Some 5400.
Proof. split; vm_compute; reflexivity. Qed.

(** The factory refuses to open a stream while halted, and resumes. *)
Definition open_later : chain_call :=
  OnFactory factory (FCreateStream alice bob usdc 72000 10 2000 9200 true None).

Example halted_then_resumed :
  chain_runs open_later 1300 chain_opened = true /\
  chain_runs open_later 1300 (halted_chain chain_opened) = false /\
  chain_runs open_later 1300 (default chain_opened (snd <$> halt false (halted_chain chain_opened))) = true.
Proof. repeat split; vm_compute; reflexivity. Qed.
